(* ===== verification/_CoqProject ===== *)
-Q . S2P
Prelude.v
Bitmap.v
Bytes.v
Errm.v
Pmm.v
Elf.v
Sync.v
Journal.v
JournalFs.v
Block.v
Thread.v
Memory.v
Kmem.v
Vmm.v
Kernel.v
Ramfs.v
Vfs.v
Syscall.v
Mcsfs.v
McsfsProofs.v
McsfsRefine.v
Machine.v
Serial.v
ElfLog.v
Lib.v
Drivers.v
Trap.v
Boot.v
Core.v
Run.v
