(* ===== verification/Prelude.v ===== *)
(** * MCSOS in Rocq

    MCSOS is a small x86-64 teaching kernel in C.  This library translates its
    core into Rocq definitions and proves what makes them correct.

    ** The program and the files

    The kernel consists of memory management, threads and locks, a loader for
    user programs, a block layer and file systems, system calls, and drivers.
    Every part below is one file here (source paths are those of the
    repository).

    - physical memory, [src/pmm.c]: [Pmm.v], over the bitmaps of [Bitmap.v].
      [pmm_state] is the C struct; allocation, release, reservation and
      initialisation from a boot map are the C functions.
    - page tables, [src/vmm.c]: [Vmm.v].  The frame functions the caller
      supplies are fields of [vmm_space]; what the code needs of them is the
      class [FrameSource].
    - the kernel heap, [kernel/mm/kmem.c]: [Kmem.v], over the byte-addressed
      memory of [Memory.v]; block headers are read and written in that memory.
    - bring-up of the three, [src/kernel.c]: [Kernel.v].  It gives the page
      tables their frames from the physical memory manager (an instance of
      [FrameSource]) and runs the initialisation code.
    - threads and the scheduler, [kernel/mcsos_thread.c] and
      [arch/x86_64/context_switch.S]: [Thread.v].  Thread objects live in a
      store of addresses, with the ready queue as links between them.
    - locks, [kernel/sync/*.c]: [Sync.v], with one module for the lock-order
      checker, the spinlock and the mutex.
    - the ELF loader, [kernel/user/m11_elf_loader.c] and its smoke test
      [m11_kernel_integration.c]: [Elf.v], over the byte buffers of [Bytes.v].
    - the block layer, [kernel/block/block.c] and [ramblk.c]: [Block.v].  The
      cache is verified against the class [BlockDriver], which the RAM driver
      implements.
    - the journalled file system, [kernel/fs/mcsfs1j/m16_mcsfs_journal.c]:
      [Journal.v] (device, journal, recovery) and [JournalFs.v] (format,
      mount, files, checker), in the error-code monad of [Errm.v].
    - the RAM file system and file descriptors, [kernel/vfs/ramfs.c] and
      [fd.c]: [Ramfs.v] and [Vfs.v].
    - system calls, [kernel/syscall/syscall.c]: [Syscall.v].
    - the file system MCSFS1, [fs/mcsfs1/mcsfs1.c]: [Mcsfs.v] (the
      operations), [McsfsProofs.v] (its on-disk invariant) and
      [McsfsRefine.v] (the file system as a set of named files).
    - ports and processor, [include/io.h]: [Machine.v].  Hardware is a
      parameter; the class [Board] states the documented behaviour of the
      serial port, the interrupt controllers and the timer as a state machine
      on register writes, and a simulated board is an instance.
    - the serial line and the log, [src/serial.c], [kernel/core/serial.c] and
      [kernel/core/log.c]: [Serial.v]; the output of the loader's smoke test:
      [ElfLog.v].
    - the freestanding [memset], [memcpy], [memmove], [kernel/lib/memory.c],
      and the copies of their loops in the file systems and the block layer:
      [Lib.v], which also shows that these loops are the list operations used
      in the models of those components.
    - interrupt controllers, timer, descriptor table and panic, [src/pic.c],
      [src/pit.c], [src/idt.c], [src/panic.c]: [Drivers.v]; the trap handler,
      the [int 0x80] entry and the kernel's system-call callbacks,
      [src/idt.c], [kernel/syscall/syscall_entry.S] and [src/kernel.c]:
      [Trap.v].
    - [kmain] of [src/kernel.c], which calls all of the above, and the demo
      threads: [Boot.v]; the kernel after that, thread rounds and interrupts
      in any order: [Run.v].
    - the earlier kernel that only handles exceptions, [kernel/core/trap.c],
      [panic.c], [kmain.c] and [kernel/arch/x86_64/idt.c]: [Core.v].

    ** Conventions

    A [w]-bit unsigned integer is a [Z] with its wrap-around written out
    ([u64], [u32], ...); pointers are integers or [option], with [0] or [None]
    for [NULL].  A C function is a Rocq function that takes and returns the
    state it works on.  [None] at the outside is undefined behaviour or a loop
    that ran out of fuel, so every theorem that concludes [Some _] also says
    that no access leaves its object and that every loop ends.  Loops whose
    bound the code states recurse on that bound; the heap walks recurse on the
    number of headers that fit into the heap ([Kmem.heap_fuel]), the
    scheduler's validation on [runnable_count + 2], both shown to suffice;
    [mcsos_sched_ready_count] has no bound in the code and takes its fuel as
    an argument.  Error codes are values.  Driver code runs in the monad [cm]
    of [Machine.v], in which halting for good, a busy wait that ran out of
    fuel and undefined behaviour are outcomes of their own.  [fuel] bounds the
    wait for the serial transmitter, which [src/serial.c] does not bound; it
    is enough when it exceeds [patience], the number of polls after which the
    board promises a free transmitter.

    ** What is shown

    Each component has an invariant that all its operations keep and theorems
    about what the operations do on every path.  Refinement: the frame
    allocator is a set of free frames, the page tables a partial map, the
    scheduler a FIFO queue, the block cache an array of blocks per device,
    the descriptor calls of the RAM file system, the file system calls and
    MCSFS1 are maps from names to contents.
    Safety under crashes: a journal transaction is atomic under a power loss
    at any block write, and the file system built on it stays consistent.
    Safety under interleaving: both locks exclude other holders, threads that
    obey the lock-order checker never deadlock, no stale translation survives
    an unmap.
    Memory safety: heap allocations never overlap, no loaded segment leaves
    the user region or is writable and executable, system calls write user
    memory only inside a checked buffer.  Drivers: numbers go over the serial
    line unchanged, the processor decodes the gates that were installed, every
    vector of the trap handlers is answered as it should be, and [kmain] of
    both kernels runs to its end, with all components in the states they
    promise and the two demo threads taking turns for ever.  Where the code does not do
    what it should (a full cache drops writes, a queued thread can be queued
    again, a damaged journal is half applied, the root page table is used
    uncleared, a page rounding wraps at the end of the address space, a seek
    overflows, an unterminated path is read past user memory), a theorem
    states what it does.

    ** Not modelled

    Assembly other than the context switch and the [int 0x80] entry
    ([src/boot.S], [src/interrupts.S], [kernel/arch/x86_64/isr.S]): entry code
    and register saving.  Interrupts
    that arrive while [kmain] runs or in the middle of a round of a thread
    (what each of them does is in [Trap.v]; [Run.v] takes them between rounds).
    The branches under the test switches of the two [kmain]s, and
    [kernel/vfs/sys_vfs.c], which sets a variable for a host test.  The weaker
    C11 memory orders of the locks (the interleavings here are sequentially
    consistent).  [NULL] scheduler pointers.  The host test programs. *)

From stdpp Require Import base gmap list numbers option strings.
From Stdlib Require Import ZArith Lia.

Open Scope Z_scope.

(** ** Automation *)

(** Linear arithmetic with [/] and [mod] by constants. *)
Ltac zdm := Z.div_mod_to_equations; lia.

(** Case analysis on the boolean comparisons of the goal. *)
Ltac zcases :=
  repeat match goal with
  | |- context [Z.ltb ?a ?b] => destruct (Z.ltb_spec a b)
  | |- context [Z.leb ?a ?b] => destruct (Z.leb_spec a b)
  | |- context [Z.eqb ?a ?b] => destruct (Z.eqb_spec a b)
  end; simpl.

(** ** Machine integers *)

(** A [w]-bit unsigned value is a [Z]; C's conversions and arithmetic
    truncate modulo [2^w]. *)
Definition wrap (w x : Z) : Z := x mod 2 ^ w.

Abbreviation u8 := (wrap 8).
Abbreviation u16 := (wrap 16).
Abbreviation u32 := (wrap 32).
Abbreviation u64 := (wrap 64).

(** The two's complement reading of the low [w] bits. *)
Definition swrap (w x : Z) : Z :=
  let y := wrap w x in if y <? 2 ^ (w - 1) then y else y - 2 ^ w.

Abbreviation s32 := (swrap 32).
Abbreviation s64 := (swrap 64).

Definition in_u (w x : Z) : Prop := 0 <= x < 2 ^ w.

Lemma wrap_small w x : in_u w x -> wrap w x = x.
Proof. intros H. apply Z.mod_small, H. Qed.

Lemma wrap_range w x : 0 <= w -> in_u w (wrap w x).
Proof. intros H. apply Z.mod_pos_bound, Z.pow_pos_nonneg; lia. Qed.

Lemma wrap_testbit w x i :
  0 <= w -> Z.testbit (wrap w x) i = bool_decide (i < w) && Z.testbit x i.
Proof.
  intros Hw. unfold wrap. case_bool_decide.
  - destruct (decide (0 <= i)).
    + by rewrite Z.mod_pow2_bits_low by lia.
    + by rewrite !Z.testbit_neg_r by lia.
  - by rewrite Z.mod_pow2_bits_high by lia.
Qed.

Lemma testbit_above w x i : in_u w x -> w <= i -> Z.testbit x i = false.
Proof. intros Hx Hi. rewrite <- (wrap_small w x Hx). unfold wrap. apply Z.mod_pow2_bits_high. unfold in_u in Hx.
  destruct (decide (0 <= w)); [lia|]. rewrite Z.pow_neg_r in Hx by lia. lia.
Qed.

Lemma wrap_add_idemp_l w a b : wrap w (wrap w a + b) = wrap w (a + b).
Proof. unfold wrap. apply Zplus_mod_idemp_l. Qed.

(** A mask of one bit tests that bit. *)
Lemma land_pow2_zero v k : 0 <= k -> (Z.land v (2 ^ k) =? 0) = negb (Z.testbit v k).
Proof.
  intros Hk. destruct (Z.eqb_spec (Z.land v (2 ^ k)) 0) as [E|E].
  - assert (H : Z.testbit (Z.land v (2 ^ k)) k = false) by (rewrite E; apply Z.bits_0).
    rewrite Z.land_spec, Z.pow2_bits_true, andb_true_r in H by lia. by rewrite H.
  - destruct (Z.testbit v k) eqn:Hv; [done|]. exfalso. apply E. apply Z.bits_inj'. intros j Hj.
    rewrite Z.land_spec, Z.bits_0, Z.pow2_bits_eqb by lia.
    destruct (Z.eqb_spec k j) as [->|]; [by rewrite Hv|apply andb_false_r].
Qed.

(** Clearing the low [k] bits of a [w]-bit value with [v & ~(2^k - 1)]. *)
Lemma land_not_ones w k v :
  0 <= k <= w -> in_u w v ->
  Z.land v (wrap w (Z.lnot (wrap w (2 ^ k - 1)))) = v / 2 ^ k * 2 ^ k.
Proof.
  intros Hk Hv.
  assert (Hones : wrap w (2 ^ k - 1) = Z.ones k).
  { rewrite Z.ones_equiv, wrap_small; [lia|]. split; [pose proof (Z.pow_pos_nonneg 2 k); lia|].
    pose proof (Z.pow_le_mono_r 2 k w). lia. }
  rewrite Hones, <- Z.shiftl_mul_pow2, <- Z.shiftr_div_pow2 by lia.
  apply Z.bits_inj'. intros i Hi.
  rewrite Z.land_spec, wrap_testbit, Z.lnot_spec by lia.
  rewrite Z.shiftl_spec by lia. destruct (decide (i < k)).
  - rewrite Z.ones_spec_low by lia. rewrite (Z.testbit_neg_r _ (i - k)) by lia.
    by rewrite andb_false_r, andb_false_r.
  - rewrite Z.ones_spec_high, Z.shiftr_spec by lia. replace (i - k + k) with i by lia.
    case_bool_decide; [by rewrite andb_true_r|].
    replace (Z.testbit v i) with false; [done|].
    symmetry. rewrite <- (wrap_small w v) by done. rewrite wrap_testbit by lia.
    by rewrite bool_decide_false.
Qed.

(** Testing alignment with [v & (2^k - 1)]. *)
Lemma land_ones_mod k v : 0 <= k -> Z.land v (2 ^ k - 1) = v mod 2 ^ k.
Proof. intros. rewrite <- Z.land_ones by lia. f_equal. rewrite Z.ones_equiv. lia. Qed.

(** ** Arrays

    A C array is a list indexed by [Z]; a read or write outside it is
    undefined behaviour, which is [None]. *)
Definition arr_get {A} (l : list A) (i : Z) : option A :=
  if i <? 0 then None else l !! Z.to_nat i.

Definition arr_set {A} (l : list A) (i : Z) (x : A) : option (list A) :=
  if (0 <=? i) && (i <? Z.of_nat (length l))
  then Some (<[Z.to_nat i := x]> l) else None.

Lemma arr_get_Some_lt {A} (l : list A) i x :
  arr_get l i = Some x -> 0 <= i < Z.of_nat (length l).
Proof.
  unfold arr_get. destruct (Z.ltb_spec i 0); [done|].
  intros ?%lookup_lt_Some. lia.
Qed.

Lemma arr_get_is_Some {A} (l : list A) i :
  0 <= i < Z.of_nat (length l) -> exists x, arr_get l i = Some x.
Proof.
  intros. unfold arr_get. destruct (Z.ltb_spec i 0); [lia|].
  destruct (lookup_lt_is_Some_2 l (Z.to_nat i)) as [x Hx]; [lia|eauto].
Qed.

Lemma arr_set_Some {A} (l : list A) i x :
  0 <= i < Z.of_nat (length l) -> arr_set l i x = Some (<[Z.to_nat i := x]> l).
Proof.
  intros. unfold arr_set.
  destruct (Z.leb_spec 0 i), (Z.ltb_spec i (Z.of_nat (length l))); simpl; try lia; done.
Qed.

Lemma arr_set_inv {A} (l l' : list A) i x :
  arr_set l i x = Some l' ->
  0 <= i < Z.of_nat (length l) /\ l' = <[Z.to_nat i := x]> l.
Proof.
  unfold arr_set.
  destruct (Z.leb_spec 0 i), (Z.ltb_spec i (Z.of_nat (length l))); simpl; try done.
  intros [= <-]. split; [lia|done].
Qed.

Lemma arr_get_insert {A} (l : list A) i j x :
  0 <= i < Z.of_nat (length l) ->
  arr_get (<[Z.to_nat i := x]> l) j = if decide (i = j) then Some x else arr_get l j.
Proof.
  intros. unfold arr_get. destruct (Z.ltb_spec j 0).
  - case_decide; [lia|done].
  - case_decide; subst.
    + apply list_lookup_insert_eq. lia.
    + apply list_lookup_insert_ne. lia.
Qed.

(** ** Loops

    [for (i = i0; i < stop; i += step) body] at width [w].  The body returns
    the next loop state or leaves the function with a result.  The index is
    advanced at its machine width; running out of fuel is [None], so a
    theorem whose conclusion is [Some] is also a termination theorem. *)
Inductive ctl (S R : Type) : Type :=
| Cont (s : S)
| Ret (r : R).
Arguments Cont {S R} s.
Arguments Ret {S R} r.

Fixpoint for_loop {S R} (fuel : nat) (w step i stop : Z)
    (body : Z -> S -> option (ctl S R)) (s : S) : option (ctl S R) :=
  if i <? stop then
    match fuel with
    | O => None
    | S f =>
        c ← body i s;
        match c with
        | Cont s' => for_loop f w step (wrap w (i + step)) stop body s'
        | Ret r => Some (Ret r)
        end
    end
  else Some (Cont s).

(** The invariant rule: total correctness of a [for] loop. *)
Lemma for_loop_inv {S R} (P : Z -> S -> Prop) (Q : R -> Prop)
    fuel w step stop body i (s : S) :
  0 < step -> 0 <= w -> 0 <= i -> stop + step <= 2 ^ w ->
  stop - i <= Z.of_nat fuel * step ->
  (forall j s, i <= j < stop -> P j s ->
     exists c, body j s = Some c /\
       match c with Cont s' => P (j + step) s' | Ret r => Q r end) ->
  P i s ->
  exists c, for_loop fuel w step i stop body s = Some c /\
    match c with
    | Cont s' => exists j, stop <= j /\ i <= j /\ (j = i \/ j < stop + step) /\ P j s'
    | Ret r => Q r
    end.
Proof.
  revert i s. induction fuel as [|fuel IH]; intros i s Hs Hw Hi Hb Hf Hbody HP; simpl.
  - destruct (Z.ltb_spec i stop); [lia|].
    exists (Cont s). split; [done|]. exists i. repeat split; try lia; done.
  - destruct (Z.ltb_spec i stop).
    + destruct (Hbody i s) as (c & Hc & Hpost); [lia|done|]. rewrite Hc. simpl.
      destruct c as [s'|r]; [|eauto].
      rewrite wrap_small by (unfold in_u; lia).
      destruct (IH (i + step) s') as (c & Hloop & Hc'); try lia; try done.
      { intros. apply Hbody; [lia|done]. }
      exists c. split; [done|]. destruct c; [|done].
      destruct Hc' as (j & ? & ? & ? & ?). exists j. repeat split; try lia; done.
    + exists (Cont s). split; [done|]. exists i. repeat split; try lia; done.
Qed.

(** The same rule for the common [i++] loop that starts below its bound. *)
Lemma for_loop_inv1 {S R} (P : Z -> S -> Prop) (Q : R -> Prop)
    fuel w stop body i (s : S) :
  0 <= w -> 0 <= i <= stop -> stop < 2 ^ w -> stop - i <= Z.of_nat fuel ->
  (forall j s, i <= j < stop -> P j s ->
     exists c, body j s = Some c /\
       match c with Cont s' => P (j + 1) s' | Ret r => Q r end) ->
  P i s ->
  exists c, for_loop fuel w 1 i stop body s = Some c /\
    match c with Cont s' => P stop s' | Ret r => Q r end.
Proof.
  intros. destruct (for_loop_inv P Q fuel w 1 stop body i s) as (c & ? & Hc);
    try lia; try done.
  exists c. split; [done|]. destruct c; [|done].
  destruct Hc as (j & ? & ? & ? & HP). by replace stop with j by lia.
Qed.

(** A [for] loop with no early exit. *)
Definition for_each {S} (fuel : nat) (w step i stop : Z)
    (body : Z -> S -> option S) (s : S) : option S :=
  match for_loop (R := Empty_set) fuel w step i stop
          (fun j s => s' ← body j s; Some (Cont s')) s with
  | Some (Cont s') => Some s'
  | Some (Ret r) => match r with end
  | None => None
  end.

Lemma for_each_inv {S} (P : Z -> S -> Prop) fuel w step stop body i (s : S) :
  0 < step -> 0 <= w -> 0 <= i -> stop + step <= 2 ^ w ->
  stop - i <= Z.of_nat fuel * step ->
  (forall j s, i <= j < stop -> P j s ->
     exists s', body j s = Some s' /\ P (j + step) s') ->
  P i s ->
  exists s' j, for_each fuel w step i stop body s = Some s' /\
    stop <= j /\ i <= j /\ (j = i \/ j < stop + step) /\ P j s'.
Proof.
  intros ????? Hbody HP.
  destruct (for_loop_inv (R := Empty_set) P (fun _ => False) fuel w step stop
    (fun j s => s' ← body j s; Some (Cont s')) i s) as (c & Hc & Hpost); try done.
  { intros j s1 Hj HP1. destruct (Hbody j s1) as (s' & Hs' & HP'); [done|done|].
    exists (Cont s'). by rewrite Hs'. }
  destruct c as [s'|[]]. destruct Hpost as (j & Hj). exists s', j.
  unfold for_each. by rewrite Hc.
Qed.

Lemma for_each_inv1 {S} (P : Z -> S -> Prop) fuel w stop body i (s : S) :
  0 <= w -> 0 <= i <= stop -> stop < 2 ^ w -> stop - i <= Z.of_nat fuel ->
  (forall j s, i <= j < stop -> P j s ->
     exists s', body j s = Some s' /\ P (j + 1) s') ->
  P i s ->
  exists s', for_each fuel w 1 i stop body s = Some s' /\ P stop s'.
Proof.
  intros ???? Hbody HP.
  destruct (for_each_inv P fuel w 1 stop body i s) as (s' & j & ? & ? & ? & ? & HPj);
    try lia; try done.
  exists s'. split; [done|]. by replace stop with j by lia.
Qed.

(** A loop that visits an array in order is a fold over the list. *)
Fixpoint fold_opt {A S} (g : A -> S -> option S) (l : list A) (s : S) : option S :=
  match l with
  | [] => Some s
  | x :: l => s' ← g x s; fold_opt g l s'
  end.

Lemma for_each_list_aux {A S} (g : A -> S -> option S) w (l1 l2 : list A) s :
  0 <= w -> Z.of_nat (length (l1 ++ l2)) < 2 ^ w ->
  for_loop (R := Empty_set) (length l2) w 1 (Z.of_nat (length l1))
    (Z.of_nat (length (l1 ++ l2)))
    (fun i s => s' ← (x ← arr_get (l1 ++ l2) i; g x s); Some (Cont s')) s =
  s' ← fold_opt g l2 s; Some (Cont s').
Proof.
  intros Hw. revert l1 s. induction l2 as [|x l2 IH]; intros l1 s Hlen; simpl.
  - rewrite length_app. simpl. destruct (Z.ltb_spec (Z.of_nat (length l1))
      (Z.of_nat (length l1 + 0))); [lia|done].
  - rewrite length_app in *. simpl in *.
    destruct (Z.ltb_spec (Z.of_nat (length l1)) (Z.of_nat (length l1 + Datatypes.S (length l2)))); [|lia].
    assert (Hget : arr_get (l1 ++ x :: l2) (Z.of_nat (length l1)) = Some x).
    { unfold arr_get. destruct (Z.ltb_spec (Z.of_nat (length l1)) 0); [lia|].
      rewrite Nat2Z.id. by apply list_lookup_middle. }
    rewrite Hget. simpl. destruct (g x s) as [s1|]; [|done]. simpl.
    rewrite wrap_small by (unfold in_u; lia).
    specialize (IH (l1 ++ [x]) s1). rewrite <- app_assoc in IH. simpl in IH.
    rewrite !length_app in IH. simpl in IH. rewrite <- IH by lia.
    f_equal; lia.
Qed.

Lemma for_each_list {A S} (g : A -> S -> option S) w (l : list A) s :
  0 <= w -> Z.of_nat (length l) < 2 ^ w ->
  for_each (length l) w 1 0 (Z.of_nat (length l)) (fun i s => x ← arr_get l i; g x s) s =
  fold_opt g l s.
Proof.
  intros Hw Hl. unfold for_each. pose proof (for_each_list_aux g w [] l s Hw Hl) as H.
  simpl in H. change (Z.of_nat 0) with 0 in H. rewrite H. by destruct (fold_opt g l s).
Qed.

(** Updating one present entry of a list. *)
Lemma lookup_insert_at {A} (l : list A) i j x y :
  l !! i = Some y -> (<[i := x]> l : list A) !! j = if decide (i = j) then Some x else l !! j.
Proof.
  intros Hi. pose proof (lookup_lt_Some _ _ _ Hi). case_decide; subst.
  - by apply list_lookup_insert_eq.
  - by apply list_lookup_insert_ne.
Qed.
