(* ===== verification/Bitmap.v ===== *)
(** * Bitmaps

    Byte-array bitmaps as the kernel uses them: [src/pmm.c] keeps one bit per
    physical frame, [fs/mcsfs1/mcsfs1.c] and [kernel/fs/mcsfs1j] keep one bit
    per inode and per block.  This file holds the byte-level expressions the
    three share, a reference reading of a bitmap ([bm_test]) and the lemmas
    that connect the two. *)
From S2P Require Import Prelude.
From stdpp Require Import base list numbers option.
From Stdlib Require Import ZArith Lia.

Open Scope Z_scope.

(** The byte expressions [(uint8_t)(b | (uint8_t)(1u << k))],
    [(uint8_t)(b & (uint8_t)~(uint8_t)(1u << k))] and
    [(b & (uint8_t)(1u << k)) != 0u]. *)
Definition byte_set (b k : Z) : Z := u8 (Z.lor b (u8 (Z.shiftl 1 k))).
Definition byte_clear (b k : Z) : Z :=
  u8 (Z.land b (u8 (Z.lnot (u8 (Z.shiftl 1 k))))).
Definition byte_test (b k : Z) : bool := negb (Z.land b (u8 (Z.shiftl 1 k)) =? 0).

(** Reference reading: bit [i] of the bitmap, [false] beyond its end. *)
Definition bm_test (bm : list Z) (i : Z) : bool :=
  match arr_get bm (i / 8) with
  | Some b => Z.testbit b (i mod 8)
  | None => false
  end.

Definition bytes_ok (bm : list Z) : Prop := Forall (in_u 8) bm.

Lemma bytes_ok_get (bm : list Z) i b : bytes_ok bm -> arr_get bm i = Some b -> in_u 8 b.
Proof.
  unfold arr_get, bytes_ok. intros Hok. destruct (i <? 0); [done|].
  intros Hb. by eapply Forall_lookup_1 in Hok.
Qed.

Lemma bytes_ok_insert (bm : list Z) n b : bytes_ok bm -> in_u 8 b -> bytes_ok (<[n := b]> bm).
Proof. intros. by apply Forall_insert. Qed.

Lemma u8_in_u8 x : in_u 8 (u8 x).
Proof. apply wrap_range. lia. Qed.

Lemma shift_one_testbit k j : 0 <= k < 8 -> 0 <= j ->
  Z.testbit (u8 (Z.shiftl 1 k)) j = bool_decide (j = k).
Proof.
  intros Hk Hj. rewrite wrap_testbit by lia.
  rewrite Z.shiftl_1_l, Z.pow2_bits_eqb by lia.
  destruct (Z.eqb_spec k j); repeat case_bool_decide; simpl; try lia; done.
Qed.

Lemma byte_test_testbit b k : 0 <= k < 8 -> byte_test b k = Z.testbit b k.
Proof.
  intros Hk. unfold byte_test. destruct (Z.eqb_spec (Z.land b (u8 (Z.shiftl 1 k))) 0) as [E|E].
  - assert (H : Z.testbit (Z.land b (u8 (Z.shiftl 1 k))) k = false)
      by (rewrite E; apply Z.bits_0).
    rewrite Z.land_spec, shift_one_testbit in H by lia.
    rewrite bool_decide_true, andb_true_r in H by done. by rewrite H.
  - simpl. destruct (Z.testbit b k) eqn:Hb; [done|].
    exfalso. apply E. apply Z.bits_inj'. intros j Hj.
    rewrite Z.land_spec, shift_one_testbit, Z.bits_0 by lia.
    case_bool_decide; subst; [by rewrite Hb|apply andb_false_r].
Qed.

Lemma byte_set_testbit b k j : 0 <= k < 8 -> 0 <= j < 8 ->
  Z.testbit (byte_set b k) j = bool_decide (j = k) || Z.testbit b j.
Proof.
  intros Hk Hj. unfold byte_set.
  rewrite wrap_testbit, bool_decide_true, Z.lor_spec, shift_one_testbit by lia.
  apply orb_comm.
Qed.

Lemma byte_clear_testbit b k j : 0 <= k < 8 -> 0 <= j < 8 ->
  Z.testbit (byte_clear b k) j = negb (bool_decide (j = k)) && Z.testbit b j.
Proof.
  intros Hk Hj. unfold byte_clear.
  rewrite wrap_testbit, bool_decide_true, Z.land_spec by lia.
  rewrite wrap_testbit, bool_decide_true, Z.lnot_spec, shift_one_testbit by lia.
  simpl. apply andb_comm.
Qed.

(** Index arithmetic: [index >> 3] and [index & 7] are [index / 8], [index % 8]. *)
Lemma shiftr_3_div i : Z.shiftr i 3 = i / 8.
Proof. by rewrite Z.shiftr_div_pow2 by lia. Qed.

Lemma land_7_mod i : Z.land i 7 = i mod 8.
Proof. change 7 with (Z.ones 3). by rewrite Z.land_ones by lia. Qed.

Lemma div8_mod8_inj i j : i / 8 = j / 8 -> i mod 8 = j mod 8 -> i = j.
Proof. intros. rewrite (Z.div_mod i 8), (Z.div_mod j 8) by lia. congruence. Qed.

Lemma bm_get_is_Some (bm : list Z) i :
  0 <= i < 8 * Z.of_nat (length bm) -> exists b, arr_get bm (i / 8) = Some b.
Proof. intros. apply arr_get_is_Some. split; [apply Z.div_pos|apply Z.div_lt_upper_bound]; lia. Qed.

(** Writing one byte of a bitmap changes exactly the bits of that byte. *)
Lemma bm_test_insert (bm : list Z) i b' j :
  0 <= i < 8 * Z.of_nat (length bm) -> 0 <= j ->
  bm_test (<[Z.to_nat (i / 8) := b']> bm) j =
    if decide (i / 8 = j / 8) then Z.testbit b' (j mod 8) else bm_test bm j.
Proof.
  intros Hi Hj. unfold bm_test. rewrite arr_get_insert; [by case_decide|].
  split; [apply Z.div_pos|apply Z.div_lt_upper_bound]; lia.
Qed.

Lemma bm_test_set (bm : list Z) i b j :
  arr_get bm (i / 8) = Some b -> 0 <= i -> 0 <= j ->
  bm_test (<[Z.to_nat (i / 8) := byte_set b (i mod 8)]> bm) j =
    bool_decide (i = j) || bm_test bm j.
Proof.
  intros Hb Hi Hj. pose proof (arr_get_Some_lt _ _ _ Hb).
  rewrite bm_test_insert by zdm.
  pose proof (Z.mod_pos_bound i 8). pose proof (Z.mod_pos_bound j 8).
  case_decide as E.
  - rewrite byte_set_testbit by lia. unfold bm_test. rewrite <- E, Hb. f_equal.
    apply bool_decide_ext. split; [|by intros ->].
    intros. by apply div8_mod8_inj.
  - rewrite (bool_decide_false (i = j)); [done|congruence].
Qed.

Lemma bm_test_clear (bm : list Z) i b j :
  arr_get bm (i / 8) = Some b -> 0 <= i -> 0 <= j ->
  bm_test (<[Z.to_nat (i / 8) := byte_clear b (i mod 8)]> bm) j =
    negb (bool_decide (i = j)) && bm_test bm j.
Proof.
  intros Hb Hi Hj. pose proof (arr_get_Some_lt _ _ _ Hb).
  rewrite bm_test_insert by zdm.
  pose proof (Z.mod_pos_bound i 8). pose proof (Z.mod_pos_bound j 8).
  case_decide as E.
  - rewrite byte_clear_testbit by lia. unfold bm_test. rewrite <- E, Hb. f_equal. f_equal.
    apply bool_decide_ext. split; [|by intros ->].
    intros. by apply div8_mod8_inj.
  - rewrite (bool_decide_false (i = j)); [done|congruence].
Qed.
