(* ===== verification/Bytes.v ===== *)
(** * Byte buffers and little-endian fields

    A C struct laid over a byte buffer is read and written field by field at
    fixed offsets.  [ld n buf off] is the [n]-byte little-endian load, [st] the
    store; an access that leaves the buffer is [None].  [slice] and [splice]
    are the [memcpy] in each direction.  Shared by the ELF loader and the two
    on-disk file systems. *)
From S2P Require Import Prelude Bitmap.
From stdpp Require Import base list numbers option.
From Stdlib Require Import ZArith Lia.

Open Scope Z_scope.

Fixpoint le_value (bs : list Z) : Z :=
  match bs with
  | [] => 0
  | b :: bs => b + 256 * le_value bs
  end.

Fixpoint le_bytes (n : nat) (v : Z) : list Z :=
  match n with
  | O => []
  | S n => v mod 256 :: le_bytes n (v / 256)
  end.

Definition in_buf (buf : list Z) (off len : Z) : bool :=
  (0 <=? off) && (0 <=? len) && (off + len <=? Z.of_nat (length buf)).

Definition slice (buf : list Z) (off len : Z) : option (list Z) :=
  if in_buf buf off len then Some (take (Z.to_nat len) (drop (Z.to_nat off) buf)) else None.

Definition splice (buf : list Z) (off : Z) (bs : list Z) : option (list Z) :=
  if in_buf buf off (Z.of_nat (length bs))
  then Some (take (Z.to_nat off) buf ++ bs ++ drop (Z.to_nat off + length bs) buf) else None.

Definition ld (n : nat) (buf : list Z) (off : Z) : option Z :=
  bs ← slice buf off (Z.of_nat n); Some (le_value bs).

Definition st (n : nat) (buf : list Z) (off v : Z) : option (list Z) :=
  splice buf off (le_bytes n v).

(** ** Lemmas *)

Lemma in_buf_true buf off len :
  in_buf buf off len = true <-> 0 <= off /\ 0 <= len /\ off + len <= Z.of_nat (length buf).
Proof. unfold in_buf. rewrite !andb_true_iff, !Z.leb_le. tauto. Qed.

Lemma length_le_bytes n v : length (le_bytes n v) = n.
Proof. revert v. induction n; intros v; simpl; [done|by rewrite IHn]. Qed.

Lemma bytes_ok_le_bytes n v : bytes_ok (le_bytes n v).
Proof.
  revert v. induction n; intros v; simpl; constructor; [|apply IHn].
  unfold in_u. change (2 ^ 8) with 256. apply Z.mod_pos_bound. lia.
Qed.

Lemma le_value_range bs : bytes_ok bs -> 0 <= le_value bs < 2 ^ (8 * Z.of_nat (length bs)).
Proof.
  induction 1 as [|b bs Hb Hbs IH]; [done|]. unfold in_u in Hb. change (2 ^ 8) with 256 in Hb.
  cbn [le_value length]. replace (8 * Z.of_nat (S (length bs))) with (8 + 8 * Z.of_nat (length bs)) by lia.
  rewrite Z.pow_add_r by lia. change (2 ^ 8) with 256. lia.
Qed.

Lemma le_value_le_bytes n v :
  0 <= v < 2 ^ (8 * Z.of_nat n) -> le_value (le_bytes n v) = v.
Proof.
  revert v. induction n as [|n IH]; intros v Hv; cbn [le_value le_bytes].
  - change (2 ^ (8 * Z.of_nat 0)) with 1 in Hv. lia.
  - replace (8 * Z.of_nat (S n)) with (8 + 8 * Z.of_nat n) in Hv by lia.
    rewrite Z.pow_add_r in Hv by lia. change (2 ^ 8) with 256 in Hv.
    rewrite IH; [zdm|]. split; [zdm|]. apply Z.div_lt_upper_bound; lia.
Qed.

Lemma bytes_ok_take bs n : bytes_ok bs -> bytes_ok (take n bs).
Proof. apply Forall_take. Qed.
Lemma bytes_ok_drop bs n : bytes_ok bs -> bytes_ok (drop n bs).
Proof. apply Forall_drop. Qed.
Lemma bytes_ok_app bs1 bs2 : bytes_ok bs1 -> bytes_ok bs2 -> bytes_ok (bs1 ++ bs2).
Proof. intros. by apply Forall_app. Qed.
Lemma bytes_ok_replicate n b : in_u 8 b -> bytes_ok (replicate n b).
Proof. intros. by apply Forall_replicate. Qed.

(** A decision procedure for [bytes_ok], for concrete buffers. *)
Definition bytes_okb (bs : list Z) : bool := forallb (fun b => (0 <=? b) && (b <? 256)) bs.

Lemma bytes_okb_ok bs : bytes_okb bs = true -> bytes_ok bs.
Proof.
  unfold bytes_okb. induction bs as [|b bs IH]; simpl; [constructor|].
  rewrite !andb_true_iff, Z.leb_le, Z.ltb_lt. intros [Hb Hbs].
  constructor; [unfold in_u; lia|by apply IH].
Qed.

Lemma slice_Some buf off len :
  0 <= off -> 0 <= len -> off + len <= Z.of_nat (length buf) ->
  exists bs, slice buf off len = Some bs /\ length bs = Z.to_nat len.
Proof.
  intros. unfold slice. rewrite (proj2 (in_buf_true _ _ _)) by lia.
  eexists. split; [done|]. rewrite length_take, length_drop. lia.
Qed.

Lemma bytes_ok_slice buf off len bs : bytes_ok buf -> slice buf off len = Some bs -> bytes_ok bs.
Proof.
  intros Hok. unfold slice. destruct (in_buf buf off len); [|done].
  intros [= <-]. by apply bytes_ok_take, bytes_ok_drop.
Qed.

Lemma ld_Some n buf off :
  bytes_ok buf -> 0 <= off -> off + Z.of_nat n <= Z.of_nat (length buf) ->
  exists v, ld n buf off = Some v /\ in_u (8 * Z.of_nat n) v.
Proof.
  intros Hok H0 Hlen. unfold ld.
  destruct (slice_Some buf off (Z.of_nat n)) as (bs & Hs & Hl); [lia..|]. rewrite Hs. simpl.
  eexists. split; [done|]. pose proof (le_value_range bs (bytes_ok_slice _ _ _ _ Hok Hs)) as H.
  by rewrite Hl, Nat2Z.id in H.
Qed.

Lemma splice_Some buf off bs :
  0 <= off -> off + Z.of_nat (length bs) <= Z.of_nat (length buf) ->
  splice buf off bs =
    Some (take (Z.to_nat off) buf ++ bs ++ drop (Z.to_nat off + length bs) buf).
Proof. intros. unfold splice. by rewrite (proj2 (in_buf_true _ _ _)) by lia. Qed.

Lemma splice_inv buf off bs buf' :
  splice buf off bs = Some buf' ->
  0 <= off /\ off + Z.of_nat (length bs) <= Z.of_nat (length buf) /\
  buf' = take (Z.to_nat off) buf ++ bs ++ drop (Z.to_nat off + length bs) buf.
Proof.
  unfold splice. destruct (in_buf buf off (Z.of_nat (length bs))) eqn:E; [|done].
  apply in_buf_true in E. intros [= <-]. split_and!; [lia|lia|done].
Qed.

Lemma length_splice buf off bs buf' :
  splice buf off bs = Some buf' -> length buf' = length buf.
Proof.
  intros (? & ? & ->)%splice_inv. rewrite !length_app, length_take, length_drop. lia.
Qed.

Lemma bytes_ok_splice buf off bs buf' :
  bytes_ok buf -> bytes_ok bs -> splice buf off bs = Some buf' -> bytes_ok buf'.
Proof.
  intros ?? (? & ? & ->)%splice_inv.
  apply bytes_ok_app; [by apply bytes_ok_take|]. apply bytes_ok_app; [done|by apply bytes_ok_drop].
Qed.

(** The byte at position [i] after a splice. *)
Lemma lookup_splice buf off bs buf' (i : nat) :
  splice buf off bs = Some buf' ->
  buf' !! i = if decide (Z.to_nat off <= i < Z.to_nat off + length bs)%nat
              then bs !! (i - Z.to_nat off)%nat else buf !! i.
Proof.
  intros (? & ? & ->)%splice_inv. case_decide.
  - rewrite lookup_app_r by (rewrite length_take; lia).
    rewrite lookup_app_l by (rewrite length_take; lia). f_equal. rewrite length_take. lia.
  - destruct (decide (i < Z.to_nat off)%nat).
    + rewrite lookup_app_l by (rewrite length_take; lia). by rewrite lookup_take_lt.
    + rewrite lookup_app_r by (rewrite length_take; lia).
      rewrite lookup_app_r by (rewrite length_take; lia).
      rewrite lookup_drop. f_equal. rewrite length_take. lia.
Qed.

Lemma slice_ext buf buf' off len :
  length buf = length buf' ->
  (forall i, (Z.to_nat off <= i < Z.to_nat off + Z.to_nat len)%nat -> buf !! i = buf' !! i) ->
  slice buf off len = slice buf' off len.
Proof.
  intros Hl Heq. unfold slice, in_buf. rewrite Hl.
  destruct ((0 <=? off) && (0 <=? len) && (off + len <=? Z.of_nat (length buf'))); [|done].
  f_equal. apply list_eq. intros i. destruct (decide (i < Z.to_nat len)%nat).
  - rewrite !lookup_take_lt, !lookup_drop by done. apply Heq. lia.
  - by rewrite !lookup_take_ge by lia.
Qed.

Lemma slice_splice_same buf off bs buf' :
  splice buf off bs = Some buf' -> slice buf' off (Z.of_nat (length bs)) = Some bs.
Proof.
  intros H. pose proof (length_splice _ _ _ _ H) as Hl.
  pose proof (splice_inv _ _ _ _ H) as (? & ? & _).
  unfold slice. rewrite (proj2 (in_buf_true _ _ _)) by lia. f_equal.
  apply list_eq. intros i. rewrite Nat2Z.id. destruct (decide (i < length bs)%nat).
  - rewrite lookup_take_lt, lookup_drop by done. rewrite (lookup_splice _ _ _ _ _ H).
    rewrite decide_True by lia. f_equal. lia.
  - rewrite lookup_take_ge by lia. symmetry. apply lookup_ge_None_2. lia.
Qed.

Lemma slice_splice_disjoint buf off bs buf' off' len' :
  splice buf off bs = Some buf' -> 0 <= off' -> 0 <= len' ->
  off' + len' <= off \/ off + Z.of_nat (length bs) <= off' ->
  slice buf' off' len' = slice buf off' len'.
Proof.
  intros H ?? Hd. pose proof (length_splice _ _ _ _ H) as Hl.
  pose proof (splice_inv _ _ _ _ H) as (? & ? & _).
  apply slice_ext; [done|]. intros i Hi. rewrite (lookup_splice _ _ _ _ _ H).
  by rewrite decide_False by lia.
Qed.

Lemma ld_st_same n buf off v buf' :
  st n buf off v = Some buf' -> in_u (8 * Z.of_nat n) v -> ld n buf' off = Some v.
Proof.
  intros H Hv. unfold ld. apply slice_splice_same in H. rewrite length_le_bytes in H.
  rewrite H. simpl. f_equal. by apply le_value_le_bytes.
Qed.

Lemma ld_st_disjoint n m buf off v buf' off' :
  st n buf off v = Some buf' -> 0 <= off' ->
  off' + Z.of_nat m <= off \/ off + Z.of_nat n <= off' ->
  ld m buf' off' = ld m buf off'.
Proof.
  intros H ??. unfold ld.
  by rewrite (slice_splice_disjoint _ _ _ _ _ _ H) by (rewrite ?length_le_bytes; lia).
Qed.

Lemma st_Some n buf off v :
  0 <= off -> off + Z.of_nat n <= Z.of_nat (length buf) -> exists buf', st n buf off v = Some buf'.
Proof. intros. unfold st. rewrite splice_Some by (rewrite ?length_le_bytes; lia). eauto. Qed.

(** Copying a whole buffer. *)
Lemma slice_all (b : list Z) n : Z.of_nat (length b) = n -> slice b 0 n = Some b.
Proof.
  intros Hl. unfold slice. rewrite (proj2 (in_buf_true _ _ _)) by lia. rewrite drop_0, take_ge; [done|lia].
Qed.

Lemma splice_all (b bs : list Z) : length bs = length b -> splice b 0 bs = Some bs.
Proof.
  intros Hl. rewrite splice_Some by lia. change (Z.to_nat 0) with 0%nat. rewrite take_0, Nat.add_0_l, Hl, drop_all.
  by rewrite app_nil_r.
Qed.

(** A value behind a prefix. *)
Lemma ld_app n (l1 l2 : list Z) v :
  in_u (8 * Z.of_nat n) v -> ld n (l1 ++ le_bytes n v ++ l2) (Z.of_nat (length l1)) = Some v.
Proof.
  intros Hv. unfold ld, slice. rewrite (proj2 (in_buf_true _ _ _)).
  2: { rewrite !length_app, length_le_bytes. lia. }
  rewrite Nat2Z.id, Nat2Z.id, drop_app_length. cbn [mbind option_bind].
  rewrite <- (length_le_bytes n v) at 1. rewrite take_app_length. by rewrite le_value_le_bytes.
Qed.

Lemma ld_app_at n (l1 l2 : list Z) v off :
  in_u (8 * Z.of_nat n) v -> Z.of_nat (length l1) = off -> ld n (l1 ++ le_bytes n v ++ l2) off = Some v.
Proof. intros Hv <-. by apply ld_app. Qed.

Lemma ld_app_0 n (l2 : list Z) v : in_u (8 * Z.of_nat n) v -> ld n (le_bytes n v ++ l2) 0 = Some v.
Proof. intros Hv. exact (ld_app n [] l2 v Hv). Qed.

Lemma slice_0_inv buf len bs : slice buf 0 len = Some bs -> Z.of_nat (length bs) = len /\ buf = bs ++ drop (Z.to_nat len) buf.
Proof.
  unfold slice. destruct (in_buf buf 0 len) eqn:E; [|done]. apply in_buf_true in E as (_ & Hl & Hb). intros [= <-].
  change (Z.to_nat 0) with 0%nat. rewrite drop_0, length_take, take_drop. split; [lia|done].
Qed.
