(* ===== verification/Errm.v ===== *)
(** * The error-code monad

    Most of the kernel's fallible C functions have the shape "call, and leave
    with the callee's return code unless it is OK".  [em S A] is a computation
    over a state [S] that either delivers a value (the out-parameters of a
    call that returned OK) or leaves with a return code; [None] is undefined
    behaviour.  Used by the models of the two on-disk file systems. *)
From S2P Require Import Prelude.
From stdpp Require Import base list numbers option.
From Stdlib Require Import ZArith Lia.

Open Scope Z_scope.

Definition em (S A : Type) : Type := S -> option ((Z + A) * S).

Definition em_ret {S A} (a : A) : em S A := fun s => Some (inr a, s).
(** [return rc;] with an error code. *)
Definition em_err {S A} (rc : Z) : em S A := fun s => Some (inl rc, s).
(** A pure step that may be undefined. *)
Definition em_lift {S A} (o : option A) : em S A := fun s => a ← o; Some (inr a, s).
Definition em_bind {S A B} (m : em S A) (k : A -> em S B) : em S B :=
  fun s =>
    r ← m s;
    match r with
    | (inl rc, s') => Some (inl rc, s')
    | (inr a, s') => k a s'
    end.

Declare Scope em_scope.
Delimit Scope em_scope with em.
Notation "x <~ m ;; k" := (em_bind m (fun x => k))
  (at level 100, m at next level, right associativity) : em_scope.
Notation "m ;;; k" := (em_bind m (fun _ => k))
  (at level 100, right associativity) : em_scope.

(** A call on a pointer that may be [NULL]: the model of a function runs on
    the object, and [em_entry rc] is the [if (p == NULL) return rc;] in front. *)
Definition em_entry {S A} (rc : Z) (m : em S A) (p : option S) : option ((Z + A) * option S) :=
  match p with
  | None => Some (inl rc, None)
  | Some s => r ← m s; Some (fst r, Some (snd r))
  end.

Lemma em_bind_ok {S A B} (m : em S A) (k : A -> em S B) s a s' :
  m s = Some (inr a, s') -> em_bind m k s = k a s'.
Proof. intros H. unfold em_bind. by rewrite H. Qed.

Lemma em_bind_err {S A B} (m : em S A) (k : A -> em S B) s rc s' :
  m s = Some (inl rc, s') -> em_bind m k s = Some (inl rc, s').
Proof. intros H. unfold em_bind. by rewrite H. Qed.

Lemma em_bind_lift {S A B} (o : option A) (k : A -> em S B) s a :
  o = Some a -> em_bind (em_lift o) k s = k a s.
Proof. intros ->. done. Qed.

Lemma em_bind_ret {S A B} (a : A) (k : A -> em S B) s : em_bind (em_ret a) k s = k a s.
Proof. done. Qed.

Lemma em_bind_assoc {S A B C} (m : em S A) (f : A -> em S B) (g : B -> em S C) s :
  em_bind (em_bind m f) g s = em_bind m (fun a => em_bind (f a) g) s.
Proof. unfold em_bind. destruct (m s) as [[[rc|a] s']|]; done. Qed.

(** Inversion of a bind that delivered a value. *)
Lemma em_bind_inr {S A B} (m : em S A) (k : A -> em S B) s b s' :
  em_bind m k s = Some (inr b, s') ->
  exists a s1, m s = Some (inr a, s1) /\ k a s1 = Some (inr b, s').
Proof. unfold em_bind. destruct (m s) as [[[rc|a] s1]|]; naive_solver. Qed.

Create Rewrite HintDb em.
#[export] Hint Rewrite @em_bind_ret @em_bind_assoc : em.
