(* ===== verification/Pmm.v ===== *)
(** * Physical memory manager ([src/pmm.c], [include/pmm.h])

    One bit per 4 KiB frame, set when the frame is in use.  [pmm_state] is the
    C struct; a NULL pointer argument is [None]; an access outside the bitmap
    is undefined behaviour and makes the whole operation [None], so the
    theorems, which conclude [Some _], also establish memory safety and the
    termination of every loop.

    The abstract view of the allocator is the finite set of free frames,
    [free_set]; [pmm_inv] ties the counters and the search hint to it. *)
From S2P Require Import Prelude Bitmap.
From stdpp Require Import base gmap list numbers option.
From Stdlib Require Import ZArith Lia.

Open Scope Z_scope.

Module Pmm.

(** ** Data *)

Definition PMM_PAGE_SIZE : Z := 4096.
Definition PMM_INVALID_FRAME : Z := 0xffffffffffffffff.
Definition UINT64_MAX : Z := 0xffffffffffffffff.

Definition BOOT_MEM_USABLE : Z := 1.
Definition BOOT_MEM_RESERVED : Z := 2.
Definition BOOT_MEM_KERNEL_AND_MODULES : Z := 4.

Record boot_mem_region := mk_region {
  r_base : Z;
  r_length : Z;
  r_type : Z
}.

Record pmm_state := mk_pmm {
  bitmap : option (list Z);
  bitmap_bytes : Z;
  max_phys : Z;
  frame_count : Z;
  free_frames : Z;
  used_frames : Z;
  reserved_frames : Z;
  ignored_frames : Z;
  next_hint : Z;
  initialized : bool
}.

Definition set_bitmap (s : pmm_state) (bm : list Z) : pmm_state :=
  mk_pmm (Some bm) (bitmap_bytes s) (max_phys s) (frame_count s) (free_frames s)
    (used_frames s) (reserved_frames s) (ignored_frames s) (next_hint s) (initialized s).
Definition set_counts (s : pmm_state) (free used : Z) : pmm_state :=
  mk_pmm (bitmap s) (bitmap_bytes s) (max_phys s) (frame_count s) free
    used (reserved_frames s) (ignored_frames s) (next_hint s) (initialized s).
Definition set_hint (s : pmm_state) (h : Z) : pmm_state :=
  mk_pmm (bitmap s) (bitmap_bytes s) (max_phys s) (frame_count s) (free_frames s)
    (used_frames s) (reserved_frames s) (ignored_frames s) h (initialized s).
Definition set_reserved (s : pmm_state) (r : Z) : pmm_state :=
  mk_pmm (bitmap s) (bitmap_bytes s) (max_phys s) (frame_count s) (free_frames s)
    (used_frames s) r (ignored_frames s) (next_hint s) (initialized s).
Definition set_ignored (s : pmm_state) (i : Z) : pmm_state :=
  mk_pmm (bitmap s) (bitmap_bytes s) (max_phys s) (frame_count s) (free_frames s)
    (used_frames s) (reserved_frames s) i (next_hint s) (initialized s).
Definition set_initialized (s : pmm_state) (b : bool) : pmm_state :=
  mk_pmm (bitmap s) (bitmap_bytes s) (max_phys s) (frame_count s) (free_frames s)
    (used_frames s) (reserved_frames s) (ignored_frames s) (next_hint s) b.

(** ** Static helpers *)

Definition align_down (value align : Z) : Z :=
  Z.land value (u64 (Z.lnot (u64 (align - 1)))).

Definition align_up (value align : Z) : Z :=
  Z.land (u64 (value + align - 1)) (u64 (Z.lnot (u64 (align - 1)))).

Definition checked_add_u64 (a b : Z) : option Z :=
  if UINT64_MAX - a <? b then None else Some (u64 (a + b)).

Definition bitmap_set (bm : list Z) (index : Z) : option (list Z) :=
  b ← arr_get bm (Z.shiftr index 3);
  arr_set bm (Z.shiftr index 3) (byte_set b (Z.land index 7)).

Definition bitmap_clear (bm : list Z) (index : Z) : option (list Z) :=
  b ← arr_get bm (Z.shiftr index 3);
  arr_set bm (Z.shiftr index 3) (byte_clear b (Z.land index 7)).

Definition bitmap_test (bm : list Z) (index : Z) : option bool :=
  b ← arr_get bm (Z.shiftr index 3);
  Some (byte_test b (Z.land index 7)).

Definition mark_frame_free (s : pmm_state) (frame : Z) : option pmm_state :=
  if frame_count s <=? frame then Some s else
  bm ← bitmap s;
  t ← bitmap_test bm frame;
  if (t : bool) then
    bm' ← bitmap_clear bm frame;
    let s1 := set_bitmap s bm' in
    let used := if 0 <? used_frames s then u64 (used_frames s - 1) else used_frames s in
    let s2 := set_counts s1 (u64 (free_frames s + 1)) used in
    Some (if frame <? next_hint s then set_hint s2 frame else s2)
  else Some s.

Definition mark_frame_used (s : pmm_state) (frame : Z) : option pmm_state :=
  if frame_count s <=? frame then Some s else
  bm ← bitmap s;
  t ← bitmap_test bm frame;
  if (t : bool) then Some s else
    bm' ← bitmap_set bm frame;
    let free := if 0 <? free_frames s then u64 (free_frames s - 1) else free_frames s in
    Some (set_counts (set_bitmap s bm') free (u64 (used_frames s + 1))).

(** The number of loop iterations a page-stepped range can take, plus one. *)
Definition range_fuel (start stop : Z) : nat := Z.to_nat ((stop - start) / PMM_PAGE_SIZE + 1).

Definition mark_range_free (s : pmm_state) (base len : Z) : option pmm_state :=
  if len =? 0 then Some s else
  match checked_add_u64 base len with
  | None => Some s
  | Some e =>
      let start := align_up base PMM_PAGE_SIZE in
      let stop := align_down e PMM_PAGE_SIZE in
      if stop <=? start then Some s else
      if max_phys s <=? start then Some s else
      let '(stop, s) :=
        if max_phys s <? stop then
          let stop := max_phys s in
          (stop, set_ignored s (u64 (ignored_frames s +
                   u64 (align_down e PMM_PAGE_SIZE - stop) / PMM_PAGE_SIZE)))
        else (stop, s) in
      for_each (range_fuel start stop) 64 PMM_PAGE_SIZE start stop
        (fun addr s => mark_frame_free s (addr / PMM_PAGE_SIZE)) s
  end.

(** The loop body of [mark_range_used]. *)
Definition reserve_page (addr : Z) (s : pmm_state) : option pmm_state :=
  bm ← bitmap s;
  t ← bitmap_test bm (addr / PMM_PAGE_SIZE);
  let was_free := negb t in
  s' ← mark_frame_used s (addr / PMM_PAGE_SIZE);
  Some (if was_free : bool
        then set_reserved s' (u64 (reserved_frames s' + 1)) else s').

Definition mark_range_used (s : pmm_state) (base len : Z) : option pmm_state :=
  if len =? 0 then Some s else
  match checked_add_u64 base len with
  | None => Some s
  | Some e =>
      let start := align_down base PMM_PAGE_SIZE in
      let stop := align_up e PMM_PAGE_SIZE in
      if stop <=? start then Some s else
      if max_phys s <=? start then Some s else
      let stop := if max_phys s <? stop then max_phys s else stop in
      for_each (range_fuel start stop) 64 PMM_PAGE_SIZE start stop
        reserve_page s
  end.

(** ** Public operations *)

Definition pmm_zero_state (pmm : option pmm_state) : option pmm_state :=
  match pmm with
  | None => None
  | Some _ => Some (mk_pmm None 0 0 0 0 0 0 0 0 false)
  end.

(** The three loops of [pmm_init_from_map]. *)
Definition fill_ff (bm : list Z) (n : Z) : option (list Z) :=
  for_each (Z.to_nat n) 64 1 0 n (fun i bm => arr_set bm i 0xff) bm.

Definition free_usable (regions : list boot_mem_region) (region_count : Z)
    (s : pmm_state) : option pmm_state :=
  for_each (Z.to_nat region_count) 64 1 0 region_count
    (fun i s =>
       r ← arr_get regions i;
       if r_type r =? BOOT_MEM_USABLE
       then mark_range_free s (r_base r) (r_length r)
       else Some s) s.

Definition reserve_unusable (regions : list boot_mem_region) (region_count : Z)
    (s : pmm_state) : option pmm_state :=
  for_each (Z.to_nat region_count) 64 1 0 region_count
    (fun i s =>
       r ← arr_get regions i;
       if negb (r_type r =? BOOT_MEM_USABLE)
       then mark_range_used s (r_base r) (r_length r)
       else Some s) s.

Definition pmm_init_from_map (pmm : option pmm_state)
    (regions : option (list boot_mem_region)) (region_count : Z)
    (bitmap_storage : option (list Z)) (bitmap_storage_bytes max_phys_bytes : Z)
    : option (bool * option pmm_state) :=
  match pmm, regions, bitmap_storage with
  | Some _, Some regions, Some storage =>
      if region_count =? 0 then Some (false, pmm) else
      if (max_phys_bytes =? 0) ||
         negb (Z.land max_phys_bytes (PMM_PAGE_SIZE - 1) =? 0)
      then Some (false, pmm) else
      let frames := max_phys_bytes / PMM_PAGE_SIZE in
      let required := u64 (frames + 7) / 8 in
      if bitmap_storage_bytes <? required then Some (false, pmm) else
      storage' ← fill_ff storage required;
      let s0 := mk_pmm (Some storage') required max_phys_bytes frames 0 frames 0 0 0 false in
      s1 ← free_usable regions region_count s0;
      s2 ← mark_range_used s1 0 PMM_PAGE_SIZE;
      s3 ← reserve_unusable regions region_count s2;
      Some (true, Some (set_initialized s3 true))
  | _, _, _ => Some (false, pmm)
  end.

(** One of the two search loops of [pmm_alloc_frame]. *)
Definition scan_alloc (from to : Z) (s : pmm_state) : option (ctl pmm_state (Z * pmm_state)) :=
  for_loop (Z.to_nat (to - from)) 64 1 from to
    (fun frame s =>
       bm ← bitmap s;
       t ← bitmap_test bm frame;
       if (t : bool) then Some (Cont s)
       else
         s' ← mark_frame_used s frame;
         Some (Ret (u64 (frame * PMM_PAGE_SIZE), set_hint s' (u64 (frame + 1))))) s.

Definition pmm_alloc_frame (pmm : option pmm_state) : option (Z * option pmm_state) :=
  match pmm with
  | None => Some (PMM_INVALID_FRAME, pmm)
  | Some s =>
      if negb (initialized s) || (free_frames s =? 0)
      then Some (PMM_INVALID_FRAME, pmm) else
      c ← scan_alloc (next_hint s) (frame_count s) s;
      match c with
      | Ret (a, s') => Some (a, Some s')
      | Cont s =>
          c ← scan_alloc 0 (next_hint s) s;
          match c with
          | Ret (a, s') => Some (a, Some s')
          | Cont s => Some (PMM_INVALID_FRAME, Some s)
          end
      end
  end.

Definition pmm_free_frame (pmm : option pmm_state) (phys_addr : Z)
    : option (bool * option pmm_state) :=
  match pmm with
  | None => Some (false, pmm)
  | Some s =>
      if negb (initialized s) then Some (false, pmm) else
      if negb (Z.land phys_addr (PMM_PAGE_SIZE - 1) =? 0) || (phys_addr =? 0)
         || (max_phys s <=? phys_addr)
      then Some (false, pmm) else
      let frame := phys_addr / PMM_PAGE_SIZE in
      bm ← bitmap s;
      t ← bitmap_test bm frame;
      if negb t then Some (false, pmm) else
      s' ← mark_frame_free s frame;
      Some (true, Some s')
  end.

Definition pmm_reserve_range (pmm : option pmm_state) (base len : Z)
    : option (bool * option pmm_state) :=
  match pmm with
  | None => Some (false, pmm)
  | Some s =>
      if negb (initialized s) || (len =? 0) then Some (false, pmm) else
      s' ← mark_range_used s base len;
      Some (true, Some s')
  end.

Definition pmm_is_frame_free (pmm : option pmm_state) (phys_addr : Z) : option bool :=
  match pmm with
  | None => Some false
  | Some s =>
      if negb (initialized s) then Some false else
      if negb (Z.land phys_addr (PMM_PAGE_SIZE - 1) =? 0) || (max_phys s <=? phys_addr)
      then Some false else
      bm ← bitmap s;
      t ← bitmap_test bm (phys_addr / PMM_PAGE_SIZE);
      Some (negb t)
  end.

Definition pmm_free_count (pmm : option pmm_state) : Z :=
  match pmm with Some s => free_frames s | None => 0 end.
Definition pmm_used_count (pmm : option pmm_state) : Z :=
  match pmm with Some s => used_frames s | None => 0 end.
Definition pmm_frame_count (pmm : option pmm_state) : Z :=
  match pmm with Some s => frame_count s | None => 0 end.

(** ** Abstraction and invariant *)

(** The frames whose bit is clear. *)
Definition is_free (s : pmm_state) (f : Z) : bool :=
  match bitmap s with Some bm => negb (bm_test bm f) | None => false end.

Definition free_set (s : pmm_state) : gset Z :=
  list_to_set (filter (fun f => is_free s f = true) (seqZ 0 (frame_count s))).

Record pmm_inv (s : pmm_state) : Prop := {
  inv_bm : exists bm, bitmap s = Some bm /\ bytes_ok bm /\
             frame_count s <= 8 * Z.of_nat (length bm);
  inv_frames : 0 < frame_count s /\ max_phys s = frame_count s * PMM_PAGE_SIZE
             /\ max_phys s < 2 ^ 64;
  inv_free : free_frames s = Z.of_nat (size (free_set s));
  inv_used : used_frames s = frame_count s - free_frames s;
  inv_hint : 0 <= next_hint s <= frame_count s;
  inv_hint_low : forall f, 0 <= f < next_hint s -> f ∉ free_set s
}.

(** What every operation leaves alone. *)
Definition same_geom (s s' : pmm_state) : Prop :=
  max_phys s' = max_phys s /\ frame_count s' = frame_count s /\ initialized s' = initialized s.

(** ** Lemmas: the bitmap primitives *)

Lemma bitmap_test_spec bm i :
  0 <= i < 8 * Z.of_nat (length bm) -> bitmap_test bm i = Some (bm_test bm i).
Proof.
  intros Hi. unfold bitmap_test, bm_test. rewrite shiftr_3_div, land_7_mod.
  destruct (bm_get_is_Some bm i Hi) as [b ->]. simpl.
  by rewrite byte_test_testbit by zdm.
Qed.

Lemma bitmap_set_spec bm i :
  bytes_ok bm -> 0 <= i < 8 * Z.of_nat (length bm) ->
  exists bm', bitmap_set bm i = Some bm' /\ bytes_ok bm' /\ length bm' = length bm /\
    forall j, 0 <= j -> bm_test bm' j = bool_decide (i = j) || bm_test bm j.
Proof.
  intros Hok Hi. unfold bitmap_set. rewrite shiftr_3_div, land_7_mod.
  destruct (bm_get_is_Some bm i Hi) as [b Hb]. rewrite Hb. simpl.
  rewrite arr_set_Some by (apply arr_get_Some_lt in Hb; lia).
  eexists. split; [done|]. split; [by apply bytes_ok_insert, u8_in_u8|].
  split; [apply length_insert|]. intros. apply bm_test_set; [done|lia..].
Qed.

Lemma bitmap_clear_spec bm i :
  bytes_ok bm -> 0 <= i < 8 * Z.of_nat (length bm) ->
  exists bm', bitmap_clear bm i = Some bm' /\ bytes_ok bm' /\ length bm' = length bm /\
    forall j, 0 <= j -> bm_test bm' j = negb (bool_decide (i = j)) && bm_test bm j.
Proof.
  intros Hok Hi. unfold bitmap_clear. rewrite shiftr_3_div, land_7_mod.
  destruct (bm_get_is_Some bm i Hi) as [b Hb]. rewrite Hb. simpl.
  rewrite arr_set_Some by (apply arr_get_Some_lt in Hb; lia).
  eexists. split; [done|]. split; [by apply bytes_ok_insert, u8_in_u8|].
  split; [apply length_insert|]. intros. apply bm_test_clear; [done|lia..].
Qed.

(** ** Lemmas: the free set *)

Lemma elem_of_free_set s f :
  f ∈ free_set s <-> 0 <= f < frame_count s /\ is_free s f = true.
Proof.
  unfold free_set. rewrite elem_of_list_to_set, list_elem_of_filter, elem_of_seqZ.
  split; intros [? ?]; split; try done; lia.
Qed.

Lemma size_free_set_le s : 0 <= frame_count s -> Z.of_nat (size (free_set s)) <= frame_count s.
Proof.
  intros H. unfold free_set. rewrite size_list_to_set.
  - pose proof (length_filter (fun f => is_free s f = true) (seqZ 0 (frame_count s))) as L.
    rewrite length_seqZ in L. lia.
  - apply list.NoDup_filter, NoDup_seqZ.
Qed.

Lemma size_add (X : gset Z) f : f ∉ X -> size ({[f]} ∪ X) = S (size X).
Proof. intros. rewrite size_union by set_solver. by rewrite size_singleton. Qed.

Lemma size_remove (X : gset Z) f : f ∈ X -> S (size (X ∖ {[f]})) = size X.
Proof.
  intros Hf. assert (Hx : {[f]} ∪ X ∖ {[f]} = X).
  { apply set_eq. intros x. destruct (decide (x = f)); set_solver. }
  rewrite <- Hx at 2. rewrite size_add by set_solver. done.
Qed.

Lemma size_free_set_lt s f :
  0 <= f < frame_count s -> f ∉ free_set s -> Z.of_nat (size (free_set s)) < frame_count s.
Proof.
  intros Hf Hn. unfold free_set in *. rewrite size_list_to_set by (apply list.NoDup_filter, NoDup_seqZ).
  rewrite elem_of_list_to_set, list_elem_of_filter, elem_of_seqZ in Hn.
  pose proof (length_filter_lt (fun f => is_free s f = true) (seqZ 0 (frame_count s)) f) as L.
  rewrite length_seqZ, elem_of_seqZ in L.
  assert (¬ is_free s f = true) by (intros ?; apply Hn; split; [done|lia]).
  specialize (L ltac:(lia) ltac:(done)). lia.
Qed.

Lemma elem_of_free_set_bm s bm f :
  bitmap s = Some bm ->
  f ∈ free_set s <-> 0 <= f < frame_count s /\ bm_test bm f = false.
Proof. intros Hb. rewrite elem_of_free_set. unfold is_free. by rewrite Hb, negb_true_iff. Qed.

Lemma free_set_clear s s' bm bm' f :
  bitmap s = Some bm -> bitmap s' = Some bm' -> frame_count s' = frame_count s ->
  0 <= f < frame_count s ->
  (forall j, 0 <= j -> bm_test bm' j = negb (bool_decide (f = j)) && bm_test bm j) ->
  free_set s' = {[f]} ∪ free_set s.
Proof.
  intros Hb Hb' Hfc Hf Hbits. apply set_eq. intros x.
  rewrite elem_of_union, elem_of_singleton, (elem_of_free_set_bm _ _ _ Hb),
    (elem_of_free_set_bm _ _ _ Hb'), Hfc.
  split.
  - intros [? Hx]. rewrite Hbits in Hx by lia. case_bool_decide; naive_solver.
  - intros [->|[? Hx]]; (split; [lia|]); rewrite Hbits by lia.
    + by rewrite bool_decide_true.
    + by rewrite Hx, andb_false_r.
Qed.

Lemma free_set_mark s s' bm bm' f :
  bitmap s = Some bm -> bitmap s' = Some bm' -> frame_count s' = frame_count s ->
  0 <= f < frame_count s ->
  (forall j, 0 <= j -> bm_test bm' j = bool_decide (f = j) || bm_test bm j) ->
  free_set s' = free_set s ∖ {[f]}.
Proof.
  intros Hb Hb' Hfc Hf Hbits. apply set_eq. intros x.
  rewrite elem_of_difference, elem_of_singleton, (elem_of_free_set_bm _ _ _ Hb),
    (elem_of_free_set_bm _ _ _ Hb'), Hfc.
  split.
  - intros [? Hx]. rewrite Hbits in Hx by lia. case_bool_decide; naive_solver.
  - intros [[? Hx] Hne]. split; [done|]. rewrite Hbits by lia.
    by rewrite bool_decide_false by congruence.
Qed.

(** ** The two frame transitions *)

Lemma mark_frame_free_spec s f :
  pmm_inv s -> 0 <= f < frame_count s ->
  exists s', mark_frame_free s f = Some s' /\ pmm_inv s' /\ same_geom s s' /\
    free_set s' = {[f]} ∪ free_set s.
Proof.
  intros Hinv Hf. destruct Hinv as [(bm & Hbm & Hok & Hlen) (Hfc & Hmp & Hmax) Hfree Hused Hhint Hlow].
  unfold mark_frame_free, PMM_PAGE_SIZE in *. rewrite Hbm.
  destruct (Z.leb_spec (frame_count s) f); [lia|]. simpl.
  rewrite bitmap_test_spec by lia. simpl.
  pose proof (elem_of_free_set_bm s bm f Hbm) as Hin.
  destruct (bm_test bm f) eqn:Hb.
  2: { exists s. split_and!; [done|by constructor; eauto|done|].
       assert (f ∈ free_set s) by (by apply Hin). set_solver. }
  destruct (bitmap_clear_spec bm f Hok) as (bm' & -> & Hok' & Hlen' & Hbits); [lia|]. simpl.
  assert (Hnin : f ∉ free_set s) by (rewrite Hin; naive_solver).
  pose proof (size_free_set_lt s f Hf Hnin).
  set (s' := if f <? next_hint s then _ else _). exists s'. split; [done|].
  assert (Hset : free_set s' = {[f]} ∪ free_set s).
  { eapply free_set_clear; try done; unfold s'; by destruct (f <? next_hint s). }
  assert (Hgeom : same_geom s s') by (unfold s', same_geom; by destruct (f <? next_hint s)).
  split; [|done]. pose proof Hgeom as (Hg1 & Hg2 & _).
  assert (Hu : u64 (used_frames s - 1) = used_frames s - 1) by (apply wrap_small; unfold in_u; lia).
  assert (Hv : u64 (free_frames s + 1) = free_frames s + 1) by (apply wrap_small; unfold in_u; lia).
  constructor; rewrite ?Hset, ?Hg1, ?Hg2, ?size_add by done; try done;
    unfold s'; destruct (Z.ltb_spec f (next_hint s)); simpl; rewrite ?Hu, ?Hv;
    try (destruct (Z.ltb_spec 0 (used_frames s))); try lia; eauto using eq_trans with lia.
  all: try (exists bm'; by rewrite Hlen').
  all: intros x Hx; specialize (Hlow x); set_solver by lia.
Qed.

Lemma mark_frame_used_spec s f :
  pmm_inv s -> 0 <= f < frame_count s ->
  exists s', mark_frame_used s f = Some s' /\ pmm_inv s' /\ same_geom s s' /\
    free_set s' = free_set s ∖ {[f]} /\ next_hint s' = next_hint s /\
    reserved_frames s' = reserved_frames s.
Proof.
  intros Hinv Hf. destruct Hinv as [(bm & Hbm & Hok & Hlen) (Hfc & Hmp & Hmax) Hfree Hused Hhint Hlow].
  unfold mark_frame_used, PMM_PAGE_SIZE in *. rewrite Hbm.
  destruct (Z.leb_spec (frame_count s) f); [lia|]. simpl.
  rewrite bitmap_test_spec by lia. simpl.
  pose proof (elem_of_free_set_bm s bm f Hbm) as Hin.
  destruct (bm_test bm f) eqn:Hb.
  { exists s. split_and!; [done|by constructor; eauto|done| |done|done].
    assert (f ∉ free_set s) by (rewrite Hin; naive_solver). set_solver. }
  destruct (bitmap_set_spec bm f Hok) as (bm' & -> & Hok' & Hlen' & Hbits); [lia|]. simpl.
  assert (Hfin : f ∈ free_set s) by (by apply Hin).
  pose proof (size_remove _ _ Hfin). pose proof (size_free_set_le s ltac:(lia)).
  set (s' := set_counts _ _ _). exists s'. split; [done|].
  assert (Hset : free_set s' = free_set s ∖ {[f]}) by (by eapply free_set_mark).
  split; [|done].
  assert (Hu : u64 (used_frames s + 1) = used_frames s + 1) by (apply wrap_small; unfold in_u; lia).
  assert (Hv : u64 (free_frames s - 1) = free_frames s - 1) by (apply wrap_small; unfold in_u; lia).
  constructor; rewrite ?Hset; simpl; rewrite ?Hu, ?Hv;
    try (destruct (Z.ltb_spec 0 (free_frames s))); try lia; eauto.
  - exists bm'. by rewrite Hlen'.
  - intros x Hx. specialize (Hlow x Hx). set_solver.
Qed.

(** ** Ranges *)

Lemma align_down_spec v : in_u 64 v -> align_down v PMM_PAGE_SIZE = v / 4096 * 4096.
Proof. apply (land_not_ones 64 12). lia. Qed.

Lemma align_up_spec v :
  0 <= v -> v + 4095 < 2 ^ 64 -> align_up v PMM_PAGE_SIZE = (v + 4095) / 4096 * 4096.
Proof.
  intros. unfold align_up, PMM_PAGE_SIZE.
  replace (v + 4096 - 1) with (v + 4095) by lia. rewrite (wrap_small 64 (v + 4095)) by (unfold in_u; lia).
  apply (land_not_ones 64 12); unfold in_u; lia.
Qed.

(** Rounding up wraps to 0 in the last page of the address space. *)
Lemma align_up_wraps v : 2 ^ 64 - 4095 <= v < 2 ^ 64 -> align_up v PMM_PAGE_SIZE = 0.
Proof.
  intros Hv. unfold align_up, PMM_PAGE_SIZE.
  assert (Hw : u64 (v + 4096 - 1) = v + 4095 - 2 ^ 64) by (unfold wrap; zdm).
  rewrite Hw. change 4096 with (2 ^ 12). rewrite (land_not_ones 64 12) by (unfold in_u; lia).
  zdm.
Qed.

Lemma range_fuel_enough start stop :
  stop - start <= Z.of_nat (range_fuel start stop) * 4096.
Proof. unfold range_fuel, PMM_PAGE_SIZE. zdm. Qed.

(** A region lies fully over a frame, or touches it. *)
Definition covers (base len f : Z) : Prop :=
  base <= f * PMM_PAGE_SIZE /\ (f + 1) * PMM_PAGE_SIZE <= base + len.
Definition touches (base len f : Z) : Prop :=
  0 < len /\ base < (f + 1) * PMM_PAGE_SIZE /\ f * PMM_PAGE_SIZE < base + len.

(** The region ends before the last page of the 64-bit address space. *)
Definition region_fits (base len : Z) : Prop :=
  0 <= base /\ 0 <= len /\ base + len <= 2 ^ 64 - PMM_PAGE_SIZE.

(** The frames [mark_range_free] marks free for a region: those the region
    covers; all of them when the region starts in the last page, where the
    start wraps to 0; none when the region's end overflows. *)
Definition frees (base len f : Z) : Prop :=
  0 < len /\ base + len < 2 ^ 64 /\ (covers base len f \/ 2 ^ 64 - PMM_PAGE_SIZE < base).

(** The frames [mark_range_used] marks used: those the region touches; none
    when its end lies in the last page, where it wraps to 0, or overflows. *)
Definition reserves (base len f : Z) : Prop :=
  touches base len f /\ base + len <= 2 ^ 64 - PMM_PAGE_SIZE.

Lemma frees_fits base len f : region_fits base len -> frees base len f <-> 0 < len /\ covers base len f.
Proof. unfold region_fits, frees, covers, PMM_PAGE_SIZE. intuition lia. Qed.

Lemma reserves_fits base len f : region_fits base len -> reserves base len f <-> touches base len f.
Proof. unfold region_fits, reserves, PMM_PAGE_SIZE. intuition lia. Qed.

Lemma checked_add_spec base len : in_u 64 base -> in_u 64 len ->
  checked_add_u64 base len = if decide (base + len < 2 ^ 64) then Some (base + len) else None.
Proof.
  unfold in_u, checked_add_u64, UINT64_MAX. intros.
  destruct (Z.ltb_spec (0xffffffffffffffff - base) len); case_decide; try lia; [done|].
  by rewrite wrap_small by (unfold in_u; lia).
Qed.

Lemma same_geom_trans s1 s2 s3 : same_geom s1 s2 -> same_geom s2 s3 -> same_geom s1 s3.
Proof. unfold same_geom. naive_solver congruence. Qed.

Lemma set_ignored_inv s i : pmm_inv s -> pmm_inv (set_ignored s i).
Proof. intros []. by constructor. Qed.

Lemma set_reserved_inv s i : pmm_inv s -> pmm_inv (set_reserved s i).
Proof. intros []. by constructor. Qed.

Lemma free_loop_spec s a b :
  pmm_inv s -> 0 <= a -> a <= b <= frame_count s ->
  exists s', for_each (range_fuel (a * 4096) (b * 4096)) 64 PMM_PAGE_SIZE (a * 4096) (b * 4096)
      (fun addr s => mark_frame_free s (addr / PMM_PAGE_SIZE)) s = Some s' /\
    pmm_inv s' /\ same_geom s s' /\
    forall f, f ∈ free_set s' <-> f ∈ free_set s \/ a <= f < b.
Proof.
  intros Hinv Ha Hb. pose proof (inv_frames _ Hinv) as (? & Hmp & ?).
  unfold PMM_PAGE_SIZE in *.
  destruct (for_each_inv (fun i s1 => exists k, i = k * 4096 /\ pmm_inv s1 /\ same_geom s s1 /\
      forall f, f ∈ free_set s1 <-> f ∈ free_set s \/ a <= f < k)
    (range_fuel (a * 4096) (b * 4096)) 64 4096 (b * 4096)
    (fun addr s => mark_frame_free s (addr / 4096)) (a * 4096) s)
    as (s' & j & Hs' & ? & ? & ? & k & -> & Hinv' & Hgeom & Hset);
    try lia; [apply range_fuel_enough| | |].
  - intros j s1 Hj (k & -> & Hinv1 & Hgeom & Hset). rewrite Z.div_mul by lia.
    pose proof Hgeom as (_ & Hfc & _).
    destruct (mark_frame_free_spec s1 k) as (s2 & -> & Hinv2 & Hgeom2 & Hset2); [done|lia|].
    exists s2. split; [done|]. exists (k + 1). split; [lia|].
    split; [done|]. split; [by eapply same_geom_trans|].
    intros f. rewrite Hset2, elem_of_union, elem_of_singleton, Hset. intuition lia.
  - exists a. split_and!; [done|done|done|]. intros f. intuition lia.
  - exists s'. split_and!; try done. intros f. rewrite Hset. replace b with k by lia. done.
Qed.

(** The range clamped to managed memory. *)
Lemma free_clamped s a b : pmm_inv s -> 0 <= a -> a < frame_count s -> a < b ->
  exists s', (let '(stop, s1) :=
      if max_phys s <? b * 4096 then
        (max_phys s, set_ignored s (u64 (ignored_frames s + u64 (b * 4096 - max_phys s) / PMM_PAGE_SIZE)))
      else (b * 4096, s) in
    for_each (range_fuel (a * 4096) stop) 64 PMM_PAGE_SIZE (a * 4096) stop
      (fun addr s => mark_frame_free s (addr / PMM_PAGE_SIZE)) s1) = Some s' /\ pmm_inv s' /\ same_geom s s' /\
    forall f, f ∈ free_set s' <-> f ∈ free_set s \/ (0 <= f < frame_count s /\ a <= f < b).
Proof.
  intros Hinv Ha Hac Hab. pose proof (inv_frames _ Hinv) as (Hfc & Hmp & Hmax). unfold PMM_PAGE_SIZE in Hmp.
  destruct (Z.ltb_spec (max_phys s) (b * 4096)).
  - match goal with |- context [set_ignored s ?i] => set (s1 := set_ignored s i) end.
    replace (max_phys s) with (frame_count s1 * 4096) by (simpl; lia).
    destruct (free_loop_spec s1 a (frame_count s1)) as (s' & -> & Hinv' & Hgeom & Hset);
      [by apply set_ignored_inv|done|simpl; lia|].
    exists s'. split_and!; [done|done|done|]. intros f. rewrite Hset.
    change (free_set s1) with (free_set s). change (frame_count s1) with (frame_count s). intuition lia.
  - destruct (free_loop_spec s a b) as (s' & -> & Hinv' & Hgeom & Hset); [done|done|lia|].
    exists s'. split_and!; [done|done|done|]. intros f. rewrite Hset. intuition lia.
Qed.

Lemma mark_range_free_spec s base len :
  pmm_inv s -> in_u 64 base -> in_u 64 len ->
  exists s', mark_range_free s base len = Some s' /\ pmm_inv s' /\ same_geom s s' /\
    forall f, f ∈ free_set s' <->
      f ∈ free_set s \/ (0 <= f < frame_count s /\ frees base len f).
Proof.
  intros Hinv Hb Hl. pose proof (inv_frames _ Hinv) as (Hfc & Hmp & Hmax).
  unfold mark_range_free. rewrite checked_add_spec by done. unfold in_u, PMM_PAGE_SIZE in Hb, Hl, Hmp.
  assert (Hsame : (forall f, 0 <= f < frame_count s -> ~ frees base len f) ->
    exists s', Some s = Some s' /\ pmm_inv s' /\ same_geom s s' /\
      forall f, f ∈ free_set s' <-> f ∈ free_set s \/ (0 <= f < frame_count s /\ frees base len f)).
  { intros Hno. exists s. split_and!; [done|done|done|]. intros f. specialize (Hno f). tauto. }
  destruct (Z.eqb_spec len 0); [apply Hsame; unfold frees; lia|].
  case_decide as Hend; [|apply Hsame; unfold frees; lia].
  rewrite align_down_spec by (unfold in_u; lia). set (b := (base + len) / 4096).
  set (a := if decide (2 ^ 64 - 4095 <= base) then 0 else (base + 4095) / 4096).
  assert (Hup : align_up base PMM_PAGE_SIZE = a * 4096).
  { subst a. case_decide; [rewrite align_up_wraps by lia; lia|rewrite align_up_spec by lia; done]. }
  assert (Ha : 0 <= a) by (subst a; case_decide; zdm).
  assert (Hiff : forall f, 0 <= f < frame_count s -> frees base len f <-> a <= f < b).
  { intros f Hf. subst a b. unfold frees, covers, PMM_PAGE_SIZE. case_decide; intuition zdm. }
  rewrite Hup. destruct (Z.leb_spec (b * 4096) (a * 4096)); [apply Hsame; intros f Hf; rewrite Hiff by done; lia|].
  destruct (Z.leb_spec (max_phys s) (a * 4096)); [apply Hsame; intros f Hf; rewrite Hiff by done; lia|].
  destruct (free_clamped s a b) as (s' & E & Hinv' & Hgeom & Hset); [done|done|lia|lia|].
  exists s'. split_and!; [exact E|done|done|]. intros f. rewrite Hset. specialize (Hiff f). tauto.
Qed.

Lemma used_loop_spec s a b :
  pmm_inv s -> 0 <= a -> a <= b <= frame_count s ->
  exists s', for_each (range_fuel (a * 4096) (b * 4096)) 64 PMM_PAGE_SIZE (a * 4096) (b * 4096)
      reserve_page s = Some s' /\
    pmm_inv s' /\ same_geom s s' /\
    (forall f, f ∈ free_set s' <-> f ∈ free_set s /\ ~ (a <= f < b)) /\
    u64 (reserved_frames s') = u64 (reserved_frames s + (free_frames s - free_frames s')).
Proof.
  intros Hinv Ha Hb. pose proof (inv_frames _ Hinv) as (? & Hmp & ?).
  unfold PMM_PAGE_SIZE in *.
  destruct (for_each_inv (fun i s1 => exists k, i = k * 4096 /\ pmm_inv s1 /\ same_geom s s1 /\
      (forall f, f ∈ free_set s1 <-> f ∈ free_set s /\ ~ (a <= f < k)) /\
      u64 (reserved_frames s1) = u64 (reserved_frames s + (free_frames s - free_frames s1)))
    (range_fuel (a * 4096) (b * 4096)) 64 4096 (b * 4096) reserve_page (a * 4096) s)
    as (s' & j & Hs' & ? & ? & ? & k & -> & Hinv' & Hgeom & Hset & Hres);
    try lia; [apply range_fuel_enough| | |].
  - intros j s1 Hj (k & -> & Hinv1 & Hgeom & Hset & Hres). unfold reserve_page, PMM_PAGE_SIZE.
    rewrite Z.div_mul by lia.
    pose proof Hgeom as (_ & Hfc & _).
    pose proof (inv_bm _ Hinv1) as (bm & Hbm & _ & Hlen). rewrite Hbm. simpl.
    rewrite bitmap_test_spec by lia. simpl.
    pose proof (elem_of_free_set_bm s1 bm k Hbm) as Hin.
    destruct (mark_frame_used_spec s1 k) as (s2 & -> & Hinv2 & Hgeom2 & Hset2 & _ & Hr2);
      [done|lia|]. simpl.
    assert (Hset' : forall f, f ∈ free_set s2 <-> f ∈ free_set s /\ ~ (a <= f < k + 1)).
    { intros f. rewrite Hset2, elem_of_difference, elem_of_singleton, Hset. intuition lia. }
    assert (Hcnt : free_frames s1 - free_frames s2 = if bm_test bm k then 0 else 1).
    { rewrite (inv_free _ Hinv1), (inv_free _ Hinv2), Hset2. destruct (bm_test bm k) eqn:E.
      - replace (free_set s1 ∖ {[k]}) with (free_set s1); [lia|].
        assert (k ∉ free_set s1) by (rewrite Hin; naive_solver). set_solver.
      - assert (Hk : k ∈ free_set s1) by (rewrite Hin; split; [lia|done]).
        pose proof (size_remove _ _ Hk). lia. }
    eexists. split; [done|]. exists (k + 1). split; [lia|].
    destruct (bm_test bm k) eqn:E; simpl.
    + split_and!; [done|by eapply same_geom_trans|done|]. rewrite Hr2, Hres. f_equal. lia.
    + split_and!; [by apply set_reserved_inv|by eapply same_geom_trans|done|].
      simpl. rewrite Hr2. unfold wrap in *. rewrite Zmod_mod, Zplus_mod, Hres, <- Zplus_mod.
      f_equal. lia.
  - exists a. split_and!; [done|done|done| |f_equal; lia]. intros f. intuition lia.
  - exists s'. split_and!; try done. intros f. rewrite Hset. replace b with k by lia. done.
Qed.

Lemma mark_range_used_spec s base len :
  pmm_inv s -> in_u 64 base -> in_u 64 len ->
  exists s', mark_range_used s base len = Some s' /\ pmm_inv s' /\ same_geom s s' /\
    (forall f, f ∈ free_set s' <-> f ∈ free_set s /\ ~ reserves base len f) /\
    u64 (reserved_frames s') = u64 (reserved_frames s + (free_frames s - free_frames s')).
Proof.
  intros Hinv Hb Hl. pose proof (inv_frames _ Hinv) as (Hfc & Hmp & Hmax).
  unfold mark_range_used. rewrite checked_add_spec by done. cbv zeta. unfold in_u, PMM_PAGE_SIZE in Hb, Hl, Hmp.
  assert (Hsame : (forall f, 0 <= f < frame_count s -> ~ reserves base len f) ->
    exists s', Some s = Some s' /\ pmm_inv s' /\ same_geom s s' /\
      (forall f, f ∈ free_set s' <-> f ∈ free_set s /\ ~ reserves base len f) /\
      u64 (reserved_frames s') = u64 (reserved_frames s + (free_frames s - free_frames s'))).
  { intros Hno. exists s. split_and!; [done|done|done| |f_equal; lia]. intros f.
    rewrite elem_of_free_set. specialize (Hno f). tauto. }
  destruct (Z.eqb_spec len 0); [apply Hsame; unfold reserves, touches; lia|].
  case_decide as Hend; [|apply Hsame; unfold reserves, PMM_PAGE_SIZE; lia].
  rewrite align_down_spec by (unfold in_u; lia). set (a := base / 4096).
  assert (Ha : 0 <= a) by (subst a; zdm).
  destruct (decide (2 ^ 64 - 4095 <= base + len)).
  { rewrite align_up_wraps by lia. destruct (Z.leb_spec 0 (a * 4096)); [|lia].
    apply Hsame. unfold reserves, PMM_PAGE_SIZE. lia. }
  rewrite align_up_spec by lia. set (b := (base + len + 4095) / 4096).
  assert (Hiff : forall f, reserves base len f <-> a <= f < b).
  { intros f. subst a b. unfold reserves, touches, PMM_PAGE_SIZE. intuition zdm. }
  destruct (Z.leb_spec (b * 4096) (a * 4096)); [exfalso; subst a b; zdm|].
  destruct (Z.leb_spec (max_phys s) (a * 4096)); [apply Hsame; intros f Hf; rewrite Hiff; lia|].
  assert (Hstop : (if max_phys s <? b * 4096 then max_phys s else b * 4096) =
                  Z.min b (frame_count s) * 4096).
  { destruct (Z.ltb_spec (max_phys s) (b * 4096)); lia. }
  rewrite Hstop.
  destruct (used_loop_spec s a (Z.min b (frame_count s)))
    as (s' & -> & Hinv' & Hgeom & Hset & Hres); [done|done|lia|].
  exists s'. split_and!; [done|done|done| |done]. intros f. rewrite Hset, elem_of_free_set, Hiff. intuition lia.
Qed.

(** ** Allocation *)

Lemma scan_alloc_spec s from :
  pmm_inv s -> 0 <= from <= frame_count s ->
  (forall f, 0 <= f < from -> f ∉ free_set s) ->
  exists c, scan_alloc from (frame_count s) s = Some c /\
    match c with
    | Cont s' => s' = s /\ free_set s = ∅
    | Ret (a, s') => exists f, a = f * PMM_PAGE_SIZE /\ f ∈ free_set s /\
        (forall g, g ∈ free_set s -> f <= g) /\
        free_set s' = free_set s ∖ {[f]} /\ pmm_inv s' /\ same_geom s s'
    end.
Proof.
  intros Hinv Hfrom Hlow. pose proof (inv_frames _ Hinv) as (? & Hmp & ?).
  pose proof (inv_bm _ Hinv) as (bm & Hbm & _ & Hlen). unfold PMM_PAGE_SIZE in *.
  unfold scan_alloc.
  match goal with |- context [for_loop _ _ _ _ _ ?body] => set (bd := body) end.
  destruct (for_loop_inv1 (fun i s1 => s1 = s /\ forall f, 0 <= f < i -> f ∉ free_set s)
    (fun r => exists f, r.1 = f * 4096 /\ f ∈ free_set s /\
        (forall g, g ∈ free_set s -> f <= g) /\
        free_set r.2 = free_set s ∖ {[f]} /\ pmm_inv r.2 /\ same_geom s r.2)
    (Z.to_nat (frame_count s - from)) 64 (frame_count s) bd from s)
    as (c & Hc & Hpost); try lia; [|done|].
  - intros j s1 Hj (-> & Hbelow). unfold bd. rewrite Hbm. simpl.
    rewrite bitmap_test_spec by lia. simpl.
    pose proof (elem_of_free_set_bm s bm j Hbm) as Hin. destruct (bm_test bm j) eqn:E.
    + exists (Cont s). split_and!; [done|done|]. intros f Hf.
      destruct (decide (f = j)) as [->|]; [rewrite Hin; by intros [_ ?]|apply Hbelow; lia].
    + destruct (mark_frame_used_spec s j) as (s2 & -> & Hinv2 & Hgeom2 & Hset2 & Hh & _);
        [done|lia|]. simpl.
      eexists. split; [done|]. exists j. rewrite !wrap_small by (unfold in_u, PMM_PAGE_SIZE; lia).
      assert (Hj' : j ∈ free_set s) by (apply Hin; split; [lia|done]). pose proof Hgeom2 as (? & ? & ?).
      split_and!; simpl; [done|done| |done| |done].
      * intros g Hg. destruct (decide (g < j)); [|lia]. exfalso.
        apply (Hbelow g); [|done]. apply elem_of_free_set in Hg. lia.
      * destruct Hinv2. constructor; simpl; try done; [lia|]. intros f Hf.
        change (f ∉ free_set s2). rewrite Hset2, elem_of_difference, elem_of_singleton.
        destruct (decide (f = j)) as [->|]; [naive_solver|].
        intros [Hx _]. apply (Hbelow f); [lia|done].
  - exists c. split; [done|]. destruct c as [s'|[a s']].
    + destruct Hpost as [-> Hnone]. split; [done|]. apply set_eq. intros f.
      split; [|set_solver]. intros Hf. exfalso. apply (Hnone f); [|done].
      apply elem_of_free_set in Hf. lia.
    + done.
Qed.

(** ** The abstract allocator

    A set of free frames; allocation removes the least one, a successful free
    adds one back. *)
Definition spec_alloc (F : gset Z) (a : Z) (F' : gset Z) : Prop :=
  (F = ∅ /\ a = PMM_INVALID_FRAME /\ F' = F) \/
  (exists f, f ∈ F /\ (forall g, g ∈ F -> f <= g) /\ a = f * PMM_PAGE_SIZE /\ F' = F ∖ {[f]}).

Definition spec_free (frames : Z) (F : gset Z) (a : Z) (ok : bool) (F' : gset Z) : Prop :=
  if decide (a mod PMM_PAGE_SIZE = 0 /\ a <> 0 /\ a < frames * PMM_PAGE_SIZE /\
             a / PMM_PAGE_SIZE ∉ F)
  then ok = true /\ F' = {[a / PMM_PAGE_SIZE]} ∪ F
  else ok = false /\ F' = F.

Lemma pmm_alloc_frame_spec s :
  pmm_inv s -> initialized s = true ->
  exists a s', pmm_alloc_frame (Some s) = Some (a, Some s') /\ pmm_inv s' /\ same_geom s s' /\
    spec_alloc (free_set s) a (free_set s').
Proof.
  intros Hinv Hinit. unfold pmm_alloc_frame. rewrite Hinit. simpl.
  pose proof (inv_free _ Hinv) as Hfree. destruct (Z.eqb_spec (free_frames s) 0) as [E|E].
  { exists PMM_INVALID_FRAME, s. split_and!; [done|done|done|]. left. split; [|done].
    apply leibniz_equiv, size_empty_inv. lia. }
  destruct (scan_alloc_spec s (next_hint s)) as ([s'|[a s']] & -> & Hc);
    [done|by apply inv_hint|by apply inv_hint_low| |]; simpl.
  - destruct Hc as [_ Hempty]. rewrite Hempty, size_empty in Hfree. lia.
  - destruct Hc as (f & -> & ? & ? & ? & ? & ?). do 2 eexists. split_and!; [done..|].
    right. eauto.
Qed.

Lemma pmm_free_frame_spec s a :
  pmm_inv s -> initialized s = true -> 0 <= a ->
  exists ok s', pmm_free_frame (Some s) a = Some (ok, Some s') /\ pmm_inv s' /\ same_geom s s' /\
    spec_free (frame_count s) (free_set s) a ok (free_set s') /\ (ok = false -> s' = s).
Proof.
  intros Hinv Hinit Ha. pose proof (inv_frames _ Hinv) as (Hfc & Hmp & Hmax).
  pose proof (inv_bm _ Hinv) as (bm & Hbm & _ & Hlen).
  unfold pmm_free_frame, spec_free. rewrite Hinit. simpl. unfold PMM_PAGE_SIZE in *.
  change (4096 - 1) with (2 ^ 12 - 1). rewrite land_ones_mod by lia. change (2 ^ 12) with 4096.
  destruct (Z.eqb_spec (a mod 4096) 0); simpl.
  2: { exists false, s. rewrite decide_False by naive_solver. by split_and!. }
  destruct (Z.eqb_spec a 0); simpl.
  { exists false, s. rewrite decide_False by naive_solver. by split_and!. }
  destruct (Z.leb_spec (max_phys s) a); simpl.
  { exists false, s. rewrite decide_False by lia. by split_and!. }
  rewrite Hbm. simpl. rewrite bitmap_test_spec by zdm. simpl.
  pose proof (elem_of_free_set_bm s bm (a / 4096) Hbm) as Hin.
  destruct (bm_test bm (a / 4096)) eqn:E; simpl.
  - destruct (mark_frame_free_spec s (a / 4096)) as (s' & -> & ? & ? & Hset); [done|zdm|].
    exists true, s'. rewrite decide_True; [by split_and!|].
    split_and!; [done|done|lia|]. rewrite Hin. by intros [_ ?].
  - exists false, s. rewrite decide_False; [by split_and!|].
    intros (_ & _ & _ & Hn). apply Hn, Hin. split; [zdm|done].
Qed.

Lemma pmm_reserve_range_spec s base len :
  pmm_inv s -> initialized s = true -> in_u 64 base -> in_u 64 len -> 0 < len ->
  exists s', pmm_reserve_range (Some s) base len = Some (true, Some s') /\ pmm_inv s' /\
    same_geom s s' /\ (forall f, f ∈ free_set s' <-> f ∈ free_set s /\ ~ reserves base len f) /\
    u64 (reserved_frames s') = u64 (reserved_frames s + (free_frames s - free_frames s')).
Proof.
  intros Hinv Hinit Hb Hl Hlen. unfold pmm_reserve_range. rewrite Hinit. simpl.
  destruct (Z.eqb_spec len 0); [lia|].
  destruct (mark_range_used_spec s base len) as (s' & -> & Hs'); [done..|]. eauto.
Qed.

(** ** Initialisation *)

Definition region_u64 (r : boot_mem_region) : Prop := in_u 64 (r_base r) /\ in_u 64 (r_length r).

Lemma fill_ff_spec bm n :
  bytes_ok bm -> 0 <= n <= Z.of_nat (length bm) -> n < 2 ^ 64 ->
  exists bm', fill_ff bm n = Some bm' /\ bytes_ok bm' /\ length bm' = length bm /\
    forall i, 0 <= i < 8 * n -> bm_test bm' i = true.
Proof.
  intros Hok Hn Hb. unfold fill_ff.
  destruct (for_each_inv1 (fun k (b : list Z) => bytes_ok b /\ length b = length bm /\
      forall j, 0 <= j < k -> arr_get b j = Some 0xff)
    (Z.to_nat n) 64 n (fun i bm => arr_set bm i 0xff) 0 bm)
    as (bm' & -> & Hok' & Hlen' & Hff); try lia.
  - intros j b Hj (Hokb & Hlb & Hffb). rewrite arr_set_Some by lia.
    eexists. split; [done|]. split_and!; [by apply bytes_ok_insert|by rewrite length_insert|].
    intros i Hi. rewrite arr_get_insert by lia. case_decide; [done|]. apply Hffb. lia.
  - split_and!; [done|done|lia].
  - exists bm'. split_and!; [done..|]. intros i Hi. unfold bm_test. rewrite Hff by zdm.
    change 0xff with (Z.ones 8). apply Z.ones_spec_low. zdm.
Qed.

Lemma free_usable_spec regions s :
  Forall region_u64 regions ->
  Z.of_nat (length regions) < 2 ^ 64 -> pmm_inv s ->
  exists s', free_usable regions (Z.of_nat (length regions)) s = Some s' /\
    pmm_inv s' /\ same_geom s s' /\
    forall f, f ∈ free_set s' <-> f ∈ free_set s \/
      (0 <= f < frame_count s /\ exists r, r ∈ regions /\ r_type r = BOOT_MEM_USABLE /\
         frees (r_base r) (r_length r) f).
Proof.
  intros Hfit Hlen. unfold free_usable. rewrite Nat2Z.id, for_each_list by lia. clear Hlen.
  revert s. induction Hfit as [|r rs [Hr1 Hr2] Hrs IH]; intros s Hinv; simpl.
  { exists s. split_and!; [done|done|done|]. set_solver. }
  destruct (Z.eqb_spec (r_type r) BOOT_MEM_USABLE) as [Ht|Ht]; simpl.
  - destruct (mark_range_free_spec s (r_base r) (r_length r))
      as (s1 & -> & Hinv1 & Hgeom1 & Hset1); [done..|]. simpl.
    destruct (IH s1 Hinv1) as (s2 & -> & ? & Hgeom2 & Hset2).
    exists s2. split_and!; [done|done|by eapply same_geom_trans|]. intros f.
    destruct Hgeom1 as (_ & Hfc & _). rewrite Hset2, Hset1, Hfc.
    setoid_rewrite elem_of_cons. naive_solver.
  - destruct (IH s Hinv) as (s2 & -> & ? & Hgeom2 & Hset2).
    exists s2. split_and!; [done..|]. intros f. rewrite Hset2.
    setoid_rewrite elem_of_cons. naive_solver.
Qed.

Lemma reserve_unusable_spec regions s :
  Forall region_u64 regions ->
  Z.of_nat (length regions) < 2 ^ 64 -> pmm_inv s ->
  exists s', reserve_unusable regions (Z.of_nat (length regions)) s = Some s' /\
    pmm_inv s' /\ same_geom s s' /\
    forall f, f ∈ free_set s' <-> f ∈ free_set s /\
      forall r, r ∈ regions -> r_type r <> BOOT_MEM_USABLE -> ~ reserves (r_base r) (r_length r) f.
Proof.
  intros Hfit Hlen. unfold reserve_unusable. rewrite Nat2Z.id, for_each_list by lia. clear Hlen.
  revert s. induction Hfit as [|r rs [Hr1 Hr2] Hrs IH]; intros s Hinv; simpl.
  { exists s. split_and!; [done|done|done|]. set_solver. }
  destruct (Z.eqb_spec (r_type r) BOOT_MEM_USABLE) as [Ht|Ht]; simpl.
  - destruct (IH s Hinv) as (s2 & -> & ? & Hgeom2 & Hset2).
    exists s2. split_and!; [done..|]. intros f. rewrite Hset2.
    setoid_rewrite elem_of_cons. naive_solver.
  - destruct (mark_range_used_spec s (r_base r) (r_length r))
      as (s1 & -> & Hinv1 & Hgeom1 & Hset1 & _); [done..|]. simpl.
    destruct (IH s1 Hinv1) as (s2 & -> & ? & Hgeom2 & Hset2).
    exists s2. split_and!; [done|done|by eapply same_geom_trans|]. intros f.
    rewrite Hset2, Hset1. setoid_rewrite elem_of_cons. naive_solver.
Qed.

(** The state before any region is processed: every frame in use. *)
Lemma all_used_inv bm required frames :
  bytes_ok bm -> 0 < frames -> frames * PMM_PAGE_SIZE < 2 ^ 64 ->
  frames <= 8 * Z.of_nat (length bm) -> (forall f, 0 <= f < frames -> bm_test bm f = true) ->
  let s := mk_pmm (Some bm) required (frames * PMM_PAGE_SIZE) frames 0 frames 0 0 0 false in
  pmm_inv s /\ free_set s = ∅.
Proof.
  intros Hok Hpos Hmax Hlen Hall s.
  assert (Hset : free_set s = ∅).
  { apply set_eq. intros f. rewrite (elem_of_free_set_bm s bm) by done. simpl.
    split; [intros [Hf Hb]; rewrite Hall in Hb by done; done|set_solver]. }
  split; [|done]. constructor; simpl; try lia; [eauto|]. by rewrite Hset, size_empty.
Qed.

Lemma pmm_init_from_map_spec pmm regions storage bytes max :
  regions <> [] -> Z.of_nat (length regions) < 2 ^ 64 ->
  Forall region_u64 regions ->
  bytes_ok storage -> 0 < max < 2 ^ 64 -> max mod PMM_PAGE_SIZE = 0 ->
  max / PMM_PAGE_SIZE <= 8 * bytes -> bytes <= Z.of_nat (length storage) ->
  exists s, pmm_init_from_map (Some pmm) (Some regions) (Z.of_nat (length regions))
      (Some storage) bytes max = Some (true, Some s) /\
    pmm_inv s /\ initialized s = true /\ frame_count s = max / PMM_PAGE_SIZE /\
    forall f, f ∈ free_set s <->
      0 < f < max / PMM_PAGE_SIZE /\
      (exists r, r ∈ regions /\ r_type r = BOOT_MEM_USABLE /\
         frees (r_base r) (r_length r) f) /\
      (forall r, r ∈ regions -> r_type r <> BOOT_MEM_USABLE ->
         ~ reserves (r_base r) (r_length r) f).
Proof.
  intros Hne Hlen Hfit Hok Hmax Hal Hreq Hby. unfold pmm_init_from_map.
  destruct (Z.eqb_spec (Z.of_nat (length regions)) 0); [destruct regions; [done|simpl in *; lia]|].
  change (PMM_PAGE_SIZE - 1) with (2 ^ 12 - 1). rewrite land_ones_mod by lia.
  change (2 ^ 12) with PMM_PAGE_SIZE. rewrite Hal.
  destruct (Z.eqb_spec max 0); [lia|]. simpl.
  set (frames := max / PMM_PAGE_SIZE) in *.
  assert (Hfr : max = frames * PMM_PAGE_SIZE) by (subst frames; unfold PMM_PAGE_SIZE in *; zdm).
  clearbody frames. unfold PMM_PAGE_SIZE in Hfr. rewrite (wrap_small 64 (frames + 7)) by (unfold in_u; lia).
  destruct (Z.ltb_spec bytes ((frames + 7) / 8)); [zdm|].
  destruct (fill_ff_spec storage ((frames + 7) / 8)) as (bm & -> & Hokb & Hlb & Hff);
    [done|zdm|zdm|]. simpl.
  destruct (all_used_inv bm ((frames + 7) / 8) frames) as [Hinv0 Hset0];
    [done|lia|unfold PMM_PAGE_SIZE; lia|rewrite Hlb; lia| |].
  { intros. apply Hff. zdm. }
  unfold PMM_PAGE_SIZE in Hinv0, Hset0. rewrite <- Hfr in Hinv0, Hset0.
  destruct (free_usable_spec regions _ Hfit Hlen Hinv0) as (s1 & -> & Hinv1 & Hg1 & Hset1). simpl.
  destruct (mark_range_used_spec s1 0 PMM_PAGE_SIZE) as (s2 & -> & Hinv2 & Hg2 & Hset2 & _);
    [done|unfold in_u, PMM_PAGE_SIZE; lia..|]. simpl.
  destruct (reserve_unusable_spec regions s2 Hfit Hlen Hinv2) as (s3 & -> & Hinv3 & Hg3 & Hset3).
  simpl. eexists. split; [done|].
  pose proof (same_geom_trans _ _ _ Hg1 (same_geom_trans _ _ _ Hg2 Hg3)) as (_ & Hfc & _).
  split_and!; [by destruct Hinv3; constructor|done|done|]. intros f.
  change (free_set (set_initialized s3 true)) with (free_set s3).
  rewrite Hset3, Hset2, Hset1, Hset0. simpl.
  assert (Hz : reserves 0 PMM_PAGE_SIZE f <-> f = 0) by (unfold reserves, touches, PMM_PAGE_SIZE; lia).
  rewrite Hz, elem_of_empty. clear -Hfr. split.
  - intros [[[[]|[? ?]] ?] ?]. split_and!; [lia|lia|done|done].
  - intros (? & ? & ?). split; [|done]. split; [right; split; [lia|done]|lia].
Qed.

(** On a map whose regions end before the last page. *)
Definition plain_map (regions : list boot_mem_region) : Prop := Forall (fun r => region_fits (r_base r) (r_length r)) regions.

Lemma plain_map_u64 regions : plain_map regions -> Forall region_u64 regions.
Proof.
  intros H. induction H as [|r rs Hr _ IH]; constructor; [|done]. unfold region_fits, region_u64, in_u, PMM_PAGE_SIZE in *. lia.
Qed.

Lemma plain_map_free regions f : plain_map regions ->
  ((exists r, r ∈ regions /\ r_type r = BOOT_MEM_USABLE /\ frees (r_base r) (r_length r) f) /\
   (forall r, r ∈ regions -> r_type r <> BOOT_MEM_USABLE -> ~ reserves (r_base r) (r_length r) f)) <->
  (exists r, r ∈ regions /\ r_type r = BOOT_MEM_USABLE /\ 0 < r_length r /\ covers (r_base r) (r_length r) f) /\
  (forall r, r ∈ regions -> r_type r <> BOOT_MEM_USABLE -> ~ touches (r_base r) (r_length r) f).
Proof.
  unfold plain_map. rewrite list.Forall_forall. intros Hfit. split; intros [(r & Hr & Ht & Hf) Hu]; (split; [exists r|]).
  - apply frees_fits in Hf; [tauto|by apply Hfit].
  - intros r' Hr' Ht'. rewrite <- reserves_fits by (by apply Hfit). auto.
  - split_and!; [done|done|]. apply frees_fits; [by apply Hfit|done].
  - intros r' Hr' Ht'. rewrite reserves_fits by (by apply Hfit). auto.
Qed.

(** C15. [pmm_init_from_map] on any boot map of 64-bit regions succeeds
    without touching memory outside the bitmap and establishes the invariant.
    A frame is then free exactly when it is not frame 0, some usable region
    frees it and no region of another type reserves it.  When every region
    ends before the last page of the address space, to free is to cover and to
    reserve is to touch; otherwise the rounding wraps, so that a usable region
    that starts in the last page frees every frame and a reservation that ends
    there reserves none ([frees], [reserves]). *)
Theorem pmm_init_from_map_correct pmm regions storage bytes max :
  regions <> [] -> Z.of_nat (length regions) < 2 ^ 64 -> Forall region_u64 regions ->
  bytes_ok storage -> 0 < max < 2 ^ 64 -> max mod PMM_PAGE_SIZE = 0 ->
  max / PMM_PAGE_SIZE <= 8 * bytes -> bytes <= Z.of_nat (length storage) ->
  exists s, pmm_init_from_map (Some pmm) (Some regions) (Z.of_nat (length regions))
      (Some storage) bytes max = Some (true, Some s) /\
    pmm_inv s /\ initialized s = true /\ frame_count s = max / PMM_PAGE_SIZE /\
    (forall f, f ∈ free_set s <->
      0 < f < max / PMM_PAGE_SIZE /\
      (exists r, r ∈ regions /\ r_type r = BOOT_MEM_USABLE /\ frees (r_base r) (r_length r) f) /\
      (forall r, r ∈ regions -> r_type r <> BOOT_MEM_USABLE -> ~ reserves (r_base r) (r_length r) f)) /\
    (plain_map regions -> forall f, f ∈ free_set s <->
      0 < f < max / PMM_PAGE_SIZE /\
      (exists r, r ∈ regions /\ r_type r = BOOT_MEM_USABLE /\ 0 < r_length r /\ covers (r_base r) (r_length r) f) /\
      (forall r, r ∈ regions -> r_type r <> BOOT_MEM_USABLE -> ~ touches (r_base r) (r_length r) f)).
Proof.
  intros H1 H2 H3 H4 H5 H6 H7 H8. destruct (pmm_init_from_map_spec pmm regions storage bytes max) as (s & E & Hinv & Hi & Hc & Hf); [done..|].
  exists s. split_and!; [done|done|done|done|done|]. intros Hfit f. by rewrite Hf, plain_map_free.
Qed.

Definition demo_map : list boot_mem_region :=
  [mk_region 0 0x9f00 BOOT_MEM_USABLE; mk_region 0x3000 0x800 BOOT_MEM_RESERVED].

Definition zero_pmm : pmm_state := mk_pmm None 0 0 0 0 0 0 0 0 false.

Lemma pmm_init_from_map_witness :
  exists s, pmm_init_from_map (Some zero_pmm) (Some demo_map) 2
      (Some (replicate 2 0)) 2 0x10000 = Some (true, Some s) /\
    pmm_inv s /\ free_frames s = 7 /\ 4 ∈ free_set s.
Proof.
  destruct (pmm_init_from_map_correct zero_pmm demo_map (replicate 2 0) 2 0x10000)
    as (s & Hs & Hinv & _ & _ & _ & Hset); unfold PMM_PAGE_SIZE in *.
  - done.
  - simpl. lia.
  - apply plain_map_u64. unfold plain_map, demo_map, region_fits, PMM_PAGE_SIZE. repeat constructor; simpl; lia.
  - unfold bytes_ok, in_u. repeat constructor; lia.
  - lia.
  - reflexivity.
  - vm_compute. discriminate.
  - simpl. lia.
  - exists s. split; [exact Hs|]. split; [exact Hinv|].
    split; [clear -Hs; vm_compute in Hs; injection Hs as <-; reflexivity|].
    apply Hset; [unfold plain_map, demo_map, region_fits, PMM_PAGE_SIZE; repeat constructor; simpl; lia|].
    clear Hs Hset Hinv. split; [split; reflexivity|]. split.
    + exists (mk_region 0 0x9f00 BOOT_MEM_USABLE). unfold covers, PMM_PAGE_SIZE. simpl.
      split_and!; [by left|done|lia|lia|lia].
    + intros r Hr Ht. unfold demo_map in Hr. rewrite !elem_of_cons, elem_of_nil in Hr.
      destruct Hr as [->|[->|[]]]; [done|]. unfold touches, PMM_PAGE_SIZE. simpl. lia.
Defined.


(** A small initialised state: four frames, all but frame 0 free. *)
Definition demo_state : pmm_state := mk_pmm (Some [1]) 1 0x4000 4 3 1 1 0 0 true.

Lemma demo_state_inv : pmm_inv demo_state.
Proof.
  constructor; simpl; unfold PMM_PAGE_SIZE; try lia.
  - exists [1]. split_and!; [done| |simpl; lia]. repeat constructor; lia.
  - reflexivity.
Qed.


(** ** Traces *)

(** Clients of the allocator: the addresses handed out and not yet freed. *)
Inductive pmm_step : pmm_state * gset Z -> pmm_state * gset Z -> Prop :=
| step_alloc s O a s' :
    pmm_alloc_frame (Some s) = Some (a, Some s') -> a <> PMM_INVALID_FRAME ->
    pmm_step (s, O) (s', {[a]} ∪ O)
| step_alloc_fail s O s' :
    pmm_alloc_frame (Some s) = Some (PMM_INVALID_FRAME, Some s') ->
    pmm_step (s, O) (s', O)
| step_free s O a ok s' :
    a ∈ O -> pmm_free_frame (Some s) a = Some (ok, Some s') ->
    pmm_step (s, O) (s', O ∖ {[a]})
| step_reserve s O base len s' :
    in_u 64 base -> in_u 64 len -> 0 < len ->
    pmm_reserve_range (Some s) base len = Some (true, Some s') ->
    pmm_step (s, O) (s', O).

Definition owned_ok (s : pmm_state) (O : gset Z) : Prop :=
  forall a, a ∈ O -> a mod PMM_PAGE_SIZE = 0 /\ 0 < a < max_phys s /\
    a / PMM_PAGE_SIZE ∉ free_set s.

Definition trace_inv (c : pmm_state * gset Z) : Prop :=
  pmm_inv (fst c) /\ initialized (fst c) = true /\ (0 ∉ free_set (fst c)) /\
  owned_ok (fst c) (snd c).

Lemma owned_ok_shrink s s' O O' :
  same_geom s s' -> free_set s' ⊆ free_set s -> O' ⊆ O -> owned_ok s O -> owned_ok s' O'.
Proof.
  intros (Hmp & _ & _) Hset HO H a Ha. destruct (H a) as (? & ? & ?); [set_solver|].
  rewrite Hmp. split_and!; [done|lia|lia|set_solver].
Qed.

Lemma alloc_result s a s' :
  pmm_inv s -> initialized s = true -> pmm_alloc_frame (Some s) = Some (a, Some s') ->
  pmm_inv s' /\ same_geom s s' /\ spec_alloc (free_set s) a (free_set s').
Proof.
  intros Hinv Hinit Ha. destruct (pmm_alloc_frame_spec s Hinv Hinit) as (a1 & s1 & H1 & ? & ? & ?).
  rewrite Ha in H1. by injection H1 as <- <-.
Qed.

Lemma spec_alloc_fresh s O a s' :
  trace_inv (s, O) -> pmm_alloc_frame (Some s) = Some (a, Some s') -> a <> PMM_INVALID_FRAME ->
  (a ∉ O) /\ a mod PMM_PAGE_SIZE = 0 /\ 0 < a < max_phys s /\
  a / PMM_PAGE_SIZE ∈ free_set s /\ free_set s' = free_set s ∖ {[a / PMM_PAGE_SIZE]}.
Proof.
  intros (Hinv & Hinit & H0 & Hown) Ha Hne. cbn [fst snd] in *.
  destruct (alloc_result s a s' Hinv Hinit Ha) as (_ & _ & [(_ & ? & _)|(f & Hf & _ & -> & Hset)]);
    [done|].
  pose proof (inv_frames _ Hinv) as (_ & Hmp & _).
  pose proof (proj1 (elem_of_free_set _ _) Hf) as [Hr _].
  assert (f <> 0) by (intros ->; done).
  assert (Hd : f * PMM_PAGE_SIZE / PMM_PAGE_SIZE = f) by (apply Z.div_mul; done).
  rewrite Hd, Z.mod_mul by done.
  split_and!; [|done|unfold PMM_PAGE_SIZE in *; lia|unfold PMM_PAGE_SIZE in *; lia|done|done].
  intros HO. destruct (Hown _ HO) as (_ & _ & Hn). by rewrite Hd in Hn.
Qed.

Lemma free_result s a ok s' :
  pmm_inv s -> initialized s = true -> 0 <= a -> pmm_free_frame (Some s) a = Some (ok, Some s') ->
  pmm_inv s' /\ same_geom s s' /\ spec_free (frame_count s) (free_set s) a ok (free_set s').
Proof.
  intros Hinv Hinit H0 Ha.
  destruct (pmm_free_frame_spec s a Hinv Hinit H0) as (ok1 & s1 & H1 & ? & ? & ? & _).
  rewrite Ha in H1. by injection H1 as <- <-.
Qed.

Lemma trace_inv_free s O a ok s' :
  trace_inv (s, O) -> a ∈ O -> pmm_free_frame (Some s) a = Some (ok, Some s') ->
  ok = true /\ trace_inv (s', O ∖ {[a]}).
Proof.
  intros (Hinv & Hinit & H0 & Hown) HO Ha. cbn [fst snd] in *. destruct (Hown a HO) as (Hal & Hr & Hn).
  destruct (free_result s a ok s') as (Hinv' & Hg & Hspec); [done|done|lia|done|].
  pose proof (inv_frames _ Hinv) as (_ & Hmp & _). unfold spec_free in Hspec.
  rewrite decide_True in Hspec by (split_and!; [done|lia|lia|done]).
  destruct Hspec as [-> Hset]. split; [done|]. unfold PMM_PAGE_SIZE in *.
  destruct Hg as (Hg1 & Hg2 & Hg3). unfold trace_inv, owned_ok; simpl.
  rewrite Hset, Hg1, Hg3. split_and!; [done|done| |].
  - rewrite elem_of_union, elem_of_singleton. intros [?|?]; [zdm|done].
  - intros b Hb. apply elem_of_difference in Hb as [Hb Hne]. rewrite elem_of_singleton in Hne.
    destruct (Hown b Hb) as (Hb1 & Hb2 & Hb3). unfold PMM_PAGE_SIZE in *. split; [done|]. split; [lia|].
    rewrite elem_of_union, elem_of_singleton. intros [?|?]; [zdm|done].
Qed.

Lemma trace_inv_step c c' : trace_inv c -> pmm_step c c' -> trace_inv c'.
Proof.
  intros Hc Hstep. destruct Hstep as [s O a s' Ha Hne|s O s' Ha|s O a ok s' HO Ha|s O base len s' Hb Hl Hlen Ha].
  - destruct (spec_alloc_fresh _ _ _ _ Hc Ha Hne) as (_ & Hal & Hr & Hin & Hset).
    destruct Hc as (Hinv & Hinit & H0 & Hown); cbn [fst snd] in *.
    destruct (alloc_result s a s' Hinv Hinit Ha) as (Hinv' & Hg & _).
    pose proof Hg as (Hg1 & _ & Hg3). split_and!; simpl; [done|by rewrite Hg3|set_solver|].
    intros b [->%elem_of_singleton|Hb]%elem_of_union.
    + rewrite Hg1, Hset. split_and!; [done|lia|lia|set_solver].
    + eapply (owned_ok_shrink s s' O O); [done|set_solver|set_solver|done|done].
  - destruct Hc as (Hinv & Hinit & H0 & Hown); cbn [fst snd] in *.
    destruct (alloc_result s _ s' Hinv Hinit Ha) as (Hinv' & Hg & Hspec).
    assert (Hset : free_set s' ⊆ free_set s)
      by (destruct Hspec as [(_ & _ & ->)|(? & _ & _ & _ & ->)]; set_solver).
    pose proof Hg as (Hg1 & _ & Hg3). split_and!; simpl; [done|by rewrite Hg3|set_solver|].
    by eapply owned_ok_shrink.
  - by eapply trace_inv_free.
  - destruct Hc as (Hinv & Hinit & H0 & Hown); cbn [fst snd] in *.
    destruct (pmm_reserve_range_spec s base len) as (s1 & H1 & Hinv' & Hg & Hset & _); [done..|].
    rewrite Ha in H1. injection H1 as <-. pose proof Hg as (Hg1 & _ & Hg3).
    assert (free_set s' ⊆ free_set s) by (intros f; rewrite Hset; naive_solver).
    split_and!; simpl; [done|by rewrite Hg3|set_solver|]. by eapply owned_ok_shrink.
Qed.

(** C36. No double allocation: after any sequence of allocations, frees of owned
    frames and reservations that starts from an initialised allocator in which
    frame 0 is reserved, a successful allocation returns a page-aligned address
    inside managed memory, different from 0 and from every address still owned;
    and freeing any owned address succeeds. *)
Theorem pmm_no_double_allocation s0 s O :
  pmm_inv s0 -> initialized s0 = true -> 0 ∉ free_set s0 ->
  rtc pmm_step (s0, ∅) (s, O) ->
  (forall a s', pmm_alloc_frame (Some s) = Some (a, Some s') -> a <> PMM_INVALID_FRAME ->
     (a ∉ O) /\ a mod PMM_PAGE_SIZE = 0 /\ 0 < a < max_phys s) /\
  (forall a, a ∈ O -> exists s', pmm_free_frame (Some s) a = Some (true, Some s')).
Proof.
  intros Hinv Hinit H0 Hrtc.
  assert (Htr : trace_inv (s, O)).
  { apply (rtc_ind_r trace_inv (s0, ∅)) in Hrtc; [done|by split_and!|].
    intros c c' _ Hs Hc. by eapply trace_inv_step. }
  split.
  - intros a s' Ha Hne. destruct (spec_alloc_fresh _ _ _ _ Htr Ha Hne) as (? & ? & ? & _). done.
  - intros a HO. pose proof Htr as (Hinv' & Hinit' & _ & Hown); cbn [fst snd] in *.
    destruct (Hown a HO) as (_ & ? & _).
    destruct (pmm_free_frame_spec s a) as (ok & s' & Ha & _); [done|done|lia|].
    destruct (trace_inv_free _ _ _ _ _ Htr HO Ha) as [-> _]. eauto.
Qed.

Lemma pmm_no_double_allocation_witness :
  exists s1, pmm_alloc_frame (Some demo_state) = Some (0x1000, Some s1) /\
    (exists s2, pmm_alloc_frame (Some s1) = Some (0x2000, Some s2)) /\
    exists s3, pmm_free_frame (Some s1) 0x1000 = Some (true, Some s3).
Proof.
  eexists. split; [reflexivity|]. split; [eexists; vm_compute; reflexivity|].
  match goal with |- exists s3, pmm_free_frame (Some ?s1) _ = _ =>
    destruct (pmm_no_double_allocation demo_state s1 ({[0x1000]} ∪ ∅)) as [_ Hfree] end;
    [apply demo_state_inv|reflexivity| | |].
  - rewrite elem_of_free_set. intros [_ ?]. done.
  - eapply rtc_once, step_alloc; [reflexivity|discriminate].
  - apply Hfree. set_solver.
Defined.

(** Round trip: freeing the address a successful allocation returned
    succeeds and restores the set of free frames and both counters. *)
Theorem pmm_alloc_free_roundtrip s a s' :
  pmm_inv s -> initialized s = true -> 0 ∉ free_set s ->
  pmm_alloc_frame (Some s) = Some (a, Some s') -> a <> PMM_INVALID_FRAME ->
  exists s'', pmm_free_frame (Some s') a = Some (true, Some s'') /\ pmm_inv s'' /\
    free_set s'' = free_set s /\ free_frames s'' = free_frames s /\
    used_frames s'' = used_frames s.
Proof.
  intros Hinv Hinit H0 Ha Hne.
  destruct (spec_alloc_fresh s ∅ a s') as (_ & Hal & Hr & Hin & Hset); [by split_and!|done|done|].
  destruct (alloc_result s a s' Hinv Hinit Ha) as (Hinv' & (Hg1 & Hg2 & Hg3) & _).
  destruct (pmm_free_frame_spec s' a) as (ok & s'' & Hf & Hinv'' & (Hh1 & Hh2 & Hh3) & Hspec & _);
    [done|congruence|lia|]. pose proof (inv_frames _ Hinv) as (_ & Hmp & _).
  unfold spec_free in Hspec. rewrite Hg2, Hset in Hspec.
  rewrite decide_True in Hspec by (split_and!; [done|lia|lia|set_solver]).
  destruct Hspec as [-> Hset''].
  assert (Hback : free_set s'' = free_set s).
  { rewrite Hset''. apply set_eq. intros x. destruct (decide (x = a / PMM_PAGE_SIZE)); set_solver. }
  exists s''. split_and!; [done|done|done|by rewrite (inv_free _ Hinv''), (inv_free _ Hinv), Hback|].
  rewrite (inv_used _ Hinv''), (inv_used _ Hinv), (inv_free _ Hinv''), (inv_free _ Hinv), Hback. lia.
Qed.

Lemma pmm_alloc_free_roundtrip_witness :
  exists s1 s2, pmm_alloc_frame (Some demo_state) = Some (0x1000, Some s1) /\
    pmm_free_frame (Some s1) 0x1000 = Some (true, Some s2) /\ free_frames s2 = 3.
Proof.
  eexists. 
  match goal with |- exists s2, _ = Some (_, Some ?s1) /\ _ =>
    edestruct (pmm_alloc_free_roundtrip demo_state 0x1000 s1) as (s2 & Hf & _ & _ & Hc & _) end;
    [apply demo_state_inv|reflexivity| |reflexivity|discriminate|].
  - rewrite elem_of_free_set. intros [_ ?]. done.
  - exists s2. split; [reflexivity|]. split; [exact Hf|exact Hc].
Defined.

(** Wrap-around in the page rounding: a usable region that starts inside
    the last page of the 64-bit address space makes [align_up] wrap to 0, and
    every managed frame is marked free; a reservation whose end reaches into
    that page makes [align_up] wrap too, and nothing is reserved although
    [pmm_reserve_range] returns true. *)
Theorem pmm_last_page_wraps s base len :
  pmm_inv s -> initialized s = true -> 0 <= base -> 0 < len -> base + len < 2 ^ 64 ->
  (2 ^ 64 - 4095 <= base ->
     exists s', mark_range_free s base len = Some s' /\
       forall f, f ∈ free_set s' <-> 0 <= f < frame_count s) /\
  (2 ^ 64 - 4095 <= base + len ->
     pmm_reserve_range (Some s) base len = Some (true, Some s)).
Proof.
  intros Hinv Hinit Hb Hl Hend. pose proof (inv_frames _ Hinv) as (Hfc & Hmp & Hmax).
  assert (Hin : in_u 64 base /\ in_u 64 len) by (unfold in_u; lia). destruct Hin. split.
  - intros Hbase. destruct (mark_range_free_spec s base len) as (s' & E & _ & _ & Hset); [done..|]. exists s'. split; [done|].
    intros f. rewrite Hset, elem_of_free_set. unfold frees, PMM_PAGE_SIZE. intuition lia.
  - intros Hlast. unfold pmm_reserve_range, mark_range_used. rewrite Hinit, checked_add_spec, decide_True by done. simpl.
    destruct (Z.eqb_spec len 0); [lia|]. rewrite align_up_wraps, align_down_spec by (unfold in_u; lia).
    destruct (Z.leb_spec 0 (base / 4096 * 4096)); [done|zdm].
Qed.

Lemma pmm_last_page_wraps_witness :
  (exists s', mark_range_free demo_state (2 ^ 64 - 2048) 16 = Some s' /\ 0 ∈ free_set s') /\
  pmm_reserve_range (Some demo_state) (2 ^ 64 - 2048) 16 = Some (true, Some demo_state).
Proof.
  destruct (pmm_last_page_wraps demo_state (2 ^ 64 - 2048) 16) as [H1 H2];
    [apply demo_state_inv|reflexivity|lia|lia|lia|].
  split.
  - destruct H1 as (s' & Hs' & Hset); [lia|]. exists s'. split; [exact Hs'|].
    apply Hset. vm_compute. split; [discriminate|reflexivity].
  - apply H2. lia.
Defined.

End Pmm.
