(* ===== verification/Elf.v ===== *)
(** * ELF64 loader planner ([kernel/user/m11_elf_loader.c])

    [m11_elf64_plan_load] validates an untrusted ELF image held in memory and
    fills a plan of at most eight loadable segments.  The image is a byte
    list; every header field is a little-endian load at the offset of the C
    struct, and a load outside the image is [None], so the theorem that the
    planner always returns [Some _] is its memory safety on hostile input. *)
From S2P Require Import Prelude Bitmap Bytes.
From stdpp Require Import base list numbers option strings.
From Stdlib Require Import ZArith Lia.

Open Scope Z_scope.

Module Elf.

(** ** Constants and data *)

Definition M11_ELFMAG0 : Z := 0x7f.
Definition M11_ELFMAG1 : Z := 69.  (* 'E' *)
Definition M11_ELFMAG2 : Z := 76.  (* 'L' *)
Definition M11_ELFMAG3 : Z := 70.  (* 'F' *)
Definition M11_ELFCLASS64 : Z := 2.
Definition M11_ELFDATA2LSB : Z := 1.
Definition M11_EV_CURRENT : Z := 1.
Definition M11_ET_EXEC : Z := 2.
Definition M11_ET_DYN : Z := 3.
Definition M11_EM_X86_64 : Z := 62.
Definition M11_PT_LOAD : Z := 1.
Definition M11_PF_X : Z := 1.
Definition M11_PF_W : Z := 2.
Definition M11_PF_R : Z := 4.
Definition M11_MAX_LOAD_SEGMENTS : Z := 8.

Definition M11_OK : Z := 0.
Definition M11_ERR_NULL : Z := -1.
Definition M11_ERR_SIZE : Z := -2.
Definition M11_ERR_MAGIC : Z := -3.
Definition M11_ERR_CLASS : Z := -4.
Definition M11_ERR_ENDIAN : Z := -5.
Definition M11_ERR_VERSION : Z := -6.
Definition M11_ERR_TYPE : Z := -7.
Definition M11_ERR_MACHINE : Z := -8.
Definition M11_ERR_EHSIZE : Z := -9.
Definition M11_ERR_PHENTSIZE : Z := -10.
Definition M11_ERR_PHBOUNDS : Z := -11.
Definition M11_ERR_ALIGN : Z := -12.
Definition M11_ERR_SEGBOUNDS : Z := -13.
Definition M11_ERR_SEGRANGE : Z := -14.
Definition M11_ERR_SEGCOUNT : Z := -15.
Definition M11_ERR_ENTRY : Z := -16.
Definition M11_ERR_FLAGS : Z := -17.

(** The header fields the loader reads, and their sizes as structs. *)
Record m11_elf64_ehdr := mk_ehdr {
  e_ident : list Z;
  e_type : Z;
  e_machine : Z;
  e_version : Z;
  e_entry : Z;
  e_phoff : Z;
  e_ehsize : Z;
  e_phentsize : Z;
  e_phnum : Z
}.
Definition sizeof_ehdr : Z := 64.

Record m11_elf64_phdr := mk_phdr {
  p_type : Z;
  p_flags : Z;
  p_offset : Z;
  p_vaddr : Z;
  p_paddr : Z;
  p_filesz : Z;
  p_memsz : Z;
  p_align : Z
}.
Definition sizeof_phdr : Z := 56.

Record m11_user_region := mk_region { rg_base : Z; rg_limit : Z }.

Record m11_segment_plan := mk_seg {
  file_offset : Z;
  vaddr : Z;
  filesz : Z;
  memsz : Z;
  align : Z;
  flags : Z
}.

Record m11_process_image_plan := mk_plan {
  entry : Z;
  segment_count : Z;
  segments : list m11_segment_plan
}.

(** The struct overlays: field offsets of the two ELF headers. *)
Definition read_ehdr (image : list Z) : option m11_elf64_ehdr :=
  ident ← slice image 0 16;
  ty ← ld 2 image 16; mach ← ld 2 image 18; ver ← ld 4 image 20;
  ent ← ld 8 image 24; phoff ← ld 8 image 32;
  ehsize ← ld 2 image 52; phentsize ← ld 2 image 54; phnum ← ld 2 image 56;
  Some (mk_ehdr ident ty mach ver ent phoff ehsize phentsize phnum).

Definition read_phdr (image : list Z) (off : Z) : option m11_elf64_phdr :=
  ty ← ld 4 image off; fl ← ld 4 image (off + 4); o ← ld 8 image (off + 8);
  va ← ld 8 image (off + 16); pa ← ld 8 image (off + 24); fs ← ld 8 image (off + 32);
  ms ← ld 8 image (off + 40); al ← ld 8 image (off + 48);
  Some (mk_phdr ty fl o va pa fs ms al).

(** ** Operations *)

(** [Some r] is the in-range sum, [None] the overflow return. *)
Definition m11_add_overflow_u64 (a b : Z) : option Z :=
  let r := u64 (a + b) in if r <? a then None else Some r.

Definition m11_is_power_of_two_u64 (v : Z) : bool :=
  negb (v =? 0) && (Z.land v (u64 (v - 1)) =? 0).

Definition zero_seg : m11_segment_plan := mk_seg 0 0 0 0 0 0.

Definition m11_zero_plan : m11_process_image_plan := mk_plan 0 0 (replicate 8 zero_seg).

Definition m11_validate_user_range (region : m11_user_region) (base size : Z) : Z :=
  if rg_limit region <=? rg_base region then M11_ERR_SEGRANGE else
  if size =? 0 then M11_ERR_SEGRANGE else
  match m11_add_overflow_u64 base size with
  | None => M11_ERR_SEGRANGE
  | Some e =>
      if (base <? rg_base region) || (rg_limit region <? e) || (e <=? base)
      then M11_ERR_SEGRANGE else M11_OK
  end.

Definition ident_at (eh : m11_elf64_ehdr) (i : nat) : Z := nth i (e_ident eh) 0.

Definition m11_validate_ident (eh : m11_elf64_ehdr) : Z :=
  if negb (ident_at eh 0 =? M11_ELFMAG0) || negb (ident_at eh 1 =? M11_ELFMAG1) ||
     negb (ident_at eh 2 =? M11_ELFMAG2) || negb (ident_at eh 3 =? M11_ELFMAG3)
  then M11_ERR_MAGIC else
  if negb (ident_at eh 4 =? M11_ELFCLASS64) then M11_ERR_CLASS else
  if negb (ident_at eh 5 =? M11_ELFDATA2LSB) then M11_ERR_ENDIAN else
  if negb (ident_at eh 6 =? M11_EV_CURRENT) || negb (e_version eh =? M11_EV_CURRENT)
  then M11_ERR_VERSION else M11_OK.

Definition m11_validate_phdr_bounds (eh : m11_elf64_ehdr) (image_size : Z) : Z :=
  if e_phnum eh =? 0 then M11_ERR_PHBOUNDS else
  if negb (e_phentsize eh =? sizeof_phdr) then M11_ERR_PHENTSIZE else
  let ph_table_bytes := u64 (e_phentsize eh * e_phnum eh) in
  if negb (e_phnum eh =? 0) && negb (ph_table_bytes / e_phnum eh =? e_phentsize eh)
  then M11_ERR_PHBOUNDS else
  match m11_add_overflow_u64 (e_phoff eh) ph_table_bytes with
  | None => M11_ERR_PHBOUNDS
  | Some ph_end =>
      if (image_size <? ph_end) || (image_size <? e_phoff eh)
      then M11_ERR_PHBOUNDS else M11_OK
  end.

Definition m11_validate_load_segment (ph : m11_elf64_phdr) (image_size : Z)
    (region : m11_user_region) : Z :=
  if negb (Z.land (p_flags ph)
             (u32 (Z.lnot (Z.lor (Z.lor M11_PF_R M11_PF_W) M11_PF_X))) =? 0)
  then M11_ERR_FLAGS else
  if negb (Z.land (p_flags ph) M11_PF_W =? 0) && negb (Z.land (p_flags ph) M11_PF_X =? 0)
  then M11_ERR_FLAGS else
  if p_memsz ph <? p_filesz ph then M11_ERR_SEGBOUNDS else
  let aligned := negb (p_align ph =? 0) && negb (p_align ph =? 1) in
  if aligned && negb (m11_is_power_of_two_u64 (p_align ph)) then M11_ERR_ALIGN else
  if aligned && negb (p_vaddr ph mod p_align ph =? p_offset ph mod p_align ph)
  then M11_ERR_ALIGN else
  match m11_add_overflow_u64 (p_offset ph) (p_filesz ph) with
  | None => M11_ERR_SEGBOUNDS
  | Some file_end =>
      if (image_size <? file_end) || (image_size <? p_offset ph)
      then M11_ERR_SEGBOUNDS
      else m11_validate_user_range region (p_vaddr ph) (p_memsz ph)
  end.

Definition seg_of_phdr (ph : m11_elf64_phdr) : m11_segment_plan :=
  mk_seg (p_offset ph) (p_vaddr ph) (p_filesz ph) (p_memsz ph) (p_align ph) (p_flags ph).

(** One iteration over the program header table. *)
Definition plan_step (image : list Z) (image_size : Z) (region : m11_user_region)
    (phoff i : Z) (plan : m11_process_image_plan)
    : option (ctl m11_process_image_plan (Z * m11_process_image_plan)) :=
  ph ← read_phdr image (phoff + i * sizeof_phdr);
  if negb (p_type ph =? M11_PT_LOAD) then Some (Cont plan) else
  if M11_MAX_LOAD_SEGMENTS <=? segment_count plan
  then Some (Ret (M11_ERR_SEGCOUNT, m11_zero_plan)) else
  let rc := m11_validate_load_segment ph image_size region in
  if negb (rc =? M11_OK) then Some (Ret (rc, m11_zero_plan)) else
  segs ← arr_set (segments plan) (segment_count plan) (seg_of_phdr ph);
  Some (Cont (mk_plan (entry plan) (u32 (segment_count plan + 1)) segs)).

Definition m11_elf64_plan_load (image : option (list Z)) (image_size : Z)
    (region : m11_user_region) (out_plan : option m11_process_image_plan)
    : option (Z * option m11_process_image_plan) :=
  match image, out_plan with
  | Some image, Some _ =>
      let plan := m11_zero_plan in
      if image_size <? sizeof_ehdr then Some (M11_ERR_SIZE, Some plan) else
      eh ← read_ehdr image;
      let rc := m11_validate_ident eh in
      if negb (rc =? M11_OK) then Some (rc, Some plan) else
      if negb (e_type eh =? M11_ET_EXEC) && negb (e_type eh =? M11_ET_DYN)
      then Some (M11_ERR_TYPE, Some plan) else
      if negb (e_machine eh =? M11_EM_X86_64) then Some (M11_ERR_MACHINE, Some plan) else
      if negb (e_ehsize eh =? sizeof_ehdr) then Some (M11_ERR_EHSIZE, Some plan) else
      let rc := m11_validate_phdr_bounds eh image_size in
      if negb (rc =? M11_OK) then Some (rc, Some plan) else
      let rc := m11_validate_user_range region (e_entry eh) 1 in
      if negb (rc =? M11_OK) then Some (M11_ERR_ENTRY, Some plan) else
      let plan := mk_plan (e_entry eh) (segment_count plan) (segments plan) in
      c ← for_loop (Z.to_nat (e_phnum eh)) 16 1 0 (e_phnum eh)
            (plan_step image image_size region (e_phoff eh)) plan;
      match c with
      | Ret (rc, plan) => Some (rc, Some plan)
      | Cont plan =>
          if segment_count plan =? 0 then Some (M11_ERR_SEGCOUNT, Some plan)
          else Some (M11_OK, Some plan)
      end
  | _, _ => Some (M11_ERR_NULL, out_plan)
  end.

Definition m11_error_name (code : Z) : string :=
  match code with
  | 0 => "M11_OK"
  | -1 => "M11_ERR_NULL"
  | -2 => "M11_ERR_SIZE"
  | -3 => "M11_ERR_MAGIC"
  | -4 => "M11_ERR_CLASS"
  | -5 => "M11_ERR_ENDIAN"
  | -6 => "M11_ERR_VERSION"
  | -7 => "M11_ERR_TYPE"
  | -8 => "M11_ERR_MACHINE"
  | -9 => "M11_ERR_EHSIZE"
  | -10 => "M11_ERR_PHENTSIZE"
  | -11 => "M11_ERR_PHBOUNDS"
  | -12 => "M11_ERR_ALIGN"
  | -13 => "M11_ERR_SEGBOUNDS"
  | -14 => "M11_ERR_SEGRANGE"
  | -15 => "M11_ERR_SEGCOUNT"
  | -16 => "M11_ERR_ENTRY"
  | -17 => "M11_ERR_FLAGS"
  | _ => "M11_ERR_UNKNOWN"
  end%string.

(** The synthetic image of [m11_integration_smoke_test]: a zeroed buffer and
    the header stores, as (width, offset, value). *)
Definition smoke_stores : list (Z * Z * Z) :=
  [ (1, 0, M11_ELFMAG0); (1, 1, M11_ELFMAG1); (1, 2, M11_ELFMAG2); (1, 3, M11_ELFMAG3);
    (1, 4, M11_ELFCLASS64); (1, 5, M11_ELFDATA2LSB); (1, 6, M11_EV_CURRENT);
    (2, 16, M11_ET_EXEC); (2, 18, M11_EM_X86_64); (4, 20, M11_EV_CURRENT);
    (8, 24, 0x401000); (8, 32, sizeof_ehdr);
    (2, 52, sizeof_ehdr); (2, 54, sizeof_phdr); (2, 56, 2);
    (* ph[0] *)
    (4, 64, M11_PT_LOAD); (4, 68, Z.lor M11_PF_R M11_PF_X); (8, 72, 0x1000);
    (8, 80, 0x400000); (8, 96, 16); (8, 104, 4096); (8, 112, 4096);
    (* ph[1] *)
    (4, 120, M11_PT_LOAD); (4, 124, Z.lor M11_PF_R M11_PF_W); (8, 128, 0x2000);
    (8, 136, 0x401000); (8, 152, 8); (8, 160, 4096); (8, 168, 4096) ].

Definition smoke_image : option (list Z) :=
  fold_opt (fun '(n, off, v) img => st (Z.to_nat n) img off v) smoke_stores (replicate (Z.to_nat 12288) 0).

Definition smoke_region : m11_user_region := mk_region 0x400000 0x8000000000.

(** The plan the smoke test logs, or the error it reports. *)
Definition m11_integration_smoke_test : option (Z * option m11_process_image_plan) :=
  img ← smoke_image;
  m11_elf64_plan_load (Some img) 12288 smoke_region (Some m11_zero_plan).

(** ** What a planned segment guarantees *)

Record seg_ok (region : m11_user_region) (image_size : Z) (sg : m11_segment_plan) : Prop := {
  seg_in_region : rg_base region <= vaddr sg /\ vaddr sg + memsz sg <= rg_limit region;
  seg_nonempty : 0 < memsz sg;
  seg_sizes : filesz sg <= memsz sg;
  seg_in_file : file_offset sg + filesz sg <= image_size;
  seg_flags : 0 <= flags sg < 8;
  seg_wx : Z.testbit (flags sg) 1 = false \/ Z.testbit (flags sg) 0 = false;
  seg_align : align sg = 0 \/ exists k, 0 <= k /\ align sg = 2 ^ k /\
    vaddr sg mod align sg = file_offset sg mod align sg
}.

(** The program header table, and its loadable entries. *)
Definition phdr_table (image : list Z) (eh : m11_elf64_ehdr) : option (list m11_elf64_phdr) :=
  mapM (fun i => read_phdr image (e_phoff eh + i * sizeof_phdr)) (seqZ 0 (e_phnum eh)).

Definition loads (phs : list m11_elf64_phdr) : list m11_elf64_phdr :=
  filter (fun ph => p_type ph = M11_PT_LOAD) phs.

(** An ELF header the loader may accept, in the terms of the ELF format: the
    magic, 64-bit class, little-endian data and version 1 identification, an
    x86-64 executable or shared object, a program header table of 56-byte
    entries inside the image, and an entry point in the user region. *)
Record header_ok (eh : m11_elf64_ehdr) (image_size : Z) (region : m11_user_region) : Prop := {
  hd_ident : take 7 (e_ident eh) = [127; 69; 76; 70; 2; 1; 1];
  hd_version : e_version eh = 1;
  hd_type : e_type eh = 2 \/ e_type eh = 3;
  hd_machine : e_machine eh = 62;
  hd_ehsize : e_ehsize eh = 64;
  hd_phentsize : e_phentsize eh = 56;
  hd_phnum : 0 < e_phnum eh;
  hd_table : e_phoff eh + e_phnum eh * 56 <= image_size;
  hd_entry : rg_base region <= e_entry eh < rg_limit region
}.

(** An image the loader may accept: a valid header and between one and eight
    loadable program headers, each of them safe to load. *)
Record elf_valid (image : list Z) (image_size : Z) (region : m11_user_region)
    (eh : m11_elf64_ehdr) (phs : list m11_elf64_phdr) : Prop := {
  ev_size : sizeof_ehdr <= image_size;
  ev_ehdr : read_ehdr image = Some eh;
  ev_header : header_ok eh image_size region;
  ev_table : phdr_table image eh = Some phs;
  ev_count : (1 <= length (loads phs) <= 8)%nat;
  ev_loads : Forall (fun ph => seg_ok region image_size (seg_of_phdr ph)) (loads phs)
}.

Definition plan_of (e : Z) (lds : list m11_elf64_phdr) : m11_process_image_plan :=
  mk_plan e (Z.of_nat (length lds))
    (map seg_of_phdr lds ++ replicate (8 - length lds) zero_seg).

(** ** Lemmas *)

Lemma add_overflow_spec a b :
  in_u 64 a -> in_u 64 b ->
  m11_add_overflow_u64 a b = if a + b <? 2 ^ 64 then Some (a + b) else None.
Proof.
  unfold in_u, m11_add_overflow_u64. intros Ha Hb.
  destruct (Z.ltb_spec (a + b) (2 ^ 64)).
  - rewrite wrap_small by (unfold in_u; lia). destruct (Z.ltb_spec (a + b) a); [lia|done].
  - assert (Hw : u64 (a + b) = a + b - 2 ^ 64) by (unfold wrap; zdm).
    rewrite Hw. destruct (Z.ltb_spec (a + b - 2 ^ 64) a); [done|lia].
Qed.

Lemma validate_user_range_spec region base size :
  in_u 64 base -> in_u 64 size -> rg_limit region < 2 ^ 64 ->
  m11_validate_user_range region base size = M11_OK <->
    rg_base region <= base /\ 0 < size /\ base + size <= rg_limit region.
Proof.
  unfold in_u. intros Hb Hs Hl. unfold m11_validate_user_range.
  rewrite add_overflow_spec by done.
  destruct (Z.leb_spec (rg_limit region) (rg_base region)); [split; [done|lia]|].
  destruct (Z.eqb_spec size 0); [split; [done|lia]|].
  destruct (Z.ltb_spec (base + size) (2 ^ 64)); [|split; [done|lia]].
  destruct (Z.ltb_spec base (rg_base region)), (Z.ltb_spec (rg_limit region) (base + size)),
    (Z.leb_spec (base + size) base); simpl; split; try done; lia.
Qed.

Lemma validate_user_range_codes region base size :
  m11_validate_user_range region base size = M11_OK \/
  m11_validate_user_range region base size = M11_ERR_SEGRANGE.
Proof.
  unfold m11_validate_user_range. repeat case_match; auto.
Qed.

Lemma validate_phdr_bounds_spec eh image_size :
  in_u 64 (e_phoff eh) -> in_u 16 (e_phnum eh) -> image_size < 2 ^ 64 ->
  m11_validate_phdr_bounds eh image_size = M11_OK <->
    e_phentsize eh = 56 /\ 0 < e_phnum eh /\ e_phoff eh + e_phnum eh * 56 <= image_size.
Proof.
  unfold in_u, m11_validate_phdr_bounds, sizeof_phdr. intros Ho Hn Hi.
  destruct (Z.eqb_spec (e_phnum eh) 0); [split; [done|lia]|].
  destruct (Z.eqb_spec (e_phentsize eh) 56) as [->|]; [|split; [done|lia]]. simpl negb. cbv iota zeta.
  rewrite (wrap_small 64 (56 * e_phnum eh)) by (unfold in_u; lia).
  rewrite Z.div_mul, Z.eqb_refl by lia. simpl negb. rewrite andb_false_r.
  rewrite add_overflow_spec by (unfold in_u; lia).
  destruct (Z.ltb_spec (e_phoff eh + 56 * e_phnum eh) (2 ^ 64)); [|split; [done|lia]].
  destruct (Z.ltb_spec image_size (e_phoff eh + 56 * e_phnum eh)); [split; [done|lia]|].
  destruct (Z.ltb_spec image_size (e_phoff eh)); [lia|]. simpl. split; [lia|done].
Qed.

Lemma validate_ident_spec eh :
  m11_validate_ident eh = M11_OK <->
    take 7 (e_ident eh) = [127; 69; 76; 70; 2; 1; 1] /\ e_version eh = 1.
Proof.
  unfold m11_validate_ident, ident_at, M11_ELFMAG0, M11_ELFMAG1, M11_ELFMAG2, M11_ELFMAG3,
    M11_ELFCLASS64, M11_ELFDATA2LSB, M11_EV_CURRENT.
  destruct (e_ident eh) as [|a [|b [|c [|d [|e [|f [|g l]]]]]]]; cbn [nth take negb orb Z.eqb];
    rewrite ?orb_true_r;
    repeat match goal with |- context [Z.eqb ?x ?y] => destruct (Z.eqb_spec x y); subst end;
    cbn [negb orb]; (split; [done || by intros _|]); try done; intros [Ht Hv]; congruence.
Qed.

Lemma is_power_of_two_spec v :
  in_u 64 v -> m11_is_power_of_two_u64 v = true <-> exists k, 0 <= k /\ v = 2 ^ k.
Proof.
  unfold in_u, m11_is_power_of_two_u64. intros Hv. destruct (Z.eqb_spec v 0) as [->|Hnz]; simpl.
  { split; [done|]. intros (k & Hk & E). pose proof (Z.pow_pos_nonneg 2 k). lia. }
  rewrite wrap_small by (unfold in_u; lia). rewrite Z.eqb_eq. split.
  - intros Hland. exists (Z.log2 v). split; [apply Z.log2_nonneg|].
    destruct (Z.log2_spec v) as [Hlo Hhi]; [lia|].
    destruct (Z.eq_dec v (2 ^ Z.log2 v)) as [|Hne]; [done|exfalso].
    assert (Hl : Z.log2 (v - 1) = Z.log2 v).
    { apply Z.log2_unique; [apply Z.log2_nonneg|lia]. }
    assert (Hb : Z.testbit (Z.land v (v - 1)) (Z.log2 v) = true).
    { rewrite Z.land_spec, Z.bit_log2 by lia. rewrite <- Hl, Z.bit_log2; [done|].
      assert (0 < 2 ^ Z.log2 v) by (apply Z.pow_pos_nonneg; [lia|apply Z.log2_nonneg]). lia. }
    by rewrite Hland, Z.bits_0 in Hb.
  - intros (k & Hk & ->). replace (2 ^ k - 1) with (Z.ones k) by (rewrite Z.ones_equiv; lia).
    rewrite Z.land_ones by lia. apply Z.mod_same. lia.
Qed.

Definition phdr_in_range (ph : m11_elf64_phdr) : Prop :=
  in_u 32 (p_flags ph) /\ in_u 64 (p_offset ph) /\ in_u 64 (p_vaddr ph) /\
  in_u 64 (p_filesz ph) /\ in_u 64 (p_memsz ph) /\ in_u 64 (p_align ph).

(** The flag word is checked bit by bit: nothing but R, W and X, not W and X. *)
Lemma load_flags_spec fl :
  in_u 32 fl ->
  (Z.land fl (u32 (Z.lnot (Z.lor (Z.lor M11_PF_R M11_PF_W) M11_PF_X))) =? 0) = true <-> 0 <= fl < 8.
Proof.
  intros Hf. change (Z.lnot (Z.lor (Z.lor M11_PF_R M11_PF_W) M11_PF_X)) with (Z.lnot (wrap 32 (2 ^ 3 - 1))).
  rewrite (land_not_ones 32 3), Z.eqb_eq by (done || lia). unfold in_u in Hf.
  change (2 ^ 3) with 8. split; [zdm|]. intros ?. rewrite Z.div_small by lia. done.
Qed.

(** The alignment checks: none for 0 and 1, else a power of two modulo which
    address and offset agree. *)
Lemma load_align_spec al va off :
  in_u 64 al ->
  (negb (al =? 0) && negb (al =? 1)) && negb (m11_is_power_of_two_u64 al) = false /\
  (negb (al =? 0) && negb (al =? 1)) && negb (va mod al =? off mod al) = false <->
  al = 0 \/ exists k, 0 <= k /\ al = 2 ^ k /\ va mod al = off mod al.
Proof.
  intros Hal. pose proof (is_power_of_two_spec al Hal) as Hp.
  destruct (Z.eqb_spec al 0) as [|Hz]; [simpl; tauto|].
  destruct (Z.eqb_spec al 1) as [->|Ho]; simpl.
  { split; [|done]. intros _. right. exists 0. by rewrite !Z.mod_1_r. }
  rewrite !negb_false_iff, Z.eqb_eq, Hp. naive_solver.
Qed.

Lemma validate_load_segment_spec ph image_size region :
  phdr_in_range ph -> image_size < 2 ^ 64 -> rg_limit region < 2 ^ 64 ->
  m11_validate_load_segment ph image_size region = M11_OK <->
  seg_ok region image_size (seg_of_phdr ph).
Proof.
  intros (Hf & Ho & Hv & Hfs & Hms & Hal) Hi Hl. unfold m11_validate_load_segment.
  pose proof (load_flags_spec _ Hf) as Hflags.
  pose proof (load_align_spec _ (p_vaddr ph) (p_offset ph) Hal) as Halign.
  destruct (Z.land (p_flags ph) (u32 _) =? 0); simpl negb; cbv iota;
    [|split; [done|]; intros Hs; by apply seg_flags, Hflags in Hs].
  change M11_PF_W with (2 ^ 1). change M11_PF_X with (2 ^ 0).
  rewrite !land_pow2_zero, !negb_involutive by lia.
  destruct (Z.testbit (p_flags ph) 1 && Z.testbit (p_flags ph) 0) eqn:Hwx.
  { split; [done|]. intros Hs%seg_wx. apply andb_true_iff in Hwx as [Hw Hx].
    change (flags (seg_of_phdr ph)) with (p_flags ph) in Hs.
    rewrite Hw, Hx in Hs. by destruct Hs. }
  apply andb_false_iff in Hwx.
  destruct (Z.ltb_spec (p_memsz ph) (p_filesz ph)); [split; [done|]; intros []; simpl in *; lia|]. cbv zeta.
  destruct ((negb (p_align ph =? 0) && negb (p_align ph =? 1)) && negb (m11_is_power_of_two_u64 (p_align ph)));
    [split; [done|]; intros Hs; apply seg_align, Halign in Hs; by destruct Hs|].
  destruct ((negb (p_align ph =? 0) && negb (p_align ph =? 1)) && negb (p_vaddr ph mod p_align ph =? p_offset ph mod p_align ph));
    [split; [done|]; intros Hs; apply seg_align, Halign in Hs; by destruct Hs|].
  rewrite add_overflow_spec by done.
  destruct (Z.ltb_spec (p_offset ph + p_filesz ph) (2 ^ 64)); [|split; [done|]; intros []; simpl in *; lia].
  unfold in_u in *.
  destruct (Z.ltb_spec image_size (p_offset ph + p_filesz ph)); [split; [done|]; intros []; simpl in *; lia|].
  destruct (Z.ltb_spec image_size (p_offset ph)); [lia|]. simpl orb. cbv iota.
  rewrite validate_user_range_spec by (unfold in_u; lia). split.
  - intros (? & ? & ?). constructor; cbn [file_offset vaddr filesz memsz align flags seg_of_phdr];
      try done; try lia; by apply Halign.
  - intros []; simpl in *. lia.
Qed.

Lemma read_phdr_Some image off :
  bytes_ok image -> 0 <= off -> off + sizeof_phdr <= Z.of_nat (length image) ->
  exists ph, read_phdr image off = Some ph /\ phdr_in_range ph.
Proof.
  unfold sizeof_phdr. intros Hok H0 Hlen. unfold read_phdr.
  destruct (ld_Some 4 image off Hok) as (ty & -> & _); [lia..|]. simpl.
  destruct (ld_Some 4 image (off + 4) Hok) as (fl & -> & ?); [lia..|]. simpl.
  destruct (ld_Some 8 image (off + 8) Hok) as (o & -> & ?); [lia..|]. simpl.
  destruct (ld_Some 8 image (off + 16) Hok) as (va & -> & ?); [lia..|]. simpl.
  destruct (ld_Some 8 image (off + 24) Hok) as (pa & -> & _); [lia..|]. simpl.
  destruct (ld_Some 8 image (off + 32) Hok) as (fs & -> & ?); [lia..|]. simpl.
  destruct (ld_Some 8 image (off + 40) Hok) as (ms & -> & ?); [lia..|]. simpl.
  destruct (ld_Some 8 image (off + 48) Hok) as (al & -> & ?); [lia..|]. simpl.
  eexists. split; [done|]. by split_and!.
Qed.

Lemma read_ehdr_Some image :
  bytes_ok image -> sizeof_ehdr <= Z.of_nat (length image) ->
  exists eh, read_ehdr image = Some eh /\ in_u 64 (e_entry eh) /\ in_u 64 (e_phoff eh) /\
    in_u 16 (e_phnum eh).
Proof.
  unfold sizeof_ehdr. intros Hok Hlen. unfold read_ehdr.
  destruct (slice_Some image 0 16) as (idt & -> & _); [lia..|]. simpl.
  destruct (ld_Some 2 image 16 Hok) as (ty & -> & _); [lia..|]. simpl.
  destruct (ld_Some 2 image 18 Hok) as (mach & -> & _); [lia..|]. simpl.
  destruct (ld_Some 4 image 20 Hok) as (ver & -> & _); [lia..|]. simpl.
  destruct (ld_Some 8 image 24 Hok) as (ent & -> & ?); [lia..|]. simpl.
  destruct (ld_Some 8 image 32 Hok) as (pho & -> & ?); [lia..|]. simpl.
  destruct (ld_Some 2 image 52 Hok) as (ehs & -> & _); [lia..|]. simpl.
  destruct (ld_Some 2 image 54 Hok) as (pes & -> & _); [lia..|]. simpl.
  destruct (ld_Some 2 image 56 Hok) as (pn & -> & ?); [lia..|]. simpl.
  eexists. split; [done|]. by split_and!.
Qed.

Lemma phdr_table_Some image eh :
  bytes_ok image -> 0 <= e_phoff eh -> 0 <= e_phnum eh ->
  e_phoff eh + e_phnum eh * sizeof_phdr <= Z.of_nat (length image) ->
  exists phs, phdr_table image eh = Some phs /\ length phs = Z.to_nat (e_phnum eh) /\
    Forall phdr_in_range phs /\
    forall i, 0 <= i < e_phnum eh ->
      exists ph, phs !! Z.to_nat i = Some ph /\
        read_phdr image (e_phoff eh + i * sizeof_phdr) = Some ph.
Proof.
  unfold sizeof_phdr. intros Hok H0 Hn Hlen.
  set (f := fun i => read_phdr image (e_phoff eh + i * 56)).
  assert (Hrd : forall i, 0 <= i < e_phnum eh -> exists ph, f i = Some ph /\ phdr_in_range ph).
  { intros i Hi. apply read_phdr_Some; unfold sizeof_phdr; [done|lia|lia]. }
  destruct (mapM_is_Some_2 f (seqZ 0 (e_phnum eh))) as [phs Hphs].
  { apply Forall_forall. intros i Hi%elem_of_seqZ. destruct (Hrd i) as (ph & ? & _); [lia|].
    by exists ph. }
  exists phs. pose proof (proj1 (mapM_Some f (seqZ 0 (e_phnum eh)) phs) Hphs) as HF.
  split; [done|]. split; [by rewrite <- (Forall2_length _ _ _ HF), length_seqZ|]. split.
  - apply Forall_forall. intros ph Hph.
    apply (list_elem_of_lookup_1 phs) in Hph as [k Hk].
    destruct (Forall2_lookup_r _ _ _ _ _ HF Hk) as (i & Hi & Hf).
    apply lookup_seqZ in Hi as [-> Hk'].
    destruct (Hrd (0 + Z.of_nat k)) as (ph' & Hf' & ?); [lia|]. by rewrite Hf in Hf'; injection Hf' as ->.
  - intros i Hi.
    assert (Hs : seqZ 0 (e_phnum eh) !! Z.to_nat i = Some i).
    { rewrite lookup_seqZ_lt by lia. f_equal. lia. }
    destruct (Forall2_lookup_l _ _ _ _ _ HF Hs) as (ph & ? & ?). eauto.
Qed.

Lemma plan_of_snoc e lds ph :
  (length lds < 8)%nat ->
  arr_set (map seg_of_phdr lds ++ replicate (8 - length lds) zero_seg)
    (Z.of_nat (length lds)) (seg_of_phdr ph) = Some (segments (plan_of e (lds ++ [ph]))) /\
  u32 (Z.of_nat (length lds) + 1) = segment_count (plan_of e (lds ++ [ph])).
Proof.
  intros Hl. simpl. split.
  - rewrite arr_set_Some.
    + rewrite Nat2Z.id. f_equal.
      replace (length lds) with (length (map seg_of_phdr lds) + 0)%nat at 1
        by (rewrite length_map; lia).
      rewrite insert_app_r, length_app, map_app, <- app_assoc. simpl.
      replace (8 - length lds)%nat with (S (8 - (length lds + 1))) by lia. done.
    + rewrite length_app, length_map, length_replicate. lia.
  - rewrite length_app, wrap_small by (unfold in_u; simpl; lia). simpl. lia.
Qed.

Lemma loads_take_S phs i ph :
  phs !! i = Some ph ->
  loads (take (S i) phs) = loads (take i phs) ++ (if decide (p_type ph = M11_PT_LOAD) then [ph] else []).
Proof.
  intros Hi. unfold loads. rewrite (take_S_r _ _ _ Hi), filter_app. simpl.
  by case_decide; rewrite ?filter_cons_True, ?filter_cons_False, ?filter_nil by done.
Qed.

(** The test the table walk applies. *)
Definition all_valid (region : m11_user_region) (image_size : Z) (lds : list m11_elf64_phdr) : Prop :=
  (length lds <= 8)%nat /\
  Forall (fun ph => m11_validate_load_segment ph image_size region = M11_OK) lds.

(** The table walk accepts exactly when every loadable header validates and
    there are at most eight, and then the plan lists them in order. *)
Lemma plan_loop_spec image image_size region eh phs e :
  in_u 16 (e_phnum eh) -> length phs = Z.to_nat (e_phnum eh) ->
  (forall i, 0 <= i < e_phnum eh ->
      exists ph, phs !! Z.to_nat i = Some ph /\
        read_phdr image (e_phoff eh + i * sizeof_phdr) = Some ph) ->
  exists c, for_loop (Z.to_nat (e_phnum eh)) 16 1 0 (e_phnum eh)
      (plan_step image image_size region (e_phoff eh)) (plan_of e []) = Some c /\
    match c with
    | Cont plan => plan = plan_of e (loads phs) /\ all_valid region image_size (loads phs)
    | Ret (rc, plan) => plan = m11_zero_plan /\ rc <> M11_OK /\
        ~ all_valid region image_size (loads phs)
    end.
Proof.
  unfold in_u. intros Hn Hlen Hrd.
  destruct (for_loop_inv1
    (fun i plan => plan = plan_of e (loads (take (Z.to_nat i) phs)) /\
       all_valid region image_size (loads (take (Z.to_nat i) phs)))
    (fun r => snd r = m11_zero_plan /\ fst r <> M11_OK /\ ~ all_valid region image_size (loads phs))
    (Z.to_nat (e_phnum eh)) 16 (e_phnum eh) (plan_step image image_size region (e_phoff eh))
    0 (plan_of e [])) as (c & Hc & Hpost); try lia.
  - intros j plan Hj (-> & Hcnt & Hall). destruct (Hrd j) as (ph & Hph & Hr); [lia|].
    unfold plan_step. rewrite Hr. simpl mbind.
    replace (Z.to_nat (j + 1)) with (S (Z.to_nat j)) by lia. rewrite (loads_take_S _ _ _ Hph).
    destruct (Z.eqb_spec (p_type ph) M11_PT_LOAD) as [Ht|Ht]; simpl negb; cbv iota;
      [rewrite decide_True by done|rewrite decide_False, app_nil_r by done; eexists; by split_and!].
    set (lds := loads (take (Z.to_nat j) phs)) in *.
    assert (Hin : exists rest, loads phs = lds ++ ph :: rest).
    { exists (loads (drop (S (Z.to_nat j)) phs)). unfold lds, loads.
      rewrite <- (take_drop_middle phs _ _ Hph) at 1. rewrite filter_app. f_equal.
      by rewrite filter_cons_True. }
    destruct Hin as [rest Hrest].
    destruct (Z.leb_spec M11_MAX_LOAD_SEGMENTS (Z.of_nat (length lds))) as [Hfull|Hroom].
    { eexists. split; [done|]. split_and!; [done|done|]. intros [Hmax _].
      rewrite Hrest, length_app in Hmax. simpl in *. unfold M11_MAX_LOAD_SEGMENTS in *. lia. }
    destruct (Z.eqb_spec (m11_validate_load_segment ph image_size region) M11_OK) as [Hv|Hv];
      simpl negb; cbv iota.
    2: { eexists. split; [done|]. split_and!; [done|done|]. intros [_ HF].
         rewrite Hrest, Forall_app, Forall_cons in HF. naive_solver. }
    unfold M11_MAX_LOAD_SEGMENTS in Hroom. simpl in Hroom.
    destruct (plan_of_snoc e lds ph) as [-> ->]; [lia|]. simpl mbind.
    eexists. split; [done|]. split; [done|]. split; [rewrite length_app; simpl; lia|].
    apply Forall_app. split; [done|]. by constructor.
  - split; [done|]. split; [simpl; lia|]. by constructor.
  - exists c. split; [done|]. destruct c as [plan|[rc plan]]; [|done].
    rewrite <- Hlen, firstn_all in Hpost. done.
Qed.

(** The header checks as one return code. *)
Definition header_rc (eh : m11_elf64_ehdr) (image_size : Z) (region : m11_user_region) : Z :=
  if negb (m11_validate_ident eh =? M11_OK) then m11_validate_ident eh else
  if negb (e_type eh =? M11_ET_EXEC) && negb (e_type eh =? M11_ET_DYN) then M11_ERR_TYPE else
  if negb (e_machine eh =? M11_EM_X86_64) then M11_ERR_MACHINE else
  if negb (e_ehsize eh =? sizeof_ehdr) then M11_ERR_EHSIZE else
  if negb (m11_validate_phdr_bounds eh image_size =? M11_OK)
  then m11_validate_phdr_bounds eh image_size else
  if negb (m11_validate_user_range region (e_entry eh) 1 =? M11_OK) then M11_ERR_ENTRY else M11_OK.

Lemma header_rc_ok eh image_size region :
  in_u 64 (e_entry eh) -> in_u 64 (e_phoff eh) -> in_u 16 (e_phnum eh) ->
  image_size < 2 ^ 64 -> rg_limit region < 2 ^ 64 ->
  header_rc eh image_size region = M11_OK <-> header_ok eh image_size region.
Proof.
  intros He Hpo Hpn Hi Hl. unfold header_rc.
  pose proof (validate_ident_spec eh) as Hid.
  pose proof (validate_phdr_bounds_spec eh image_size Hpo Hpn Hi) as Hb.
  pose proof (validate_user_range_spec region (e_entry eh) 1 He ltac:(unfold in_u; lia) Hl) as Hr.
  destruct (Z.eqb_spec (m11_validate_ident eh) M11_OK);
    [|split; [done|]; intros []; naive_solver].
  unfold M11_ET_EXEC, M11_ET_DYN, M11_EM_X86_64, sizeof_ehdr.
  destruct (Z.eqb_spec (e_type eh) 2), (Z.eqb_spec (e_type eh) 3); simpl;
    try (split; [done|]; intros []; lia);
    (destruct (Z.eqb_spec (e_machine eh) 62); [|split; [done|]; intros []; lia]);
    (destruct (Z.eqb_spec (e_ehsize eh) 64); [|split; [done|]; intros []; lia]);
    (destruct (Z.eqb_spec (m11_validate_phdr_bounds eh image_size) M11_OK);
       [|split; [done|]; intros []; naive_solver]);
    (destruct (Z.eqb_spec (m11_validate_user_range region (e_entry eh) 1) M11_OK); simpl;
       [split; [intros _; constructor; naive_solver lia|done]
       |split; [done|]; intros []; destruct Hr as [_ Hr]; destruct Hr; lia || done]).
Qed.

Lemma plan_load_unfold image image_size region old eh :
  sizeof_ehdr <= image_size -> read_ehdr image = Some eh ->
  m11_elf64_plan_load (Some image) image_size region (Some old) =
    if header_rc eh image_size region =? M11_OK then
      c ← for_loop (Z.to_nat (e_phnum eh)) 16 1 0 (e_phnum eh)
            (plan_step image image_size region (e_phoff eh)) (plan_of (e_entry eh) []);
      match c with
      | Ret (rc, plan) => Some (rc, Some plan)
      | Cont plan =>
          if segment_count plan =? 0 then Some (M11_ERR_SEGCOUNT, Some plan)
          else Some (M11_OK, Some plan)
      end
    else Some (header_rc eh image_size region, Some m11_zero_plan).
Proof.
  intros Hsz Heh. unfold m11_elf64_plan_load, header_rc.
  destruct (Z.ltb_spec image_size sizeof_ehdr); [lia|]. rewrite Heh. simpl mbind. cbv zeta.
  destruct (Z.eqb_spec (m11_validate_ident eh) M11_OK) as [|Hne]; simpl negb; cbv iota;
    [|by rewrite (proj2 (Z.eqb_neq _ _) Hne)].
  destruct (negb (e_type eh =? M11_ET_EXEC) && negb (e_type eh =? M11_ET_DYN)); [done|].
  destruct (e_machine eh =? M11_EM_X86_64); [|done]. simpl negb; cbv iota.
  destruct (e_ehsize eh =? sizeof_ehdr); [|done]. simpl negb; cbv iota.
  destruct (Z.eqb_spec (m11_validate_phdr_bounds eh image_size) M11_OK) as [|Hne]; simpl negb;
    cbv iota; [|by rewrite (proj2 (Z.eqb_neq _ _) Hne)].
  by destruct (m11_validate_user_range region (e_entry eh) 1 =? M11_OK).
Qed.

(** What the planner answers, success and failure. *)
Definition plan_result image image_size region rc (plan : m11_process_image_plan) : Prop :=
  (rc = M11_OK /\ exists eh phs, elf_valid image image_size region eh phs /\
     plan = plan_of (e_entry eh) (loads phs)) \/
  (rc <> M11_OK /\ (forall eh phs, ~ elf_valid image image_size region eh phs) /\
   (plan = m11_zero_plan \/
    exists eh phs, rc = M11_ERR_SEGCOUNT /\ sizeof_ehdr <= image_size /\
      read_ehdr image = Some eh /\ header_ok eh image_size region /\
      phdr_table image eh = Some phs /\ loads phs = [] /\
      plan = mk_plan (e_entry eh) 0 (replicate 8 zero_seg))).

Lemma plan_load_spec image image_size region old :
  bytes_ok image -> 0 <= image_size <= Z.of_nat (length image) -> image_size < 2 ^ 64 ->
  rg_limit region < 2 ^ 64 ->
  exists rc plan,
    m11_elf64_plan_load (Some image) image_size region (Some old) = Some (rc, Some plan) /\
    plan_result image image_size region rc plan.
Proof.
  intros Hok Hsz Hmax Hlim. destruct (decide (sizeof_ehdr <= image_size)) as [Hge|Hlt].
  2: { exists M11_ERR_SIZE, m11_zero_plan. unfold m11_elf64_plan_load.
       destruct (Z.ltb_spec image_size sizeof_ehdr); [|lia]. split; [done|]. right.
       split; [done|]. split; [|by left]. intros ?? []. lia. }
  destruct (read_ehdr_Some image Hok) as (eh & Heh & Hent & Hpho & Hpn); [lia|].
  rewrite (plan_load_unfold _ _ _ _ eh) by done.
  pose proof (header_rc_ok eh image_size region Hent Hpho Hpn Hmax Hlim) as Hhd.
  destruct (Z.eqb_spec (header_rc eh image_size region) M11_OK) as [Hh|Hh].
  2: { do 2 eexists. split; [done|]. right. split; [done|]. split; [|by left].
       intros eh' phs []. simplify_eq. naive_solver. }
  apply Hhd in Hh. pose proof (hd_table _ _ _ Hh) as Hbd. pose proof (hd_phnum _ _ _ Hh) as Hpos.
  destruct (phdr_table_Some image eh Hok) as (phs & Hphs & Hlen & Hrng & Hrd);
    [apply Hpho|lia|unfold sizeof_phdr; lia|].
  assert (Hval : Forall (fun ph => m11_validate_load_segment ph image_size region = M11_OK) (loads phs)
                 <-> Forall (fun ph => seg_ok region image_size (seg_of_phdr ph)) (loads phs)).
  { rewrite !Forall_forall. rewrite Forall_forall in Hrng.
    split; intros HF ph Hin; (apply validate_load_segment_spec; [|done|done|by apply HF]);
      apply list_elem_of_filter in Hin as [_ Hin]; by apply Hrng. }
  destruct (plan_loop_spec image image_size region eh phs (e_entry eh) Hpn Hlen Hrd)
    as (c & -> & Hc). simpl mbind. destruct c as [plan|[rc plan]].
  - destruct Hc as [-> [Hcnt Hall]]. simpl segment_count.
    destruct (Z.eqb_spec (Z.of_nat (length (loads phs))) 0) as [Hz|Hnz]; do 2 eexists; (split; [done|]).
    + assert (Hnil : loads phs = []) by (destruct (loads phs); simpl in *; [done|lia]).
      right. split; [done|]. split; [intros eh' phs' []; simplify_eq; lia|].
      right. exists eh, phs. rewrite Hnil. by split_and!.
    + left. split; [done|]. exists eh, phs. split; [|done]. constructor; try done; [lia|by apply Hval].
  - destruct Hc as (-> & Hrc & Hn). do 2 eexists. split; [done|]. right. split; [done|].
    split; [|by left]. intros eh' phs' []. simplify_eq. apply Hn. split; [lia|by apply Hval].
Qed.


Definition smoke_bytes : list Z := default [] smoke_image.

Lemma smoke_bytes_ok : bytes_ok smoke_bytes.
Proof.
  apply bytes_okb_ok. vm_compute. reflexivity.
Qed.

Lemma smoke_bytes_length : Z.of_nat (length smoke_bytes) = 12288.
Proof. vm_compute. reflexivity. Qed.


(** C13. The planner never reads outside the image, whatever the bytes, and
    every segment of an accepted plan is safe to load: it lies inside the user
    region, its file bytes lie inside the image, its memory size is positive
    and not below its file size, its flags use only R, W and X and never W
    together with X, and its alignment is zero or a power of two modulo which
    its address and file offset agree.  The entry point lies inside the user
    region. *)
Theorem elf_plan_segments_safe image image_size region old :
  bytes_ok image -> 0 <= image_size <= Z.of_nat (length image) -> image_size < 2 ^ 64 ->
  rg_limit region < 2 ^ 64 ->
  exists rc plan,
    m11_elf64_plan_load (Some image) image_size region (Some old) = Some (rc, Some plan) /\
    (rc = M11_OK ->
       1 <= segment_count plan <= M11_MAX_LOAD_SEGMENTS /\
       rg_base region <= entry plan < rg_limit region /\
       forall i, 0 <= i < segment_count plan ->
         exists sg, arr_get (segments plan) i = Some sg /\ seg_ok region image_size sg).
Proof.
  intros Hok Hsz Hmax Hlim.
  destruct (plan_load_spec image image_size region old Hok Hsz Hmax Hlim)
    as (rc & plan & Hl & [(-> & eh & phs & Hv & ->)|(Hrc & _)]);
    do 2 eexists; (split; [exact Hl|]); [intros _|done].
  destruct Hv as [_ _ Hh _ Hcnt Hall]. unfold M11_MAX_LOAD_SEGMENTS. simpl.
  split; [lia|]. split; [apply Hh|]. intros i Hi. unfold arr_get.
  destruct (Z.ltb_spec i 0); [lia|]. rewrite lookup_app_l by (rewrite length_map; lia).
  destruct (lookup_lt_is_Some_2 (loads phs) (Z.to_nat i)) as [ph Hph]; [lia|].
  exists (seg_of_phdr ph). split; [by rewrite list_lookup_fmap, Hph|].
  by apply (Forall_lookup_1 _ _ _ _ Hall Hph).
Qed.

Lemma elf_plan_segments_safe_witness :
  exists plan, m11_elf64_plan_load (Some smoke_bytes) 12288 smoke_region (Some m11_zero_plan)
      = Some (M11_OK, Some plan) /\
    exists sg, arr_get (segments plan) 1 = Some sg /\ seg_ok smoke_region 12288 sg.
Proof.
  destruct (elf_plan_segments_safe smoke_bytes 12288 smoke_region m11_zero_plan)
    as (rc & plan & H & Hs);
    [apply smoke_bytes_ok|rewrite smoke_bytes_length; lia|lia|simpl; lia|].
  assert (E : rc = M11_OK /\ segment_count plan = 2).
  { vm_compute in H. injection H as <- <-. split; reflexivity. }
  destruct E as [-> E]. exists plan. split; [exact H|].
  destruct (Hs eq_refl) as (_ & _ & Hseg). apply Hseg. lia.
Defined.

(** An image whose header is valid but whose table has no loadable entry
    is rejected with [M11_ERR_SEGCOUNT], and, unlike every other error return
    of the function, the plan is not zeroed: it keeps the image's entry
    point. *)
Theorem elf_no_load_keeps_entry image image_size region old eh phs :
  bytes_ok image -> sizeof_ehdr <= image_size <= Z.of_nat (length image) -> image_size < 2 ^ 64 ->
  rg_limit region < 2 ^ 64 ->
  read_ehdr image = Some eh -> header_ok eh image_size region ->
  phdr_table image eh = Some phs -> loads phs = [] ->
  m11_elf64_plan_load (Some image) image_size region (Some old) =
    Some (M11_ERR_SEGCOUNT, Some (mk_plan (e_entry eh) 0 (replicate 8 zero_seg))).
Proof.
  intros Hok Hsz Hmax Hlim Heh Hh Hphs Hnil.
  rewrite (plan_load_unfold _ _ _ _ eh) by (done || lia).
  destruct (read_ehdr_Some image Hok) as (eh' & Heh' & Hent & Hpho & Hpn); [lia|]. simplify_eq.
  rewrite (proj2 (header_rc_ok _ _ _ Hent Hpho Hpn Hmax Hlim) Hh), Z.eqb_refl.
  pose proof (hd_table _ _ _ Hh) as Hbd.
  destruct (phdr_table_Some image eh Hok) as (phs' & Hphs' & Hlen & _ & Hrd);
    [apply Hpho|apply Hpn|unfold sizeof_phdr; lia|]. simplify_eq.
  destruct (plan_loop_spec image image_size region eh phs (e_entry eh) Hpn Hlen Hrd)
    as (c & -> & Hpost). simpl mbind. rewrite Hnil in Hpost. destruct c as [p|[rc p]].
  - destruct Hpost as [-> _]. done.
  - destruct Hpost as (_ & _ & Hn). exfalso. apply Hn. split; [simpl; lia|by constructor].
Qed.

(** The smoke image with both program headers turned into notes. *)
Definition note_bytes : list Z :=
  default [] (b ← st 4 smoke_bytes 64 4; st 4 b 120 4).

Lemma elf_no_load_keeps_entry_witness :
  m11_elf64_plan_load (Some note_bytes) 12288 smoke_region (Some m11_zero_plan) =
    Some (M11_ERR_SEGCOUNT, Some (mk_plan 0x401000 0 (replicate 8 zero_seg))).
Proof.
  assert (Hok : bytes_ok note_bytes).
  { apply bytes_okb_ok. vm_compute. reflexivity. }
  assert (Hlen : Z.of_nat (length note_bytes) = 12288) by (vm_compute; reflexivity).
  eapply (elf_no_load_keeps_entry note_bytes 12288 smoke_region m11_zero_plan
    (mk_ehdr [127; 69; 76; 70; 2; 1; 1; 0; 0; 0; 0; 0; 0; 0; 0; 0] 2 62 1 0x401000 64 64 56 2));
    [exact Hok|unfold sizeof_ehdr; rewrite Hlen; lia|lia|simpl; lia|vm_compute; reflexivity| |
     vm_compute; reflexivity|vm_compute; reflexivity].
  constructor; simpl; try reflexivity; try lia.
Defined.

End Elf.
