(* ===== verification/Sync.v ===== *)
(** * Synchronisation ([kernel/sync/lockdep.c], [spinlock.c], [mutex.c])

    [Lockdep] is the per-thread lock-order checker; [Spin] and [Mutex] are the
    two locks.  The lock functions are given as the C functions (on the lock's
    record) and, for several threads, as step relations whose steps are the
    atomic accesses the functions make, interleaved arbitrarily (sequential
    consistency; the weaker C11 orders are not modelled). *)
From S2P Require Import Prelude.
From stdpp Require Import base list numbers option relations.
From Stdlib Require Import ZArith Lia Sorting.Sorted.

Open Scope Z_scope.

Definition MCS_SYNC_OK : Z := 0.
Definition MCS_SYNC_EINVAL : Z := -22.
Definition MCS_SYNC_EBUSY : Z := -16.
Definition MCS_SYNC_EPERM : Z := -1.
Definition MCS_SYNC_EDEADLK : Z := -35.
Definition MCS_SYNC_EOVERFLOW : Z := -75.

Module Lockdep.

Definition MCS_LOCKDEP_MAX_HELD : Z := 16.

(** Lock names are pointers that are stored and never read: [Z], 0 for NULL. *)
Record mcs_lockdep_state := mk_lockdep {
  held_class : list Z;
  held_name : list Z;
  depth : Z;
  violation_count : Z
}.

Definition violation (s : mcs_lockdep_state) : mcs_lockdep_state :=
  mk_lockdep (held_class s) (held_name s) (depth s) (u32 (violation_count s + 1)).

Definition mcs_lockdep_init (state : option mcs_lockdep_state) : option mcs_lockdep_state :=
  match state with
  | None => None
  | Some _ => Some (mk_lockdep (replicate 16 0) (replicate 16 0) 0 0)
  end.

(** [None] is an access outside [held_class]. *)
Definition class_scan (s : mcs_lockdep_state) (stop class_id : Z) : option bool :=
  c ← for_loop (Z.to_nat stop) 32 1 0 stop
        (fun i _ => c ← arr_get (held_class s) i;
                    Some (if c =? class_id then Ret true else Cont tt)) tt;
  match c with Ret b => Some b | Cont _ => Some false end.

Definition mcs_lockdep_is_held (state : option mcs_lockdep_state) (class_id : Z) : option bool :=
  match state with
  | None => Some false
  | Some s =>
      if class_id =? 0 then Some false
      else class_scan s (Z.min (depth s) MCS_LOCKDEP_MAX_HELD) class_id
  end.

Definition mcs_lockdep_before_acquire (state : option mcs_lockdep_state) (class_id name : Z)
    : option (Z * option mcs_lockdep_state) :=
  match state with
  | None => Some (MCS_SYNC_EINVAL, state)
  | Some s =>
      if class_id =? 0 then Some (MCS_SYNC_EINVAL, state) else
      if MCS_LOCKDEP_MAX_HELD <=? depth s then Some (MCS_SYNC_EOVERFLOW, Some (violation s)) else
      found ← class_scan s (depth s) class_id;
      if (found : bool) then Some (MCS_SYNC_EDEADLK, Some (violation s)) else
      below_top ← (if 0 <? depth s
                   then top ← arr_get (held_class s) (u32 (depth s - 1)); Some (class_id <? top)
                   else Some false);
      if (below_top : bool) then Some (MCS_SYNC_EDEADLK, Some (violation s)) else
      cs ← arr_set (held_class s) (depth s) class_id;
      ns ← arr_set (held_name s) (depth s) name;
      Some (MCS_SYNC_OK, Some (mk_lockdep cs ns (u32 (depth s + 1)) (violation_count s)))
  end.

Definition mcs_lockdep_after_release (state : option mcs_lockdep_state) (class_id name : Z)
    : option (Z * option mcs_lockdep_state) :=
  match state with
  | None => Some (MCS_SYNC_EINVAL, state)
  | Some s =>
      if class_id =? 0 then Some (MCS_SYNC_EINVAL, state) else
      if depth s =? 0 then Some (MCS_SYNC_EPERM, Some (violation s)) else
      let index := u32 (depth s - 1) in
      c ← arr_get (held_class s) index;
      if negb (c =? class_id) then Some (MCS_SYNC_EDEADLK, Some (violation s)) else
      cs ← arr_set (held_class s) index 0;
      ns ← arr_set (held_name s) index 0;
      Some (MCS_SYNC_OK, Some (mk_lockdep cs ns (u32 (depth s - 1)) (violation_count s)))
  end.

(** ** Abstraction: the stack of held classes, oldest first *)

Definition held (s : mcs_lockdep_state) : list Z := take (Z.to_nat (depth s)) (held_class s).

Record lockdep_inv (s : mcs_lockdep_state) : Prop := {
  ld_len : length (held_class s) = 16%nat /\ length (held_name s) = 16%nat;
  ld_depth : 0 <= depth s <= MCS_LOCKDEP_MAX_HELD;
  ld_sorted : StronglySorted Z.lt (held s);
  ld_pos : Forall (fun c => 0 < c) (held s)
}.

Lemma length_held s : lockdep_inv s -> Z.of_nat (length (held s)) = depth s.
Proof.
  intros [[Hl _] Hd _ _]. unfold held, MCS_LOCKDEP_MAX_HELD in *. rewrite length_take. lia.
Qed.

Lemma arr_get_held s i :
  lockdep_inv s -> 0 <= i < depth s -> arr_get (held_class s) i = arr_get (held s) i.
Proof.
  intros Hinv Hi. unfold arr_get, held. destruct (Z.ltb_spec i 0); [lia|].
  by rewrite lookup_take_lt by lia.
Qed.

Lemma class_scan_spec s c :
  lockdep_inv s -> class_scan s (depth s) c = Some (bool_decide (c ∈ held s)).
Proof.
  intros Hinv. unfold class_scan. pose proof (length_held s Hinv) as Hlen.
  pose proof (ld_depth _ Hinv). unfold MCS_LOCKDEP_MAX_HELD in *.
  match goal with |- context [for_loop _ _ _ _ _ ?b] => set (bd := b) end.
  destruct (for_loop_inv1 (fun i (_ : unit) => c ∉ take (Z.to_nat i) (held s))
    (fun r => r = true /\ c ∈ held s) (Z.to_nat (depth s)) 32 (depth s) bd 0 tt)
    as (r & -> & Hr); try lia.
  - intros j [] Hj Hn. unfold bd. rewrite arr_get_held by (done || lia).
    destruct (arr_get_is_Some (held s) j) as [x Hx]; [lia|]. rewrite Hx. simpl.
    assert (Hl : held s !! Z.to_nat j = Some x)
      by (unfold arr_get in Hx; by destruct (Z.ltb_spec j 0); [lia|]).
    destruct (Z.eqb_spec x c) as [->|Hne]; eexists; (split; [done|]).
    + split; [done|]. by eapply list_elem_of_lookup_2.
    + replace (Z.to_nat (j + 1)) with (S (Z.to_nat j)) by lia.
      rewrite (take_S_r _ _ _ Hl), elem_of_app, list_elem_of_singleton. naive_solver.
  - by apply not_elem_of_nil.
  - simpl. destruct r as [[]|r].
    + rewrite take_ge in Hr by lia. by rewrite bool_decide_false.
    + destruct Hr as [-> Hr]. by rewrite bool_decide_true.
Qed.

Lemma sorted_last_max (l : list Z) x y :
  StronglySorted Z.lt l -> last l = Some y -> x ∈ l -> x <= y.
Proof.
  intros Hs. induction Hs as [|a l Hs IH Hall]; [done|].
  destruct l as [|b l]; simpl in *.
  - intros [= ->] [->|[]%elem_of_nil]%elem_of_cons. lia.
  - intros Hlast [->|Hx]%elem_of_cons; [|by apply IH].
    rewrite Forall_forall in Hall. specialize (Hall y).
    assert (y ∈ b :: l) by (apply last_Some_elem_of; done). specialize (Hall H). lia.
Qed.

Lemma violation_inv s : lockdep_inv s -> lockdep_inv (violation s) /\ held (violation s) = held s.
Proof. intros []. split; [by constructor|done]. Qed.

Lemma held_lt_top s c :
  lockdep_inv s -> c ∉ held s ->
  Forall (fun h => h < c) (held s) <->
    match last (held s) with Some t => t <= c | None => True end.
Proof.
  intros Hinv Hn. destruct (last (held s)) as [t|] eqn:Ht.
  - pose proof (last_Some_elem_of _ _ Ht). rewrite Forall_forall. split.
    + intros H1. specialize (H1 t H). lia.
    + intros Hle x Hx. pose proof (sorted_last_max _ x t (ld_sorted _ Hinv) Ht Hx).
      destruct (decide (x = c)) as [->|]; [done|lia].
  - apply last_None in Ht. rewrite Ht. done.
Qed.

Lemma top_class s :
  lockdep_inv s -> 0 < depth s ->
  exists t, arr_get (held_class s) (u32 (depth s - 1)) = Some t /\ last (held s) = Some t.
Proof.
  intros Hinv Hd. pose proof (length_held s Hinv) as Hlen. pose proof (ld_depth _ Hinv).
  unfold MCS_LOCKDEP_MAX_HELD in *. rewrite wrap_small by (unfold in_u; lia).
  rewrite arr_get_held by (done || lia).
  destruct (arr_get_is_Some (held s) (depth s - 1)) as [t Ht]; [lia|].
  exists t. split; [done|]. rewrite last_lookup. unfold arr_get in Ht.
  destruct (Z.ltb_spec (depth s - 1) 0); [lia|]. rewrite <- Ht. f_equal. lia.
Qed.

Lemma StronglySorted_snoc (l : list Z) c :
  StronglySorted Z.lt l -> Forall (fun h => h < c) l -> StronglySorted Z.lt (l ++ [c]).
Proof.
  intros Hs HF. induction Hs as [|a l Hs IH Hall]; simpl; [by repeat constructor|].
  apply Forall_cons in HF as [Ha HF]. constructor; [by apply IH|].
  apply Forall_app. split; [done|]. by constructor.
Qed.

Lemma StronglySorted_init (l : list Z) c : StronglySorted Z.lt (l ++ [c]) -> StronglySorted Z.lt l.
Proof.
  induction l as [|a l IH]; simpl; [constructor|]. intros H. inversion H as [|?? Hs HF]; subst.
  constructor; [by apply IH|]. by apply Forall_app in HF as [? _].
Qed.

Lemma push_inv s c name vc :
  lockdep_inv s -> depth s < MCS_LOCKDEP_MAX_HELD -> 0 < c -> Forall (fun h => h < c) (held s) ->
  exists cs ns, arr_set (held_class s) (depth s) c = Some cs /\
    arr_set (held_name s) (depth s) name = Some ns /\
    let s' := mk_lockdep cs ns (u32 (depth s + 1)) vc in
    lockdep_inv s' /\ held s' = held s ++ [c].
Proof.
  intros Hinv Hd Hc HF. pose proof Hinv as [[Hl Hl'] Hd' Hs Hp].
  unfold MCS_LOCKDEP_MAX_HELD in *. rewrite !arr_set_Some by lia. do 2 eexists. split; [done|].
  split; [done|]. rewrite wrap_small by (unfold in_u; lia).
  set (s' := mk_lockdep _ _ _ _).
  assert (Hheld : held s' = held s ++ [c]).
  { unfold held. simpl. replace (Z.to_nat (depth s + 1)) with (S (Z.to_nat (depth s))) by lia.
    rewrite (take_S_r _ _ c) by (apply list_lookup_insert_eq; lia).
    by rewrite take_insert_ge by lia. }
  split; [|done]. constructor; rewrite ?Hheld; simpl.
  - by rewrite !length_insert.
  - unfold MCS_LOCKDEP_MAX_HELD. lia.
  - by apply StronglySorted_snoc.
  - apply Forall_app. split; [done|]. by constructor.
Qed.

(** The order the checker enforces: a new class must exceed every held one. *)
Definition may_acquire (s : mcs_lockdep_state) (c : Z) : Prop :=
  0 < c /\ depth s < MCS_LOCKDEP_MAX_HELD /\ Forall (fun h => h < c) (held s).

Lemma before_acquire_spec s c name :
  lockdep_inv s -> 0 <= c ->
  exists rc s', mcs_lockdep_before_acquire (Some s) c name = Some (rc, Some s') /\
    lockdep_inv s' /\ (rc = MCS_SYNC_OK <-> may_acquire s c) /\
    held s' = (if bool_decide (rc = MCS_SYNC_OK) then held s ++ [c] else held s).
Proof.
  intros Hinv Hc. unfold mcs_lockdep_before_acquire, may_acquire.
  destruct (violation_inv s Hinv) as [Hvi Hvh].
  destruct (Z.eqb_spec c 0); [do 2 eexists; split_and!; [done|done|split; [done|lia]|done]|].
  destruct (Z.leb_spec MCS_LOCKDEP_MAX_HELD (depth s));
    [do 2 eexists; split_and!; [done|done|split; [done|lia]|done]|].
  rewrite class_scan_spec by done. simpl mbind. case_bool_decide as Hin.
  { do 2 eexists. split_and!; [done|done| |done]. split; [done|].
    intros (_ & _ & HF). rewrite Forall_forall in HF. specialize (HF c Hin). lia. }
  pose proof (held_lt_top s c Hinv Hin) as Htop. pose proof (length_held s Hinv) as Hlen.
  assert (Hb : exists b, (if 0 <? depth s
      then top ← arr_get (held_class s) (u32 (depth s - 1)); Some (c <? top) else Some false) = Some b /\
      (b = false <-> Forall (fun h => h < c) (held s))).
  { destruct (Z.ltb_spec 0 (depth s)).
    - destruct (top_class s) as (t & -> & Ht); [done|done|]. rewrite Ht in Htop. simpl.
      eexists. split; [done|]. rewrite Htop, Z.ltb_ge. lia.
    - exists false. split; [done|]. destruct (held s); [done|simpl in *; lia]. }
  destruct Hb as (b & -> & Hb). simpl mbind. destruct b.
  { do 2 eexists. split_and!; [done|done| |done]. split; [done|]. intros (_ & _ & ?). naive_solver. }
  destruct (push_inv s c name (violation_count s)) as (cs & ns & -> & -> & Hi & Hh);
    [done|done|lia|by apply Hb|]. simpl mbind.
  do 2 eexists. split_and!; [done|done| |by rewrite Hh, bool_decide_true].
  split; [|done]. intros _. split_and!; [lia|lia|by apply Hb].
Qed.

Lemma after_release_spec s c name :
  lockdep_inv s -> 0 <= c ->
  exists rc s', mcs_lockdep_after_release (Some s) c name = Some (rc, Some s') /\
    lockdep_inv s' /\ (rc = MCS_SYNC_OK <-> 0 < c /\ last (held s) = Some c) /\
    (rc = MCS_SYNC_OK -> held s = held s' ++ [c]) /\ (rc <> MCS_SYNC_OK -> held s' = held s).
Proof.
  intros Hinv Hc. unfold mcs_lockdep_after_release. pose proof (length_held s Hinv) as Hlen.
  destruct (violation_inv s Hinv) as [Hvi Hvh].
  destruct (Z.eqb_spec c 0); [do 2 eexists; split_and!; [done|done|split; [done|lia]|done|done]|].
  destruct (Z.eqb_spec (depth s) 0) as [Hz|Hz].
  { do 2 eexists. split_and!; [done|done| |done|done]. split; [done|].
    intros [_ Hl]. destruct (held s); simpl in *; [done|lia]. }
  pose proof Hinv as [[Hl Hl'] Hd Hs Hp]. unfold MCS_LOCKDEP_MAX_HELD in *.
  destruct (top_class s) as (t & -> & Ht); [done|lia|]. cbv zeta. simpl mbind.
  destruct (Z.eqb_spec t c) as [->|]; simpl negb; cbv iota;
    [|do 2 eexists; split_and!; [done|done| |done|done]; naive_solver].
  rewrite wrap_small by (unfold in_u; lia). rewrite !arr_set_Some by lia. simpl mbind.
  set (s' := mk_lockdep _ _ _ _).
  assert (Hheld : held s = held s' ++ [c]).
  { apply last_Some in Ht as [l Hl1]. rewrite Hl1. f_equal.
    assert (Hll : Z.of_nat (length l) = depth s - 1) by (rewrite Hl1, length_app in Hlen; simpl in Hlen; lia).
    unfold held, s'. simpl. rewrite take_insert_ge by lia.
    replace (Z.to_nat (depth s - 1)) with (length l) by lia. unfold held in Hl1.
    transitivity (take (length l) (l ++ [c])); [by rewrite take_app_length|].
    rewrite <- Hl1, take_take. f_equal. lia. }
  do 2 eexists. split_and!; [done| |split; [|done]; intros _; split; [lia|done]|done|done].
  constructor; simpl.
  - by rewrite !length_insert.
  - unfold MCS_LOCKDEP_MAX_HELD. lia.
  - rewrite Hheld in Hs. by apply StronglySorted_init in Hs.
  - rewrite Hheld in Hp. by apply Forall_app in Hp as [? _].
Qed.

(** The lock-order checker: on every well-formed state both hooks return
    inside the 16-entry arrays and preserve well-formedness.  An acquire is
    accepted exactly when the class is non-zero, a slot is free and the class
    exceeds every held class, and it then pushes the class; a release is
    accepted exactly for the class on top, and pops it; a rejected call
    changes only the violation counter. *)
Theorem lockdep_hooks_correct s c name :
  lockdep_inv s -> 0 <= c ->
  (exists rc s', mcs_lockdep_before_acquire (Some s) c name = Some (rc, Some s') /\
     lockdep_inv s' /\ (rc = MCS_SYNC_OK <-> may_acquire s c) /\
     held s' = (if bool_decide (rc = MCS_SYNC_OK) then held s ++ [c] else held s)) /\
  (exists rc s', mcs_lockdep_after_release (Some s) c name = Some (rc, Some s') /\
     lockdep_inv s' /\ (rc = MCS_SYNC_OK <-> 0 < c /\ last (held s) = Some c) /\
     (rc = MCS_SYNC_OK -> held s = held s' ++ [c]) /\ (rc <> MCS_SYNC_OK -> held s' = held s)) /\
  mcs_lockdep_is_held (Some s) c = Some (bool_decide (c <> 0 /\ c ∈ held s)).
Proof.
  intros Hinv Hc. split; [by apply before_acquire_spec|]. split; [by apply after_release_spec|].
  unfold mcs_lockdep_is_held. destruct (Z.eqb_spec c 0) as [->|Hne].
  - by rewrite bool_decide_false by naive_solver.
  - rewrite Z.min_l by apply (ld_depth _ Hinv). rewrite class_scan_spec by done.
    f_equal. apply bool_decide_ext. naive_solver.
Qed.

Definition fresh_state : mcs_lockdep_state := mk_lockdep (replicate 16 0) (replicate 16 0) 0 0.

Lemma fresh_state_inv : lockdep_inv fresh_state.
Proof. constructor; unfold held, MCS_LOCKDEP_MAX_HELD; simpl; try lia; constructor. Qed.

Lemma lockdep_hooks_correct_witness :
  mcs_lockdep_init (Some fresh_state) = Some fresh_state /\
  exists s', mcs_lockdep_before_acquire (Some fresh_state) 7 1 = Some (MCS_SYNC_OK, Some s') /\
    lockdep_inv s' /\ held s' = [7].
Proof.
  split; [reflexivity|].
  destruct (lockdep_hooks_correct fresh_state 7 1) as ((rc & s' & H & Hinv & Hok & Hh) & _ & _);
    [apply fresh_state_inv|lia|].
  assert (E : rc = MCS_SYNC_OK).
  { apply Hok. unfold may_acquire, MCS_LOCKDEP_MAX_HELD, held. simpl. split; [lia|]. split; [lia|constructor]. }
  exists s'. subst rc. split; [exact H|]. split; [exact Hinv|]. exact Hh.
Defined.

(** ** Deadlock freedom

    Threads that lock under the checker.  A lock is named by a number and has
    the class [cls]; a thread keeps its checker state, the locks it owns and
    the lock it is blocked on.  It calls [mcs_lockdep_before_acquire] before it
    blocks on a lock and does not take the lock when the call is refused; a
    lock is granted when nobody owns it; it calls [mcs_lockdep_after_release]
    when it has given a lock back, in any order it likes. *)
Record locker := mk_locker {
  lk_state : mcs_lockdep_state;
  lk_own : list Z;
  lk_wait : option Z
}.

Section lockers.
Context (cls : Z -> Z).

Definition free_lock (ts : list locker) (l : Z) : Prop := Forall (fun u => l ∉ lk_own u) ts.

Inductive locker_step : list locker -> list locker -> Prop :=
| lk_request ts i t l name rc s :
    ts !! i = Some t -> lk_wait t = None -> in_u 32 (cls l) ->
    mcs_lockdep_before_acquire (Some (lk_state t)) (cls l) name = Some (rc, Some s) ->
    locker_step ts (<[i := mk_locker s (lk_own t)
                             (if bool_decide (rc = MCS_SYNC_OK) then Some l else None)]> ts)
| lk_grant ts i t l :
    ts !! i = Some t -> lk_wait t = Some l -> free_lock ts l ->
    locker_step ts (<[i := mk_locker (lk_state t) (l :: lk_own t) None]> ts)
| lk_release ts i t l name rc s :
    ts !! i = Some t -> lk_wait t = None -> l ∈ lk_own t ->
    mcs_lockdep_after_release (Some (lk_state t)) (cls l) name = Some (rc, Some s) ->
    locker_step ts (<[i := mk_locker s (filter (fun k => k <> l) (lk_own t)) None]> ts).

(** Thread [i] is blocked on a lock thread [j] owns. *)
Definition blocked_by (ts : list locker) (i j : nat) : Prop :=
  exists t u l, ts !! i = Some t /\ ts !! j = Some u /\ lk_wait t = Some l /\ l ∈ lk_own u.

(** The owned locks have distinct classes, all on the stack, and the class
    waited for is above them. *)
Definition locker_inv (t : locker) : Prop :=
  lockdep_inv (lk_state t) /\ NoDup (map cls (lk_own t)) /\
  exists h, held (lk_state t) = h ++ match lk_wait t with Some l => [cls l] | None => [] end /\
    forall k, k ∈ lk_own t -> cls k ∈ h.

Lemma sorted_below (l : list Z) c h : StronglySorted Z.lt (l ++ [c]) -> h ∈ l -> h < c.
Proof.
  intros Hs Hh. induction l as [|a l IH]; [by apply elem_of_nil in Hh|].
  inversion Hs as [|?? Hs' HF]; subst. apply elem_of_cons in Hh as [->|Hh]; [|by apply IH].
  rewrite Forall_forall in HF. apply HF. rewrite elem_of_app, list_elem_of_singleton. by right.
Qed.

(** Whatever a blocked thread owns is below what it waits for. *)
Lemma locker_waits_above t l k :
  locker_inv t -> lk_wait t = Some l -> k ∈ lk_own t -> cls k < cls l.
Proof.
  intros (Hinv & _ & h & Hh & Ho) Hw Hk. rewrite Hw in Hh.
  eapply (sorted_below h); [rewrite <- Hh; apply Hinv|by apply Ho].
Qed.

Lemma locker_request_inv t l name rc s :
  locker_inv t -> lk_wait t = None -> in_u 32 (cls l) ->
  mcs_lockdep_before_acquire (Some (lk_state t)) (cls l) name = Some (rc, Some s) ->
  locker_inv (mk_locker s (lk_own t) (if bool_decide (rc = MCS_SYNC_OK) then Some l else None)).
Proof.
  intros (Hinv & Hnd & h & Hh & Ho) Hw [Hc _] Hcall. rewrite Hw, app_nil_r in Hh.
  destruct (before_acquire_spec _ _ name Hinv Hc) as (rc' & s' & E & Hinv' & _ & Hheld).
  rewrite Hcall in E. injection E as <- <-. split; [done|]. split; [done|]. exists h.
  simpl. rewrite Hheld, Hh. case_bool_decide; rewrite ?app_nil_r; done.
Qed.

Lemma locker_grant_inv t l :
  locker_inv t -> lk_wait t = Some l -> locker_inv (mk_locker (lk_state t) (l :: lk_own t) None).
Proof.
  intros Ht Hw. pose proof (fun k => locker_waits_above t l k Ht Hw) as Hlt.
  destruct Ht as (Hinv & Hnd & h & Hh & Ho). rewrite Hw in Hh. split; [done|]. split; simpl.
  - constructor; [|done]. intros (k & Hk & Hin)%list_elem_of_In%in_map_iff.
    apply list_elem_of_In in Hin. specialize (Hlt k Hin). lia.
  - exists (held (lk_state t)). rewrite app_nil_r, Hh. split; [done|].
    intros k [->|Hk]%elem_of_cons; apply elem_of_app; [right; by left|left; by apply Ho].
Qed.

Lemma NoDup_map_inj (l : list Z) a b :
  NoDup (map cls l) -> a ∈ l -> b ∈ l -> cls a = cls b -> a = b.
Proof.
  induction l as [|x l IH]; [by intros _ ?%elem_of_nil|]. simpl. intros [Hx Hnd]%NoDup_cons Ha Hb E.
  assert (Hno : forall y, y ∈ l -> cls y <> cls x).
  { intros y Hy Hyx. apply Hx, list_elem_of_In. rewrite <- Hyx. by apply in_map, list_elem_of_In. }
  apply elem_of_cons in Ha as [->|Ha], Hb as [->|Hb]; [done| | |by apply IH];
    [by destruct (Hno b)|by destruct (Hno a)].
Qed.

Lemma NoDup_map_filter (l : list Z) x : NoDup (map cls l) -> NoDup (map cls (filter (fun k => k <> x) l)).
Proof.
  intros H. apply (sublist_NoDup _ _ H). clear H. induction l as [|a l IH]; simpl; [done|].
  rewrite filter_cons. case_decide; simpl; by constructor.
Qed.

Lemma locker_release_inv t l name rc s :
  locker_inv t -> lk_wait t = None -> l ∈ lk_own t ->
  mcs_lockdep_after_release (Some (lk_state t)) (cls l) name = Some (rc, Some s) ->
  locker_inv (mk_locker s (filter (fun k => k <> l) (lk_own t)) None).
Proof.
  intros (Hinv & Hnd & h & Hh & Ho) Hw Hl Hcall. rewrite Hw, app_nil_r in Hh. subst h.
  assert (Hc : 0 <= cls l).
  { pose proof (Ho l Hl) as Hin. pose proof (ld_pos _ Hinv) as Hp. rewrite Forall_forall in Hp.
    specialize (Hp _ Hin). simpl in Hp. lia. }
  destruct (after_release_spec _ _ name Hinv Hc) as (rc' & s' & E & Hinv' & _ & Hok & Hno).
  rewrite Hcall in E. injection E as <- <-. split; [done|]. split; [by apply NoDup_map_filter|].
  exists (held s). simpl. rewrite app_nil_r. split; [done|].
  intros k [Hkl Hk]%list_elem_of_filter. pose proof (Ho k Hk) as Hin.
  destruct (decide (rc = MCS_SYNC_OK)) as [Hrc|Hrc]; [|by rewrite Hno].
  rewrite Hok in Hin by done. apply elem_of_app in Hin as [?|Hin]; [done|].
  apply list_elem_of_singleton in Hin. by destruct Hkl; apply (NoDup_map_inj (lk_own t)).
Qed.

Lemma locker_step_inv ts ts' :
  Forall locker_inv ts -> locker_step ts ts' -> Forall locker_inv ts'.
Proof.
  intros Hts Hstep. destruct Hstep as [ts i t l name rc s Hi|ts i t l Hi|ts i t l name rc s Hi];
    apply Forall_insert; try done; pose proof (Forall_lookup_1 _ _ _ _ Hts Hi).
  - by eapply locker_request_inv.
  - by apply locker_grant_inv.
  - by eapply locker_release_inv.
Qed.

Lemma lockers_reachable n s0 s ts :
  mcs_lockdep_init (Some s0) = Some s ->
  rtc locker_step (replicate n (mk_locker s [] None)) ts -> Forall locker_inv ts /\ length ts = n.
Proof.
  intros [= <-] Hr.
  apply (rtc_ind_r (fun ts => Forall locker_inv ts /\ length ts = n) _) in Hr; [done| |].
  - split; [|by rewrite length_replicate]. apply Forall_replicate. split; [apply fresh_state_inv|].
    split; [constructor|]. exists []. split; [done|]. by intros k ?%elem_of_nil.
  - intros ts1 ts2 _ Hst [Hts Hl]. split; [by eapply locker_step_inv|].
    destruct Hst; by rewrite length_insert.
Qed.

(** Along a chain of blocked threads the classes waited for increase. *)
Lemma blocked_chain ts i j :
  Forall locker_inv ts -> tc (blocked_by ts) i j ->
  exists t u l k, ts !! i = Some t /\ ts !! j = Some u /\ lk_wait t = Some l /\ k ∈ lk_own u /\
    cls l <= cls k.
Proof.
  intros Hts Htc. induction Htc as [i j (t & u & l & H)|i m j (t & u & l & Hi & Hm & Hw & Ho) _ IH].
  - exists t, u, l, l. naive_solver lia.
  - destruct IH as (u' & v & l' & k & Hm' & Hj & Hw' & Hk & Hle). simplify_eq.
    exists t, v, l, k. pose proof (Forall_lookup_1 _ _ _ _ Hts Hm) as Hu.
    pose proof (locker_waits_above _ _ _ Hu Hw' Ho). naive_solver lia.
Qed.

Lemma list_argmax {A} (f : A -> Z) (l : list A) :
  l <> [] -> exists i x, l !! i = Some x /\ forall j y, l !! j = Some y -> f y <= f x.
Proof.
  induction l as [|a l IH]; [done|]. intros _. destruct l as [|b l].
  { exists 0%nat, a. split; [done|]. intros [|j] y Hy; simpl in Hy; [simplify_eq; lia|done]. }
  destruct IH as (i & x & Hi & Hx); [done|]. destruct (Z.le_gt_cases (f x) (f a)).
  - exists 0%nat, a. split; [done|]. intros [|j] y Hy; simpl in Hy; [simplify_eq; lia|].
    specialize (Hx j y Hy). lia.
  - exists (S i), x. split; [done|]. intros [|j] y Hy; simpl in Hy; [simplify_eq; lia|by apply (Hx j)].
Qed.

End lockers.

(** C14. Deadlock freedom of the lock order: any number of threads, each
    starting from [mcs_lockdep_init], request locks through
    [mcs_lockdep_before_acquire], block on a lock only when the call answered
    OK, and release in any order through [mcs_lockdep_after_release].  In
    every state they reach no thread is blocked, through any chain of owners,
    on a lock it owns itself; and some thread is not blocked at all: it either
    runs or waits for a lock nobody owns. *)
Theorem lockdep_no_circular_wait cls n s0 s ts :
  mcs_lockdep_init (Some s0) = Some s ->
  rtc (locker_step cls) (replicate n (mk_locker s [] None)) ts ->
  (forall i, ~ tc (blocked_by ts) i i) /\
  ((0 < n)%nat -> exists i t, ts !! i = Some t /\
     (lk_wait t = None \/ exists l, lk_wait t = Some l /\ free_lock ts l)).
Proof.
  intros Hinit Hr. destruct (lockers_reachable cls n s0 s ts Hinit Hr) as [Hts Hn]. split.
  - intros i Hc. destruct (blocked_chain cls ts i i Hts Hc) as (t & u & l & k & Hi & Hi' & Hw & Hk & Hle).
    simplify_eq. pose proof (Forall_lookup_1 _ _ _ _ Hts Hi) as Ht.
    pose proof (locker_waits_above cls _ _ _ Ht Hw Hk). lia.
  - intros Hpos.
    destruct (list_argmax (fun t => match lk_wait t with Some l => cls l | None => 0 end) ts)
      as (i & t & Hi & Hmax); [by destruct ts; simpl in *; [lia|]|].
    destruct (lk_wait t) as [l|] eqn:Hw; [|by exists i, t; auto].
    destruct (decide (Exists (fun u => l ∈ lk_own u) ts)) as [He|He].
    + apply Exists_exists in He as (u & Hu & Hl). apply list_elem_of_lookup in Hu as (j & Hj).
      destruct (lk_wait u) as [k|] eqn:Hk; [|by exists j, u; auto].
      pose proof (Forall_lookup_1 _ _ _ _ Hts Hj) as Hinv.
      pose proof (locker_waits_above cls _ _ _ Hinv Hk Hl). specialize (Hmax j u Hj).
      rewrite Hk in Hmax. lia.
    + exists i, t. split; [done|]. right. exists l. split; [done|]. by apply Forall_Exists_neg.
Qed.

(** Two threads, lock [l] of class [l]: the first owns lock 1 and is blocked
    on lock 2, the second owns lock 2 and its request of lock 1 is refused. *)
Lemma lockdep_no_circular_wait_witness :
  exists t0 t1, rtc (locker_step id) (replicate 2 (mk_locker fresh_state [] None)) [t0; t1] /\
    blocked_by [t0; t1] 0%nat 1%nat /\ ~ tc (blocked_by [t0; t1]) 0%nat 0%nat /\ lk_wait t1 = None.
Proof.
  eexists _, _.
  match goal with |- ?P /\ _ => assert (Hr : P) end.
  { eapply rtc_l; [apply (lk_request id _ 0%nat (mk_locker fresh_state [] None) 1 0);
      [reflexivity|reflexivity|split; vm_compute; congruence|reflexivity]|].
    eapply rtc_l; [eapply (lk_grant id _ 0%nat _ 1); [reflexivity|reflexivity|repeat constructor; intros ?%elem_of_nil; done]|].
    eapply rtc_l; [eapply (lk_request id _ 1%nat (mk_locker fresh_state [] None) 2 0);
      [reflexivity|reflexivity|split; vm_compute; congruence|reflexivity]|].
    eapply rtc_l; [eapply (lk_grant id _ 1%nat _ 2); [reflexivity|reflexivity|]|].
    { constructor; [simpl; intros [?|?%elem_of_nil]%elem_of_cons; done|].
      repeat constructor; intros ?%elem_of_nil; done. }
    eapply rtc_l; [eapply (lk_request id _ 0%nat _ 2 0);
      [reflexivity|reflexivity|split; vm_compute; congruence|reflexivity]|].
    eapply rtc_l; [eapply (lk_request id _ 1%nat _ 1 0);
      [reflexivity|reflexivity|split; vm_compute; congruence|reflexivity]|].
    apply rtc_refl. }
  split; [exact Hr|].
  destruct (lockdep_no_circular_wait id 2 fresh_state fresh_state _ ltac:(reflexivity) Hr) as [H _].
  split; [|split; [apply H|reflexivity]].
  eexists _, _, 2. split; [reflexivity|]. split; [reflexivity|]. split; [reflexivity|by left].
Defined.

End Lockdep.

Module Spin.

Record mcs_spinlock := mk_spin {
  locked : Z;
  class_id : Z;
  name : Z
}.

Definition mcs_spin_init (lock : option mcs_spinlock) (c n : Z) : option mcs_spinlock :=
  match lock with None => None | Some _ => Some (mk_spin 0 c n) end.

(** The atomic exchange: the old value decides the result. *)
Definition mcs_spin_try_lock (lock : option mcs_spinlock) : bool * option mcs_spinlock :=
  match lock with
  | None => (false, None)
  | Some l => (locked l =? 0, Some (mk_spin 1 (class_id l) (name l)))
  end.

Definition mcs_spin_unlock (lock : option mcs_spinlock) : option mcs_spinlock :=
  match lock with None => None | Some l => Some (mk_spin 0 (class_id l) (name l)) end.

Definition mcs_spin_is_locked (lock : option mcs_spinlock) : bool :=
  match lock with None => false | Some l => negb (locked l =? 0) end.

(** Where a thread is: outside, about to exchange in [mcs_spin_lock]'s outer
    loop, in its inner read-only loop, or holding the lock. *)
Inductive spin_pc := Out | Trying | Spinning | Inside.

(** [mcs_spin_lock]/[mcs_spin_unlock] run by any number of threads, one atomic
    access per step. *)
Inductive mcs_spin_lock_step : mcs_spinlock * list spin_pc -> mcs_spinlock * list spin_pc -> Prop :=
| spin_call l pcs i :
    pcs !! i = Some Out -> mcs_spin_lock_step (l, pcs) (l, <[i := Trying]> pcs)
| spin_exchange l pcs i b l' :
    pcs !! i = Some Trying -> mcs_spin_try_lock (Some l) = (b, Some l') ->
    mcs_spin_lock_step (l, pcs) (l', <[i := if b : bool then Inside else Spinning]> pcs)
| spin_poll l pcs i :
    pcs !! i = Some Spinning ->
    mcs_spin_lock_step (l, pcs)
      (l, <[i := if mcs_spin_is_locked (Some l) then Spinning else Trying]> pcs)
| spin_release l pcs i l' :
    pcs !! i = Some Inside -> mcs_spin_unlock (Some l) = Some l' ->
    mcs_spin_lock_step (l, pcs) (l', <[i := Out]> pcs).

(** [locked] is 1 exactly while one thread is inside. *)
Definition spin_inv (st : mcs_spinlock * list spin_pc) : Prop :=
  exists o : option nat, locked (fst st) = match o with Some _ => 1 | None => 0 end /\
    forall j, snd st !! j = Some Inside <-> o = Some j.

Lemma spin_step_inv st st' : spin_inv st -> mcs_spin_lock_step st st' -> spin_inv st'.
Proof.
  intros (o & Hl & Ho) Hstep.
  destruct Hstep as [l pcs i Hi|l pcs i b l' Hi Ht|l pcs i Hi|l pcs i l' Hi Hu]; simpl in *.
  - exists o. split; [done|]. intros j. simpl. rewrite (lookup_insert_at _ _ _ _ _ Hi), <- Ho.
    case_decide; naive_solver.
  - injection Ht as <- <-. destruct (Z.eqb_spec (locked l) 0) as [E|E].
    + destruct o; [lia|]. exists (Some i). split; [done|]. intros j. simpl.
      rewrite (lookup_insert_at _ _ _ _ _ Hi). pose proof (Ho j). case_decide; naive_solver.
    + destruct o as [h|]; [|lia]. exists (Some h). split; [done|]. intros j. simpl.
      rewrite (lookup_insert_at _ _ _ _ _ Hi), <- Ho. case_decide; naive_solver.
  - exists o. split; [done|]. intros j. simpl. rewrite (lookup_insert_at _ _ _ _ _ Hi), <- Ho.
    case_decide; destruct (negb (locked l =? 0)); naive_solver.
  - injection Hu as <-. apply Ho in Hi as Hoi. exists None. split; [done|]. intros j. simpl.
    rewrite (lookup_insert_at _ _ _ _ _ Hi). pose proof (Ho j). case_decide; naive_solver.
Qed.

Lemma spin_reachable_inv c nm n st :
  rtc mcs_spin_lock_step (mk_spin 0 c nm, replicate n Out) st -> spin_inv st.
Proof.
  intros Hr. apply (rtc_ind_r spin_inv (mk_spin 0 c nm, replicate n Out)) in Hr; [done| |].
  - exists None. split; [done|]. intros j. simpl. split; [|done].
    intros Hj. apply lookup_replicate_1 in Hj as [? _]. done.
  - intros. by eapply spin_step_inv.
Qed.

(** C34. Spinlock mutual exclusion and progress: in every state reachable by
    any interleaving of any number of threads from a lock [mcs_spin_init] has
    initialised, at most one thread is inside; the lock word is 1 and
    [mcs_spin_is_locked] answers true exactly while one is, and the word is 0
    otherwise; and when none is inside, every thread that is waiting in
    [mcs_spin_lock] can enter by its own steps alone. *)
Theorem spin_mutual_exclusion l0 c nm n l1 l pcs :
  mcs_spin_init (Some l0) c nm = Some l1 ->
  rtc mcs_spin_lock_step (l1, replicate n Out) (l, pcs) ->
  (forall i j, pcs !! i = Some Inside -> pcs !! j = Some Inside -> i = j) /\
  (locked l = 1 \/ locked l = 0) /\
  (locked l = 1 <-> exists i, pcs !! i = Some Inside) /\
  (mcs_spin_is_locked (Some l) = true <-> exists i, pcs !! i = Some Inside) /\
  ((forall j, pcs !! j <> Some Inside) -> forall i,
     pcs !! i = Some Trying \/ pcs !! i = Some Spinning ->
     exists l', rtc mcs_spin_lock_step (l, pcs) (l', <[i := Inside]> pcs)).
Proof.
  intros [= <-] Hr. destruct (spin_reachable_inv _ _ _ _ Hr) as (o & Hl & Ho). simpl in *.
  split; [intros i j Hi%Ho Hj%Ho; congruence|].
  split; [destruct o; auto|].
  split; [rewrite Hl; destruct o as [h|]; naive_solver|].
  split; [rewrite Hl; destruct o as [h|]; simpl; naive_solver|].
  - intros Hnone i Hi. destruct o as [h|]; [by destruct (Hnone h); apply Ho|].
    assert (Hgo : forall pcs', pcs' !! i = Some Trying ->
      mcs_spin_lock_step (l, pcs') (mk_spin 1 (class_id l) (name l), <[i := Inside]> pcs')).
    { intros pcs' Hp. apply (spin_exchange l pcs' i true); [done|]. simpl. by rewrite Hl. }
    destruct Hi as [Hi|Hi].
    + eexists. by apply rtc_once, Hgo.
    + exists (mk_spin 1 (class_id l) (name l)).
      apply (rtc_l _ _ (l, <[i := Trying]> pcs)).
      * pose proof (spin_poll l pcs i Hi) as Hp. simpl in Hp. by rewrite Hl in Hp.
      * apply rtc_once. rewrite <- (list_insert_insert_eq pcs i Inside Trying). apply Hgo.
        rewrite (lookup_insert_at _ _ _ _ _ Hi). by rewrite decide_True.
Qed.

Lemma spin_mutual_exclusion_witness :
  exists l', rtc mcs_spin_lock_step (mk_spin 0 1 0, [Trying; Out]) (l', [Inside; Out]).
Proof.
  destruct (spin_mutual_exclusion (mk_spin 1 0 0) 1 0 2 (mk_spin 0 1 0) (mk_spin 0 1 0) [Trying; Out])
    as (_ & _ & _ & _ & H).
  - reflexivity.
  - apply rtc_once. apply (spin_call _ [Out; Out] 0). reflexivity.
  - apply (H ltac:(intros [|[|j]]; simpl; done) 0%nat). left. reflexivity.
Defined.

End Spin.

Module Mutex.

Record mcs_mutex := mk_mutex {
  locked : Z;
  owner : Z;
  class_id : Z;
  name : Z
}.

Definition set_locked (m : mcs_mutex) (v : Z) : mcs_mutex :=
  mk_mutex v (owner m) (class_id m) (name m).
Definition set_owner (m : mcs_mutex) (v : Z) : mcs_mutex :=
  mk_mutex (locked m) v (class_id m) (name m).

(** [__atomic_compare_exchange_n(&mutex->locked, &expected, 1, ...)] with
    [expected = 0]. *)
Definition cas_locked (m : mcs_mutex) : bool * mcs_mutex :=
  if locked m =? 0 then (true, set_locked m 1) else (false, m).

Definition mcs_mutex_init (mutex : option mcs_mutex) (c n : Z) : option mcs_mutex :=
  match mutex with None => None | Some _ => Some (mk_mutex 0 0 c n) end.

Definition mcs_mutex_try_lock (mutex : option mcs_mutex) (owner_id : Z) : Z * option mcs_mutex :=
  match mutex with
  | None => (MCS_SYNC_EINVAL, None)
  | Some m =>
      if owner_id =? 0 then (MCS_SYNC_EINVAL, Some m) else
      let (won, m1) := cas_locked m in
      if negb won then
        if owner m1 =? owner_id then (MCS_SYNC_EDEADLK, Some m1) else (MCS_SYNC_EBUSY, Some m1)
      else (MCS_SYNC_OK, Some (set_owner m1 owner_id))
  end.

Definition mcs_mutex_unlock (mutex : option mcs_mutex) (owner_id : Z) : Z * option mcs_mutex :=
  match mutex with
  | None => (MCS_SYNC_EINVAL, None)
  | Some m =>
      if owner_id =? 0 then (MCS_SYNC_EINVAL, Some m) else
      if negb (owner m =? owner_id) then (MCS_SYNC_EPERM, Some m)
      else (MCS_SYNC_OK, Some (set_locked (set_owner m 0) 0))
  end.

Definition mcs_mutex_is_locked (mutex : option mcs_mutex) : bool :=
  match mutex with None => false | Some m => negb (locked m =? 0) end.

Definition mcs_mutex_owner (mutex : option mcs_mutex) : Z :=
  match mutex with None => 0 | Some m => owner m end.

(** Where a thread is: between calls (and whether it holds the mutex), after a
    failed or a won compare-exchange in [mcs_mutex_try_lock], or before the
    first or second store of a permitted [mcs_mutex_unlock]. *)
Inductive mutex_pc :=
| Idle (holding : bool)
| TryFailed (holding : bool)
| TryWon
| Rel1
| Rel2.

#[global] Instance mutex_pc_eq_dec : EqDecision mutex_pc.
Proof. solve_decision. Defined.

Section threads.
(** The owner ids of the threads: distinct and non-zero. *)
Context (oid : nat -> Z).
Context (oid_inj : forall i j, oid i = oid j -> i = j).
Context (oid_nonzero : forall i, oid i <> 0).

(** One atomic access of thread [i]; [Some rc] when it completes a call. *)
Inductive mutex_step (i : nat) : mcs_mutex * list mutex_pc -> option Z ->
    mcs_mutex * list mutex_pc -> Prop :=
| try_cas_won m pcs b m1 :
    pcs !! i = Some (Idle b) -> cas_locked m = (true, m1) ->
    mutex_step i (m, pcs) None (m1, <[i := TryWon]> pcs)
| try_cas_failed m pcs b m1 :
    pcs !! i = Some (Idle b) -> cas_locked m = (false, m1) ->
    mutex_step i (m, pcs) None (m1, <[i := TryFailed b]> pcs)
| try_store_owner m pcs :
    pcs !! i = Some TryWon ->
    mutex_step i (m, pcs) (Some MCS_SYNC_OK) (set_owner m (oid i), <[i := Idle true]> pcs)
| try_load_owner m pcs b :
    pcs !! i = Some (TryFailed b) ->
    mutex_step i (m, pcs)
      (Some (if owner m =? oid i then MCS_SYNC_EDEADLK else MCS_SYNC_EBUSY))
      (m, <[i := Idle b]> pcs)
| unlock_eperm m pcs b :
    pcs !! i = Some (Idle b) -> owner m <> oid i ->
    mutex_step i (m, pcs) (Some MCS_SYNC_EPERM) (m, <[i := Idle b]> pcs)
| unlock_load_owner m pcs b :
    pcs !! i = Some (Idle b) -> owner m = oid i ->
    mutex_step i (m, pcs) None (m, <[i := Rel1]> pcs)
| unlock_clear_owner m pcs :
    pcs !! i = Some Rel1 ->
    mutex_step i (m, pcs) None (set_owner m 0, <[i := Rel2]> pcs)
| unlock_clear_locked m pcs :
    pcs !! i = Some Rel2 ->
    mutex_step i (m, pcs) (Some MCS_SYNC_OK) (set_locked m 0, <[i := Idle false]> pcs).

Definition any_step (st st' : mcs_mutex * list mutex_pc) : Prop :=
  exists i r, mutex_step i st r st'.

(** From a won exchange to the final store of the unlock. *)
Definition inside (pc : mutex_pc) : bool :=
  match pc with Idle b | TryFailed b => b | TryWon | Rel1 | Rel2 => true end.
(** The part of it during which the owner word names the thread. *)
Definition owns (pc : mutex_pc) : bool :=
  match pc with Idle b | TryFailed b => b | Rel1 => true | TryWon | Rel2 => false end.

Definition mutex_inv (st : mcs_mutex * list mutex_pc) : Prop :=
  exists o : option nat,
    (forall j pc, snd st !! j = Some pc -> (inside pc = true <-> o = Some j)) /\
    match o with
    | None => locked (fst st) = 0 /\ owner (fst st) = 0
    | Some h => locked (fst st) = 1 /\ exists pc, snd st !! h = Some pc /\
        owner (fst st) = if owns pc then oid h else 0
    end.

(** A step that changes neither the lock nor who is inside. *)
Lemma mutex_inv_local m pcs i pc pc' :
  pcs !! i = Some pc -> inside pc = inside pc' -> owns pc = owns pc' ->
  mutex_inv (m, pcs) -> mutex_inv (m, <[i := pc']> pcs).
Proof.
  intros Hi Hin Hown (o & Ho & Hm). exists o. split.
  - intros j q. simpl. rewrite (lookup_insert_at _ _ _ _ _ Hi). case_decide as E.
    + intros [= <-]. rewrite <- Hin. subst j. by apply Ho.
    + apply Ho.
  - destruct o as [h|]; [|done]. destruct Hm as [? (q & Hq & Hw)]. split; [done|].
    simpl. rewrite (lookup_insert_at _ _ _ _ _ Hi). case_decide as E; [|by eauto].
    exists pc'. split; [done|]. simpl in Hq, Hw. subst i. rewrite Hi in Hq. injection Hq as <-.
    by rewrite <- Hown.
Qed.

(** A step of the one thread that is inside and stays inside. *)
Lemma mutex_inv_holder m m' pcs i pc pc' :
  pcs !! i = Some pc -> inside pc = true -> inside pc' = true ->
  locked m' = locked m -> owner m' = (if owns pc' then oid i else 0) ->
  mutex_inv (m, pcs) -> mutex_inv (m', <[i := pc']> pcs).
Proof.
  intros Hi Hin Hin' Hl Hw (o & Ho & Hm). simpl in *.
  assert (o = Some i) as -> by (by apply (Ho i pc)). exists (Some i). split.
  - intros j q. simpl. rewrite (lookup_insert_at _ _ _ _ _ Hi). case_decide as E.
    + intros [= <-]. by subst.
    + apply Ho.
  - destruct Hm as [? _]. split; [simpl; congruence|]. exists pc'. split; [|done].
    simpl. rewrite (lookup_insert_at _ _ _ _ _ Hi). by rewrite decide_True.
Qed.

(** What the owner word tells a thread. *)
Lemma owner_of_thread m pcs i pc :
  mutex_inv (m, pcs) -> pcs !! i = Some pc -> owner m = oid i <-> owns pc = true.
Proof.
  intros (o & Ho & Hm) Hi. simpl in *. destruct o as [h|].
  - destruct Hm as (_ & q & Hq & Hw). split.
    + intros E. destruct (owns q) eqn:Eq; [|rewrite E in Hw; by apply oid_nonzero in Hw].
      rewrite Hw in E. apply oid_inj in E as ->. by rewrite Hi in Hq; injection Hq as ->.
    + intros E. assert (Some h = Some i) as [= ->].
      { apply (Ho i pc Hi). by destruct pc as [[]|[]| | |]. }
      rewrite Hi in Hq. injection Hq as <-. by rewrite E in Hw.
  - destruct Hm as [_ Hw]. split.
    + intros E. rewrite E in Hw. by apply oid_nonzero in Hw.
    + intros E. assert (None = Some i); [|done]. apply (Ho i pc Hi). by destruct pc as [[]|[]| | |].
Qed.

Lemma mutex_step_inv i st r st' : mutex_inv st -> mutex_step i st r st' -> mutex_inv st'.
Proof.
  intros Hinv Hstep. destruct Hstep as [m pcs b m1 Hi Hc|m pcs b m1 Hi Hc|m pcs Hi|m pcs b Hi
    |m pcs b Hi Hne|m pcs b Hi He|m pcs Hi|m pcs Hi].
  - unfold cas_locked in Hc. destruct (Z.eqb_spec (locked m) 0) as [E|]; [|done].
    injection Hc as <-. destruct Hinv as (o & Ho & Hm). simpl in *.
    destruct o as [h|]; [lia|]. exists (Some i). split.
    + intros j q. simpl. rewrite (lookup_insert_at _ _ _ _ _ Hi). case_decide as Ej.
      * intros [= <-]. by subst.
      * intros Hq. pose proof (Ho j q Hq). naive_solver.
    + split; [done|]. exists TryWon. simpl. rewrite (lookup_insert_at _ _ _ _ _ Hi).
      rewrite decide_True by done. split; [done|]. apply Hm.
  - unfold cas_locked in Hc. destruct (locked m =? 0); [done|]. injection Hc as <-.
    by apply (mutex_inv_local m pcs i (Idle b)).
  - by apply (mutex_inv_holder m _ pcs i TryWon).
  - by apply (mutex_inv_local m pcs i (TryFailed b)).
  - by apply (mutex_inv_local m pcs i (Idle b)).
  - apply (owner_of_thread m pcs i _ Hinv Hi) in He as Hb. simpl in Hb. subst b.
    by apply (mutex_inv_local m pcs i (Idle true)).
  - by apply (mutex_inv_holder m _ pcs i Rel1).
  - destruct Hinv as (o & Ho & Hm). simpl in *.
    assert (o = Some i) as -> by (by apply (Ho i Rel2)).
    destruct Hm as (_ & q & Hq & Hw). rewrite Hi in Hq. injection Hq as <-.
    exists None. split; [|done]. intros j q. simpl. rewrite (lookup_insert_at _ _ _ _ _ Hi).
    case_decide as Ej; [by intros [= <-]|]. intros Hq. pose proof (Ho j q Hq). naive_solver.
Qed.

Lemma mutex_reachable_inv c nm n st :
  rtc any_step (mk_mutex 0 0 c nm, replicate n (Idle false)) st -> mutex_inv st.
Proof.
  intros Hr.
  apply (rtc_ind_r mutex_inv (mk_mutex 0 0 c nm, replicate n (Idle false))) in Hr; [done| |].
  - exists None. split; [|done]. intros j pc Hj. simpl in Hj.
    apply lookup_replicate_1 in Hj as [-> _]. done.
  - intros st1 st2 _ (i & r & Hs) Hinv. by eapply mutex_step_inv.
Qed.
End threads.

(** C35. Mutex safety under interleaving: for threads with distinct non-zero
    owner ids, in every state reachable from an initialised mutex at most one
    thread is inside; a call made by the thread that holds the mutex and one
    made by any other thread get the right answer, whatever the other threads
    do meanwhile: [mcs_mutex_unlock] is permitted exactly to the holder, and
    a failed [mcs_mutex_try_lock] reports [EDEADLK] exactly to the holder. *)
Theorem mutex_mutual_exclusion oid c nm n m pcs :
  (forall i j, oid i = oid j -> i = j) -> (forall i, oid i <> 0) ->
  rtc (any_step oid) (mk_mutex 0 0 c nm, replicate n (Idle false)) (m, pcs) ->
  (forall i j p q, pcs !! i = Some p -> pcs !! j = Some q ->
     inside p = true -> inside q = true -> i = j) /\
  (forall i b, pcs !! i = Some (Idle b) -> (fst (mcs_mutex_unlock (Some m) (oid i)) = MCS_SYNC_OK <-> b = true)) /\
  (forall i b rc st', pcs !! i = Some (TryFailed b) -> mutex_step oid i (m, pcs) (Some rc) st' ->
     rc = (if b : bool then MCS_SYNC_EDEADLK else MCS_SYNC_EBUSY)).
Proof.
  intros Hinj Hnz Hr. pose proof (mutex_reachable_inv oid Hinj Hnz _ _ _ _ Hr) as Hinv. split_and!.
  - destruct Hinv as (o & Ho & _). intros i j p q Hp Hq Hip Hiq. simpl in *.
    apply (Ho _ _ Hp) in Hip. apply (Ho _ _ Hq) in Hiq. congruence.
  - intros i b Hi. pose proof (owner_of_thread oid Hinj Hnz m pcs i _ Hinv Hi) as Hw. simpl in *.
    destruct (Z.eqb_spec (oid i) 0) as [E|]; [by apply Hnz in E|].
    destruct (Z.eqb_spec (owner m) (oid i)); simpl; naive_solver.
  - intros i b rc st' Hi Hs. pose proof (owner_of_thread oid Hinj Hnz m pcs i _ Hinv Hi) as Hw.
    simpl in Hw. inversion Hs; subst; simplify_eq.
    destruct (Z.eqb_spec (owner m) (oid i)); destruct b; naive_solver.
Qed.

Lemma mutex_mutual_exclusion_witness :
  exists m, rtc (any_step (fun i => Z.of_nat i + 1)) (mk_mutex 0 0 5 0, [Idle false; Idle false])
      (m, [Idle true; Idle false]) /\
    fst (mcs_mutex_unlock (Some m) 1) = MCS_SYNC_OK /\ fst (mcs_mutex_unlock (Some m) 2) <> MCS_SYNC_OK.
Proof.
  assert (Hr : rtc (any_step (fun i => Z.of_nat i + 1)) (mk_mutex 0 0 5 0, [Idle false; Idle false])
      (mk_mutex 1 1 5 0, [Idle true; Idle false])).
  { eapply rtc_l; [|apply rtc_once].
    - exists 0%nat, None. apply (try_cas_won _ 0 _ [Idle false; Idle false] false); reflexivity.
    - exists 0%nat, (Some MCS_SYNC_OK).
      apply (try_store_owner (fun i => Z.of_nat i + 1) 0 (mk_mutex 1 0 5 0) [TryWon; Idle false]). reflexivity. }
  destruct (mutex_mutual_exclusion (fun i => Z.of_nat i + 1) 5 0 2 _ _
    ltac:(intros ? ?; cbv beta; lia) ltac:(intros ?; cbv beta; lia) Hr) as (_ & Hu & _).
  exists (mk_mutex 1 1 5 0). split; [exact Hr|]. split.
  - apply (Hu 0%nat true); reflexivity.
  - intros H. apply (Hu 1%nat false) in H; [discriminate|reflexivity].
Defined.

End Mutex.
