(* ===== verification/Journal.v ===== *)
(** * The journalled file system MCSFS1J

    Model of [kernel/fs/mcsfs1j/m16_mcsfs_journal.c]: a 128-block device with
    fault injection, a redo journal of at most eight block images, recovery,
    and a flat directory of one-block files on top of it.  Structs that the
    code lays over a block are byte buffers read and written with [ld]/[st] at
    the field's offset.  A device whose [fail_after] is [k >= 0] accepts [k]
    more block writes and then fails every one of them, which is how a power
    loss at any point of an operation is expressed. *)
From S2P Require Import Prelude Bitmap Bytes Errm.
From stdpp Require Import base list numbers option relations.
From Stdlib Require Import ZArith Lia.

Open Scope Z_scope.

Module Journal.
Open Scope em_scope.

(** ** Constants and data *)

Definition M16_BLOCK_SIZE : Z := 512.
Definition M16_MAX_BLOCKS : Z := 128.
Definition M16_MAX_INODES : Z := 16.
Definition M16_MAX_NAME : Z := 32.
Definition M16_MAGIC : Z := 0x4d43534631564a31.
Definition M16_JMAGIC : Z := 0x4d43534a524e4c31.
Definition M16_VERSION : Z := 1.
Definition M16_J_EMPTY : Z := 0.
Definition M16_J_COMMITTED : Z := 2.
Definition M16_JOURNAL_MAX_RECORDS : Z := 8.
Definition M16_JOURNAL_START : Z := 1.
Definition M16_JOURNAL_BLOCKS : Z := 1 + 2 * M16_JOURNAL_MAX_RECORDS.
Definition M16_INODE_BITMAP_LBA : Z := M16_JOURNAL_START + M16_JOURNAL_BLOCKS.
Definition M16_BLOCK_BITMAP_LBA : Z := M16_INODE_BITMAP_LBA + 1.
Definition M16_INODE_TABLE_LBA : Z := M16_BLOCK_BITMAP_LBA + 1.
Definition M16_INODE_TABLE_BLOCKS : Z := 4.
Definition M16_ROOT_DIR_LBA : Z := M16_INODE_TABLE_LBA + M16_INODE_TABLE_BLOCKS.
Definition M16_DATA_START_LBA : Z := M16_ROOT_DIR_LBA + 1.

Definition M16_E_OK : Z := 0.
Definition M16_E_INVAL : Z := -1.
Definition M16_E_IO : Z := -2.
Definition M16_E_NOSPC : Z := -3.
Definition M16_E_EXISTS : Z := -4.
Definition M16_E_NOENT : Z := -5.
Definition M16_E_CORRUPT : Z := -6.
Definition M16_E_TOOLONG : Z := -7.

Record m16_blockdev := mk_dev {
  blocks : list (list Z);
  total_blocks : Z;
  writes : Z;
  fail_after : Z
}.

Definition set_fail (d : m16_blockdev) (k : Z) : m16_blockdev :=
  mk_dev (blocks d) (total_blocks d) (writes d) k.
Definition set_blocks (d : m16_blockdev) (bl : list (list Z)) : m16_blockdev :=
  mk_dev bl (total_blocks d) (writes d) (fail_after d).

Record m16_jrec := mk_jrec { target_lba : Z; payload : list Z }.

(** [struct m16_tx]: the records in use; [count] is the length. *)
Abbreviation m16_tx := (list m16_jrec).

Definition io := em m16_blockdev.

Definition zero_block : list Z := replicate 512 0.

(** ** Byte helpers *)

(** [m16_strlen_bounded(s, max)]: reading past the caller's buffer is
    undefined. *)
Fixpoint m16_strlen_bounded (s : list Z) (max : nat) {struct max} : option nat :=
  match max with
  | O => Some O
  | S max =>
      match s with
      | [] => None
      | c :: s => if c =? 0 then Some O else n ← m16_strlen_bounded s max; Some (S n)
      end
  end.

(** [m16_streq(a, b)], at most [M16_MAX_NAME] characters. *)
Fixpoint m16_streq_n (n : nat) (a b : list Z) : option bool :=
  match n with
  | O => Some true
  | S n =>
      match a, b with
      | x :: a, y :: b =>
          if negb (x =? y) then Some false else
          if x =? 0 then Some true else m16_streq_n n a b
      | _, _ => None
      end
  end.
Definition m16_streq (a b : list Z) : option bool := m16_streq_n 32 a b.

Definition m16_checksum (p : list Z) (n : Z) : option Z :=
  bs ← slice p 0 n;
  Some (foldl (fun h b => u32 (Z.lxor h b * 16777619)) 2166136261 bs).

(** ** Block device *)

Definition m16_valid_lba (d : m16_blockdev) (lba : Z) : bool :=
  (lba <? total_blocks d) && (lba <? M16_MAX_BLOCKS).

Definition m16_read_block (lba : Z) : io (list Z) := fun d =>
  if negb (m16_valid_lba d lba) then Some (inl M16_E_INVAL, d) else
  b ← arr_get (blocks d) lba;
  Some (inr b, d).

Definition m16_write_block (lba : Z) (buf : list Z) : io unit := fun d =>
  if negb (m16_valid_lba d lba) then Some (inl M16_E_INVAL, d) else
  if fail_after d =? 0 then Some (inl M16_E_IO, d) else
  let fail := if 0 <? fail_after d then fail_after d - 1 else fail_after d in
  bs ← slice buf 0 M16_BLOCK_SIZE;
  bl ← arr_set (blocks d) lba bs;
  Some (inr tt, mk_dev bl (total_blocks d) (u64 (writes d + 1)) fail).

Definition m16_dev_init : m16_blockdev :=
  mk_dev (replicate 128 zero_block) M16_MAX_BLOCKS 0 (-1).

Definition m16_bitmap_set (bm : list Z) (bit : Z) : option (list Z) :=
  b ← arr_get bm (bit / 8);
  arr_set bm (bit / 8) (byte_set b (bit mod 8)).

Definition m16_bitmap_get (bm : list Z) (bit : Z) : option bool :=
  b ← arr_get bm (bit / 8);
  Some (byte_test b (bit mod 8)).

(** ** Transactions and the journal *)

Definition m16_load_inode_table : io (list Z) :=
  b0 <~ m16_read_block M16_INODE_TABLE_LBA ;;
  b1 <~ m16_read_block (M16_INODE_TABLE_LBA + 1) ;;
  b2 <~ m16_read_block (M16_INODE_TABLE_LBA + 2) ;;
  b3 <~ m16_read_block (M16_INODE_TABLE_LBA + 3) ;;
  em_ret (b0 ++ b1 ++ b2 ++ b3).

(** [None] is [M16_E_NOSPC]. *)
Definition m16_tx_add (tx : m16_tx) (lba : Z) (buf : list Z) : option (Z + m16_tx) :=
  if M16_JOURNAL_MAX_RECORDS <=? Z.of_nat (length tx) then Some (inl M16_E_NOSPC) else
  bs ← slice buf 0 M16_BLOCK_SIZE;
  Some (inr (tx ++ [mk_jrec lba bs])).

Fixpoint store_records (n : nat) (i : Z) (raw : list Z) (tx : m16_tx) : option m16_tx :=
  match n with
  | O => Some tx
  | S n =>
      bs ← slice raw (i * M16_BLOCK_SIZE) M16_BLOCK_SIZE;
      store_records n (i + 1) raw (tx ++ [mk_jrec (M16_INODE_TABLE_LBA + i) bs])
  end.

Definition m16_store_inode_table (tx : m16_tx) (inodes : list Z) : option (Z + m16_tx) :=
  if M16_JOURNAL_MAX_RECORDS <? Z.of_nat (length tx) + M16_INODE_TABLE_BLOCKS
  then Some (inl M16_E_NOSPC) else
  tx' ← store_records 4 0 inodes tx;
  Some (inr tx').

(** A step that computes a value or leaves with a code. *)
Definition step_rc {A} (o : option (Z + A)) : io A := fun d => r ← o; Some (r, d).

(** Offsets in [struct m16_journal_header] and [struct m16_journal_desc]. *)
Definition m16_header_checksum (h : list Z) : option Z :=
  h0 ← st 4 h 24 0;
  m16_checksum h0 M16_BLOCK_SIZE.

Definition m16_journal_clear : io unit := m16_write_block M16_JOURNAL_START zero_block.

Definition journal_desc (r : m16_jrec) : option (list Z) :=
  c ← m16_checksum (payload r) M16_BLOCK_SIZE;
  d ← st 8 zero_block 0 M16_JMAGIC;
  d ← st 4 d 8 (target_lba r);
  st 4 d 12 c.

Definition journal_header (seq count : Z) : option (list Z) :=
  h ← st 8 zero_block 0 M16_JMAGIC;
  h ← st 4 h 8 M16_VERSION;
  h ← st 4 h 12 M16_J_COMMITTED;
  h ← st 4 h 16 seq;
  h ← st 4 h 20 count;
  c ← m16_header_checksum h;
  st 4 h 24 c.

(** First loop of [m16_journal_commit], from record [i] on. *)
Fixpoint write_records (i : Z) (recs : m16_tx) : io unit :=
  match recs with
  | [] => em_ret tt
  | r :: recs =>
      let desc_lba := M16_JOURNAL_START + 1 + i * 2 in
      let data_lba := desc_lba + 1 in
      d <~ em_lift (journal_desc r) ;;
      m16_write_block desc_lba d ;;;
      m16_write_block data_lba (payload r) ;;;
      write_records (i + 1) recs
  end.

(** Second loop: the home locations. *)
Fixpoint write_home (recs : m16_tx) : io unit :=
  match recs with
  | [] => em_ret tt
  | r :: recs => m16_write_block (target_lba r) (payload r) ;;; write_home recs
  end.

Definition m16_journal_commit (tx : m16_tx) (seq : Z) (stop_after_commit_record : bool) : io unit :=
  if M16_JOURNAL_MAX_RECORDS <? Z.of_nat (length tx) then em_err M16_E_INVAL else
  m16_journal_clear ;;;
  write_records 0 tx ;;;
  h <~ em_lift (journal_header seq (Z.of_nat (length tx))) ;;
  m16_write_block M16_JOURNAL_START h ;;;
  if stop_after_commit_record then em_ret tt else
  write_home tx ;;;
  m16_journal_clear.

(** The replay loop of [m16_journal_recover]. *)
Fixpoint replay (n : nat) (i : Z) : io unit :=
  match n with
  | O => em_ret tt
  | S n =>
      let desc_lba := M16_JOURNAL_START + 1 + i * 2 in
      let data_lba := desc_lba + 1 in
      d <~ m16_read_block desc_lba ;;
      magic <~ em_lift (ld 8 d 0) ;;
      target <~ em_lift (ld 4 d 8) ;;
      bad <~ (fun dev => Some (inr (negb (magic =? M16_JMAGIC) || negb (m16_valid_lba dev target)), dev)) ;;
      if bad : bool then em_err M16_E_CORRUPT else
      p <~ m16_read_block data_lba ;;
      sum <~ em_lift (m16_checksum p M16_BLOCK_SIZE) ;;
      want <~ em_lift (ld 4 d 12) ;;
      if negb (sum =? want) then em_err M16_E_CORRUPT else
      m16_write_block target p ;;;
      replay n (i + 1)
  end.

Definition m16_journal_recover : io unit :=
  h <~ m16_read_block M16_JOURNAL_START ;;
  magic <~ em_lift (ld 8 h 0) ;;
  version <~ em_lift (ld 4 h 8) ;;
  state <~ em_lift (ld 4 h 12) ;;
  count <~ em_lift (ld 4 h 20) ;;
  if (magic =? 0) && (state =? M16_J_EMPTY) then em_ret tt else
  if negb (magic =? M16_JMAGIC) || negb (version =? M16_VERSION)
     || negb (state =? M16_J_COMMITTED) || (M16_JOURNAL_MAX_RECORDS <? count)
  then em_err M16_E_CORRUPT else
  sum <~ em_lift (m16_header_checksum h) ;;
  want <~ em_lift (ld 4 h 24) ;;
  if negb (sum =? want) then em_err M16_E_CORRUPT else
  replay (Z.to_nat count) 0 ;;;
  m16_journal_clear.

(** ** Device lemmas *)

Definition block_ok (b : list Z) : Prop := length b = 512%nat /\ bytes_ok b.

Record dev_ok (d : m16_blockdev) : Prop := {
  dev_len : length (blocks d) = 128%nat;
  dev_blocks : Forall block_ok (blocks d);
  dev_total : M16_DATA_START_LBA <= total_blocks d;
  dev_max : total_blocks d <= M16_MAX_BLOCKS
}.

Definition write_ok (total : Z) (w : Z * list Z) : Prop :=
  0 <= fst w < Z.min total 128 /\ block_ok (snd w).

(** A sequence of block writes and its effect on the block array. *)
Fixpoint io_writes (ws : list (Z * list Z)) : io unit :=
  match ws with
  | [] => em_ret tt
  | w :: ws => m16_write_block (fst w) (snd w) ;;; io_writes ws
  end.

Definition apply_writes (ws : list (Z * list Z)) (bl : list (list Z)) : list (list Z) :=
  foldl (fun bl w => <[Z.to_nat (fst w) := snd w]> bl) bl ws.

Lemma zero_block_ok : block_ok zero_block.
Proof. split; [done|]. apply bytes_ok_replicate. unfold in_u. lia. Qed.

Lemma slice_full b : block_ok b -> slice b 0 M16_BLOCK_SIZE = Some b.
Proof.
  intros [Hl _]. unfold slice. rewrite (proj2 (in_buf_true _ _ _)) by (rewrite Hl; done).
  rewrite drop_0, take_ge; [done|]. by rewrite Hl.
Qed.

Lemma valid_lba_true d lba :
  m16_valid_lba d lba = true <-> lba < Z.min (total_blocks d) 128.
Proof. unfold m16_valid_lba, M16_MAX_BLOCKS. rewrite andb_true_iff, !Z.ltb_lt. lia. Qed.

Lemma read_block_ok d lba b :
  lba < Z.min (total_blocks d) 128 -> 0 <= lba -> blocks d !! Z.to_nat lba = Some b ->
  m16_read_block lba d = Some (inr b, d).
Proof.
  intros Hv H0 Hb. unfold m16_read_block. rewrite (proj2 (valid_lba_true d lba) Hv). simpl.
  unfold arr_get. destruct (Z.ltb_spec lba 0); [lia|]. by rewrite Hb.
Qed.

Lemma dev_block d lba : dev_ok d -> 0 <= lba < 128 ->
  exists b, blocks d !! Z.to_nat lba = Some b /\ block_ok b.
Proof.
  intros [Hl Hf _ _] Hlba. destruct (lookup_lt_is_Some_2 (blocks d) (Z.to_nat lba)) as [b Hb]; [lia|].
  exists b. split; [done|]. by eapply Forall_lookup_1 in Hf.
Qed.

Lemma write_block_run d w :
  dev_ok d -> write_ok (total_blocks d) w ->
  (fail_after d = 0 /\ m16_write_block (fst w) (snd w) d = Some (inl M16_E_IO, d)) \/
  (fail_after d <> 0 /\ exists d', m16_write_block (fst w) (snd w) d = Some (inr tt, d') /\
     blocks d' = <[Z.to_nat (fst w) := snd w]> (blocks d) /\ total_blocks d' = total_blocks d /\
     fail_after d' = (if 0 <? fail_after d then fail_after d - 1 else fail_after d) /\ dev_ok d').
Proof.
  intros Hd [Hw Hb]. unfold m16_write_block.
  rewrite (proj2 (valid_lba_true d (fst w))) by lia. simpl.
  destruct (Z.eqb_spec (fail_after d) 0); [by left|]. right. split; [done|].
  rewrite slice_full by done. simpl. destruct Hd as [Hl Hf Ht Hm].
  rewrite arr_set_Some by lia. simpl. eexists. split; [done|]. simpl. split_and!; try done.
  constructor; simpl; [by rewrite length_insert|by apply Forall_insert|done|done].
Qed.

(** Running a sequence of writes: a prefix of it reaches the device, all of it
    when no fault is armed, and the code is OK exactly when all of it did. *)
Lemma io_writes_run ws d :
  dev_ok d -> Forall (write_ok (total_blocks d)) ws ->
  exists n rc d', io_writes ws d = Some (rc, d') /\ (n <= length ws)%nat /\
    blocks d' = apply_writes (take n ws) (blocks d) /\
    total_blocks d' = total_blocks d /\ dev_ok d' /\
    ((rc = inr tt /\ n = length ws) \/
     (rc = inl M16_E_IO /\ (n < length ws)%nat /\ 0 <= fail_after d)) /\
    (fail_after d < 0 -> fail_after d' = fail_after d).
Proof.
  revert d. induction ws as [|w ws IH]; intros d Hd Hws.
  - exists 0%nat, (inr tt), d. split_and!; try done. by left.
  - apply Forall_cons in Hws as [Hw Hws]. simpl.
    destruct (write_block_run d w Hd Hw) as [[H0 Hr]|(H0 & d1 & Hr & Hb & Ht & Hf & Hd1)].
    + exists 0%nat, (inl M16_E_IO), d. rewrite (em_bind_err _ _ _ _ _ Hr).
      split_and!; try done; [lia|right; split_and!; [done|lia|lia]].
    + rewrite (em_bind_ok _ _ _ _ _ Hr). rewrite <- Ht in Hws.
      destruct (IH d1 Hd1 Hws) as (n & rc & d' & Hr' & Hn & Hb' & Ht' & Hd' & Hrc & Hf').
      exists (S n), rc, d'. split_and!; try done.
      * lia.
      * rewrite Hb', Hb. done.
      * congruence.
      * destruct Hrc as [[-> ->]|(-> & ? & Hk)]; [by left|]. right. split_and!; [done|lia|].
        rewrite Hf in Hk. destruct (Z.ltb_spec 0 (fail_after d)); lia.
      * intros Hneg. rewrite Hf', Hf; [|rewrite Hf]; destruct (Z.ltb_spec 0 (fail_after d)); lia.
Qed.

Lemma io_writes_app ws1 ws2 d :
  io_writes (ws1 ++ ws2) d = (io_writes ws1 ;;; io_writes ws2) d.
Proof.
  revert d. induction ws1 as [|w ws1 IH]; intros d; simpl; [done|].
  rewrite em_bind_assoc. destruct (m16_write_block (fst w) (snd w) d) as [[[rc|[]] d1]|] eqn:E.
  - by rewrite !(em_bind_err _ _ _ _ _ E).
  - rewrite !(em_bind_ok _ _ _ _ _ E). apply IH.
  - unfold em_bind. by rewrite E.
Qed.

Lemma apply_writes_cons w ws bl :
  apply_writes (w :: ws) bl = apply_writes ws (<[Z.to_nat (fst w) := snd w]> bl).
Proof. done. Qed.

Lemma length_apply_writes ws bl : length (apply_writes ws bl) = length bl.
Proof.
  revert bl. induction ws as [|w ws IH]; intros bl; [done|].
  by rewrite apply_writes_cons, IH, length_insert.
Qed.

Lemma apply_writes_app ws1 ws2 bl :
  apply_writes (ws1 ++ ws2) bl = apply_writes ws2 (apply_writes ws1 bl).
Proof. apply foldl_app. Qed.

(** A block no write of the sequence addresses keeps its content. *)
Lemma apply_writes_other ws bl (a : nat) :
  Forall (fun w => Z.to_nat (fst w) <> a) ws -> apply_writes ws bl !! a = bl !! a.
Proof.
  revert bl. induction ws as [|w ws IH]; intros bl Hws; [done|].
  apply Forall_cons in Hws as [Hw Hws]. rewrite apply_writes_cons, IH by done.
  by apply list_lookup_insert_ne.
Qed.

(** A block some write addresses holds what the last such write stored,
    whatever was there before. *)
Lemma apply_writes_hit ws bl bl' (a : nat) :
  length bl = length bl' -> Exists (fun w => Z.to_nat (fst w) = a) ws ->
  apply_writes ws bl !! a = apply_writes ws bl' !! a.
Proof.
  revert bl bl'. induction ws as [|w ws IH]; intros bl bl' Hl Hex; [by apply Exists_nil in Hex|].
  rewrite !apply_writes_cons. destruct (decide (Exists (fun w => Z.to_nat (fst w) = a) ws)) as [He|He].
  - apply IH; [by rewrite !length_insert|done].
  - assert (Hn : Forall (fun w => Z.to_nat (fst w) <> a) ws) by (by apply not_Exists_Forall in He; [|tc_solve]).
    rewrite !apply_writes_other by done. apply Exists_cons in Hex as [Hw|]; [|done].
    rewrite Hw. destruct (decide (a < length bl)%nat).
    + rewrite !list_lookup_insert_eq by lia. done.
    + rewrite !lookup_ge_None_2; [done|rewrite length_insert; lia..].
Qed.

(** Replaying a whole sequence over any prefix of it changes nothing. *)
Lemma apply_writes_replay ws n bl :
  apply_writes ws (apply_writes (take n ws) bl) = apply_writes ws bl.
Proof.
  apply list_eq. intros a.
  destruct (decide (Exists (fun w => Z.to_nat (fst w) = a) ws)) as [He|He].
  - apply apply_writes_hit; [apply length_apply_writes|done].
  - assert (Hn : Forall (fun w => Z.to_nat (fst w) <> a) ws) by (by apply not_Exists_Forall in He; [|tc_solve]).
    rewrite !apply_writes_other; try done. by apply Forall_take.
Qed.

(** ** The journal's blocks *)

Lemma checksum_Some b : block_ok b -> exists c, m16_checksum b M16_BLOCK_SIZE = Some c /\ in_u 32 c.
Proof.
  intros Hb. unfold m16_checksum. rewrite slice_full by done. simpl. eexists. split; [done|].
  destruct Hb as [_ Hb]. induction b as [|x b IH] using rev_ind; simpl; [unfold in_u; lia|].
  rewrite foldl_app. simpl. apply wrap_range. lia.
Qed.

(** Stores into a block. *)
Lemma st_block n b off v : block_ok b -> 0 <= off -> off + Z.of_nat n <= 512 ->
  exists b', st n b off v = Some b' /\ block_ok b'.
Proof.
  intros [Hl Hb] ??. destruct (st_Some n b off v) as [b' Hb']; [lia..|].
  exists b'. split; [done|]. split; [by rewrite (length_splice _ _ _ _ Hb')|].
  eapply bytes_ok_splice; [exact Hb| |exact Hb']. apply bytes_ok_le_bytes.
Qed.

(** [st_block] for the next store of the goal. *)
Ltac st_step b Hst Hok :=
  match goal with
  | |- context [st ?n ?b0 ?off ?v] =>
      destruct (st_block n b0 off v) as (b & Hst & Hok); [done|lia|lia|]; rewrite Hst; cbn [mbind option_bind]
  end.

Lemma journal_desc_Some r :
  block_ok (payload r) -> in_u 32 (target_lba r) ->
  exists d c, journal_desc r = Some d /\ block_ok d /\ m16_checksum (payload r) M16_BLOCK_SIZE = Some c /\
    ld 8 d 0 = Some M16_JMAGIC /\ ld 4 d 8 = Some (target_lba r) /\ ld 4 d 12 = Some c.
Proof.
  intros Hp Ht. unfold journal_desc. destruct (checksum_Some _ Hp) as (c & Hc & Hcr).
  rewrite Hc. cbn [mbind option_bind]. pose proof zero_block_ok as Hz.
  st_step d1 H1 Hok1. st_step d2 H2 Hok2. destruct (st_block 4 d2 12 c) as (d3 & H3 & Hok3); [done|lia|lia|].
  exists d3, c. split_and!; [done|done|done| | |].
  - rewrite (ld_st_disjoint _ _ _ _ _ _ _ H3), (ld_st_disjoint _ _ _ _ _ _ _ H2) by lia.
    by apply (ld_st_same _ _ _ _ _ H1).
  - rewrite (ld_st_disjoint _ _ _ _ _ _ _ H3) by lia. by apply (ld_st_same _ _ _ _ _ H2).
  - by apply (ld_st_same _ _ _ _ _ H3).
Qed.

(** Overwriting a field twice keeps the second value only. *)
Lemma st_st n b off v b1 w : st n b off v = Some b1 -> st n b1 off w = st n b off w.
Proof.
  intros H1. pose proof (splice_inv _ _ _ _ H1) as (? & Hle & _).
  rewrite length_le_bytes in Hle. pose proof (length_splice _ _ _ _ H1) as Hl1.
  destruct (st_Some n b1 off w) as [b2 H2]; [lia..|]. destruct (st_Some n b off w) as [b3 H3]; [lia..|].
  rewrite H2, H3. f_equal. apply list_eq. intros i.
  rewrite (lookup_splice _ _ _ _ _ H2), (lookup_splice _ _ _ _ _ H3), (lookup_splice _ _ _ _ _ H1).
  rewrite !length_le_bytes. by repeat case_decide.
Qed.

Lemma journal_header_Some seq count :
  in_u 32 count ->
  exists h c, journal_header seq count = Some h /\ block_ok h /\ m16_header_checksum h = Some c /\
    ld 8 h 0 = Some M16_JMAGIC /\ ld 4 h 8 = Some M16_VERSION /\ ld 4 h 12 = Some M16_J_COMMITTED /\
    ld 4 h 20 = Some count /\ ld 4 h 24 = Some c.
Proof.
  intros Hcount. unfold journal_header. pose proof zero_block_ok as Hz.
  st_step h1 H1 Hok1. st_step h2 H2 Hok2. st_step h3 H3 Hok3. st_step h4 H4 Hok4. st_step h5 H5 Hok5.
  unfold m16_header_checksum at 1.
  destruct (st_block 4 h5 24 0) as (h0 & H0 & Hok0); [done|lia|lia|].
  destruct (checksum_Some _ Hok0) as (c & Hc & Hcr). rewrite H0. cbn [mbind option_bind].
  rewrite Hc. cbn [mbind option_bind]. st_step h6 H6 Hok6.
  exists h6, c. split_and!; [done|done|..].
  - unfold m16_header_checksum. rewrite (st_st _ _ _ _ _ 0 H6), H0. exact Hc.
  - do 5 (erewrite ld_st_disjoint by (eassumption || lia)). by apply (ld_st_same _ _ _ _ _ H1).
  - do 4 (erewrite ld_st_disjoint by (eassumption || lia)). by apply (ld_st_same _ _ _ _ _ H2).
  - do 3 (erewrite ld_st_disjoint by (eassumption || lia)). by apply (ld_st_same _ _ _ _ _ H3).
  - erewrite ld_st_disjoint by (eassumption || lia). by apply (ld_st_same _ _ _ _ _ H5).
  - by apply (ld_st_same _ _ _ _ _ H6).
Qed.

(** ** Commit and recovery as write sequences *)

(** Blocks outside the journal area. *)
Definition home_lba (a : Z) : Prop := a < M16_JOURNAL_START \/ M16_INODE_BITMAP_LBA <= a.

Definition rec_ok (total : Z) (r : m16_jrec) : Prop :=
  0 <= target_lba r < Z.min total 128 /\ home_lba (target_lba r) /\ block_ok (payload r).

Record tx_ok (total : Z) (tx : m16_tx) : Prop := {
  tx_recs : Forall (rec_ok total) tx;
  tx_count : Z.of_nat (length tx) <= M16_JOURNAL_MAX_RECORDS
}.

Definition desc_of (r : m16_jrec) : list Z := default [] (journal_desc r).
Definition header_of (seq : Z) (tx : m16_tx) : list Z :=
  default [] (journal_header seq (Z.of_nat (length tx))).

Fixpoint record_writes (i : Z) (tx : m16_tx) : list (Z * list Z) :=
  match tx with
  | [] => []
  | r :: tx =>
      (M16_JOURNAL_START + 1 + i * 2, desc_of r) ::
      (M16_JOURNAL_START + 1 + i * 2 + 1, payload r) :: record_writes (i + 1) tx
  end.
Definition home_writes (tx : m16_tx) : list (Z * list Z) :=
  map (fun r => (target_lba r, payload r)) tx.
Definition clear_writes : list (Z * list Z) := [(M16_JOURNAL_START, zero_block)].

(** The file system a transaction produces. *)
Definition apply_tx (tx : m16_tx) (bl : list (list Z)) : list (list Z) :=
  apply_writes (home_writes tx) bl.

Definition commit_writes (tx : m16_tx) (seq : Z) (stop : bool) : list (Z * list Z) :=
  clear_writes ++ record_writes 0 tx ++ [(M16_JOURNAL_START, header_of seq tx)] ++
  (if stop then [] else home_writes tx ++ clear_writes).

Lemma rec_ok_u32 total r : rec_ok total r -> in_u 32 (target_lba r).
Proof. intros (H & _). unfold in_u. lia. Qed.

Lemma desc_of_eq total r : rec_ok total r -> journal_desc r = Some (desc_of r).
Proof.
  intros Hr. destruct (journal_desc_Some r) as (d & c & Hd & _); [apply Hr|by eapply rec_ok_u32|].
  unfold desc_of. by rewrite Hd.
Qed.

Lemma header_of_eq seq tx : Z.of_nat (length tx) <= M16_JOURNAL_MAX_RECORDS ->
  journal_header seq (Z.of_nat (length tx)) = Some (header_of seq tx).
Proof.
  intros Hn. unfold M16_JOURNAL_MAX_RECORDS in Hn.
  destruct (journal_header_Some seq (Z.of_nat (length tx))) as (h & c & Hh & _); [unfold in_u; lia|].
  unfold header_of. by rewrite Hh.
Qed.

Lemma write_records_eq total tx i d :
  Forall (rec_ok total) tx -> write_records i tx d = io_writes (record_writes i tx) d.
Proof.
  intros Htx. revert i d. induction Htx as [|r tx Hr Htx IH]; intros i d; [done|].
  simpl. rewrite (desc_of_eq _ _ Hr), (em_bind_lift _ _ _ (desc_of r)) by done.
  unfold em_bind.
  destruct (m16_write_block _ (desc_of r) d) as [[[|[]] d1]|]; cbn [mbind option_bind]; try done.
  destruct (m16_write_block _ (payload r) d1) as [[[|[]] d2]|]; cbn [mbind option_bind]; try done.
Qed.

Lemma write_home_eq tx d : write_home tx d = io_writes (home_writes tx) d.
Proof.
  revert d. induction tx as [|r tx IH]; intros d; [done|]. simpl. unfold em_bind.
  destruct (m16_write_block _ _ d) as [[[|[]] d1]|]; cbn [mbind option_bind]; try done.
Qed.

Lemma io_writes_one a b d : io_writes [(a, b)] d = m16_write_block a b d.
Proof. simpl. unfold em_bind. by destruct (m16_write_block a b d) as [[[|[]] d1]|]. Qed.

Lemma em_bind_ext {A B} (m m' : io A) (k k' : A -> io B) d :
  m d = m' d -> (forall a d, k a d = k' a d) -> em_bind m k d = em_bind m' k' d.
Proof. intros Hm Hk. unfold em_bind. rewrite Hm. destruct (m' d) as [[[|a] d1]|]; simpl; [done|apply Hk|done]. Qed.

Lemma commit_eq total tx seq stop d :
  tx_ok total tx -> m16_journal_commit tx seq stop d = io_writes (commit_writes tx seq stop) d.
Proof.
  intros [Hr Hn]. unfold m16_journal_commit.
  destruct (Z.ltb_spec M16_JOURNAL_MAX_RECORDS (Z.of_nat (length tx))); [lia|].
  unfold commit_writes. rewrite io_writes_app.
  apply em_bind_ext; [symmetry; apply io_writes_one|]. intros _ d1. rewrite io_writes_app.
  apply em_bind_ext; [by eapply write_records_eq|]. intros _ d2.
  rewrite header_of_eq, (em_bind_lift _ _ _ (header_of seq tx)), io_writes_app by done.
  apply em_bind_ext; [symmetry; apply io_writes_one|]. intros _ d3. destruct stop; [done|].
  rewrite io_writes_app. apply em_bind_ext; [apply write_home_eq|]. intros _ d4. symmetry. apply io_writes_one.
Qed.

Lemma clear_writes_ok total : M16_DATA_START_LBA <= total -> Forall (write_ok total) clear_writes.
Proof.
  intros Ht. change M16_DATA_START_LBA with 25 in Ht. constructor; [|done].
  split; simpl; [unfold M16_JOURNAL_START; lia|apply zero_block_ok].
Qed.

Lemma record_writes_ok total tx i :
  Forall (rec_ok total) tx -> M16_DATA_START_LBA <= total -> 0 <= i ->
  i + Z.of_nat (length tx) <= M16_JOURNAL_MAX_RECORDS -> Forall (write_ok total) (record_writes i tx).
Proof.
  intros Htx Ht. change M16_DATA_START_LBA with 25 in Ht. unfold M16_JOURNAL_MAX_RECORDS.
  revert i. induction Htx as [|r tx Hr Htx IH]; intros i Hi Hn; simpl in *; [constructor|].
  destruct (journal_desc_Some r) as (d & c & Hd & Hok & _); [apply Hr|by eapply rec_ok_u32|].
  constructor; [|constructor; [|apply IH; lia]]; (split; [simpl; unfold M16_JOURNAL_START; lia|]).
  - simpl. unfold desc_of. by rewrite Hd.
  - apply Hr.
Qed.

Lemma home_writes_ok total tx : Forall (rec_ok total) tx -> Forall (write_ok total) (home_writes tx).
Proof.
  intros Htx. unfold home_writes. apply Forall_map. eapply Forall_impl; [exact Htx|].
  intros r (H1 & _ & H2). done.
Qed.

Lemma header_write_ok total seq tx :
  M16_DATA_START_LBA <= total -> Z.of_nat (length tx) <= M16_JOURNAL_MAX_RECORDS ->
  write_ok total (M16_JOURNAL_START, header_of seq tx).
Proof.
  intros Ht Hn. change M16_DATA_START_LBA with 25 in Ht. split; simpl; [unfold M16_JOURNAL_START; lia|].
  destruct (journal_header_Some seq (Z.of_nat (length tx))) as (h & c & Hh & Hok & _).
  { unfold in_u, M16_JOURNAL_MAX_RECORDS in *. lia. }
  unfold header_of. rewrite Hh. apply Hok.
Qed.

Lemma commit_writes_ok total tx seq stop :
  tx_ok total tx -> M16_DATA_START_LBA <= total -> Forall (write_ok total) (commit_writes tx seq stop).
Proof.
  intros [Hr Hn] Ht. unfold commit_writes.
  apply Forall_app. split; [by apply clear_writes_ok|].
  apply Forall_app. split; [apply record_writes_ok; by try lia|].
  apply Forall_app. split; [constructor; [by apply header_write_ok|done]|].
  destruct stop; [done|]. apply Forall_app. split; [by apply home_writes_ok|by apply clear_writes_ok].
Qed.

(** ** What the journal area can look like *)

Definition home_eq (bl bl' : list (list Z)) : Prop :=
  forall a : nat, home_lba (Z.of_nat a) -> bl !! a = bl' !! a.

#[export] Instance home_eq_equiv : Equivalence home_eq.
Proof.
  split.
  - by intros bl a _.
  - intros bl bl' H a Ha. by rewrite H.
  - intros b1 b2 b3 H1 H2 a Ha. by rewrite H1, H2.
Qed.

Definition j_empty (bl : list (list Z)) : Prop :=
  exists h, bl !! Z.to_nat M16_JOURNAL_START = Some h /\ ld 8 h 0 = Some 0 /\ ld 4 h 12 = Some M16_J_EMPTY.

(** Record [i] of the journal is intact. *)
Definition rec_at (bl : list (list Z)) (i : nat) (r : m16_jrec) : Prop :=
  bl !! (2 + 2 * i)%nat = Some (desc_of r) /\ bl !! (3 + 2 * i)%nat = Some (payload r).

Record committed (tx : m16_tx) (seq : Z) (bl : list (list Z)) : Prop := {
  com_header : bl !! Z.to_nat M16_JOURNAL_START = Some (header_of seq tx);
  com_recs : forall i r, tx !! i = Some r -> rec_at bl i r
}.

(** The commit record of [tx] was written over the file system [old]: the
    journal still holds it and the home blocks are somewhere between the two
    file systems, or it has been retired and they are the new one. *)
Inductive jdone (tx : m16_tx) (old bl : list (list Z)) : Prop :=
| jd_committed seq :
    committed tx seq bl -> home_eq (apply_tx tx bl) (apply_tx tx old) -> jdone tx old bl
| jd_retired :
    j_empty bl -> home_eq bl (apply_tx tx old) -> jdone tx old bl.

Lemma home_writes_home total tx :
  Forall (rec_ok total) tx -> Forall (fun w => 0 <= fst w /\ home_lba (fst w)) (home_writes tx).
Proof.
  intros Htx. apply Forall_map. eapply Forall_impl; [exact Htx|]. intros r (? & ? & _). simpl. split; [lia|done].
Qed.

(** Writes into the journal area leave the home blocks alone, home writes
    leave the journal area alone. *)
Lemma journal_writes_home ws bl :
  Forall (fun w => 0 <= fst w /\ ~ home_lba (fst w)) ws -> home_eq (apply_writes ws bl) bl.
Proof.
  intros Hws a Ha. apply apply_writes_other. eapply Forall_impl; [exact Hws|].
  intros [x b] [Hx Hn] <-. apply Hn. simpl in *. by rewrite Z2Nat.id in Ha by lia.
Qed.

Lemma home_writes_journal ws bl a :
  Forall (fun w => 0 <= fst w /\ home_lba (fst w)) ws -> ~ home_lba (Z.of_nat a) ->
  apply_writes ws bl !! a = bl !! a.
Proof.
  intros Hws Ha. apply apply_writes_other. eapply Forall_impl; [exact Hws|].
  intros [x b] [Hx Hn] <-. apply Ha. simpl in *. by rewrite Z2Nat.id by lia.
Qed.

#[export] Instance apply_writes_home_proper ws :
  Proper ((fun bl bl' => length bl = length bl' /\ home_eq bl bl') ==> home_eq) (apply_writes ws).
Proof.
  intros bl bl' [Hl Hb] a Ha.
  destruct (decide (Exists (fun w => Z.to_nat (fst w) = a) ws)) as [He|He].
  - by apply apply_writes_hit.
  - assert (Hn : Forall (fun w => Z.to_nat (fst w) <> a) ws) by (by apply not_Exists_Forall in He; [|tc_solve]).
    rewrite !apply_writes_other by done. by apply Hb.
Qed.

Lemma record_writes_journal tx i :
  0 <= i -> i + Z.of_nat (length tx) <= M16_JOURNAL_MAX_RECORDS ->
  Forall (fun w => 2 + 2 * i <= fst w < M16_INODE_BITMAP_LBA) (record_writes i tx).
Proof.
  unfold M16_JOURNAL_MAX_RECORDS. change M16_INODE_BITMAP_LBA with 18.
  revert i. induction tx as [|r tx IH]; intros i Hi Hn; simpl in *; [constructor|].
  repeat constructor; simpl; unfold M16_JOURNAL_START; try lia.
  eapply Forall_impl; [apply IH; lia|]. intros w. simpl. lia.
Qed.

Lemma journal_area a : 1 <= a < 18 -> ~ home_lba a.
Proof. unfold home_lba. change M16_INODE_BITMAP_LBA with 18. unfold M16_JOURNAL_START. lia. Qed.

Lemma record_writes_lookup tx (i : nat) bl j r :
  Z.of_nat i + Z.of_nat (length tx) <= M16_JOURNAL_MAX_RECORDS -> length bl = 128%nat ->
  tx !! j = Some r ->
  let bl' := apply_writes (record_writes (Z.of_nat i) tx) bl in
  bl' !! (2 + 2 * (i + j))%nat = Some (desc_of r) /\ bl' !! (3 + 2 * (i + j))%nat = Some (payload r).
Proof.
  unfold M16_JOURNAL_MAX_RECORDS. cbv zeta.
  revert i j bl. induction tx as [|r0 tx IH]; intros i j bl Hn Hl Hj; [done|].
  cbn [record_writes]. rewrite !apply_writes_cons. cbn [fst snd].
  replace (Z.of_nat i + 1) with (Z.of_nat (S i)) by lia. cbn [length] in Hn.
  assert (Hw : Forall (fun w => 2 + 2 * Z.of_nat (S i) <= fst w < M16_INODE_BITMAP_LBA)
    (record_writes (Z.of_nat (S i)) tx)).
  { apply record_writes_journal; [lia|unfold M16_JOURNAL_MAX_RECORDS; lia]. }
  unfold M16_JOURNAL_START. destruct j as [|j].
  - injection Hj as ->. rewrite !apply_writes_other.
    + split.
      * rewrite list_lookup_insert_ne by lia. replace (2 + 2 * (i + 0))%nat with (Z.to_nat (1 + 1 + Z.of_nat i * 2)) by lia.
        apply list_lookup_insert_eq. lia.
      * replace (3 + 2 * (i + 0))%nat with (Z.to_nat (1 + 1 + Z.of_nat i * 2 + 1)) by lia.
        apply list_lookup_insert_eq. rewrite length_insert. lia.
    + eapply Forall_impl; [exact Hw|]. intros w. simpl. lia.
    + eapply Forall_impl; [exact Hw|]. intros w. simpl. lia.
  - replace (2 + 2 * (i + S j))%nat with (2 + 2 * (S i + j))%nat by lia.
    replace (3 + 2 * (i + S j))%nat with (3 + 2 * (S i + j))%nat by lia.
    apply IH; [lia|by rewrite !length_insert|done].
Qed.

Lemma rec_at_home_writes bl ws i r :
  (i < 8)%nat -> Forall (fun w => 0 <= fst w /\ home_lba (fst w)) ws ->
  rec_at bl i r -> rec_at (apply_writes ws bl) i r.
Proof.
  intros Hi Hws [H1 H2]. split; rewrite home_writes_journal; try done; apply journal_area; lia.
Qed.

(** Home writes keep a committed journal committed. *)
Lemma committed_home_writes tx seq ws bl :
  Z.of_nat (length tx) <= M16_JOURNAL_MAX_RECORDS ->
  Forall (fun w => 0 <= fst w /\ home_lba (fst w)) ws ->
  committed tx seq bl -> committed tx seq (apply_writes ws bl).
Proof.
  unfold M16_JOURNAL_MAX_RECORDS. intros Hn Hws [Hh Hr]. split.
  - rewrite home_writes_journal; [done|done|apply journal_area; unfold M16_JOURNAL_START; lia].
  - intros i r Hi. pose proof (lookup_lt_Some _ _ _ Hi). apply rec_at_home_writes; [lia|done|by apply Hr].
Qed.

(** ** Recovery *)

Lemma dev_read d lba : dev_ok d -> 0 <= lba < M16_DATA_START_LBA ->
  exists b, blocks d !! Z.to_nat lba = Some b /\ block_ok b /\ m16_read_block lba d = Some (inr b, d).
Proof.
  intros Hd Hlba. change M16_DATA_START_LBA with 25 in Hlba.
  pose proof (dev_total _ Hd) as Ht. change M16_DATA_START_LBA with 25 in Ht.
  destruct (dev_block d lba Hd) as (b & Hb & Hok); [lia|]. exists b. split_and!; [done|done|].
  apply read_block_ok; [lia|lia|done].
Qed.

Lemma read_known d lba b : dev_ok d -> 0 <= lba < M16_DATA_START_LBA ->
  blocks d !! Z.to_nat lba = Some b -> m16_read_block lba d = Some (inr b, d).
Proof. intros Hd Hl Hb. destruct (dev_read d lba Hd Hl) as (b' & Hb' & _ & Hr). congruence. Qed.

Lemma ld_block n b off : block_ok b -> 0 <= off -> off + Z.of_nat n <= 512 ->
  exists v, ld n b off = Some v /\ in_u (8 * Z.of_nat n) v.
Proof. intros [Hl Hb] ??. apply ld_Some; [done|lia|lia]. Qed.

Lemma recover_empty d : dev_ok d -> j_empty (blocks d) -> m16_journal_recover d = Some (inr tt, d).
Proof.
  intros Hd (h & Hh & Hm & Hs). unfold m16_journal_recover.
  assert (Hok : block_ok h) by (apply (Forall_lookup_1 _ _ _ _ (dev_blocks _ Hd) Hh)).
  rewrite (em_bind_ok _ _ _ h d) by (by apply read_known).
  rewrite (em_bind_lift _ _ _ _ Hm).
  destruct (ld_block 4 h 8) as (v & Hv & _); [done|lia|lia|]. rewrite (em_bind_lift _ _ _ _ Hv).
  rewrite (em_bind_lift _ _ _ _ Hs).
  destruct (ld_block 4 h 20) as (n & Hn & _); [done|lia|lia|]. by rewrite (em_bind_lift _ _ _ _ Hn).
Qed.

(** Intact records replay as home writes, whatever follows them. *)
Lemma replay_app pre n (i : nat) d :
  dev_ok d -> Forall (rec_ok (total_blocks d)) pre -> Z.of_nat (i + length pre) <= M16_JOURNAL_MAX_RECORDS ->
  (forall j r, pre !! j = Some r -> rec_at (blocks d) (i + j) r) ->
  replay (length pre + n) (Z.of_nat i) d =
    (io_writes (home_writes pre) ;;; replay n (Z.of_nat (i + length pre))) d.
Proof.
  unfold M16_JOURNAL_MAX_RECORDS. revert i d.
  induction pre as [|r pre IH]; intros i d Hd Hrecs Hn Hat; [by rewrite Nat.add_0_r|].
  apply Forall_cons in Hrecs as [Hrok Hrecs]. destruct (Hat 0%nat r) as [Hdesc Hdata]; [done|].
  rewrite Nat.add_0_r in Hdesc, Hdata. cbn [length] in Hn.
  destruct (journal_desc_Some r) as (dd & c & Hjd & _ & Hck & Hmag & Htgt & Hsum);
    [apply Hrok|by eapply rec_ok_u32|].
  assert (Hdd : desc_of r = dd) by (unfold desc_of; by rewrite Hjd). rewrite Hdd in Hdesc.
  cbn [replay length home_writes map io_writes Nat.add]. unfold M16_JOURNAL_START.
  rewrite (em_bind_ok _ _ _ dd d).
  2:{ apply read_known; [done|change M16_DATA_START_LBA with 25; lia|].
      by replace (Z.to_nat (1 + 1 + Z.of_nat i * 2)) with (2 + 2 * i)%nat by lia. }
  rewrite (em_bind_lift _ _ _ _ Hmag), (em_bind_lift _ _ _ _ Htgt).
  rewrite (em_bind_ok _ _ _ false d).
  2:{ rewrite Z.eqb_refl, (proj2 (valid_lba_true d (target_lba r))); [done|apply Hrok]. }
  rewrite (em_bind_ok _ _ _ (payload r) d).
  2:{ apply read_known; [done|change M16_DATA_START_LBA with 25; lia|].
      by replace (Z.to_nat (1 + 1 + Z.of_nat i * 2 + 1)) with (3 + 2 * i)%nat by lia. }
  rewrite (em_bind_lift _ _ _ _ Hck), (em_bind_lift _ _ _ _ Hsum), Z.eqb_refl. cbn [negb fst snd].
  rewrite em_bind_assoc.
  destruct (write_block_run d (target_lba r, payload r)) as [[_ Hw]|(_ & d1 & Hw & Hb & Ht & _ & Hd1)];
    [done|split; apply Hrok|..]; cbn [fst snd] in *.
  - by rewrite !(em_bind_err _ _ _ _ _ Hw).
  - rewrite !(em_bind_ok _ _ _ _ _ Hw). replace (Z.of_nat i + 1) with (Z.of_nat (S i)) by lia.
    rewrite IH; [by replace (S i + length pre)%nat with (i + S (length pre))%nat by lia|done|by rewrite Ht|lia|].
    intros j r' Hj. pose proof (lookup_lt_Some _ _ _ Hj). rewrite Hb.
    apply (rec_at_home_writes _ [(target_lba r, payload r)]); [lia|constructor; [split; apply Hrok|done]|].
    replace (S i + j)%nat with (i + S j)%nat by lia. by apply Hat.
Qed.

(** A record whose payload does not match its checksum is refused. *)
Lemma replay_damaged n (i : nat) r p d :
  dev_ok d -> Z.of_nat i < M16_JOURNAL_MAX_RECORDS -> rec_ok (total_blocks d) r ->
  blocks d !! (2 + 2 * i)%nat = Some (desc_of r) -> blocks d !! (3 + 2 * i)%nat = Some p ->
  m16_checksum p M16_BLOCK_SIZE <> m16_checksum (payload r) M16_BLOCK_SIZE ->
  replay (S n) (Z.of_nat i) d = Some (inl M16_E_CORRUPT, d).
Proof.
  unfold M16_JOURNAL_MAX_RECORDS. intros Hd Hi Hrok Hdesc Hdata Hne.
  assert (Hp : block_ok p) by (apply (Forall_lookup_1 _ _ _ _ (dev_blocks _ Hd) Hdata)).
  destruct (journal_desc_Some r) as (dd & c & Hjd & _ & Hck & Hmag & Htgt & Hsum);
    [apply Hrok|by eapply rec_ok_u32|].
  assert (Hdd : desc_of r = dd) by (unfold desc_of; by rewrite Hjd). rewrite Hdd in Hdesc.
  destruct (checksum_Some p Hp) as (c' & Hck' & _).
  cbn [replay]. unfold M16_JOURNAL_START. rewrite (em_bind_ok _ _ _ dd d).
  2:{ apply read_known; [done|change M16_DATA_START_LBA with 25; lia|].
      by replace (Z.to_nat (1 + 1 + Z.of_nat i * 2)) with (2 + 2 * i)%nat by lia. }
  rewrite (em_bind_lift _ _ _ _ Hmag), (em_bind_lift _ _ _ _ Htgt).
  rewrite (em_bind_ok _ _ _ false d).
  2:{ rewrite Z.eqb_refl, (proj2 (valid_lba_true d (target_lba r))); [done|apply Hrok]. }
  rewrite (em_bind_ok _ _ _ p d).
  2:{ apply read_known; [done|change M16_DATA_START_LBA with 25; lia|].
      by replace (Z.to_nat (1 + 1 + Z.of_nat i * 2 + 1)) with (3 + 2 * i)%nat by lia. }
  rewrite (em_bind_lift _ _ _ _ Hck'), (em_bind_lift _ _ _ _ Hsum).
  destruct (Z.eqb_spec c' c); [congruence|done].
Qed.

Lemma recover_header tx seq d :
  dev_ok d -> tx_ok (total_blocks d) tx -> blocks d !! Z.to_nat M16_JOURNAL_START = Some (header_of seq tx) ->
  m16_journal_recover d = (replay (length tx) 0 ;;; m16_journal_clear) d.
Proof.
  intros Hd Htx Hcom. unfold m16_journal_recover. pose proof (tx_count _ _ Htx) as Hn.
  unfold M16_JOURNAL_MAX_RECORDS in Hn.
  rewrite (em_bind_ok _ _ _ (header_of seq tx) d).
  2:{ apply read_known; [done|change M16_DATA_START_LBA with 25; unfold M16_JOURNAL_START; lia|exact Hcom]. }
  destruct (journal_header_Some seq (Z.of_nat (length tx))) as (h & c & Hh & _ & Hck & Hmag & Hver & Hst & Hcnt & Hsum);
    [unfold in_u; lia|].
  assert (Hhh : header_of seq tx = h) by (unfold header_of; by rewrite Hh). rewrite Hhh.
  rewrite (em_bind_lift _ _ _ _ Hmag), (em_bind_lift _ _ _ _ Hver), (em_bind_lift _ _ _ _ Hst), (em_bind_lift _ _ _ _ Hcnt).
  destruct (Z.ltb_spec M16_JOURNAL_MAX_RECORDS (Z.of_nat (length tx))); [unfold M16_JOURNAL_MAX_RECORDS in *; lia|].
  change ((M16_JMAGIC =? 0) && (M16_J_COMMITTED =? M16_J_EMPTY)) with false. rewrite !Z.eqb_refl. cbn [negb orb].
  rewrite (em_bind_lift _ _ _ _ Hck), (em_bind_lift _ _ _ _ Hsum), Z.eqb_refl. by rewrite Nat2Z.id.
Qed.

Lemma recover_committed tx seq d :
  dev_ok d -> tx_ok (total_blocks d) tx -> committed tx seq (blocks d) ->
  m16_journal_recover d = io_writes (home_writes tx ++ clear_writes) d.
Proof.
  intros Hd Htx Hcom. rewrite (recover_header tx seq) by (done || apply Hcom).
  rewrite io_writes_app. apply em_bind_ext; [|intros _ d1; symmetry; apply io_writes_one].
  rewrite <- (Nat.add_0_r (length tx)), (replay_app tx 0 0); [|done|apply Htx|apply Htx|].
  - unfold em_bind. destruct (io_writes (home_writes tx) d) as [[[|[]] d1]|]; done.
  - intros j r Hj. by apply Hcom.
Qed.

Lemma j_empty_clear bl : length bl = 128%nat -> j_empty (apply_writes clear_writes bl).
Proof.
  intros Hl. exists zero_block. split_and!; [|done|done].
  apply list_lookup_insert_eq. change (1 < length bl)%nat. lia.
Qed.

Lemma clear_home bl : home_eq (apply_writes clear_writes bl) bl.
Proof.
  apply journal_writes_home. constructor; [|done]. simpl.
  split; [|apply journal_area]; unfold M16_JOURNAL_START; lia.
Qed.

(** Every recovery attempt, however far it gets, keeps [jdone]; one that
    returns OK has produced the new file system. *)
Lemma recover_jdone tx old d :
  dev_ok d -> tx_ok (total_blocks d) tx -> jdone tx old (blocks d) ->
  exists rc d', m16_journal_recover d = Some (rc, d') /\ dev_ok d' /\
    total_blocks d' = total_blocks d /\ jdone tx old (blocks d') /\
    (rc = inr tt \/ rc = inl M16_E_IO /\ 0 <= fail_after d) /\
    (rc = inr tt -> j_empty (blocks d') /\ home_eq (blocks d') (apply_tx tx old)).
Proof.
  intros Hd Htx [seq Hcom Hhome|He Hhome].
  2:{ exists (inr tt), d. rewrite recover_empty by done. split_and!; try done; [by apply jd_retired|by left]. }
  rewrite (recover_committed tx seq d) by done.
  destruct (io_writes_run (home_writes tx ++ clear_writes) d Hd) as (n & rc & d' & Hr & Hn & Hb & Ht & Hd' & Hrc & _).
  { apply Forall_app. split; [apply home_writes_ok, Htx|apply clear_writes_ok, Hd]. }
  assert (Hret : n = length (home_writes tx ++ clear_writes) ->
    j_empty (blocks d') /\ home_eq (blocks d') (apply_tx tx old)).
  { intros ->. rewrite Hb, firstn_all, apply_writes_app. split.
    - apply j_empty_clear. rewrite length_apply_writes. apply Hd.
    - rewrite clear_home. exact Hhome. }
  exists rc, d'. split_and!; try done.
  - destruct (decide (n = length (home_writes tx ++ clear_writes))) as [E|E].
    + destruct (Hret E). by apply jd_retired.
    + rewrite length_app in *. cbn [clear_writes length] in *.
      rewrite take_app_le in Hb by lia. apply (jd_committed _ _ _ seq).
      * rewrite Hb. apply committed_home_writes; [apply Htx| |done].
        apply Forall_take. eapply home_writes_home, Htx.
      * rewrite Hb. unfold apply_tx. rewrite apply_writes_replay. exact Hhome.
  - destruct Hrc as [[-> _]|(-> & _ & ?)]; [by left|by right].
  - intros ->. apply Hret. destruct Hrc as [[_ ?]|[? _]]; [done|done].
Qed.

(** ** Commit *)

(** Before the commit record: the journal is empty, the file system the old one. *)
Lemma commit_prefix_empty tx bl n :
  Z.of_nat (length tx) <= M16_JOURNAL_MAX_RECORDS -> length bl = 128%nat -> j_empty bl ->
  let bl' := apply_writes (take n (clear_writes ++ record_writes 0 tx)) bl in
  j_empty bl' /\ home_eq bl' bl.
Proof.
  intros Hn Hl He. cbv zeta. destruct n as [|n]; [done|].
  change (take (S n) (clear_writes ++ record_writes 0 tx)) with (clear_writes ++ take n (record_writes 0 tx)).
  rewrite apply_writes_app.
  assert (Hw : Forall (fun w => 2 <= fst w < 18) (take n (record_writes 0 tx))).
  { apply Forall_take. eapply Forall_impl; [apply (record_writes_journal tx 0); lia|].
    intros w. change M16_INODE_BITMAP_LBA with 18. simpl. lia. }
  split.
  - destruct (j_empty_clear bl Hl) as (h & Hh & ?). exists h. split; [|done].
    rewrite apply_writes_other; [done|]. eapply Forall_impl; [exact Hw|].
    intros w. change (Z.to_nat M16_JOURNAL_START) with 1%nat. simpl. lia.
  - rewrite journal_writes_home; [apply clear_home|]. eapply Forall_impl; [exact Hw|].
    intros w Hw'. simpl in *. split; [lia|apply journal_area; lia].
Qed.

Lemma commit_record tx seq bl :
  Z.of_nat (length tx) <= M16_JOURNAL_MAX_RECORDS -> length bl = 128%nat ->
  let bl' := apply_writes (clear_writes ++ record_writes 0 tx ++ [(M16_JOURNAL_START, header_of seq tx)]) bl in
  committed tx seq bl' /\ home_eq bl' bl.
Proof.
  intros Hn Hl. cbv zeta. rewrite !apply_writes_app.
  assert (Hlen : length (apply_writes (record_writes 0 tx) (apply_writes clear_writes bl)) = 128%nat)
    by (by rewrite !length_apply_writes).
  unfold M16_JOURNAL_MAX_RECORDS in Hn. split; [split|].
  - apply list_lookup_insert_eq. change (1 < length (apply_writes (record_writes 0 tx) (apply_writes clear_writes bl)))%nat. lia.
  - intros i r Hi. unfold rec_at. rewrite !(apply_writes_other [_]) by (constructor; [unfold M16_JOURNAL_START; cbn; lia|done]).
    apply (record_writes_lookup tx 0 (apply_writes clear_writes bl) i r); [unfold M16_JOURNAL_MAX_RECORDS; lia| |done].
    by rewrite length_apply_writes.
  - rewrite journal_writes_home; [rewrite journal_writes_home; [apply clear_home|]|].
    + eapply Forall_impl; [apply (record_writes_journal tx 0); unfold M16_JOURNAL_MAX_RECORDS; lia|].
      intros w. change M16_INODE_BITMAP_LBA with 18. simpl. intros. split; [lia|apply journal_area; lia].
    + constructor; [|done]. split; [done|]. apply journal_area. unfold M16_JOURNAL_START. simpl. lia.
Qed.

Lemma commit_states total tx seq (stop : bool) bl n :
  tx_ok total tx -> length bl = 128%nat -> j_empty bl ->
  let ws := commit_writes tx seq stop in
  let bl' := apply_writes (take n ws) bl in
  ((n < length ws)%nat /\ j_empty bl' /\ home_eq bl' bl) \/ jdone tx bl bl'.
Proof.
  intros [Hrecs Hn] Hl He. cbv zeta. unfold commit_writes.
  rewrite (app_assoc clear_writes).
  destruct (decide (n <= length (clear_writes ++ record_writes 0 tx))%nat) as [Hle|Hgt].
  { left. rewrite take_app_le by done. split; [|by apply commit_prefix_empty].
    rewrite !length_app in *. simpl in *. destruct stop; simpl; lia. }
  right. rewrite app_assoc, <- (app_assoc clear_writes).
  destruct (commit_record tx seq bl Hn Hl) as [Hc Hh].
  rewrite take_app_ge, apply_writes_app by (rewrite !length_app in *; simpl in *; lia).
  set (m := (n - length (clear_writes ++ record_writes 0 tx ++ [(M16_JOURNAL_START, header_of seq tx)]))%nat).
  set (bl1 := apply_writes (clear_writes ++ _) bl) in *.
  assert (Hl1 : length bl1 = 128%nat) by (unfold bl1; by rewrite length_apply_writes).
  assert (Hnew : home_eq (apply_tx tx bl1) (apply_tx tx bl)) by (apply apply_writes_home_proper; split; [congruence|done]).
  destruct stop; [rewrite take_nil; by apply (jd_committed _ _ _ seq)|].
  destruct (decide (m <= length (home_writes tx))%nat) as [Hm|Hm].
  - rewrite take_app_le by done. apply (jd_committed _ _ _ seq).
    + apply committed_home_writes; [done| |done]. apply Forall_take. eapply home_writes_home, Hrecs.
    + unfold apply_tx at 1. by rewrite apply_writes_replay.
  - rewrite take_ge by (rewrite length_app; simpl; lia). rewrite apply_writes_app. apply jd_retired.
    + apply j_empty_clear. by rewrite length_apply_writes.
    + by rewrite clear_home.
Qed.

(** One boot: [k] block writes succeed ([k < 0]: all), then the power fails. *)
Definition crash_recover (d d' : m16_blockdev) : Prop :=
  exists k rc, m16_journal_recover (set_fail d k) = Some (rc, d').

Lemma set_fail_ok d k : dev_ok d -> dev_ok (set_fail d k).
Proof. intros []. by constructor. Qed.

(** The crash states of one transaction. *)
Definition jstate (rc : Z + unit) (tx : m16_tx) (old bl : list (list Z)) : Prop :=
  (rc <> inr tt /\ j_empty bl /\ home_eq bl old) \/ jdone tx old bl.

Lemma commit_run d tx seq stop :
  dev_ok d -> tx_ok (total_blocks d) tx -> j_empty (blocks d) ->
  exists rc d', m16_journal_commit tx seq stop d = Some (rc, d') /\ dev_ok d' /\
    total_blocks d' = total_blocks d /\ jstate rc tx (blocks d) (blocks d') /\
    (rc = inr tt \/ rc = inl M16_E_IO /\ 0 <= fail_after d) /\
    (rc = inr tt -> stop = false -> j_empty (blocks d') /\ home_eq (blocks d') (apply_tx tx (blocks d))) /\
    (fail_after d < 0 -> fail_after d' = fail_after d).
Proof.
  intros Hd Htx He. rewrite (commit_eq (total_blocks d)) by done.
  destruct (io_writes_run (commit_writes tx seq stop) d Hd) as (n & rc & d' & Hr & Hn & Hb & Ht & Hd' & Hrc & Hf).
  { apply commit_writes_ok; [done|apply Hd]. }
  exists rc, d'. split_and!; try done.
  - unfold jstate. rewrite Hb.
    destruct (commit_states (total_blocks d) tx seq stop (blocks d) n Htx) as [(? & ? & ?)|?]; [apply Hd|done| |by right].
    left. split_and!; [|done|done]. destruct Hrc as [[_ ->]|[-> _]]; [lia|done].
  - destruct Hrc as [[-> _]|(-> & _ & ?)]; [by left|by right].
  - intros -> ->. destruct Hrc as [[_ ->]|[? _]]; [|done]. rewrite firstn_all in Hb. unfold commit_writes in Hb.
    destruct (commit_record tx seq (blocks d)) as [_ Hh]; [apply Htx|apply Hd|].
    rewrite !apply_writes_app in Hh. rewrite !apply_writes_app in Hb. rewrite Hb. split.
    + apply j_empty_clear. rewrite !length_apply_writes. apply Hd.
    + rewrite clear_home. apply apply_writes_home_proper. split; [by rewrite !length_apply_writes|done].
Qed.

Lemma recover_jstate rc0 tx old d :
  dev_ok d -> tx_ok (total_blocks d) tx -> jstate rc0 tx old (blocks d) ->
  exists rc d', m16_journal_recover d = Some (rc, d') /\ dev_ok d' /\
    total_blocks d' = total_blocks d /\ jstate rc0 tx old (blocks d') /\
    (rc = inr tt \/ rc = inl M16_E_IO /\ 0 <= fail_after d) /\
    (rc = inr tt -> j_empty (blocks d') /\
       ((rc0 <> inr tt /\ home_eq (blocks d') old) \/ home_eq (blocks d') (apply_tx tx old))).
Proof.
  intros Hd Htx [(Hrc & He & Hh)|Hdone].
  - exists (inr tt), d. rewrite recover_empty by done. split_and!; try done; [by left|by left|naive_solver].
  - destruct (recover_jdone tx old d Hd Htx Hdone) as (rc & d' & ? & ? & ? & ? & ? & Hok).
    exists rc, d'. split_and!; try done; [by right|]. intros ->. destruct Hok; [done|]. auto.
Qed.

Lemma crash_recover_jstate rc0 tx old d d' :
  rtc crash_recover d d' -> dev_ok d -> tx_ok (total_blocks d) tx -> jstate rc0 tx old (blocks d) ->
  dev_ok d' /\ total_blocks d' = total_blocks d /\ jstate rc0 tx old (blocks d').
Proof.
  induction 1 as [d|d d1 d2 (k & rc & Hr) _ IH]; intros Hd Htx Hj; [done|].
  destruct (recover_jstate rc0 tx old (set_fail d k)) as (rc' & d' & Hr' & Hd' & Ht & Hj' & _);
    [by apply set_fail_ok|done|done|].
  rewrite Hr in Hr'. injection Hr' as -> ->. simpl in Ht. rewrite <- Ht.
  apply IH; [done|by rewrite Ht|done].
Qed.

(** C1. Crash atomicity of a transaction: on a device whose journal is empty,
    let [m16_journal_commit] run with any fault armed, then let any number of
    boots be interrupted at any point of [m16_journal_recover].  No step is
    undefined, commit fails only with [M16_E_IO] and only when a fault is
    armed, and the next recovery that completes (one with no fault armed
    does) leaves an empty journal and the home blocks of either the old file
    system or the whole transaction, the latter always when commit returned
    OK. *)
Theorem journal_crash_atomic d tx seq stop :
  dev_ok d -> tx_ok (total_blocks d) tx -> j_empty (blocks d) ->
  exists rc d1, m16_journal_commit tx seq stop d = Some (rc, d1) /\
    (rc = inr tt \/ rc = inl M16_E_IO /\ 0 <= fail_after d) /\
    forall d2 k, rtc crash_recover d1 d2 ->
      exists rc' d3, m16_journal_recover (set_fail d2 k) = Some (rc', d3) /\
        (rc' = inr tt \/ rc' = inl M16_E_IO /\ 0 <= k) /\
        (rc' = inr tt -> j_empty (blocks d3) /\
           ((rc <> inr tt /\ home_eq (blocks d3) (blocks d)) \/
            home_eq (blocks d3) (apply_tx tx (blocks d)))).
Proof.
  intros Hd Htx He. destruct (commit_run d tx seq stop Hd Htx He) as (rc & d1 & Hr & Hd1 & Ht1 & Hj & Hrc & _).
  exists rc, d1. split_and!; [done|done|]. intros d2 k Hrt. rewrite <- Ht1 in Htx.
  destruct (crash_recover_jstate rc tx (blocks d) d1 d2) as (Hd2 & Ht2 & Hj2); [done..|].
  destruct (recover_jstate rc tx (blocks d) (set_fail d2 k)) as (rc' & d3 & ? & _ & _ & _ & ? & ?);
    [by apply set_fail_ok|simpl; by rewrite Ht2|done|]. exists rc', d3. auto.
Qed.

Lemma dev_init_ok : dev_ok m16_dev_init.
Proof.
  constructor; [done| |done|done]. apply Forall_replicate, zero_block_ok.
Qed.

Lemma dev_init_empty : j_empty (blocks m16_dev_init).
Proof. exists zero_block. done. Qed.

Definition demo_tx : m16_tx := [mk_jrec 18 (replicate 512 7); mk_jrec 30 (replicate 512 9)].

Lemma demo_tx_ok : tx_ok 128 demo_tx.
Proof.
  split; [|done].
  assert (Hb : forall v, in_u 8 v -> block_ok (replicate 512 v)) by (intros v Hv; split; [done|by apply bytes_ok_replicate]).
  constructor; [|constructor; [|done]]; (split_and!; [simpl; lia|simpl; lia|by right|apply Hb; unfold in_u; lia]).
Qed.

Lemma journal_crash_atomic_witness :
  let d := set_fail m16_dev_init 3 in
  exists rc d1, m16_journal_commit demo_tx 1 false d = Some (rc, d1) /\
    forall d2, rtc crash_recover d1 d2 -> exists d3,
      m16_journal_recover (set_fail d2 (-1)) = Some (inr tt, d3) /\ j_empty (blocks d3).
Proof.
  cbv zeta. destruct (journal_crash_atomic (set_fail m16_dev_init 3) demo_tx 1 false
    (set_fail_ok _ _ dev_init_ok) demo_tx_ok dev_init_empty) as (rc & d1 & Hr & _ & Hall).
  exists rc, d1. split; [exact Hr|]. intros d2 H2.
  destruct (Hall d2 (-1) H2) as (rc' & d3 & Hr' & [->|[_ Hk]] & Hok); [|lia].
  exists d3. split; [exact Hr'|]. apply Hok. reflexivity.
Defined.

(** A damaged record stops recovery: when the payload of record [j] of a
    committed journal no longer matches its checksum and the records before
    it are intact, [m16_journal_recover] returns [M16_E_CORRUPT], never
    writes the damaged payload, and keeps the journal for inspection; the
    [j] records before it have been written home by then. *)
Theorem recover_rejects_damage d tx seq j r p :
  dev_ok d -> fail_after d < 0 -> tx_ok (total_blocks d) tx ->
  blocks d !! Z.to_nat M16_JOURNAL_START = Some (header_of seq tx) ->
  (forall i r, (i < j)%nat -> tx !! i = Some r -> rec_at (blocks d) i r) ->
  tx !! j = Some r -> blocks d !! (2 + 2 * j)%nat = Some (desc_of r) ->
  blocks d !! (3 + 2 * j)%nat = Some p ->
  m16_checksum p M16_BLOCK_SIZE <> m16_checksum (payload r) M16_BLOCK_SIZE ->
  exists d', m16_journal_recover d = Some (inl M16_E_CORRUPT, d') /\
    blocks d' = apply_tx (take j tx) (blocks d) /\
    blocks d' !! Z.to_nat M16_JOURNAL_START = Some (header_of seq tx).
Proof.
  intros Hd Hf Htx Hh Hpre Hj Hdesc Hdata Hsum. pose proof (lookup_lt_Some _ _ _ Hj) as Hlt.
  pose proof (tx_count _ _ Htx) as Hn. pose proof (tx_recs _ _ Htx) as Hrecs. unfold M16_JOURNAL_MAX_RECORDS in Hn.
  rewrite (recover_header tx seq d) by done.
  replace (length tx) with (length (take j tx) + S (length tx - j - 1))%nat by (rewrite length_take; lia).
  unfold em_bind at 1. rewrite (replay_app (take j tx) _ 0); [|done|by apply Forall_take|rewrite length_take; unfold M16_JOURNAL_MAX_RECORDS; lia|].
  2:{ intros i r' Hi. apply lookup_take_Some in Hi as [Hi ?]. by apply Hpre. }
  destruct (io_writes_run (home_writes (take j tx)) d Hd) as (n & rc & d1 & Hr & _ & Hb & Ht & Hd1 & Hrc & _).
  { by apply home_writes_ok, Forall_take. }
  destruct Hrc as [[-> ->]|(_ & _ & ?)]; [|lia]. rewrite firstn_all in Hb.
  rewrite (em_bind_ok _ _ _ _ _ Hr).
  assert (Hkeep : forall a, (1 <= a < 18)%nat -> blocks d1 !! a = blocks d !! a).
  { intros a Ha. rewrite Hb. apply home_writes_journal; [|apply journal_area; lia].
    eapply home_writes_home, Forall_take, Hrecs. }
  rewrite length_take_le by lia. rewrite (replay_damaged _ _ r p); [|done|unfold M16_JOURNAL_MAX_RECORDS; lia|..].
  - simpl. exists d1. split_and!; [done|done|]. rewrite Hkeep; [done|].
    change (Z.to_nat M16_JOURNAL_START) with 1%nat. lia.
  - eapply Forall_lookup_1 in Hrecs; [|exact Hj]. by rewrite Ht.
  - by rewrite Hkeep by lia.
  - by rewrite Hkeep by lia.
  - done.
Qed.

Definition damaged_dev : m16_blockdev :=
  let bl := apply_writes (record_writes 0 demo_tx ++ [(1, header_of 5 demo_tx); (5, zero_block)])
              (blocks m16_dev_init) in
  set_blocks m16_dev_init bl.

Lemma damaged_dev_ok : dev_ok damaged_dev.
Proof.
  destruct (io_writes_run (record_writes 0 demo_tx ++ [(1, header_of 5 demo_tx); (5, zero_block)]) m16_dev_init
    dev_init_ok) as (n & rc & d' & _ & _ & Hb & Ht & [Hl Hf _ _] & [[-> ->]|(_ & _ & Hk)] & _).
  - apply Forall_app. split; [apply record_writes_ok; by try apply demo_tx_ok|].
    constructor; [by apply (header_write_ok 128)|]. constructor; [split; [cbn; unfold M16_MAX_BLOCKS; lia|apply zero_block_ok]|done].
  - rewrite firstn_all in Hb. rewrite Hb in Hl, Hf. by constructor.
  - by compute in Hk.
Qed.

Lemma recover_rejects_damage_witness :
  exists d', m16_journal_recover damaged_dev = Some (inl M16_E_CORRUPT, d') /\
    blocks d' = apply_tx (take 1 demo_tx) (blocks damaged_dev).
Proof.
  destruct (recover_rejects_damage damaged_dev demo_tx 5 1 (mk_jrec 30 (replicate 512 9)) zero_block)
    as (d' & Hr & Hb & _).
  - exact damaged_dev_ok.
  - reflexivity.
  - exact demo_tx_ok.
  - vm_compute. reflexivity.
  - intros [|i] r Hi Hr; [|lia]. injection Hr as <-. split; vm_compute; reflexivity.
  - reflexivity.
  - vm_compute. reflexivity.
  - vm_compute. reflexivity.
  - vm_compute. discriminate.
  - exists d'. split; [exact Hr|exact Hb].
Defined.

End Journal.
