(* ===== verification/JournalFs.v ===== *)
(** * The file layer of MCSFS1J

    The second half of [kernel/fs/mcsfs1j/m16_mcsfs_journal.c]: format, mount,
    the one-block files of the root directory, and the consistency checker,
    on top of the journal of [Journal.v].  Inodes (128 bytes) and directory
    entries (40 bytes, twelve to a block) are read and written at their
    offsets in the raw buffers. *)
From S2P Require Import Prelude Bitmap Bytes Errm Journal.
From stdpp Require Import base list numbers option relations.
From Stdlib Require Import ZArith Lia.

Open Scope Z_scope.

Module JournalFs.
Import Journal.
Open Scope em_scope.

(** ** Format and mount *)

(** The [struct m16_super] that [m16_format] builds. *)
Definition super_block (total : Z) : option (list Z) :=
  sb ← st 8 zero_block 0 M16_MAGIC;
  sb ← st 4 sb 8 M16_VERSION;
  sb ← st 4 sb 12 M16_BLOCK_SIZE;
  sb ← st 4 sb 16 total;
  sb ← st 4 sb 20 M16_JOURNAL_START;
  sb ← st 4 sb 24 M16_JOURNAL_BLOCKS;
  sb ← st 4 sb 28 M16_INODE_BITMAP_LBA;
  sb ← st 4 sb 32 M16_BLOCK_BITMAP_LBA;
  sb ← st 4 sb 36 M16_INODE_TABLE_LBA;
  sb ← st 4 sb 40 M16_INODE_TABLE_BLOCKS;
  sb ← st 4 sb 44 M16_ROOT_DIR_LBA;
  sb ← st 4 sb 48 M16_DATA_START_LBA;
  st 4 sb 52 1.

(** [for (i = 0; i < M16_DATA_START_LBA; i++) m16_bitmap_set(bb, i);] *)
Fixpoint set_bits (n : nat) (i : Z) (bm : list Z) : option (list Z) :=
  match n with
  | O => Some bm
  | S n => bm ← m16_bitmap_set bm i; set_bits n (i + 1) bm
  end.

(** The inode table of an empty file system: inode 0 is the root directory. *)
Definition root_inodes : option (list Z) :=
  t ← st 4 (replicate 2048 0) 0 1;
  t ← st 4 t 4 2;
  t ← st 4 t 8 0;
  st 4 t 12 M16_ROOT_DIR_LBA.

Fixpoint write_table (n : nat) (i : Z) (raw : list Z) : io unit :=
  match n with
  | O => em_ret tt
  | S n =>
      b <~ em_lift (slice raw (i * M16_BLOCK_SIZE) M16_BLOCK_SIZE) ;;
      m16_write_block (M16_INODE_TABLE_LBA + i) b ;;;
      write_table n (i + 1) raw
  end.

Definition m16_format : io unit :=
  (fun d => Some (inr tt, set_blocks d (replicate 128 zero_block))) ;;;
  total <~ (fun d => Some (inr (total_blocks d), d)) ;;
  sb <~ em_lift (super_block total) ;;
  m16_write_block 0 sb ;;;
  ib <~ em_lift (m16_bitmap_set zero_block 0) ;;
  bb <~ em_lift (set_bits (Z.to_nat M16_DATA_START_LBA) 0 zero_block) ;;
  m16_write_block M16_INODE_BITMAP_LBA ib ;;;
  m16_write_block M16_BLOCK_BITMAP_LBA bb ;;;
  raw <~ em_lift root_inodes ;;
  write_table 4 0 raw ;;;
  m16_write_block M16_ROOT_DIR_LBA zero_block ;;;
  m16_journal_clear.

(** The superblock checks at the end of [m16_mount]. *)
Definition mount_check (sb : list Z) : option Z :=
  magic ← ld 8 sb 0; version ← ld 4 sb 8; block_size ← ld 4 sb 12;
  root ← ld 4 sb 44; data_start ← ld 4 sb 48;
  Some (if negb (magic =? M16_MAGIC) || negb (version =? M16_VERSION)
           || negb (block_size =? M16_BLOCK_SIZE) then M16_E_CORRUPT else
        if negb (data_start =? M16_DATA_START_LBA) || negb (root =? M16_ROOT_DIR_LBA)
        then M16_E_CORRUPT else M16_E_OK).

(** [m16_mount(dev, &sb)]: delivers the superblock. *)
Definition m16_mount : io (list Z) :=
  m16_journal_recover ;;;
  sb <~ m16_read_block 0 ;;
  rc <~ em_lift (mount_check sb) ;;
  if rc =? M16_E_OK then em_ret sb else em_err rc.

(** ** Searches *)

Fixpoint find_clear (n : nat) (i : Z) (bm : list Z) : option Z :=
  match n with
  | O => Some M16_E_NOSPC
  | S n =>
      b ← m16_bitmap_get bm i;
      if b : bool then find_clear n (i + 1) bm else Some i
  end.

Definition m16_find_free_inode (ib : list Z) : option Z :=
  find_clear (Z.to_nat (M16_MAX_INODES - 1)) 1 ib.

Definition m16_find_free_block (bb : list Z) : option Z :=
  find_clear (Z.to_nat (M16_MAX_BLOCKS - M16_DATA_START_LBA)) M16_DATA_START_LBA bb.

(** [sizeof(struct m16_dirent)] is 40: [used], [ino], [name[32]]. *)
Definition dir_count : Z := M16_BLOCK_SIZE / 40.
Definition de_used (dir : list Z) (i : Z) : option Z := ld 4 dir (40 * i).
Definition de_ino (dir : list Z) (i : Z) : option Z := ld 4 dir (40 * i + 4).
Definition de_name (dir : list Z) (i : Z) : option (list Z) := slice dir (40 * i + 8) M16_MAX_NAME.

(** [dir[i].used != 0u && m16_streq(dir[i].name, name)] *)
Definition dirent_matches (dir name : list Z) (i : Z) : option bool :=
  used ← de_used dir i;
  if used =? 0 then Some false else nm ← de_name dir i; m16_streq nm name.

Fixpoint find_dirent_from (n : nat) (i : Z) (dir name : list Z) : option Z :=
  match n with
  | O => Some M16_E_NOENT
  | S n =>
      hit ← dirent_matches dir name i;
      if hit : bool then Some i else find_dirent_from n (i + 1) dir name
  end.
Definition m16_find_dirent (dir name : list Z) : option Z :=
  find_dirent_from (Z.to_nat dir_count) 0 dir name.

Fixpoint find_free_dirent_from (n : nat) (i : Z) (dir : list Z) : option Z :=
  match n with
  | O => Some M16_E_NOSPC
  | S n =>
      used ← de_used dir i;
      if used =? 0 then Some i else find_free_dirent_from n (i + 1) dir
  end.
Definition m16_find_free_dirent (dir : list Z) : option Z :=
  find_free_dirent_from (Z.to_nat dir_count) 0 dir.

(** [sizeof(struct m16_inode)] is 128: [used], [kind], [size], [direct[4]]. *)
Definition in_used (t : list Z) (i : Z) : option Z := ld 4 t (128 * i).
Definition in_kind (t : list Z) (i : Z) : option Z := ld 4 t (128 * i + 4).
Definition in_size (t : list Z) (i : Z) : option Z := ld 4 t (128 * i + 8).
Definition in_direct0 (t : list Z) (i : Z) : option Z := ld 4 t (128 * i + 12).

(** ** Files *)

(** The new contents of the bitmaps, the inode table, the directory and the
    data block (the assignments between the searches and the first
    transaction in [m16_write_file_ex]). *)
Definition new_inode (t : list Z) (ino size blk : Z) : option (list Z) :=
  t ← st 4 t (128 * ino) 1;
  t ← st 4 t (128 * ino + 4) 1;
  t ← st 4 t (128 * ino + 8) size;
  st 4 t (128 * ino + 12) blk.

Definition new_dirent (dir : list Z) (slot ino : Z) (name : list Z) (name_len : nat) : option (list Z) :=
  d ← st 4 dir (40 * slot) 1;
  d ← st 4 d (40 * slot + 4) ino;
  d ← splice d (40 * slot + 8) (replicate 32 0);
  nm ← slice name 0 (Z.of_nat name_len);
  splice d (40 * slot + 8) nm.

Definition m16_write_file_ex (name data : option (list Z)) (size : Z)
    (stop_after_commit_record : bool) : io unit :=
  match name, data with
  | Some name, Some data =>
      name_len <~ em_lift (m16_strlen_bounded name 32) ;;
      if (Z.of_nat name_len =? 0) || (M16_MAX_NAME <=? Z.of_nat name_len)
      then em_err M16_E_TOOLONG else
      if M16_BLOCK_SIZE <? size then em_err M16_E_INVAL else
      sb <~ m16_mount ;;
      ib <~ m16_read_block M16_INODE_BITMAP_LBA ;;
      bb <~ m16_read_block M16_BLOCK_BITMAP_LBA ;;
      inodes <~ m16_load_inode_table ;;
      dir <~ m16_read_block M16_ROOT_DIR_LBA ;;
      found <~ em_lift (m16_find_dirent dir name) ;;
      if 0 <=? found then em_err M16_E_EXISTS else
      ino <~ em_lift (m16_find_free_inode ib) ;;
      if ino <? 0 then em_err ino else
      data_block <~ em_lift (m16_find_free_block bb) ;;
      if data_block <? 0 then em_err data_block else
      slot <~ em_lift (m16_find_free_dirent dir) ;;
      if slot <? 0 then em_err slot else
      bytes <~ em_lift (slice data 0 size) ;;
      data_blk <~ em_lift (splice zero_block 0 bytes) ;;
      ib <~ em_lift (m16_bitmap_set ib ino) ;;
      bb <~ em_lift (m16_bitmap_set bb data_block) ;;
      inodes <~ em_lift (new_inode inodes ino size data_block) ;;
      dir <~ em_lift (new_dirent dir slot ino name name_len) ;;
      tx <~ step_rc (m16_tx_add [] M16_INODE_BITMAP_LBA ib) ;;
      tx <~ step_rc (m16_tx_add tx M16_BLOCK_BITMAP_LBA bb) ;;
      tx <~ step_rc (m16_store_inode_table tx inodes) ;;
      gen <~ em_lift (ld 4 sb 52) ;;
      m16_journal_commit tx (u32 (gen + 1)) false ;;;
      tx <~ step_rc (m16_tx_add [] M16_ROOT_DIR_LBA dir) ;;
      tx <~ step_rc (m16_tx_add tx data_block data_blk) ;;
      m16_journal_commit tx (u32 (gen + 2)) stop_after_commit_record
  | _, _ => em_err M16_E_INVAL
  end.

Definition m16_write_file (name data : option (list Z)) (size : Z) : io unit :=
  m16_write_file_ex name data size false.

(** [m16_read_file(dev, name, out, out_cap, &out_size)]: delivers the new
    contents of [out] and the size. *)
Definition m16_read_file (name out : option (list Z)) (out_cap : Z) : io (list Z * Z) :=
  match name, out with
  | Some name, Some out =>
      m16_mount ;;;
      inodes <~ m16_load_inode_table ;;
      dir <~ m16_read_block M16_ROOT_DIR_LBA ;;
      slot <~ em_lift (m16_find_dirent dir name) ;;
      if slot <? 0 then em_err slot else
      ino <~ em_lift (de_ino dir slot) ;;
      if M16_MAX_INODES <=? ino then em_err M16_E_CORRUPT else
      used <~ em_lift (in_used inodes ino) ;;
      kind <~ em_lift (in_kind inodes ino) ;;
      if (used =? 0) || negb (kind =? 1) then em_err M16_E_CORRUPT else
      size <~ em_lift (in_size inodes ino) ;;
      direct <~ em_lift (in_direct0 inodes ino) ;;
      bad <~ (fun d => Some (inr ((out_cap <? size) || (total_blocks d <=? direct)), d)) ;;
      if bad : bool then em_err M16_E_INVAL else
      blk <~ m16_read_block direct ;;
      bytes <~ em_lift (slice blk 0 size) ;;
      out <~ em_lift (splice out 0 bytes) ;;
      em_ret (out, size)
  | _, _ => em_err M16_E_INVAL
  end.

(** ** Consistency check *)

Fixpoint all_bits (n : nat) (i : Z) (bm : list Z) : option bool :=
  match n with
  | O => Some true
  | S n =>
      b ← m16_bitmap_get bm i;
      if b : bool then all_bits n (i + 1) bm else Some false
  end.

(** The body of the directory loop of [m16_fsck]. *)
Definition fsck_entry (total : Z) (ib bb inodes dir : list Z) (i : Z) : option bool :=
  used ← de_used dir i;
  if used =? 0 then Some true else
  ino ← de_ino dir i;
  if M16_MAX_INODES <=? ino then Some false else
  marked ← m16_bitmap_get ib ino;
  if negb marked then Some false else
  iused ← in_used inodes ino; kind ← in_kind inodes ino; size ← in_size inodes ino;
  if (iused =? 0) || negb (kind =? 1) || (M16_BLOCK_SIZE <? size) then Some false else
  direct ← in_direct0 inodes ino;
  if (direct <? M16_DATA_START_LBA) || (total <=? direct) then Some false else
  m16_bitmap_get bb direct.

Fixpoint fsck_entries (n : nat) (i : Z) (total : Z) (ib bb inodes dir : list Z) : option bool :=
  match n with
  | O => Some true
  | S n =>
      ok ← fsck_entry total ib bb inodes dir i;
      if ok : bool then fsck_entries n (i + 1) total ib bb inodes dir else Some false
  end.

Definition fsck_root (ib inodes : list Z) : option bool :=
  b ← m16_bitmap_get ib 0;
  used ← in_used inodes 0; kind ← in_kind inodes 0; direct ← in_direct0 inodes 0;
  Some (b && (used =? 1) && (kind =? 2) && (direct =? M16_ROOT_DIR_LBA)).

Definition m16_fsck : io unit :=
  m16_mount ;;;
  ib <~ m16_read_block M16_INODE_BITMAP_LBA ;;
  bb <~ m16_read_block M16_BLOCK_BITMAP_LBA ;;
  inodes <~ m16_load_inode_table ;;
  dir <~ m16_read_block M16_ROOT_DIR_LBA ;;
  root <~ em_lift (fsck_root ib inodes) ;;
  if negb root then em_err M16_E_CORRUPT else
  meta <~ em_lift (all_bits (Z.to_nat M16_DATA_START_LBA) 0 bb) ;;
  if negb meta then em_err M16_E_CORRUPT else
  total <~ (fun d => Some (inr (total_blocks d), d)) ;;
  ok <~ em_lift (fsck_entries (Z.to_nat dir_count) 0 total ib bb inodes dir) ;;
  if negb ok then em_err M16_E_CORRUPT else em_ret tt.

(** ** C strings *)

(** The characters of a string of at most [n], and that reading them stays in
    the buffer. *)
Fixpoint cstr (n : nat) (l : list Z) : list Z :=
  match n, l with
  | S n, c :: l => if c =? 0 then [] else c :: cstr n l
  | _, _ => []
  end.

Fixpoint readable (n : nat) (l : list Z) : bool :=
  match n, l with
  | O, _ => true
  | S n, c :: l => (c =? 0) || readable n l
  | S _, [] => false
  end.

Lemma length_cstr n l : (length (cstr n l) <= n)%nat.
Proof. revert l. induction n; intros [|c l]; simpl; try lia. destruct (c =? 0); simpl; [lia|]. pose proof (IHn l). lia. Qed.

Lemma strlen_cstr n l : readable n l = true -> m16_strlen_bounded l n = Some (length (cstr n l)).
Proof.
  revert l. induction n as [|n IH]; intros l; [done|]. destruct l as [|c l]; [done|]. simpl.
  destruct (c =? 0); [done|]. intros H. by rewrite IH.
Qed.

Lemma take_cstr n l : take (length (cstr n l)) l = cstr n l.
Proof.
  revert l. induction n as [|n IH]; intros [|c l]; simpl; try done.
  destruct (c =? 0); simpl; [done|]. by rewrite IH.
Qed.

Lemma length_cstr_le n l : (length (cstr n l) <= length l)%nat.
Proof. rewrite <- take_cstr, length_take. lia. Qed.

Lemma streq_cstr n a b :
  readable n a = true -> readable n b = true ->
  m16_streq_n n a b = Some (bool_decide (cstr n a = cstr n b)).
Proof.
  revert a b. induction n as [|n IH]; intros a b Ha Hb; [done|].
  destruct a as [|x a], b as [|y b]; [done..|]. simpl in *.
  destruct (Z.eqb_spec x y) as [->|Hne]; simpl.
  - destruct (Z.eqb_spec y 0); simpl in *; [done|]. rewrite IH by done. f_equal.
    apply bool_decide_ext. split; [by intros ->|by intros [=]].
  - rewrite bool_decide_false; [done|]. destruct (Z.eqb_spec x 0), (Z.eqb_spec y 0); congruence.
Qed.

(** A name as a directory entry stores it. *)
Lemma cstr_padded n l m :
  let s := cstr n l in (length s < n)%nat ->
  cstr n (s ++ replicate (S m) 0) = s /\ readable n (s ++ replicate (S m) 0) = true.
Proof.
  cbv zeta. revert l. induction n as [|n IH]; intros l Hl; [lia|].
  destruct l as [|c l]; simpl in *; [done|]. destruct (Z.eqb_spec c 0); simpl in *; [done|].
  destruct (Z.eqb_spec c 0); [done|]. destruct (IH l) as [-> ->]; [lia|done].
Qed.

Lemma readable_length n l : (n <= length l)%nat -> readable n l = true.
Proof.
  revert l. induction n as [|n IH]; intros l Hl; [done|]. destruct l as [|c l]; simpl in *; [lia|].
  rewrite IH by lia. apply orb_true_r.
Qed.

(** ** Bitmaps *)

Lemma bitmap_get_test (bm : list Z) i : 0 <= i < 8 * Z.of_nat (length bm) -> m16_bitmap_get bm i = Some (bm_test bm i).
Proof.
  intros Hi. destruct (bm_get_is_Some bm i Hi) as [b Hb]. unfold m16_bitmap_get, bm_test. rewrite Hb. simpl.
  f_equal. apply byte_test_testbit. apply Z.mod_pos_bound. lia.
Qed.

Lemma bitmap_set_test bm i : block_ok bm -> 0 <= i < 4096 ->
  exists bm', m16_bitmap_set bm i = Some bm' /\ block_ok bm' /\
    forall j, 0 <= j -> bm_test bm' j = bool_decide (i = j) || bm_test bm j.
Proof.
  intros [Hl Hb] Hi. destruct (bm_get_is_Some bm i) as [b Hg]; [lia|].
  unfold m16_bitmap_set. rewrite Hg. simpl. rewrite arr_set_Some by (by eapply arr_get_Some_lt).
  eexists. split; [done|]. split; [split|].
  - by rewrite length_insert.
  - apply bytes_ok_insert; [done|apply u8_in_u8].
  - intros j Hj. apply bm_test_set; [done|lia|done].
Qed.

Lemma find_clear_spec n i bm :
  0 <= i -> i + Z.of_nat n <= 8 * Z.of_nat (length bm) ->
  find_clear n i bm = Some M16_E_NOSPC \/
  exists j, find_clear n i bm = Some j /\ i <= j < i + Z.of_nat n /\ bm_test bm j = false.
Proof.
  revert i. induction n as [|n IH]; intros i Hi Hn; [by left|]. cbn [find_clear].
  rewrite bitmap_get_test by lia. cbn [mbind option_bind]. destruct (bm_test bm i) eqn:E.
  - destruct (IH (i + 1)) as [H|(j & H & ? & ?)]; [lia|lia|by left|]. right. exists j. split_and!; [done|lia|lia|done].
  - right. exists i. split_and!; [done|lia|lia|done].
Qed.

Lemma all_bits_spec n i (bm : list Z) :
  0 <= i -> i + Z.of_nat n <= 8 * Z.of_nat (length bm) ->
  exists b, all_bits n i bm = Some b /\ (b = true <-> forall j, i <= j < i + Z.of_nat n -> bm_test bm j = true).
Proof.
  revert i. induction n as [|n IH]; intros i Hi Hn.
  { exists true. split; [done|]. split; [intros _ j Hj; lia|done]. }
  cbn [all_bits]. rewrite bitmap_get_test by lia. cbn [mbind option_bind]. destruct (bm_test bm i) eqn:E.
  - destruct (IH (i + 1)) as (b & Hb & Hiff); [lia|lia|]. exists b. split; [done|]. rewrite Hiff. split.
    + intros H j Hj. destruct (decide (i = j)); [by subst|]. apply H. lia.
    + intros H j Hj. apply H. lia.
  - exists false. split; [done|]. split; [done|]. intros H. rewrite <- E. apply H. lia.
Qed.

(** ** The directory *)

Lemma de_Some dir i : block_ok dir -> 0 <= i < 12 ->
  (exists u, de_used dir i = Some u /\ in_u 32 u) /\ (exists n, de_ino dir i = Some n /\ in_u 32 n) /\
  (exists nm, de_name dir i = Some nm /\ length nm = 32%nat).
Proof.
  intros Hd Hi. split_and!.
  - apply (ld_block 4); [done|lia|lia].
  - apply (ld_block 4); [done|lia|lia].
  - destruct Hd as [Hl _]. apply slice_Some; unfold M16_MAX_NAME; lia.
Qed.

Lemma dirent_matches_Some dir name i : block_ok dir -> 0 <= i < 12 -> readable 32 name = true ->
  exists u nm, de_used dir i = Some u /\ de_name dir i = Some nm /\
    dirent_matches dir name i = Some (negb (u =? 0) && bool_decide (cstr 32 nm = cstr 32 name)).
Proof.
  intros Hd Hi Hr. destruct (de_Some dir i Hd Hi) as ((u & Hu & _) & _ & (nm & Hnm & Hl)).
  exists u, nm. split_and!; [done|done|]. unfold dirent_matches. rewrite Hu. simpl.
  destruct (u =? 0); [done|]. rewrite Hnm. cbn [mbind option_bind]. unfold m16_streq.
  by rewrite streq_cstr by (done || (apply readable_length; lia)).
Qed.

Lemma find_dirent_from_spec n i dir name :
  block_ok dir -> readable 32 name = true -> 0 <= i -> i + Z.of_nat n <= 12 ->
  (find_dirent_from n i dir name = Some M16_E_NOENT /\
     forall j, i <= j < i + Z.of_nat n -> dirent_matches dir name j = Some false) \/
  (exists k, find_dirent_from n i dir name = Some k /\ i <= k < i + Z.of_nat n /\
     dirent_matches dir name k = Some true /\
     forall j, i <= j < k -> dirent_matches dir name j = Some false).
Proof.
  intros Hd Hr. revert i. induction n as [|n IH]; intros i Hi Hn.
  { left. split; [done|]. intros j Hj. lia. }
  cbn [find_dirent_from]. destruct (dirent_matches_Some dir name i) as (u & nm & _ & _ & Hm); [done|lia|done|].
  set (b := negb (u =? 0) && _) in Hm. rewrite Hm. cbn [mbind option_bind]. clearbody b. destruct b.
  - right. exists i. split_and!; [done|lia|lia|done|]. intros j Hj. lia.
  - destruct (IH (i + 1)) as [[H Hall]|(k & H & Hk & Hm' & Hall)]; [lia|lia|left|right; exists k];
      (split_and!; [done|..]; try lia; try done).
    all: intros j Hj; destruct (decide (i = j)); [by subst|apply Hall; lia].
Qed.

Lemma find_dirent_spec dir name :
  block_ok dir -> readable 32 name = true ->
  (m16_find_dirent dir name = Some M16_E_NOENT /\ forall j, 0 <= j < 12 -> dirent_matches dir name j = Some false) \/
  (exists k, m16_find_dirent dir name = Some k /\ 0 <= k < 12 /\ dirent_matches dir name k = Some true /\
     forall j, 0 <= j < k -> dirent_matches dir name j = Some false).
Proof. intros. apply (find_dirent_from_spec 12 0); done || lia. Qed.

(** The search sees a directory only through its matches. *)
Lemma find_dirent_from_ext n i dir dir' name :
  (forall j, i <= j < i + Z.of_nat n -> dirent_matches dir name j = dirent_matches dir' name j) ->
  find_dirent_from n i dir name = find_dirent_from n i dir' name.
Proof.
  revert i. induction n as [|n IH]; intros i H; [done|]. cbn [find_dirent_from].
  rewrite H by lia. destruct (dirent_matches dir' name i) as [[]|]; simpl; try done.
  apply IH. intros j Hj. apply H. lia.
Qed.

Lemma find_free_dirent_spec dir : block_ok dir ->
  m16_find_free_dirent dir = Some M16_E_NOSPC \/
  exists k, m16_find_free_dirent dir = Some k /\ 0 <= k < 12 /\ de_used dir k = Some 0.
Proof.
  intros Hd. unfold m16_find_free_dirent. change (Z.to_nat dir_count) with 12%nat.
  assert (Hgen : forall n i, 0 <= i -> i + Z.of_nat n <= 12 ->
    find_free_dirent_from n i dir = Some M16_E_NOSPC \/
    exists k, find_free_dirent_from n i dir = Some k /\ 0 <= k < 12 /\ de_used dir k = Some 0).
  { induction n as [|n IH]; intros i Hi Hn; [by left|]. cbn [find_free_dirent_from].
    destruct (de_Some dir i Hd) as ((u & Hu & _) & _); [lia|]. rewrite Hu. simpl.
    destruct (Z.eqb_spec u 0) as [->|]; [|apply IH; lia]. right. exists i. split_and!; [done|lia|lia|done]. }
  apply Hgen; lia.
Qed.

Lemma splice_block b off bs : block_ok b -> bytes_ok bs -> 0 <= off -> off + Z.of_nat (length bs) <= 512 ->
  exists b', splice b off bs = Some b' /\ block_ok b'.
Proof.
  intros [Hl Hb] Hbs ??. rewrite splice_Some by lia. eexists. split; [done|]. split.
  - rewrite !length_app, length_take, length_drop. lia.
  - apply bytes_ok_app; [by apply bytes_ok_take|]. apply bytes_ok_app; [done|by apply bytes_ok_drop].
Qed.

Lemma bytes_ok_cstr n l : bytes_ok l -> bytes_ok (cstr n l).
Proof. intros. rewrite <- take_cstr. by apply bytes_ok_take. Qed.

(** What [m16_write_file_ex] puts into the directory. *)
Lemma new_dirent_spec dir slot ino name :
  block_ok dir -> 0 <= slot < 12 -> in_u 32 ino -> bytes_ok name -> (length (cstr 32 name) < 32)%nat ->
  exists dir', new_dirent dir slot ino name (length (cstr 32 name)) = Some dir' /\ block_ok dir' /\
    de_used dir' slot = Some 1 /\ de_ino dir' slot = Some ino /\
    de_name dir' slot = Some (cstr 32 name ++ replicate (32 - length (cstr 32 name)) 0) /\
    forall i, 0 <= i < 12 -> i <> slot ->
      de_used dir' i = de_used dir i /\ de_ino dir' i = de_ino dir i /\ de_name dir' i = de_name dir i.
Proof.
  intros Hd Hs Hino Hname Hlen. set (nm := cstr 32 name) in *. unfold new_dirent.
  st_step d1 H1 Hok1. st_step d2 H2 Hok2.
  destruct (splice_block d2 (40 * slot + 8) (replicate 32 0)) as (d3 & H3 & Hok3);
    [done|apply bytes_ok_replicate; unfold in_u; lia|lia|rewrite length_replicate; lia|].
  rewrite H3. cbn [mbind option_bind].
  assert (Hnm : slice name 0 (Z.of_nat (length nm)) = Some nm).
  { unfold slice. pose proof (length_cstr_le 32 name : length nm <= length name)%nat.
    rewrite (proj2 (in_buf_true _ _ _)) by lia. rewrite drop_0, Nat2Z.id. f_equal. apply take_cstr. }
  rewrite Hnm. cbn [mbind option_bind].
  destruct (splice_block d3 (40 * slot + 8) nm) as (d4 & H4 & Hok4);
    [done|by apply bytes_ok_cstr|lia|lia|].
  exists d4. split_and!; [done|done|..].
  - unfold de_used. unfold ld. rewrite (slice_splice_disjoint _ _ _ _ _ _ H4), (slice_splice_disjoint _ _ _ _ _ _ H3) by lia.
    fold (ld 4 d2 (40 * slot)). rewrite (ld_st_disjoint _ _ _ _ _ _ _ H2) by lia. by apply (ld_st_same _ _ _ _ _ H1).
  - unfold de_ino. unfold ld. rewrite (slice_splice_disjoint _ _ _ _ _ _ H4), (slice_splice_disjoint _ _ _ _ _ _ H3) by lia.
    by apply (ld_st_same _ _ _ _ _ H2).
  - unfold de_name, slice. destruct Hok4 as [Hl4 _]. unfold M16_MAX_NAME.
    rewrite (proj2 (in_buf_true _ _ _)) by lia. f_equal. apply list_eq. intros i.
    destruct (decide (i < 32)%nat).
    + rewrite lookup_take_lt, lookup_drop by lia. rewrite (lookup_splice _ _ _ _ _ H4), (lookup_splice _ _ _ _ _ H3).
      rewrite length_replicate. case_decide.
      * rewrite lookup_app_l by lia. f_equal. lia.
      * rewrite decide_True by lia. rewrite lookup_app_r by lia. rewrite !lookup_replicate_2 by lia. done.
    + rewrite lookup_take_ge by lia. symmetry. apply lookup_ge_None_2. rewrite length_app, length_replicate. lia.
  - intros i Hi Hne. assert (40 * i + 40 <= 40 * slot \/ 40 * slot + 40 <= 40 * i) by lia.
    unfold de_used, de_ino, de_name, ld, M16_MAX_NAME.
    assert (Hsl : forall o l, 0 <= o -> 0 <= l -> o + l <= 40 ->
      slice d4 (40 * i + o) l = slice dir (40 * i + o) l).
    { intros o l ???. rewrite (slice_splice_disjoint _ _ _ _ _ _ H4), (slice_splice_disjoint _ _ _ _ _ _ H3),
        (slice_splice_disjoint _ _ _ _ _ _ H2), (slice_splice_disjoint _ _ _ _ _ _ H1);
        rewrite ?length_le_bytes, ?length_replicate; lia || done. }
    pose proof (Hsl 0 (Z.of_nat 4)) as E. rewrite Z.add_0_r in E.
    rewrite E, !Hsl by lia. done.
Qed.

(** ** The inode table *)

Definition table_ok (t : list Z) : Prop := length t = 2048%nat /\ bytes_ok t.

Lemma st_table t off v : table_ok t -> 0 <= off -> off + 4 <= 2048 ->
  exists t', st 4 t off v = Some t' /\ table_ok t'.
Proof.
  intros [Hl Hb] ??. destruct (st_Some 4 t off v) as [t' Ht']; [lia..|].
  exists t'. split; [done|]. split; [by rewrite (length_splice _ _ _ _ Ht')|].
  eapply bytes_ok_splice; [exact Hb| |exact Ht']. apply bytes_ok_le_bytes.
Qed.

Lemma in_Some t i o : table_ok t -> 0 <= i < 16 -> 0 <= o <= 12 ->
  exists v, ld 4 t (128 * i + o) = Some v /\ in_u 32 v.
Proof. intros [Hl Hb] ??. apply (ld_Some 4); [done|lia|lia]. Qed.

Lemma in_used_ld t i : in_used t i = ld 4 t (128 * i + 0).
Proof. unfold in_used. by rewrite Z.add_0_r. Qed.

Lemma new_inode_spec t ino size blk :
  table_ok t -> 0 <= ino < 16 -> in_u 32 size -> in_u 32 blk ->
  exists t', new_inode t ino size blk = Some t' /\ table_ok t' /\
    in_used t' ino = Some 1 /\ in_kind t' ino = Some 1 /\ in_size t' ino = Some size /\
    in_direct0 t' ino = Some blk /\
    forall i o, 0 <= i < 16 -> i <> ino -> 0 <= o <= 12 -> ld 4 t' (128 * i + o) = ld 4 t (128 * i + o).
Proof.
  intros Ht Hi Hs Hb. unfold new_inode.
  destruct (st_table t (128 * ino) 1) as (t1 & H1 & Hok1); [done|lia|lia|]. rewrite H1. cbn [mbind option_bind].
  destruct (st_table t1 (128 * ino + 4) 1) as (t2 & H2 & Hok2); [done|lia|lia|]. rewrite H2. cbn [mbind option_bind].
  destruct (st_table t2 (128 * ino + 8) size) as (t3 & H3 & Hok3); [done|lia|lia|]. rewrite H3. cbn [mbind option_bind].
  destruct (st_table t3 (128 * ino + 12) blk) as (t4 & H4 & Hok4); [done|lia|lia|].
  exists t4. split_and!; [done|done|..].
  - unfold in_used. rewrite (ld_st_disjoint _ _ _ _ _ _ _ H4), (ld_st_disjoint _ _ _ _ _ _ _ H3),
      (ld_st_disjoint _ _ _ _ _ _ _ H2) by lia. by apply (ld_st_same _ _ _ _ _ H1).
  - unfold in_kind. rewrite (ld_st_disjoint _ _ _ _ _ _ _ H4), (ld_st_disjoint _ _ _ _ _ _ _ H3) by lia.
    by apply (ld_st_same _ _ _ _ _ H2).
  - unfold in_size. rewrite (ld_st_disjoint _ _ _ _ _ _ _ H4) by lia. by apply (ld_st_same _ _ _ _ _ H3).
  - by apply (ld_st_same _ _ _ _ _ H4).
  - intros i o Hi' Hne Ho. assert (128 * i + 128 <= 128 * ino \/ 128 * ino + 128 <= 128 * i) by lia.
    rewrite (ld_st_disjoint _ _ _ _ _ _ _ H4), (ld_st_disjoint _ _ _ _ _ _ _ H3),
      (ld_st_disjoint _ _ _ _ _ _ _ H2), (ld_st_disjoint _ _ _ _ _ _ _ H1) by lia. done.
Qed.

(** ** What the operations see of the device *)

Record fsv := mk_view { v_sb : list Z; v_ib : list Z; v_bb : list Z; v_tab : list Z; v_dir : list Z }.

Record view_of (bl : list (list Z)) (v : fsv) : Prop := {
  vo_sb : bl !! 0%nat = Some (v_sb v);
  vo_ib : bl !! Z.to_nat M16_INODE_BITMAP_LBA = Some (v_ib v);
  vo_bb : bl !! Z.to_nat M16_BLOCK_BITMAP_LBA = Some (v_bb v);
  vo_tab : exists b0 b1 b2 b3, v_tab v = b0 ++ b1 ++ b2 ++ b3 /\
    bl !! Z.to_nat M16_INODE_TABLE_LBA = Some b0 /\ bl !! Z.to_nat (M16_INODE_TABLE_LBA + 1) = Some b1 /\
    bl !! Z.to_nat (M16_INODE_TABLE_LBA + 2) = Some b2 /\ bl !! Z.to_nat (M16_INODE_TABLE_LBA + 3) = Some b3;
  vo_dir : bl !! Z.to_nat M16_ROOT_DIR_LBA = Some (v_dir v)
}.

Record view_ok (v : fsv) : Prop := {
  vk_sb : block_ok (v_sb v);
  vk_ib : block_ok (v_ib v);
  vk_bb : block_ok (v_bb v);
  vk_tab : table_ok (v_tab v);
  vk_dir : block_ok (v_dir v)
}.

Lemma dev_view d : dev_ok d -> exists v, view_of (blocks d) v /\ view_ok v.
Proof.
  intros Hd.
  assert (Hb : forall a, 0 <= a < 25 -> exists b, blocks d !! Z.to_nat a = Some b /\ block_ok b)
    by (intros; apply dev_block; [done|lia]).
  destruct (Hb 0) as (sb & ? & ?); [lia|]. destruct (Hb M16_INODE_BITMAP_LBA) as (ib & ? & ?); [done|].
  destruct (Hb M16_BLOCK_BITMAP_LBA) as (bb & ? & ?); [done|].
  destruct (Hb M16_INODE_TABLE_LBA) as (b0 & ? & Hb0); [done|].
  destruct (Hb (M16_INODE_TABLE_LBA + 1)) as (b1 & ? & Hb1); [done|].
  destruct (Hb (M16_INODE_TABLE_LBA + 2)) as (b2 & ? & Hb2); [done|].
  destruct (Hb (M16_INODE_TABLE_LBA + 3)) as (b3 & ? & Hb3); [done|].
  destruct (Hb M16_ROOT_DIR_LBA) as (dir & ? & ?); [done|].
  exists (mk_view sb ib bb (b0 ++ b1 ++ b2 ++ b3) dir). split; constructor; simpl; try done.
  - exists b0, b1, b2, b3. done.
  - destruct Hb0, Hb1, Hb2, Hb3. split; [rewrite !length_app; lia|]. by repeat apply bytes_ok_app.
Qed.

Lemma view_of_home bl bl' v : home_eq bl bl' -> view_of bl v -> view_of bl' v.
Proof.
  intros Hh [H1 H2 H3 (b0 & b1 & b2 & b3 & Ht & T0 & T1 & T2 & T3) H5].
  assert (Hl : forall (a : nat) b, (a = 0 \/ 18 <= a)%nat -> bl !! a = Some b -> bl' !! a = Some b).
  { intros a b Ha Hb. rewrite <- Hh; [done|]. unfold home_lba. change M16_INODE_BITMAP_LBA with 18.
    unfold M16_JOURNAL_START. lia. }
  assert (Hz : forall (z : Z) b, 18 <= z -> bl !! Z.to_nat z = Some b -> bl' !! Z.to_nat z = Some b)
    by (intros; apply Hl; [lia|done]).
  constructor; [apply Hl; [by left|done]|by apply Hz|by apply Hz| |by apply Hz].
  exists b0, b1, b2, b3. split_and!; [done|by apply Hz..].
Qed.

Lemma view_of_inj bl v v' : view_of bl v -> view_of bl v' -> v = v'.
Proof.
  intros [H1 H2 H3 (b0 & b1 & b2 & b3 & Ht & T0 & T1 & T2 & T3) H5]
         [H1' H2' H3' (c0 & c1 & c2 & c3 & Ht' & T0' & T1' & T2' & T3') H5'].
  destruct v, v'. simpl in *. congruence.
Qed.

(** What [m16_fsck] accepts. *)
Record fs_ok (total : Z) (v : fsv) : Prop := {
  fo_mount : mount_check (v_sb v) = Some M16_E_OK;
  fo_root : fsck_root (v_ib v) (v_tab v) = Some true;
  fo_meta : forall j, 0 <= j < M16_DATA_START_LBA -> bm_test (v_bb v) j = true;
  fo_entries : forall i, 0 <= i < 12 -> fsck_entry total (v_ib v) (v_bb v) (v_tab v) (v_dir v) i = Some true
}.

(** An entry the checker accepts. *)
Record entry_ok (total : Z) (v : fsv) (i ino size direct : Z) : Prop := {
  eo_ino : de_ino (v_dir v) i = Some ino;
  eo_range : 0 <= ino < 16;
  eo_marked : bm_test (v_ib v) ino = true;
  eo_used : exists u, in_used (v_tab v) ino = Some u /\ u <> 0;
  eo_kind : in_kind (v_tab v) ino = Some 1;
  eo_size : in_size (v_tab v) ino = Some size;
  eo_srange : 0 <= size <= M16_BLOCK_SIZE;
  eo_direct : in_direct0 (v_tab v) ino = Some direct;
  eo_drange : M16_DATA_START_LBA <= direct < total;
  eo_bmarked : bm_test (v_bb v) direct = true
}.

Lemma fsck_entry_true total v i :
  view_ok v -> total <= 128 -> 0 <= i < 12 ->
  exists b, fsck_entry total (v_ib v) (v_bb v) (v_tab v) (v_dir v) i = Some b /\
    (b = true <-> de_used (v_dir v) i = Some 0 \/ exists ino size direct, entry_ok total v i ino size direct).
Proof.
  intros [_ [Hibl _] [Hbbl _] Htab Hdir] Htot Hi. unfold fsck_entry.
  set (P := _ \/ _). destruct (de_Some _ i Hdir Hi) as ((u & Hu & _) & (ino & Hino & Hir) & _). rewrite Hu. simpl.
  destruct (Z.eqb_spec u 0) as [->|Hu0]; [exists true; split; [done|]; split; [by left|done]|].
  assert (Hnz : de_used (v_dir v) i <> Some 0) by congruence.
  rewrite Hino. simpl. unfold M16_MAX_INODES, M16_BLOCK_SIZE. unfold in_u in Hir.
  destruct (Z.leb_spec 16 ino).
  { exists false. split; [done|]. split; [done|]. intros [|(ino' & s & dr & [E ? _ _ _ _ _ _ _ _])]; [done|].
    rewrite Hino in E. injection E as ->. lia. }
  rewrite bitmap_get_test by lia. simpl.
  destruct (in_Some (v_tab v) ino 0) as (iu & Hiu & _); [done|lia|lia|]. rewrite <- in_used_ld in Hiu.
  destruct (in_Some (v_tab v) ino 4) as (k & Hk & _); [done|lia|lia|].
  destruct (in_Some (v_tab v) ino 8) as (sz & Hsz & Hszr); [done|lia|lia|].
  destruct (in_Some (v_tab v) ino 12) as (dr & Hdr & Hdrr); [done|lia|lia|]. unfold in_u in *.
  fold (in_kind (v_tab v) ino) in Hk. fold (in_size (v_tab v) ino) in Hsz. fold (in_direct0 (v_tab v) ino) in Hdr.
  rewrite Hiu, Hk, Hsz, Hdr. simpl.
  assert (Hback : forall b : bool,
    (bm_test (v_ib v) ino = true -> iu <> 0 -> k = 1 -> sz <= 512 -> M16_DATA_START_LBA <= dr < total ->
     bm_test (v_bb v) dr = true -> b = true) -> P -> b = true).
  { intros b Hb [|(ino' & s & dr' & [E ? ? (u' & E1 & ?) E2 E3 ? E4 ? ?])]; [done|].
    rewrite Hino in E. injection E as <-. unfold M16_BLOCK_SIZE in *. apply Hb; congruence || naive_solver lia. }
  destruct (bm_test (v_ib v) ino) eqn:Em; simpl; [|exists false; split; [done|]; split; [done|by apply Hback]].
  destruct (Z.eqb_spec iu 0); simpl; [exists false; split; [done|]; split; [done|by apply Hback]|].
  destruct (Z.eqb_spec k 1); simpl; [|exists false; split; [done|]; split; [done|by apply Hback]].
  destruct (Z.ltb_spec 512 sz); simpl; [exists false; split; [done|]; split; [done|apply Hback; intros; lia]|].
  destruct (Z.ltb_spec dr M16_DATA_START_LBA); simpl; [exists false; split; [done|]; split; [done|apply Hback; intros; lia]|].
  destruct (Z.leb_spec total dr); simpl; [exists false; split; [done|]; split; [done|apply Hback; intros; lia]|].
  change M16_DATA_START_LBA with 25 in *.
  rewrite bitmap_get_test by lia. eexists. split; [done|]. split.
  - intros Hb. right. exists ino, sz, dr. constructor; try done; try lia; try congruence; [by exists iu|..].
    all: unfold M16_BLOCK_SIZE; change M16_DATA_START_LBA with 25; lia.
  - apply Hback. done.
Qed.

Lemma fsck_entries_true total v n i :
  view_ok v -> total <= 128 -> 0 <= i -> i + Z.of_nat n <= 12 ->
  exists b, fsck_entries n i total (v_ib v) (v_bb v) (v_tab v) (v_dir v) = Some b /\
    (b = true <-> forall j, i <= j < i + Z.of_nat n ->
       fsck_entry total (v_ib v) (v_bb v) (v_tab v) (v_dir v) j = Some true).
Proof.
  intros Hv Ht. revert i. induction n as [|n IH]; intros i Hi Hn.
  { exists true. split; [done|]. split; [intros _ j Hj; lia|done]. }
  cbn [fsck_entries]. destruct (fsck_entry_true total v i) as (b & Hb & _); [done|done|lia|].
  rewrite Hb. cbn [mbind option_bind]. destruct b.
  - destruct (IH (i + 1)) as (b & Hb' & Hiff); [lia|lia|]. exists b. split; [done|]. rewrite Hiff. split.
    + intros H j Hj. destruct (decide (i = j)); [by subst|]. apply H. lia.
    + intros H j Hj. apply H. lia.
  - exists false. split; [done|]. split; [done|]. intros H. rewrite H in Hb by lia. done.
Qed.

(** ** Running the operations on a device with an empty journal *)

Section runs.
Context (d : m16_blockdev) (v : fsv).
Hypothesis (Hd : dev_ok d) (Hj : j_empty (blocks d)) (Hv : view_of (blocks d) v) (Hk : view_ok v).

Lemma read_meta lba b : 0 <= lba < 25 -> blocks d !! Z.to_nat lba = Some b -> m16_read_block lba d = Some (inr b, d).
Proof. intros. by apply read_known. Qed.

Lemma mount_check_Some : exists rc, mount_check (v_sb v) = Some rc /\ (rc = M16_E_OK \/ rc = M16_E_CORRUPT).
Proof.
  destruct Hk as [Hsb _ _ _ _]. unfold mount_check.
  destruct (ld_block 8 (v_sb v) 0) as (x0 & -> & _); [done|lia|lia|].
  destruct (ld_block 4 (v_sb v) 8) as (x1 & -> & _); [done|lia|lia|].
  destruct (ld_block 4 (v_sb v) 12) as (x2 & -> & _); [done|lia|lia|].
  destruct (ld_block 4 (v_sb v) 44) as (x3 & -> & _); [done|lia|lia|].
  destruct (ld_block 4 (v_sb v) 48) as (x4 & -> & _); [done|lia|lia|]. simpl.
  eexists. split; [done|]. repeat case_match; auto.
Qed.

Lemma mount_run : exists rc, mount_check (v_sb v) = Some rc /\
  m16_mount d = Some (if rc =? M16_E_OK then inr (v_sb v) else inl rc, d).
Proof.
  destruct mount_check_Some as (rc & Hrc & _). exists rc. split; [done|]. unfold m16_mount.
  rewrite (em_bind_ok _ _ _ tt d) by (by apply recover_empty).
  rewrite (em_bind_ok _ _ _ (v_sb v) d) by (apply read_meta; [lia|apply Hv]).
  rewrite (em_bind_lift _ _ _ _ Hrc). by destruct (rc =? M16_E_OK).
Qed.

Lemma mount_ok : mount_check (v_sb v) = Some M16_E_OK -> m16_mount d = Some (inr (v_sb v), d).
Proof. intros H. destruct mount_run as (rc & Hrc & Hm). rewrite H in Hrc. by injection Hrc as <-. Qed.

Lemma load_table_run : m16_load_inode_table d = Some (inr (v_tab v), d).
Proof.
  destruct (vo_tab _ _ Hv) as (b0 & b1 & b2 & b3 & -> & T0 & T1 & T2 & T3). unfold m16_load_inode_table.
  rewrite (em_bind_ok _ _ _ b0 d) by (by apply read_meta). rewrite (em_bind_ok _ _ _ b1 d) by (by apply read_meta).
  rewrite (em_bind_ok _ _ _ b2 d) by (by apply read_meta). by rewrite (em_bind_ok _ _ _ b3 d) by (by apply read_meta).
Qed.

(** The checker is a decision procedure for [fs_ok] and changes nothing. *)
Lemma fsck_run : exists rc, m16_fsck d = Some (rc, d) /\ (rc = inr tt <-> fs_ok (total_blocks d) v).
Proof.
  unfold m16_fsck. destruct mount_run as (rc & Hrc & Hm). destruct (Z.eqb_spec rc M16_E_OK) as [->|Hne].
  2:{ exists (inl rc). rewrite (em_bind_err _ _ _ _ _ Hm). split; [done|]. split; [done|]. intros []. congruence. }
  rewrite (em_bind_ok _ _ _ _ _ Hm).
  rewrite (em_bind_ok _ _ _ (v_ib v) d) by (apply read_meta; [done|apply Hv]).
  rewrite (em_bind_ok _ _ _ (v_bb v) d) by (apply read_meta; [done|apply Hv]).
  rewrite (em_bind_ok _ _ _ _ _ load_table_run).
  rewrite (em_bind_ok _ _ _ (v_dir v) d) by (apply read_meta; [done|apply Hv]).
  assert (Hroot : exists b, fsck_root (v_ib v) (v_tab v) = Some b).
  { destruct Hk as [_ [Hl _] _ Ht _]. unfold fsck_root. rewrite bitmap_get_test by lia. simpl.
    destruct (in_Some (v_tab v) 0 0) as (x0 & E0 & _); [done|lia|lia|].
    destruct (in_Some (v_tab v) 0 4) as (x1 & E1 & _); [done|lia|lia|].
    destruct (in_Some (v_tab v) 0 12) as (x2 & E2 & _); [done|lia|lia|].
    unfold in_used, in_kind, in_direct0. change (128 * 0 + 0) with (128 * 0) in E0. rewrite E0, E1, E2. simpl. eauto. }
  destruct Hroot as [root Hroot]. rewrite (em_bind_lift _ _ _ _ Hroot). destruct root; simpl.
  2:{ eexists. split; [done|]. split; [done|]. intros []. congruence. }
  destruct (all_bits_spec (Z.to_nat M16_DATA_START_LBA) 0 (v_bb v)) as (b & Hb & Hbits); [lia| |].
  { rewrite (proj1 (vk_bb _ Hk)). change M16_DATA_START_LBA with 25. lia. }
  rewrite (em_bind_lift _ _ _ _ Hb). change M16_DATA_START_LBA with 25 in *. destruct b; simpl.
  2:{ eexists. split; [done|]. split; [done|]. intros [_ _ Hmeta _]. exfalso.
      apply diff_false_true, Hbits. intros j Hj'. apply Hmeta.
      change M16_DATA_START_LBA with 25. lia. }
  rewrite (em_bind_ok _ _ _ (total_blocks d) d) by done.
  destruct (fsck_entries_true (total_blocks d) v 12 0) as (b & Hb' & Hent); [done|apply Hd|lia|lia|].
  change (Z.to_nat dir_count) with 12%nat. rewrite (em_bind_lift _ _ _ _ Hb'). destruct b; simpl.
  - eexists. split; [done|]. split; [|done]. intros _. constructor; [done|done| |].
    + intros j Hj'. apply Hbits; [done|]. change M16_DATA_START_LBA with 25 in Hj'. lia.
    + intros i Hi. apply Hent; [done|lia].
  - eexists. split; [done|]. split; [done|]. intros [_ _ _ He]. exfalso.
    apply diff_false_true, Hent. intros j Hj'. apply He. lia.
Qed.

(** A file as a reader finds it. *)
Definition has_file (total : Z) (name : list Z) (size direct : Z) : Prop :=
  exists slot ino, m16_find_dirent (v_dir v) name = Some slot /\ 0 <= slot < 12 /\
    entry_ok total v slot ino size direct.
Definition no_file (name : list Z) : Prop := m16_find_dirent (v_dir v) name = Some M16_E_NOENT.

Lemma file_or_not total name :
  fs_ok total v -> total <= 128 -> readable 32 name = true ->
  no_file name \/ exists size direct, has_file total name size direct.
Proof.
  intros Hfs Ht Hr. destruct (find_dirent_spec (v_dir v) name (vk_dir _ Hk) Hr) as [[H _]|(k & H & Hk' & Hm & _)]; [by left|].
  right. destruct (fsck_entry_true total v k Hk Ht Hk') as (b & Hb & Hiff).
  rewrite (fo_entries _ _ Hfs k Hk') in Hb. injection Hb as <-.
  destruct (proj1 Hiff eq_refl) as [Hu|(ino & s & dr & He)].
  - unfold dirent_matches in Hm. by rewrite Hu in Hm.
  - exists s, dr, k, ino. done.
Qed.

Definition read_result (blk out : list Z) (size cap : Z) : option ((Z + (list Z * Z)) * m16_blockdev) :=
  if cap <? size then Some (inl M16_E_INVAL, d) else
  bytes ← slice blk 0 size; out ← splice out 0 bytes; Some (inr (out, size), d).

Lemma read_no_file name out cap :
  mount_check (v_sb v) = Some M16_E_OK -> no_file name ->
  m16_read_file (Some name) (Some out) cap d = Some (inl M16_E_NOENT, d).
Proof.
  intros Hm Hn. unfold m16_read_file. rewrite (em_bind_ok _ _ _ _ _ (mount_ok Hm)).
  rewrite (em_bind_ok _ _ _ _ _ load_table_run).
  rewrite (em_bind_ok _ _ _ (v_dir v) d) by (apply read_meta; [done|apply Hv]).
  by rewrite (em_bind_lift _ _ _ _ Hn).
Qed.

Lemma read_has_file name out cap size direct blk :
  mount_check (v_sb v) = Some M16_E_OK -> has_file (total_blocks d) name size direct ->
  blocks d !! Z.to_nat direct = Some blk ->
  m16_read_file (Some name) (Some out) cap d = read_result blk out size cap.
Proof.
  intros Hm (slot & ino & Hf & Hs & He) Hblk. unfold m16_read_file, read_result.
  rewrite (em_bind_ok _ _ _ _ _ (mount_ok Hm)).
  rewrite (em_bind_ok _ _ _ _ _ load_table_run).
  rewrite (em_bind_ok _ _ _ (v_dir v) d) by (apply read_meta; [done|apply Hv]).
  rewrite (em_bind_lift _ _ _ _ Hf). destruct (Z.ltb_spec slot 0); [lia|].
  destruct He as [Hino Hr _ (u & Hu & Hnz) Hki Hsz Hsr Hdr Hdrr _].
  rewrite (em_bind_lift _ _ _ _ Hino). destruct (Z.leb_spec M16_MAX_INODES ino); [unfold M16_MAX_INODES in *; lia|].
  rewrite (em_bind_lift _ _ _ _ Hu), (em_bind_lift _ _ _ _ Hki).
  destruct (Z.eqb_spec u 0); [done|]. simpl.
  rewrite (em_bind_lift _ _ _ _ Hsz), (em_bind_lift _ _ _ _ Hdr).
  pose proof (dev_max _ Hd) as Hmax. unfold M16_MAX_BLOCKS in Hmax. change M16_DATA_START_LBA with 25 in Hdrr.
  rewrite (em_bind_ok _ _ _ (cap <? size) d).
  2:{ destruct (Z.leb_spec (total_blocks d) direct); [lia|]. by rewrite orb_false_r. }
  destruct (cap <? size); [done|].
  rewrite (em_bind_ok _ _ _ blk d) by (apply read_block_ok; [lia|lia|done]).
  unfold em_bind, em_lift, em_ret. by destruct (slice blk 0 size) as [bs|]; simpl; [destruct (splice out 0 bs)|].
Qed.
End runs.

(** ** What [m16_write_file_ex] decides to write *)

Record wplan := mk_plan {
  p_ino : Z; p_blk : Z; p_slot : Z;
  p_ib : list Z; p_bb : list Z; p_tab : list Z; p_dir : list Z; p_dblk : list Z
}.

Definition table_block (t : list Z) (i : nat) : list Z := take 512 (drop (512 * i) t).

Definition tx1_of (p : wplan) : m16_tx :=
  [mk_jrec M16_INODE_BITMAP_LBA (p_ib p); mk_jrec M16_BLOCK_BITMAP_LBA (p_bb p);
   mk_jrec M16_INODE_TABLE_LBA (table_block (p_tab p) 0); mk_jrec (M16_INODE_TABLE_LBA + 1) (table_block (p_tab p) 1);
   mk_jrec (M16_INODE_TABLE_LBA + 2) (table_block (p_tab p) 2); mk_jrec (M16_INODE_TABLE_LBA + 3) (table_block (p_tab p) 3)].
Definition tx2_of (p : wplan) : m16_tx :=
  [mk_jrec M16_ROOT_DIR_LBA (p_dir p); mk_jrec (p_blk p) (p_dblk p)].

Record plan_ok (v : fsv) (name data : list Z) (size : Z) (p : wplan) : Prop := {
  po_nofile : no_file v name;
  po_len : (length (cstr 32 name) < 32)%nat;
  po_size : 0 <= size <= M16_BLOCK_SIZE;
  po_ino : 1 <= p_ino p < 16 /\ bm_test (v_ib v) (p_ino p) = false;
  po_blk : M16_DATA_START_LBA <= p_blk p < 128 /\ bm_test (v_bb v) (p_blk p) = false;
  po_slot : 0 <= p_slot p < 12 /\ de_used (v_dir v) (p_slot p) = Some 0;
  po_ib : block_ok (p_ib p) /\ forall j, 0 <= j -> bm_test (p_ib p) j = bool_decide (p_ino p = j) || bm_test (v_ib v) j;
  po_bb : block_ok (p_bb p) /\ forall j, 0 <= j -> bm_test (p_bb p) j = bool_decide (p_blk p = j) || bm_test (v_bb v) j;
  po_tab : table_ok (p_tab p) /\ in_used (p_tab p) (p_ino p) = Some 1 /\ in_kind (p_tab p) (p_ino p) = Some 1 /\
    in_size (p_tab p) (p_ino p) = Some size /\ in_direct0 (p_tab p) (p_ino p) = Some (p_blk p) /\
    forall i o, 0 <= i < 16 -> i <> p_ino p -> 0 <= o <= 12 ->
      ld 4 (p_tab p) (128 * i + o) = ld 4 (v_tab v) (128 * i + o);
  po_dir : block_ok (p_dir p) /\ de_used (p_dir p) (p_slot p) = Some 1 /\ de_ino (p_dir p) (p_slot p) = Some (p_ino p) /\
    de_name (p_dir p) (p_slot p) = Some (cstr 32 name ++ replicate (32 - length (cstr 32 name)) 0) /\
    forall i, 0 <= i < 12 -> i <> p_slot p ->
      de_used (p_dir p) i = de_used (v_dir v) i /\ de_ino (p_dir p) i = de_ino (v_dir v) i /\
      de_name (p_dir p) i = de_name (v_dir v) i;
  po_dblk : block_ok (p_dblk p) /\ slice (p_dblk p) 0 size = Some (take (Z.to_nat size) data)
}.

Lemma table_block_ok t i : table_ok t -> (i < 4)%nat -> block_ok (table_block t i).
Proof.
  intros [Hl Hb] Hi. unfold table_block. split; [rewrite length_take, length_drop; lia|].
  by apply bytes_ok_take, bytes_ok_drop.
Qed.

Lemma table_slice t i : table_ok t -> (i < 4)%nat ->
  slice t (Z.of_nat i * M16_BLOCK_SIZE) M16_BLOCK_SIZE = Some (table_block t i).
Proof.
  intros [Hl _] Hi. unfold slice, M16_BLOCK_SIZE. rewrite (proj2 (in_buf_true _ _ _)) by lia.
  unfold table_block. by replace (Z.to_nat (Z.of_nat i * 512)) with (512 * i)%nat by lia.
Qed.

Lemma store_table_run t tx : table_ok t -> (length tx <= 4)%nat ->
  m16_store_inode_table tx t =
    Some (inr (tx ++ [mk_jrec M16_INODE_TABLE_LBA (table_block t 0); mk_jrec (M16_INODE_TABLE_LBA + 1) (table_block t 1);
      mk_jrec (M16_INODE_TABLE_LBA + 2) (table_block t 2); mk_jrec (M16_INODE_TABLE_LBA + 3) (table_block t 3)])).
Proof.
  intros Ht Hl. unfold m16_store_inode_table, M16_JOURNAL_MAX_RECORDS, M16_INODE_TABLE_BLOCKS.
  destruct (Z.ltb_spec 8 (Z.of_nat (length tx) + 4)); [lia|]. cbn [store_records].
  rewrite (table_slice t 0 Ht ltac:(lia) : slice t (0 * M16_BLOCK_SIZE) M16_BLOCK_SIZE = _). cbn [mbind option_bind].
  rewrite (table_slice t 1 Ht ltac:(lia) : slice t ((0 + 1) * M16_BLOCK_SIZE) M16_BLOCK_SIZE = _). cbn [mbind option_bind].
  rewrite (table_slice t 2 Ht ltac:(lia) : slice t ((0 + 1 + 1) * M16_BLOCK_SIZE) M16_BLOCK_SIZE = _). cbn [mbind option_bind].
  rewrite (table_slice t 3 Ht ltac:(lia) : slice t ((0 + 1 + 1 + 1) * M16_BLOCK_SIZE) M16_BLOCK_SIZE = _). cbn [mbind option_bind].
  by rewrite <- !app_assoc.
Qed.

Lemma tx_add_run tx lba b : block_ok b -> (length tx < 8)%nat ->
  m16_tx_add tx lba b = Some (inr (tx ++ [mk_jrec lba b])).
Proof.
  intros Hb Hl. unfold m16_tx_add, M16_JOURNAL_MAX_RECORDS.
  destruct (Z.leb_spec 8 (Z.of_nat (length tx))); [lia|]. by rewrite slice_full.
Qed.

Lemma data_block_spec data size :
  bytes_ok data -> 0 <= size <= 512 -> size <= Z.of_nat (length data) ->
  slice data 0 size = Some (take (Z.to_nat size) data) /\
  exists b, splice zero_block 0 (take (Z.to_nat size) data) = Some b /\ block_ok b /\
    slice b 0 size = Some (take (Z.to_nat size) data).
Proof.
  intros Hb Hs Hl. assert (Hlen : length (take (Z.to_nat size) data) = Z.to_nat size) by (rewrite length_take; lia).
  split; [unfold slice; rewrite (proj2 (in_buf_true _ _ _)) by lia; by rewrite drop_0|].
  destruct (splice_block zero_block 0 (take (Z.to_nat size) data)) as (b & Hsp & Hok);
    [apply zero_block_ok|by apply bytes_ok_take|lia|lia|].
  exists b. split_and!; [done|done|]. pose proof (slice_splice_same _ _ _ _ Hsp) as H.
  by rewrite Hlen, Z2Nat.id in H by lia.
Qed.

(** Either the call leaves with an error before touching the device, or it
    is the two commits of a plan. *)
Lemma write_unfold d v name data size stop :
  dev_ok d -> j_empty (blocks d) -> view_of (blocks d) v -> view_ok v -> fs_ok (total_blocks d) v ->
  readable 32 name = true -> bytes_ok name -> bytes_ok data -> 0 <= size <= Z.of_nat (length data) ->
  (exists rc, rc <> M16_E_OK /\ m16_write_file_ex (Some name) (Some data) size stop d = Some (inl rc, d)) \/
  (exists p s1 s2, plan_ok v name data size p /\
     m16_write_file_ex (Some name) (Some data) size stop d =
       (m16_journal_commit (tx1_of p) s1 false ;;; m16_journal_commit (tx2_of p) s2 stop) d).
Proof.
  intros Hd Hj Hv Hk Hfs Hr Hnb Hdb Hsz. unfold m16_write_file_ex.
  rewrite (em_bind_lift _ _ _ _ (strlen_cstr _ _ Hr)).
  destruct (_ || _) eqn:Elen; [left; exists M16_E_TOOLONG; done|].
  apply orb_false_iff in Elen as [_ Elen]. apply Z.leb_gt in Elen. unfold M16_MAX_NAME in Elen.
  destruct (Z.ltb_spec M16_BLOCK_SIZE size); [left; exists M16_E_INVAL; done|]. unfold M16_BLOCK_SIZE in *.
  rewrite (em_bind_ok _ _ _ _ _ (mount_ok d v Hd Hj Hv Hk (fo_mount _ _ Hfs))).
  rewrite (em_bind_ok _ _ _ (v_ib v) d) by (apply read_meta; [done|done|apply Hv]).
  rewrite (em_bind_ok _ _ _ (v_bb v) d) by (apply read_meta; [done|done|apply Hv]).
  rewrite (em_bind_ok _ _ _ _ _ (load_table_run d v Hd Hv)).
  rewrite (em_bind_ok _ _ _ (v_dir v) d) by (apply read_meta; [done|done|apply Hv]).
  destruct Hk as [Hksb Hkib Hkbb Hktab Hkdir].
  destruct (find_dirent_spec (v_dir v) name Hkdir Hr) as [[Hf _]|(k & Hf & Hk' & _)];
    rewrite (em_bind_lift _ _ _ _ Hf).
  2:{ destruct (Z.leb_spec 0 k); [|lia]. left. exists M16_E_EXISTS. done. }
  cbn [Z.leb M16_E_NOENT]. change (0 <=? M16_E_NOENT) with false. cbv iota.
  destruct (find_clear_spec 15 1 (v_ib v)) as [Hi|(ino & Hi & Hir & Hib)]; [lia|destruct Hkib; lia|..];
    rewrite (em_bind_lift _ _ _ _ (Hi : m16_find_free_inode (v_ib v) = _));
    [left; exists M16_E_NOSPC; done|].
  destruct (Z.ltb_spec ino 0); [lia|].
  destruct (find_clear_spec 103 25 (v_bb v)) as [Hb|(blk & Hb & Hbr & Hbb)]; [lia|destruct Hkbb; lia|..];
    rewrite (em_bind_lift _ _ _ _ (Hb : m16_find_free_block (v_bb v) = _));
    [left; exists M16_E_NOSPC; done|].
  destruct (Z.ltb_spec blk 0); [lia|].
  destruct (find_free_dirent_spec (v_dir v) Hkdir) as [Hs|(slot & Hs & Hsr & Hs0)];
    rewrite (em_bind_lift _ _ _ _ Hs); [left; exists M16_E_NOSPC; done|].
  destruct (Z.ltb_spec slot 0); [lia|]. right.
  destruct (data_block_spec data size) as (Hsl & db & Hdbk & Hdok & Hdsl); [done|lia|lia|].
  rewrite (em_bind_lift _ _ _ _ Hsl), (em_bind_lift _ _ _ _ Hdbk).
  destruct (bitmap_set_test (v_ib v) ino) as (ib' & Hib' & Hibok & Hibt); [done|lia|].
  destruct (bitmap_set_test (v_bb v) blk) as (bb' & Hbb' & Hbbok & Hbbt); [done|lia|].
  rewrite (em_bind_lift _ _ _ _ Hib'), (em_bind_lift _ _ _ _ Hbb').
  destruct (new_inode_spec (v_tab v) ino size blk) as (tab' & Htab' & Htok & Htrest); [done|lia|unfold in_u; lia|unfold in_u; lia|].
  rewrite (em_bind_lift _ _ _ _ Htab').
  destruct (new_dirent_spec (v_dir v) slot ino name) as (dir' & Hdir' & Hdirok & Hdrest); [done|done|unfold in_u; lia|done|lia|].
  rewrite (em_bind_lift _ _ _ _ Hdir').
  destruct (ld_block 4 (v_sb v) 52) as (gen & Hgen & _); [done|lia|lia|].
  exists (mk_plan ino blk slot ib' bb' tab' dir' db), (u32 (gen + 1)), (u32 (gen + 2)). split.
  { constructor; cbn [p_ino p_blk p_slot p_ib p_bb p_tab p_dir p_dblk]; try done.
    - lia.
    - split; [lia|done]. }
  unfold step_rc.
  rewrite (em_bind_ok _ _ _ [mk_jrec M16_INODE_BITMAP_LBA ib'] d) by (by rewrite tx_add_run by (done || simpl; lia)).
  rewrite (em_bind_ok _ _ _ [mk_jrec M16_INODE_BITMAP_LBA ib'; mk_jrec M16_BLOCK_BITMAP_LBA bb'] d)
    by (by rewrite tx_add_run by (done || simpl; lia)).
  rewrite (em_bind_ok _ _ _ (tx1_of (mk_plan ino blk slot ib' bb' tab' dir' db)) d)
    by (by rewrite store_table_run by (done || simpl; lia)).
  rewrite (em_bind_lift _ _ _ _ Hgen). apply em_bind_ext; [done|]. intros _ d1.
  rewrite (em_bind_ok _ _ _ [mk_jrec M16_ROOT_DIR_LBA dir'] d1) by (by rewrite tx_add_run by (done || simpl; lia)).
  by rewrite (em_bind_ok _ _ _ (tx2_of (mk_plan ino blk slot ib' bb' tab' dir' db)) d1)
    by (by rewrite tx_add_run by (done || simpl; lia)).
Qed.

(** ** The file system after each of the two transactions *)

Section plan.
Context (v : fsv) (name data : list Z) (size : Z) (p : wplan).
Hypothesis (Hk : view_ok v) (Hp : plan_ok v name data size p).

Definition view1 : fsv := mk_view (v_sb v) (p_ib p) (p_bb p) (p_tab p) (v_dir v).
Definition view2 : fsv := mk_view (v_sb v) (p_ib p) (p_bb p) (p_tab p) (p_dir p).

Lemma view1_ok : view_ok view1.
Proof. destruct Hk, Hp as [_ _ _ _ _ _ [] [] [] _ _]. by constructor. Qed.
Lemma view2_ok : view_ok view2.
Proof. destruct Hk, Hp as [_ _ _ _ _ _ [] [] [] [] _]. by constructor. Qed.

Lemma plan_txs_ok : tx_ok 128 (tx1_of p) /\ tx_ok 128 (tx2_of p).
Proof.
  destruct Hp as [_ _ _ _ [Hblk _] _ [Hib _] [Hbb _] [Htab _] [Hdir _] [Hdb _]].
  change M16_DATA_START_LBA with 25 in Hblk.
  assert (Hrec : forall a b, 18 <= a < 128 -> block_ok b -> rec_ok 128 (mk_jrec a b)).
  { intros a b Ha Hb. split_and!; simpl; [lia|lia| |done]. right. change M16_INODE_BITMAP_LBA with 18. simpl. lia. }
  split; (split; [|done]).
  - repeat (apply Forall_cons; split; [apply Hrec; [done|]|]); try done; apply table_block_ok; done || lia.
  - repeat (apply Forall_cons; split; [apply Hrec; [done || lia|done]|]). done.
Qed.

Lemma table_blocks_app t : table_ok t ->
  t = table_block t 0 ++ table_block t 1 ++ table_block t 2 ++ table_block t 3.
Proof.
  intros [Hl _]. unfold table_block. rewrite drop_0.
  rewrite <- (take_drop 512 t) at 1. f_equal.
  rewrite <- (take_drop 512 (drop 512 t)) at 1. rewrite drop_drop. f_equal.
  rewrite <- (take_drop 512 (drop (512 + 512) t)) at 1. rewrite drop_drop. f_equal.
  rewrite take_ge; [done|]. rewrite length_drop. lia.
Qed.

(** The two transactions touch the blocks they name and no other. *)
Lemma tx1_lookup bl (a : nat) : length bl = 128%nat ->
  apply_tx (tx1_of p) bl !! a =
    match a with
    | 18%nat => Some (p_ib p) | 19%nat => Some (p_bb p)
    | 20%nat => Some (table_block (p_tab p) 0) | 21%nat => Some (table_block (p_tab p) 1)
    | 22%nat => Some (table_block (p_tab p) 2) | 23%nat => Some (table_block (p_tab p) 3)
    | _ => bl !! a
    end.
Proof.
  intros Hl. unfold apply_tx. cbn [tx1_of home_writes map target_lba payload].
  rewrite !apply_writes_cons. cbn [apply_writes foldl fst snd].
  change (Z.to_nat M16_INODE_BITMAP_LBA) with 18%nat. change (Z.to_nat M16_BLOCK_BITMAP_LBA) with 19%nat.
  change (Z.to_nat M16_INODE_TABLE_LBA) with 20%nat. change (Z.to_nat (M16_INODE_TABLE_LBA + 1)) with 21%nat.
  change (Z.to_nat (M16_INODE_TABLE_LBA + 2)) with 22%nat. change (Z.to_nat (M16_INODE_TABLE_LBA + 3)) with 23%nat.
  rewrite !list_lookup_insert, !length_insert, Hl.
  do 24 (destruct a as [|a]; [done|]). done.
Qed.

Lemma tx2_lookup bl (a : nat) : length bl = 128%nat ->
  apply_tx (tx2_of p) bl !! a =
    if decide (a = Z.to_nat (p_blk p)) then Some (p_dblk p)
    else if decide (a = 24%nat) then Some (p_dir p) else bl !! a.
Proof.
  intros Hl. destruct Hp as [_ _ _ _ [Hblk _] _ _ _ _ _ _]. change M16_DATA_START_LBA with 25 in Hblk.
  unfold apply_tx. cbn [tx2_of home_writes map target_lba payload].
  rewrite !apply_writes_cons. cbn [apply_writes foldl fst snd]. change (Z.to_nat M16_ROOT_DIR_LBA) with 24%nat.
  rewrite !list_lookup_insert, !length_insert, Hl. repeat case_decide; subst; try lia; try done; naive_solver lia.
Qed.

Lemma view1_of bl : length bl = 128%nat -> view_of bl v -> view_of (apply_tx (tx1_of p) bl) view1.
Proof.
  intros Hl [H1 _ _ _ H5]. constructor; rewrite ?tx1_lookup by done; try done.
  exists (table_block (p_tab p) 0), (table_block (p_tab p) 1), (table_block (p_tab p) 2), (table_block (p_tab p) 3).
  split_and!; try done. apply table_blocks_app. apply Hp.
Qed.

Lemma view2_of bl : length bl = 128%nat -> view_of bl view1 -> view_of (apply_tx (tx2_of p) bl) view2.
Proof.
  intros Hl [H1 H2 H3 (b0 & b1 & b2 & b3 & Ht & T0 & T1 & T2 & T3) H5].
  destruct (po_blk _ _ _ _ _ Hp) as [Hblk _]. change M16_DATA_START_LBA with 25 in Hblk.
  assert (Hlo : forall (z : Z), z < 24 -> apply_tx (tx2_of p) bl !! Z.to_nat z = bl !! Z.to_nat z).
  { intros z Hz. rewrite tx2_lookup by done. rewrite !decide_False by lia. done. }
  constructor.
  - change 0%nat with (Z.to_nat 0). by rewrite Hlo.
  - by rewrite Hlo.
  - by rewrite Hlo.
  - exists b0, b1, b2, b3. by rewrite !Hlo.
  - rewrite tx2_lookup by done. rewrite decide_False by (change (Z.to_nat M16_ROOT_DIR_LBA) with 24%nat; lia). done.
Qed.

Lemma entry_view1 i ino s dr : entry_ok 128 v i ino s dr -> entry_ok 128 view1 i ino s dr.
Proof.
  intros [E1 E2 E3 E4 E5 E6 E7 E8 E9 E10].
  destruct Hp as [_ _ _ [_ Hfree] _ _ [_ Hib] [_ Hbb] (_ & _ & _ & _ & _ & Hrest) _ _].
  assert (Hne : ino <> p_ino p) by congruence. change M16_DATA_START_LBA with 25 in E9.
  constructor; simpl; try done.
  - rewrite Hib by lia. rewrite E3. apply orb_true_r.
  - rewrite in_used_ld in *. by rewrite Hrest by (done || lia).
  - unfold in_kind. by rewrite Hrest by (done || lia).
  - unfold in_size. by rewrite Hrest by (done || lia).
  - unfold in_direct0. by rewrite Hrest by (done || lia).
  - rewrite Hbb by lia. rewrite E10. apply orb_true_r.
Qed.

Lemma entry_view2 i ino s dr : 0 <= i < 12 -> i <> p_slot p -> entry_ok 128 view1 i ino s dr -> entry_ok 128 view2 i ino s dr.
Proof.
  intros Hi Hne [E1 E2 E3 E4 E5 E6 E7 E8 E9 E10].
  destruct (po_dir _ _ _ _ _ Hp) as (_ & _ & _ & _ & Hrest). destruct (Hrest i Hi Hne) as (_ & Hino & _).
  constructor; simpl in *; try done. congruence.
Qed.

Lemma entry_new : entry_ok 128 view2 (p_slot p) (p_ino p) size (p_blk p).
Proof.
  destruct Hp as [_ _ Hs [Hino _] [Hblk _] _ [_ Hib] [_ Hbb] (_ & T1 & T2 & T3 & T4 & _) (_ & _ & D2 & _) _].
  change M16_DATA_START_LBA with 25 in Hblk. constructor; simpl; try done; try lia.
  - rewrite Hib by lia. by rewrite bool_decide_true.
  - by exists 1.
  - rewrite Hbb by lia. by rewrite bool_decide_true.
Qed.

Lemma fs_ok_meta (w : fsv) : fs_ok 128 v -> v_sb w = v_sb v -> v_ib w = p_ib p -> v_bb w = p_bb p -> v_tab w = p_tab p ->
  view_ok w -> (forall i, 0 <= i < 12 -> de_used (v_dir w) i = Some 0 \/ exists ino s dr, entry_ok 128 w i ino s dr) ->
  fs_ok 128 w.
Proof.
  intros [F1 F2 F3 F4] Esb Eib Ebb Etab Hw Hent.
  destruct Hp as [_ _ _ [Hino _] _ _ [[Hibl _] Hib] [_ Hbb] (_ & _ & _ & _ & _ & Hrest) _ _]. constructor.
  - by rewrite Esb.
  - rewrite Eib, Etab. revert F2. unfold fsck_root. destruct Hk as [_ [Hl _] _ _ _].
    rewrite !bitmap_get_test by lia. rewrite Hib by lia. rewrite bool_decide_false by lia.
    rewrite !in_used_ld. unfold in_kind, in_direct0. by rewrite !Hrest by lia.
  - intros j Hj. change M16_DATA_START_LBA with 25 in Hj. rewrite Ebb, Hbb, F3 by (change M16_DATA_START_LBA with 25; lia).
    apply orb_true_r.
  - intros i Hi. destruct (fsck_entry_true 128 w i Hw) as (b & Hb & Hiff); [lia|done|].
    rewrite Hb. f_equal. apply Hiff. by apply Hent.
Qed.

Lemma entry_cases i : fs_ok 128 v -> 0 <= i < 12 ->
  de_used (v_dir v) i = Some 0 \/ exists ino s dr, entry_ok 128 v i ino s dr.
Proof.
  intros Hfs Hi. destruct (fsck_entry_true 128 v i Hk) as (b & Hb & Hiff); [lia|done|].
  rewrite (fo_entries _ _ Hfs i Hi) in Hb. injection Hb as <-. by apply Hiff.
Qed.

Lemma fs_ok_view1 : fs_ok 128 v -> fs_ok 128 view1.
Proof.
  intros Hfs. apply fs_ok_meta; try done; [apply view1_ok|]. intros i Hi.
  destruct (entry_cases i Hfs Hi) as [Hu|(ino & s & dr & He)]; [by left|].
  right. exists ino, s, dr. by apply entry_view1.
Qed.

Lemma fs_ok_view2 : fs_ok 128 v -> fs_ok 128 view2.
Proof.
  intros Hfs. apply fs_ok_meta; try done; [apply view2_ok|]. intros i Hi.
  destruct (decide (i = p_slot p)) as [->|Hne]; [right; eauto using entry_new|].
  destruct (po_dir _ _ _ _ _ Hp) as (_ & _ & _ & _ & Hrest). destruct (Hrest i Hi Hne) as (Hu' & _ & _).
  destruct (entry_cases i Hfs Hi) as [Hu|(ino & s & dr & He)]; [left; simpl; congruence|].
  right. exists ino, s, dr. by apply entry_view2, entry_view1.
Qed.

(** Lookups of other names, and of the new one. *)
Lemma find_other name' : readable 32 name' = true -> cstr 32 name' <> cstr 32 name ->
  m16_find_dirent (p_dir p) name' = m16_find_dirent (v_dir v) name'.
Proof.
  intros Hr Hne. destruct Hp as [_ Hlen _ _ _ [Hs Hs0] _ _ _ (Hdok & D1 & _ & D3 & Hrest) _].
  unfold m16_find_dirent. change (Z.to_nat dir_count) with 12%nat. apply find_dirent_from_ext. intros j Hj.
  unfold dirent_matches. destruct (decide (j = p_slot p)) as [->|Hjn].
  - rewrite D1, Hs0, D3. cbn [mbind option_bind]. change (1 =? 0) with false. change (0 =? 0) with true. cbv iota.
    unfold m16_streq. destruct (cstr_padded 32 name (31 - length (cstr 32 name))) as [Hc Hrd]; [done|].
    replace (S (31 - length (cstr 32 name))) with (32 - length (cstr 32 name))%nat in * by lia.
    rewrite streq_cstr by done. rewrite Hc, bool_decide_false; [done|congruence].
  - destruct (Hrest j) as (-> & _ & ->); [lia|done|done].
Qed.

Lemma find_new : readable 32 name = true -> m16_find_dirent (p_dir p) name = Some (p_slot p).
Proof.
  intros Hr. destruct (po_dir _ _ _ _ _ Hp) as (Hdok & D1 & _ & D3 & Hrest).
  destruct (po_slot _ _ _ _ _ Hp) as [Hs _]. pose proof (po_len _ _ _ _ _ Hp) as Hlen.
  assert (Hhit : dirent_matches (p_dir p) name (p_slot p) = Some true).
  { unfold dirent_matches. rewrite D1, D3. cbn [mbind option_bind]. change (1 =? 0) with false. cbv iota.
    unfold m16_streq. destruct (cstr_padded 32 name (31 - length (cstr 32 name))) as [Hc Hrd]; [done|].
    replace (S (31 - length (cstr 32 name))) with (32 - length (cstr 32 name))%nat in * by lia.
    rewrite streq_cstr by done. by rewrite Hc, bool_decide_true. }
  destruct (find_dirent_spec (v_dir v) name) as [[_ Hno]|(k & Hk' & Hkr & _)]; [apply Hk|done| |].
  2:{ pose proof (po_nofile _ _ _ _ _ Hp) as Hn. unfold no_file in Hn. rewrite Hk' in Hn. injection Hn as ->.
      unfold M16_E_NOENT in Hkr. lia. }
  assert (Hno' : forall j, 0 <= j < 12 -> j <> p_slot p -> dirent_matches (p_dir p) name j = Some false).
  { intros j Hj Hjn. rewrite <- (Hno j Hj). unfold dirent_matches. by destruct (Hrest j Hj Hjn) as (-> & _ & ->). }
  destruct (find_dirent_spec (p_dir p) name) as [[_ Hall]|(k & Hkk & Hkr & Hm & _)]; [done|done| |].
  - rewrite Hall in Hhit by done. done.
  - rewrite Hkk. f_equal. destruct (decide (k = p_slot p)); [done|]. rewrite Hno' in Hm by done. done.
Qed.
End plan.

(** ** Crash safety of file creation *)

(** What a reader gets. *)
Definition read_of (name out : list Z) (cap : Z) (d : m16_blockdev) : option (Z + (list Z * Z)) :=
  fst <$> m16_read_file (Some name) (Some out) cap d.

(** A device at rest: well-formed, journal empty, 128 blocks. *)
Definition at_rest (d : m16_blockdev) : Prop := dev_ok d /\ total_blocks d = 128 /\ j_empty (blocks d).

Lemma fsck_ok_iff d v : at_rest d -> view_of (blocks d) v -> view_ok v ->
  fst <$> m16_fsck d = Some (inr tt) <-> fs_ok 128 v.
Proof.
  intros (Hd & Ht & Hj) Hv Hk. destruct (fsck_run d v Hd Hj Hv Hk) as (rc & -> & Hiff). rewrite Ht in Hiff.
  rewrite <- Hiff. simpl. split; congruence.
Qed.

Lemma same_reads d d' v v' name out cap :
  at_rest d -> at_rest d' -> view_of (blocks d) v -> view_of (blocks d') v' -> view_ok v -> view_ok v' ->
  fs_ok 128 v -> fs_ok 128 v' -> readable 32 name = true ->
  (no_file v name -> no_file v' name) ->
  (forall s dr, has_file v 128 name s dr -> has_file v' 128 name s dr /\
     blocks d' !! Z.to_nat dr = blocks d !! Z.to_nat dr) ->
  read_of name out cap d' = read_of name out cap d.
Proof.
  intros (Hd & Ht & Hj) (Hd' & Ht' & Hj') Hv Hv' Hk Hk' Hfs Hfs' Hr Hno Hhas. unfold read_of.
  destruct (file_or_not v Hk 128 name Hfs) as [Hn|(s & dr & Hf)]; [lia|done|..].
  - by rewrite (read_no_file d v), (read_no_file d' v') by (apply Hfs || apply Hfs' || auto).
  - destruct (Hhas s dr Hf) as [Hf' Hblk].
    assert (Hdr : 0 <= dr < 128).
    { destruct Hf as (? & ? & _ & _ & [_ _ _ _ _ _ _ _ Hdr _]). change M16_DATA_START_LBA with 25 in Hdr. lia. }
    destruct (dev_block d dr Hd Hdr) as (blk & Hb & _). rewrite Hb in Hblk.
    rewrite (read_has_file d v Hd Hj Hv Hk name out cap s dr blk) by (apply Hfs || rewrite ?Ht; done).
    rewrite (read_has_file d' v' Hd' Hj' Hv' Hk' name out cap s dr blk) by (apply Hfs' || rewrite ?Ht'; done).
    unfold read_result. destruct (cap <? s); [done|].
    destruct (slice blk 0 s) as [bs|]; [|done]. simpl. by destruct (splice out 0 bs).
Qed.

(** The outcome of recovering a device whose home blocks are those of [bl]. *)
Definition outcome (d d3 : m16_blockdev) (name data : list Z) (size : Z) (rc : Z + unit) : Prop :=
  fst <$> m16_fsck d3 = Some (inr tt) /\
  (forall name' out cap, readable 32 name' = true -> cstr 32 name' <> cstr 32 name ->
     read_of name' out cap d3 = read_of name' out cap d) /\
  ((rc <> inr tt /\ forall out cap, read_of name out cap d3 = read_of name out cap d) \/
   (forall out cap, size <= cap <= Z.of_nat (length out) ->
      read_of name out cap d3 = Some (inr (take (Z.to_nat size) data ++ drop (Z.to_nat size) out, size)))).

Lemma home_data bl bl' dr : home_eq bl bl' -> 25 <= dr -> bl !! Z.to_nat dr = bl' !! Z.to_nat dr.
Proof. intros H Hdr. apply H. right. change M16_INODE_BITMAP_LBA with 18. lia. Qed.

Lemma has_file_range v name s dr : has_file v 128 name s dr -> 25 <= dr < 128 /\ bm_test (v_bb v) dr = true.
Proof. intros (? & ? & _ & _ & [_ _ _ _ _ _ _ _ Hdr Hbm]). done. Qed.

Lemma outcome_old d d3 v name data size rc :
  at_rest d -> at_rest d3 -> view_of (blocks d) v -> view_ok v -> fs_ok 128 v -> readable 32 name = true ->
  home_eq (blocks d3) (blocks d) -> rc <> inr tt -> outcome d d3 name data size rc.
Proof.
  intros Hd Hd3 Hv Hk Hfs Hr Hh Hrc.
  assert (Hv3 : view_of (blocks d3) v) by (by eapply view_of_home; [symmetry|]).
  assert (Hsame : forall n out cap, readable 32 n = true -> read_of n out cap d3 = read_of n out cap d).
  { intros n out cap Hn. apply (same_reads d d3 v v); try done.
    intros s dr Hf. split; [done|]. apply home_data; [done|by eapply has_file_range]. }
  split_and!; [by apply (fsck_ok_iff d3 v)|auto|auto].
Qed.

Lemma has_file_view1 v name data size p n s dr : view_ok v -> plan_ok v name data size p ->
  has_file v 128 n s dr -> has_file (view1 v p) 128 n s dr.
Proof.
  intros Hk Hp (slot & ino & Hf & Hs & He). exists slot, ino. split_and!; try done; try lia.
  by eapply entry_view1.
Qed.

Lemma outcome_tx1 d d3 v name data size p rc :
  at_rest d -> at_rest d3 -> view_of (blocks d) v -> view_ok v -> fs_ok 128 v -> readable 32 name = true ->
  plan_ok v name data size p -> home_eq (blocks d3) (apply_tx (tx1_of p) (blocks d)) -> rc <> inr tt ->
  outcome d d3 name data size rc.
Proof.
  intros Hd Hd3 Hv Hk Hfs Hr Hp Hh Hrc.
  assert (Hl : length (blocks d) = 128%nat) by apply Hd.
  assert (Hv3 : view_of (blocks d3) (view1 v p)).
  { eapply view_of_home; [symmetry; exact Hh|]. by apply (view1_of v name data size). }
  pose proof (view1_ok v name data size p Hk Hp) as Hk1.
  pose proof (fs_ok_view1 v name data size p Hk Hp Hfs) as Hfs1.
  assert (Hsame : forall n out cap, readable 32 n = true -> read_of n out cap d3 = read_of n out cap d).
  { intros n out cap Hn. apply (same_reads d d3 v (view1 v p)); try done.
    intros s dr Hf. split; [by eapply has_file_view1|]. destruct (has_file_range _ _ _ _ Hf) as [Hdr _].
    rewrite (home_data _ _ _ Hh) by lia. rewrite tx1_lookup by done.
    destruct (Z.to_nat dr) as [|a] eqn:E; [done|]. do 24 (destruct a as [|a]; [lia|]). done. }
  split_and!; [by apply (fsck_ok_iff d3 (view1 v p))|auto|auto].
Qed.

Lemma outcome_tx2 d d3 v name data size p rc :
  at_rest d -> at_rest d3 -> view_of (blocks d) v -> view_ok v -> fs_ok 128 v -> readable 32 name = true ->
  plan_ok v name data size p -> 0 <= size <= Z.of_nat (length data) ->
  home_eq (blocks d3) (apply_tx (tx2_of p) (apply_tx (tx1_of p) (blocks d))) ->
  outcome d d3 name data size rc.
Proof.
  intros Hd Hd3 Hv Hk Hfs Hr Hp Hsz Hh.
  assert (Hl : length (blocks d) = 128%nat) by apply Hd.
  assert (Hl1 : length (apply_tx (tx1_of p) (blocks d)) = 128%nat) by (unfold apply_tx; by rewrite length_apply_writes).
  assert (Hv3 : view_of (blocks d3) (view2 v p)).
  { eapply view_of_home; [symmetry; exact Hh|].
    by apply (view2_of v name data size), (view1_of v name data size). }
  pose proof (view2_ok v name data size p Hk Hp) as Hk2.
  pose proof (fs_ok_view2 v name data size p Hk Hp Hfs) as Hfs2.
  destruct (po_blk _ _ _ _ _ Hp) as [Hblk Hfree]. change M16_DATA_START_LBA with 25 in Hblk. split_and!.
  - by apply (fsck_ok_iff d3 (view2 v p)).
  - intros n out cap Hn Hne. apply (same_reads d d3 v (view2 v p)); try done.
    { unfold no_file. simpl. by rewrite (find_other v name data size p Hp n). }
    intros s dr Hf. pose proof Hf as (slot & ino & Hfd & Hs & He).
    destruct (has_file_range _ _ _ _ Hf) as [Hdr Hbm]. split.
    + exists slot, ino. simpl. rewrite (find_other v name data size p Hp n) by done. split_and!; try done; try lia.
      apply (entry_view2 v name data size p Hp); [done| |by eapply entry_view1].
      intros ->. destruct (po_slot _ _ _ _ _ Hp) as [_ H0].
      destruct (find_dirent_spec (v_dir v) n (vk_dir _ Hk) Hn) as [[Hx _]|(k & Hx & _ & Hm & _)];
        rewrite Hfd in Hx; injection Hx as Hx; [unfold M16_E_NOENT in *; lia|]. subst k.
      unfold dirent_matches in Hm. by rewrite H0 in Hm.
    + rewrite (home_data _ _ _ Hh) by lia. rewrite (tx2_lookup v name data size p Hp) by done.
      rewrite !decide_False by (lia || (intros E; assert (dr = p_blk p) as -> by lia; congruence)).
      rewrite tx1_lookup by done.
      destruct (Z.to_nat dr) as [|a] eqn:E; [done|]. do 24 (destruct a as [|a]; [lia|]). done.
  - right. intros out cap Hcap. unfold read_of. destruct Hd3 as (Hd3 & Ht3 & Hj3).
    destruct (po_dblk _ _ _ _ _ Hp) as [_ Hsl].
    rewrite (read_has_file d3 (view2 v p) Hd3 Hj3 Hv3 Hk2 name out cap size (p_blk p) (p_dblk p)).
    + unfold read_result. destruct (Z.ltb_spec cap size); [lia|]. rewrite Hsl. simpl.
      assert (Hlt : length (take (Z.to_nat size) data) = Z.to_nat size) by (rewrite length_take; lia).
      rewrite splice_Some by lia. by rewrite Hlt.
    + apply Hfs2.
    + exists (p_slot p), (p_ino p). rewrite Ht3. simpl. destruct (po_slot _ _ _ _ _ Hp) as [Hs _].
      split_and!; try lia; [by apply (find_new v name data size)|by apply (entry_new v name data size)].
    + rewrite (home_data _ _ _ Hh) by lia. rewrite (tx2_lookup v name data size p Hp) by done. by rewrite decide_True.
Qed.

(** Two transactions in a row, the device going down at any point: the next
    complete recovery finds the old file system, the first transaction, or
    both. *)
Lemma two_commits d tx1 tx2 s1 s2 stop :
  dev_ok d -> j_empty (blocks d) -> tx_ok (total_blocks d) tx1 -> tx_ok (total_blocks d) tx2 ->
  let B1 := apply_tx tx1 (blocks d) in
  exists rc d1, (m16_journal_commit tx1 s1 false ;;; m16_journal_commit tx2 s2 stop) d = Some (rc, d1) /\
    dev_ok d1 /\ total_blocks d1 = total_blocks d /\
    (rc = inr tt -> stop = false -> j_empty (blocks d1) /\ home_eq (blocks d1) (apply_tx tx2 B1)) /\
    forall d2, rtc crash_recover d1 d2 ->
      exists d3, m16_journal_recover (set_fail d2 (-1)) = Some (inr tt, d3) /\ dev_ok d3 /\
        total_blocks d3 = total_blocks d /\ j_empty (blocks d3) /\
        ((rc <> inr tt /\ (home_eq (blocks d3) (blocks d) \/ home_eq (blocks d3) B1)) \/
         home_eq (blocks d3) (apply_tx tx2 B1)).
Proof.
  intros Hd Hj Htx1 Htx2. cbv zeta.
  assert (Hfin : forall rc0 tx old d1, dev_ok d1 -> total_blocks d1 = total_blocks d -> tx_ok (total_blocks d1) tx ->
    jstate rc0 tx old (blocks d1) -> forall d2, rtc crash_recover d1 d2 ->
    exists d3, m16_journal_recover (set_fail d2 (-1)) = Some (inr tt, d3) /\ dev_ok d3 /\
      total_blocks d3 = total_blocks d /\ j_empty (blocks d3) /\
      ((rc0 <> inr tt /\ home_eq (blocks d3) old) \/ home_eq (blocks d3) (apply_tx tx old))).
  { intros rc0 tx old d1 Hd1 Ht1 Htx Hjs d2 Hrt.
    destruct (crash_recover_jstate rc0 tx old d1 d2) as (Hd2 & Ht2 & Hj2); [done..|].
    destruct (recover_jstate rc0 tx old (set_fail d2 (-1))) as (rc & d3 & Hr & Hd3 & Ht3 & _ & Hrc & Hok);
      [by apply set_fail_ok|simpl; by rewrite Ht2|done|].
    assert (rc = inr tt) as -> by (destruct Hrc as [|[_ Hk]]; [done|by compute in Hk]).
    destruct Hok as [Hj3 Hh]; [done|]. exists d3. split_and!; try done. simpl in Ht3. congruence. }
  destruct (commit_run d tx1 s1 false Hd Htx1 Hj) as (rc1 & d1 & Hr1 & Hd1 & Ht1 & Hjs1 & Hrc1 & Hdone1 & _).
  destruct Hrc1 as [->|[-> _]].
  2:{ exists (inl M16_E_IO), d1. rewrite (em_bind_err _ _ _ _ _ Hr1). split_and!; try done.
      intros d2 Hrt. destruct (Hfin _ tx1 _ d1 Hd1 Ht1 ltac:(by rewrite Ht1) Hjs1 d2 Hrt) as (d3 & H1 & H2 & H3 & H4 & H5).
      exists d3. split_and!; try done. left. split; [done|]. naive_solver. }
  destruct Hdone1 as [Hj1 Hh1]; [done|done|]. rewrite (em_bind_ok _ _ _ _ _ Hr1). rewrite <- Ht1 in Htx2.
  destruct (commit_run d1 tx2 s2 stop Hd1 Htx2 Hj1) as (rc & d1' & Hr & Hd1' & Ht1' & Hjs & _ & Hdone & _).
  assert (Happ : home_eq (apply_tx tx2 (blocks d1)) (apply_tx tx2 (apply_tx tx1 (blocks d)))).
  { apply apply_writes_home_proper. split; [|done]. unfold apply_tx. rewrite length_apply_writes. by rewrite !dev_len. }
  exists rc, d1'. split_and!; try done; [congruence| |].
  - intros Hok Hstop. destruct (Hdone Hok Hstop) as [? Hh]. split; [done|]. by rewrite Hh.
  - intros d2 Hrt. rewrite <- Ht1' in Htx2.
    destruct (Hfin _ tx2 _ d1' Hd1' ltac:(congruence) Htx2 Hjs d2 Hrt) as (d3 & H1 & H2 & H3 & H4 & H5).
    exists d3. split_and!; try done. destruct H5 as [[? H5]|H5]; [left|right; by rewrite H5].
    split; [done|]. right. by rewrite H5.
Qed.

(** C2. Crash safety of file creation: start from a 128-block file system
    that [m16_fsck] accepts, call [m16_write_file_ex] with any fault armed,
    then interrupt any number of recoveries anywhere.  The next complete
    recovery leaves a file system that [m16_fsck] accepts, in which every
    other file reads as before, and the named file either reads exactly as
    before the call or is there with all its data; when the call returned OK
    it is the latter. *)
Theorem write_file_crash_safe d name data size stop :
  at_rest d -> fst <$> m16_fsck d = Some (inr tt) ->
  readable 32 name = true -> bytes_ok name -> bytes_ok data -> 0 <= size <= Z.of_nat (length data) ->
  exists rc d1, m16_write_file_ex (Some name) (Some data) size stop d = Some (rc, d1) /\
    forall d2, rtc crash_recover d1 d2 ->
      exists d3, m16_journal_recover (set_fail d2 (-1)) = Some (inr tt, d3) /\
        outcome d d3 name data size rc.
Proof.
  intros Hrest Hfsck Hr Hnb Hdb Hsz. pose proof Hrest as (Hd & Ht & Hj).
  destruct (dev_view d Hd) as (v & Hv & Hk). apply (fsck_ok_iff d v) in Hfsck; [|done..]. pose proof Hfsck as Hfs.
  rewrite <- Ht in Hfsck.
  destruct (write_unfold d v name data size stop Hd Hj Hv Hk Hfsck Hr Hnb Hdb Hsz) as [(rc & Hrc & Hw)|(p & s1 & s2 & Hp & Hw)].
  - exists (inl rc), d. split; [done|]. intros d2 Hrt.
    destruct (crash_recover_jstate (inl rc) [] (blocks d) d d2 Hrt Hd) as (Hd2 & Ht2 & Hj2); [by split|by left|].
    destruct (recover_jstate (inl rc) [] (blocks d) (set_fail d2 (-1))) as (rc' & d3 & Hr' & Hd3 & Ht3 & _ & Hrc' & Hok);
      [by apply set_fail_ok|by split|done|].
    assert (rc' = inr tt) as -> by (destruct Hrc' as [|[_ Hk']]; [done|by compute in Hk']).
    destruct Hok as [Hj3 Hh]; [done|]. exists d3. split; [done|].
    apply (outcome_old d d3 v); try done; [split_and!; [done|simpl in Ht3; congruence|done]|].
    by destruct Hh as [[_ Hh]|Hh].
  - destruct (plan_txs_ok v name data size p Hp) as [Htx1 Htx2].
    destruct (two_commits d (tx1_of p) (tx2_of p) s1 s2 stop Hd Hj) as (rc & d1 & Hrun & _ & _ & _ & Hall); [by rewrite Ht..|].
    exists rc, d1. split; [congruence|]. intros d2 Hrt. destruct (Hall d2 Hrt) as (d3 & Hr3 & Hd3 & Ht3 & Hj3 & Hcase).
    assert (Hrest3 : at_rest d3) by (split_and!; [done|congruence|done]).
    exists d3. split; [done|]. destruct Hcase as [[Hrc [Hh|Hh]]|Hh].
    + by apply (outcome_old d d3 v).
    + by apply (outcome_tx1 d d3 v name data size p).
    + by apply (outcome_tx2 d d3 v name data size p).
Qed.

(** C24. Round trip: a file that [m16_write_file] stored reads back as
    written, the file system stays consistent and at rest, and every other
    file reads as before. *)
Theorem write_read_roundtrip d name data size d1 :
  at_rest d -> fst <$> m16_fsck d = Some (inr tt) ->
  readable 32 name = true -> bytes_ok name -> bytes_ok data -> 0 <= size <= Z.of_nat (length data) ->
  m16_write_file (Some name) (Some data) size d = Some (inr tt, d1) ->
  at_rest d1 /\ fst <$> m16_fsck d1 = Some (inr tt) /\
  (forall name' out cap, readable 32 name' = true -> cstr 32 name' <> cstr 32 name ->
     read_of name' out cap d1 = read_of name' out cap d) /\
  forall out cap, size <= cap <= Z.of_nat (length out) ->
    read_of name out cap d1 = Some (inr (take (Z.to_nat size) data ++ drop (Z.to_nat size) out, size)).
Proof.
  intros Hrest Hfsck Hr Hnb Hdb Hsz Hwrite. pose proof Hrest as (Hd & Ht & Hj).
  destruct (dev_view d Hd) as (v & Hv & Hk). apply (fsck_ok_iff d v) in Hfsck; [|done..]. pose proof Hfsck as Hfs.
  rewrite <- Ht in Hfsck. unfold m16_write_file in Hwrite.
  destruct (write_unfold d v name data size false Hd Hj Hv Hk Hfsck Hr Hnb Hdb Hsz) as [(rc & Hrc & Hw)|(p & s1 & s2 & Hp & Hw)];
    [rewrite Hw in Hwrite; done|].
  destruct (plan_txs_ok v name data size p Hp) as [Htx1 Htx2].
  destruct (two_commits d (tx1_of p) (tx2_of p) s1 s2 false Hd Hj) as (rc & d1' & Hrun & Hd1 & Ht1 & Hok & _); [by rewrite Ht..|].
  rewrite <- Hw, Hwrite in Hrun. injection Hrun as <- <-. destruct Hok as [Hj1 Hh1]; [done|done|].
  assert (Hrest1 : at_rest d1) by (split_and!; [done|congruence|done]).
  destruct (outcome_tx2 d d1 v name data size p (inr tt)) as (? & ? & [[]|?]); done.
Qed.

(** ** Format *)

Definition format_writes : list (Z * list Z) :=
  let raw := default [] root_inodes in
  [(0, default [] (super_block 128));
   (M16_INODE_BITMAP_LBA, default [] (m16_bitmap_set zero_block 0));
   (M16_BLOCK_BITMAP_LBA, default [] (set_bits (Z.to_nat M16_DATA_START_LBA) 0 zero_block));
   (M16_INODE_TABLE_LBA + 0, default [] (slice raw 0 512)); (M16_INODE_TABLE_LBA + 1, default [] (slice raw 512 512));
   (M16_INODE_TABLE_LBA + 2, default [] (slice raw 1024 512)); (M16_INODE_TABLE_LBA + 3, default [] (slice raw 1536 512));
   (M16_ROOT_DIR_LBA, zero_block); (M16_JOURNAL_START, zero_block)].

Definition empty_fs : list (list Z) := apply_writes format_writes (replicate 128 zero_block).

Lemma format_eq d : total_blocks d = 128 ->
  m16_format d = io_writes format_writes (set_blocks d (replicate 128 zero_block)).
Proof.
  intros Ht. unfold m16_format.
  rewrite (em_bind_ok _ _ _ tt (set_blocks d (replicate 128 zero_block))) by done.
  rewrite (em_bind_ok _ _ _ (total_blocks d) (set_blocks d (replicate 128 zero_block))) by done. rewrite Ht.
  rewrite (em_bind_lift (super_block 128) _ _ (default [] (super_block 128))) by (vm_compute; reflexivity).
  unfold format_writes. cbv zeta. cbn [io_writes fst snd]. apply em_bind_ext; [done|]. intros _ d1.
  rewrite (em_bind_lift (m16_bitmap_set zero_block 0) _ _ (default [] (m16_bitmap_set zero_block 0))) by (vm_compute; reflexivity).
  rewrite (em_bind_lift (set_bits _ 0 zero_block) _ _ (default [] (set_bits (Z.to_nat M16_DATA_START_LBA) 0 zero_block)))
    by (vm_compute; reflexivity).
  apply em_bind_ext; [done|]. intros _ d2. apply em_bind_ext; [done|]. intros _ d3.
  rewrite (em_bind_lift root_inodes _ _ (default [] root_inodes)) by (vm_compute; reflexivity).
  set (raw := default [] root_inodes). cbn [write_table]. rewrite em_bind_assoc.
  rewrite (em_bind_lift (slice raw _ _) _ _ (default [] (slice raw 0 512))) by (vm_compute; reflexivity).
  rewrite em_bind_assoc. apply em_bind_ext; [done|]. intros _ d4. rewrite em_bind_assoc.
  rewrite (em_bind_lift (slice raw _ _) _ _ (default [] (slice raw 512 512))) by (vm_compute; reflexivity).
  rewrite em_bind_assoc. apply em_bind_ext; [done|]. intros _ d5. rewrite em_bind_assoc.
  rewrite (em_bind_lift (slice raw _ _) _ _ (default [] (slice raw 1024 512))) by (vm_compute; reflexivity).
  rewrite em_bind_assoc. apply em_bind_ext; [done|]. intros _ d6. rewrite em_bind_assoc.
  rewrite (em_bind_lift (slice raw _ _) _ _ (default [] (slice raw 1536 512))) by (vm_compute; reflexivity).
  rewrite em_bind_assoc. apply em_bind_ext; [done|]. intros _ d7. rewrite em_bind_ret.
  apply em_bind_ext; [done|]. intros _ d8. symmetry. apply io_writes_one.
Qed.

Definition write_okb (w : Z * list Z) : bool :=
  (0 <=? fst w) && (fst w <? 128) && (Z.of_nat (length (snd w)) =? 512) && bytes_okb (snd w).

Lemma format_writes_ok : Forall (write_ok 128) format_writes.
Proof.
  assert (H : forallb write_okb format_writes = true) by (vm_compute; reflexivity).
  revert H. generalize format_writes as ws. induction ws as [|w ws IH]; [done|]. simpl. rewrite andb_true_iff.
  intros [Hw Hws]. constructor; [|by apply IH]. unfold write_okb in Hw.
  rewrite !andb_true_iff, Z.leb_le, Z.ltb_lt, Z.eqb_eq in Hw. destruct Hw as [[[? ?] ?] Hb].
  split; [lia|]. split; [lia|by apply bytes_okb_ok].
Qed.

Lemma empty_fs_rest d : blocks d = empty_fs -> total_blocks d = 128 -> at_rest d.
Proof.
  intros Hb Ht.
  destruct (io_writes_run format_writes m16_dev_init dev_init_ok format_writes_ok)
    as (n & rc & d' & _ & _ & Hb' & _ & [Hl Hf _ _] & [[-> ->]|(_ & _ & Hk)] & _); [|by compute in Hk].
  rewrite firstn_all in Hb'. change (apply_writes _ _) with empty_fs in Hb'. rewrite Hb' in Hl, Hf.
  split_and!; [|done|].
  - constructor; rewrite ?Hb, ?Ht; done.
  - rewrite Hb. exists zero_block. split_and!; [vm_compute; reflexivity|done|done].
Qed.

(** Formatting: whatever a 128-block device held before, [m16_format]
    with no fault armed returns OK and leaves a device at rest that
    [m16_fsck] accepts and in which no name is found; with a fault armed it
    returns OK or [M16_E_IO]. *)
Theorem format_creates_empty_fs d :
  total_blocks d = 128 ->
  exists rc d', m16_format d = Some (rc, d') /\ (rc = inr tt \/ rc = inl M16_E_IO /\ 0 <= fail_after d) /\
    (rc = inr tt -> at_rest d' /\ fst <$> m16_fsck d' = Some (inr tt) /\
       forall name out cap, readable 32 name = true -> read_of name out cap d' = Some (inl M16_E_NOENT)).
Proof.
  intros Ht. rewrite format_eq by done.
  destruct (io_writes_run format_writes (set_blocks d (replicate 128 zero_block)))
    as (n & rc & d' & Hr & _ & Hb & Ht' & Hd' & Hrc & _).
  { constructor; cbn [blocks total_blocks set_blocks]; [done|apply Forall_replicate, zero_block_ok|by rewrite Ht..]. }
  { cbn [total_blocks set_blocks]. rewrite Ht. apply format_writes_ok. }
  exists rc, d'. split_and!; [done|destruct Hrc as [[-> _]|(-> & _ & ?)]; [by left|by right]|].
  intros ->. destruct Hrc as [[_ ->]|[? _]]; [|done]. rewrite firstn_all in Hb.
  cbn [blocks total_blocks set_blocks] in Hb, Ht'.
  change (apply_writes _ _) with empty_fs in Hb. rewrite Ht in Ht'.
  pose proof (empty_fs_rest d' Hb Ht') as Hrest.
  set (d0 := mk_dev empty_fs 128 0 (-1)).
  assert (Hrest0 : at_rest d0) by (by apply empty_fs_rest).
  destruct (dev_view d' Hd') as (v & Hv & Hk). pose proof Hv as Hv0. rewrite Hb in Hv0.
  assert (Hfs : fs_ok 128 v) by (apply (fsck_ok_iff d0 v); [done|done|done|vm_compute; reflexivity]).
  split_and!; [done|by apply (fsck_ok_iff d' v)|].
  intros name out cap Hread. unfold read_of. destruct Hrest as (_ & _ & Hj').
  rewrite (read_no_file d' v Hd' Hj' Hv Hk name out cap); [done|apply Hfs|].
  assert (Hdir : v_dir v = zero_block).
  { pose proof (vo_dir _ _ Hv0) as H. apply (f_equal (default [])) in H. simpl in H. rewrite <- H. vm_compute. reflexivity. }
  unfold no_file. rewrite Hdir.
  destruct (find_dirent_spec zero_block name zero_block_ok Hread) as [[H _]|(k & _ & Hkr & Hm & _)]; [done|].
  exfalso. unfold dirent_matches, de_used in Hm.
  assert (Hu : ld 4 zero_block (40 * k) = Some 0); [|by rewrite Hu in Hm].
  assert (k = 0 \/ k = 1 \/ k = 2 \/ k = 3 \/ k = 4 \/ k = 5 \/ k = 6 \/ k = 7 \/ k = 8 \/ k = 9 \/ k = 10 \/ k = 11) as Hcases by lia.
  repeat destruct Hcases as [->|Hcases]; try done. subst k. done.
Qed.

Lemma format_creates_empty_fs_witness :
  exists d', m16_format m16_dev_init = Some (inr tt, d') /\ at_rest d' /\ fst <$> m16_fsck d' = Some (inr tt).
Proof.
  destruct (format_creates_empty_fs m16_dev_init eq_refl) as (rc & d' & Hr & [->|[_ Hk]] & Hok);
    [|exfalso; compute in Hk; apply Hk; reflexivity].
  destruct (Hok eq_refl) as (H1 & H2 & _). exists d'. split; [exact Hr|]. split; [exact H1|exact H2].
Defined.

(** A file system with one file, for the instances below. *)
Definition empty_dev : m16_blockdev := mk_dev empty_fs 128 0 (-1).
Definition hello : list Z := [104; 105; 0].
Definition hello_data : list Z := [1; 2; 3].

Lemma empty_dev_fsck : fst <$> m16_fsck empty_dev = Some (inr tt).
Proof. vm_compute. reflexivity. Qed.

Lemma empty_dev_rest k : at_rest (set_fail empty_dev k).
Proof. by apply empty_fs_rest. Qed.

Lemma hello_bytes : bytes_ok hello /\ bytes_ok hello_data.
Proof. split; by apply bytes_okb_ok. Qed.

(** The power fails after twenty block writes. *)
Lemma write_file_crash_safe_witness :
  exists rc d1, m16_write_file_ex (Some hello) (Some hello_data) 3 false (set_fail empty_dev 20) = Some (rc, d1) /\
    rc = inl M16_E_IO /\ exists d3, m16_journal_recover (set_fail d1 (-1)) = Some (inr tt, d3) /\
      fst <$> m16_fsck d3 = Some (inr tt).
Proof.
  destruct (write_file_crash_safe (set_fail empty_dev 20) hello hello_data 3 false (empty_dev_rest 20))
    as (rc & d1 & Hr & Hall).
  - vm_compute. reflexivity.
  - reflexivity.
  - exact (proj1 hello_bytes).
  - exact (proj2 hello_bytes).
  - simpl. lia.
  - destruct (Hall d1 (rtc_refl _ _)) as (d3 & H3 & Hf & _).
    exists rc, d1. split; [exact Hr|]. split; [|exists d3; split; [exact H3|exact Hf]].
    apply (f_equal (fmap fst)) in Hr. vm_compute in Hr. injection Hr as <-. reflexivity.
Defined.

Lemma write_read_roundtrip_witness :
  exists d1, m16_write_file (Some hello) (Some hello_data) 3 empty_dev = Some (inr tt, d1) /\
    read_of hello (replicate 4 0) 4 d1 = Some (inr ([1; 2; 3; 0], 3)).
Proof.
  destruct (m16_write_file (Some hello) (Some hello_data) 3 empty_dev) as [[rc d1]|] eqn:E.
  - assert (rc = inr tt) as ->.
    { apply (f_equal (fmap fst)) in E. vm_compute in E. injection E as <-. reflexivity. }
    exists d1. split; [reflexivity|].
    destruct (write_read_roundtrip empty_dev hello hello_data 3 d1 (empty_dev_rest (-1)) empty_dev_fsck
      eq_refl (proj1 hello_bytes) (proj2 hello_bytes) ltac:(simpl; lia) E) as (_ & _ & _ & Hread).
    apply (Hread (replicate 4 0) 4). simpl. lia.
  - exfalso. apply (f_equal (fmap fst)) in E. vm_compute in E. discriminate E.
Defined.

End JournalFs.
