(* ===== verification/Block.v ===== *)
(** * The block layer

    Model of [kernel/block/block.c]: the device registry and the 32-entry
    write-back buffer cache, and of [kernel/block/ramblk.c], the RAM driver
    behind it.  Drivers are reached through a table of operations, so the
    cache is verified against an interface, [BlockDriver], that says what a
    table of operations promises; the RAM driver is an instance of it. *)
From S2P Require Import Prelude Bitmap Bytes.
From stdpp Require Import base list numbers option relations.
From Stdlib Require Import ZArith Lia.

Open Scope Z_scope.

Definition MCSOS_BLOCK_SIZE : Z := 512.
Definition MCSOS_MAX_BLOCK_DEVICES : Z := 16.
Definition MCSOS_BUFFER_CACHE_ENTRIES : Z := 32.

Definition BLK_OK : Z := 0.
Definition BLK_ERR_INVALID_LBA : Z := -1.
Definition BLK_ERR_INVALID_DEV : Z := -2.
Definition BLK_ERR_NOT_VALID : Z := -3.
Definition BLK_ERR_DRIVER_FAIL : Z := -4.

Module Block.
Section layer.
(** [D] is the state behind the drivers; a driver function is undefined
    ([None]) when it faults. *)
Context {D : Type}.

Record block_driver_ops := mk_ops {
  op_read : option (Z -> list Z -> D -> option (Z * list Z * D));
  op_write : option (Z -> list Z -> D -> option (Z * D));
  op_flush : option (D -> option (Z * D))
}.

Record block_device := mk_blkdev {
  dev_id : Z;
  block_size : Z;
  block_count : Z;
  ops : option block_driver_ops
}.

Record buffer_cache_entry := mk_entry {
  e_dev : Z;
  e_lba : Z;
  e_valid : Z;
  e_dirty : Z;
  e_data : list Z
}.

(** The statics of [block.c], the devices the pointers of the table refer to
    (by index), and the drivers' state. *)
Record blk_state := mk_blk {
  block_device_table : list (option nat);
  num_registered_devices : Z;
  buffer_cache : list buffer_cache_entry;
  devices : list block_device;
  drv : D
}.

Definition set_cache (s : blk_state) (c : list buffer_cache_entry) : blk_state :=
  mk_blk (block_device_table s) (num_registered_devices s) c (devices s) (drv s).
Definition set_drv (s : blk_state) (d : D) : blk_state :=
  mk_blk (block_device_table s) (num_registered_devices s) (buffer_cache s) (devices s) d.

(** ** Registry *)

Definition blk_register_device (dev : option nat) (s : blk_state) : option (Z * blk_state) :=
  match dev with
  | None => Some (BLK_ERR_INVALID_DEV, s)
  | Some p =>
      d ← devices s !! p;
      match ops d with
      | None => Some (BLK_ERR_INVALID_DEV, s)
      | Some _ =>
          if MCSOS_MAX_BLOCK_DEVICES <=? num_registered_devices s
          then Some (BLK_ERR_INVALID_DEV, s) else
          let n := num_registered_devices s in
          t ← arr_set (block_device_table s) n (Some p);
          Some (BLK_OK, mk_blk t (n + 1) (buffer_cache s)
            (<[p := mk_blkdev n (block_size d) (block_count d) (ops d)]> (devices s)) (drv s))
      end
  end.

Definition blk_get_device (id : Z) (s : blk_state) : option (option nat) :=
  if MCSOS_MAX_BLOCK_DEVICES <=? id then Some None else arr_get (block_device_table s) id.

(** ** Buffer cache *)

Definition empty_entry : buffer_cache_entry := mk_entry 0 0 0 0 (replicate 512 0).

Definition blk_cache_init (s : blk_state) : blk_state :=
  set_cache s (replicate (Z.to_nat MCSOS_BUFFER_CACHE_ENTRIES) empty_entry).

Definition entry_is (id lba : Z) (e : buffer_cache_entry) : Prop :=
  e_valid e <> 0 /\ e_dev e = id /\ e_lba e = lba.

#[export] Instance entry_is_dec id lba e : Decision (entry_is id lba e).
Proof. unfold entry_is. tc_solve. Defined.

(** The entry a lookup returns, as its index. *)
Definition blk_cache_lookup (id lba : Z) (s : blk_state) : option nat :=
  fst <$> list_find (entry_is id lba) (buffer_cache s).

Definition blk_cache_find_empty (s : blk_state) : option nat :=
  fst <$> list_find (fun e => e_valid e = 0) (buffer_cache s).

Definition clean (e : buffer_cache_entry) : buffer_cache_entry :=
  mk_entry (e_dev e) (e_lba e) (e_valid e) 0 (e_data e).

(** The loop of [blk_cache_flush_all] over the entries from some index on;
    [result] is carried along. *)
Fixpoint flush_all_from (s : blk_state) (es : list buffer_cache_entry) (result : Z) (d : D)
    : option (Z * list buffer_cache_entry * D) :=
  match es with
  | [] => Some (result, [], d)
  | e :: es =>
      if negb (e_valid e =? 0) && negb (e_dirty e =? 0) then
        p ← blk_get_device (e_dev e) s;
        match p with
        | None => r ← flush_all_from s es BLK_ERR_DRIVER_FAIL d; Some (fst (fst r), e :: snd (fst r), snd r)
        | Some p =>
            dev ← devices s !! p;
            match o ← ops dev; op_write o with
            | None => r ← flush_all_from s es BLK_ERR_DRIVER_FAIL d; Some (fst (fst r), e :: snd (fst r), snd r)
            | Some wr =>
                w ← wr (e_lba e) (e_data e) d;
                if negb (fst w =? BLK_OK)
                then r ← flush_all_from s es BLK_ERR_DRIVER_FAIL (snd w);
                     Some (fst (fst r), e :: snd (fst r), snd r)
                else r ← flush_all_from s es result (snd w);
                     Some (fst (fst r), clean e :: snd (fst r), snd r)
            end
        end
      else r ← flush_all_from s es result d; Some (fst (fst r), e :: snd (fst r), snd r)
  end.

Definition blk_cache_flush_all (s : blk_state) : option (Z * blk_state) :=
  r ← flush_all_from s (buffer_cache s) BLK_OK (drv s);
  Some (fst (fst r), set_drv (set_cache s (snd (fst r))) (snd r)).

(** ** Block I/O *)

(** [blk_read(dev_id, lba, buf)]: the code, the caller's buffer, the state. *)
Definition blk_read (id lba : Z) (buf : option (list Z)) (s : blk_state)
    : option (Z * option (list Z) * blk_state) :=
  match buf with
  | None => Some (BLK_ERR_INVALID_LBA, buf, s)
  | Some b =>
      p ← blk_get_device id s;
      match p with
      | None => Some (BLK_ERR_INVALID_DEV, buf, s)
      | Some p =>
          dev ← devices s !! p;
          if block_count dev <=? lba then Some (BLK_ERR_INVALID_LBA, buf, s) else
          match blk_cache_lookup id lba s with
          | Some i =>
              e ← buffer_cache s !! i;
              data ← slice (e_data e) 0 MCSOS_BLOCK_SIZE;
              b' ← splice b 0 data;
              Some (BLK_OK, Some b', s)
          | None =>
              match o ← ops dev; op_read o with
              | None => Some (BLK_ERR_DRIVER_FAIL, buf, s)
              | Some rd =>
                  r ← rd lba b (drv s);
                  let '(err, b', d') := r in
                  let s := set_drv s d' in
                  if negb (err =? BLK_OK) then Some (err, Some b', s) else
                  match blk_cache_find_empty s with
                  | None => Some (BLK_OK, Some b', s)
                  | Some i =>
                      data ← slice b' 0 MCSOS_BLOCK_SIZE;
                      Some (BLK_OK, Some b', set_cache s (<[i := mk_entry id lba 1 0 data]> (buffer_cache s)))
                  end
              end
          end
      end
  end.

Definition blk_write (id lba : Z) (buf : option (list Z)) (s : blk_state) : option (Z * blk_state) :=
  match buf with
  | None => Some (BLK_ERR_INVALID_LBA, s)
  | Some b =>
      p ← blk_get_device id s;
      match p with
      | None => Some (BLK_ERR_INVALID_DEV, s)
      | Some p =>
          dev ← devices s !! p;
          if block_count dev <=? lba then Some (BLK_ERR_INVALID_LBA, s) else
          match (match blk_cache_lookup id lba s with
                 | Some i => Some i
                 | None => blk_cache_find_empty s
                 end) with
          | Some i =>
              data ← slice b 0 MCSOS_BLOCK_SIZE;
              Some (BLK_OK, set_cache s (<[i := mk_entry id lba 1 1 data]> (buffer_cache s)))
          | None => Some (BLK_OK, s)
          end
      end
  end.

(** The loop of [blk_flush]: leaves with [false] on the first failed write. *)
Fixpoint flush_dev_from (wr : option (Z -> list Z -> D -> option (Z * D))) (id : Z)
    (es : list buffer_cache_entry) (d : D) : option (bool * list buffer_cache_entry * D) :=
  match es with
  | [] => Some (true, [], d)
  | e :: es =>
      if negb (e_valid e =? 0) && (e_dev e =? id) && negb (e_dirty e =? 0) then
        wr' ← wr;
        w ← wr' (e_lba e) (e_data e) d;
        if negb (fst w =? BLK_OK) then Some (false, e :: es, snd w) else
        r ← flush_dev_from wr id es (snd w);
        Some (fst (fst r), clean e :: snd (fst r), snd r)
      else r ← flush_dev_from wr id es d; Some (fst (fst r), e :: snd (fst r), snd r)
  end.

Definition blk_flush (id : Z) (s : blk_state) : option (Z * blk_state) :=
  p ← blk_get_device id s;
  match p with
  | None => Some (BLK_ERR_INVALID_DEV, s)
  | Some p =>
      dev ← devices s !! p;
      match ops dev with
      | None => Some (BLK_ERR_DRIVER_FAIL, s)
      | Some o =>
          match op_flush o with
          | None => Some (BLK_ERR_DRIVER_FAIL, s)
          | Some fl =>
              r ← flush_dev_from (op_write o) id (buffer_cache s) (drv s);
              let s' := set_drv (set_cache s (snd (fst r))) (snd r) in
              if negb (fst (fst r)) then Some (BLK_ERR_DRIVER_FAIL, s') else
              f ← fl (drv s');
              Some (fst f, set_drv s' (snd f))
          end
      end
  end.

Definition blk_init (s : blk_state) : blk_state :=
  let s := blk_cache_init s in
  mk_blk (block_device_table s) 0 (buffer_cache s) (devices s) (drv s).

End layer.
Arguments block_driver_ops : clear implicits.
Arguments block_device : clear implicits.
Arguments blk_state : clear implicits.
End Block.

(** ** The RAM driver *)

Module Ramblk.
Import Block.

Definition RAMBLK_DEVICE_SIZE_BLOCKS : Z := 4096.
Definition RAMBLK_MAGIC : Z := 0xDEADBEEF.

Record ramblk_device := mk_ramblk { magic : Z; storage : list (list Z) }.

Definition ramblk_read (lba : Z) (buf : list Z) (d : ramblk_device) : option (Z * list Z * ramblk_device) :=
  if RAMBLK_DEVICE_SIZE_BLOCKS <=? lba then Some (BLK_ERR_INVALID_LBA, buf, d) else
  if negb (magic d =? RAMBLK_MAGIC) then Some (BLK_ERR_DRIVER_FAIL, buf, d) else
  b ← arr_get (storage d) lba;
  data ← slice b 0 MCSOS_BLOCK_SIZE;
  buf' ← splice buf 0 data;
  Some (BLK_OK, buf', d).

Definition ramblk_write (lba : Z) (buf : list Z) (d : ramblk_device) : option (Z * ramblk_device) :=
  if RAMBLK_DEVICE_SIZE_BLOCKS <=? lba then Some (BLK_ERR_INVALID_LBA, d) else
  if negb (magic d =? RAMBLK_MAGIC) then Some (BLK_ERR_DRIVER_FAIL, d) else
  data ← slice buf 0 MCSOS_BLOCK_SIZE;
  st' ← arr_set (storage d) lba data;
  Some (BLK_OK, mk_ramblk (magic d) st').

Definition ramblk_flush (d : ramblk_device) : option (Z * ramblk_device) := Some (BLK_OK, d).

Definition ramblk_ops : block_driver_ops ramblk_device :=
  mk_ops (Some ramblk_read) (Some ramblk_write) (Some ramblk_flush).

Definition ramblk_block_device : block_device ramblk_device :=
  mk_blkdev 0 MCSOS_BLOCK_SIZE RAMBLK_DEVICE_SIZE_BLOCKS (Some ramblk_ops).

(** [ramblk_init()], [ptr] being the address of [ramblk_block_device]. *)
Definition ramblk_init (ptr : nat) (s : blk_state ramblk_device) : option (Z * blk_state ramblk_device) :=
  blk_register_device (Some ptr) (blk_init s).

Definition ramblk_reset (s : blk_state ramblk_device) : blk_state ramblk_device :=
  set_drv s (mk_ramblk RAMBLK_MAGIC (replicate (Z.to_nat RAMBLK_DEVICE_SIZE_BLOCKS) (replicate 512 0))).

End Ramblk.

(** ** The driver interface

    What the cache relies on: a table of operations that stores blocks.
    [ok] is the driver's own invariant, [disk id d lba] the block the medium
    of device [id] holds. *)
Class BlockDriver {D} (ok : D -> Prop) (disk : Z -> D -> Z -> list Z) (id : Z)
    (dev : Block.block_device D) : Prop := {
  bd_len : forall d lba, ok d -> 0 <= lba < Block.block_count dev -> length (disk id d lba) = 512%nat;
  bd_read : forall d lba buf, ok d -> 0 <= lba < Block.block_count dev -> length buf = 512%nat ->
    exists o rd, Block.ops dev = Some o /\ Block.op_read o = Some rd /\
      rd lba buf d = Some (BLK_OK, disk id d lba, d);
  bd_write : forall d lba buf, ok d -> 0 <= lba < Block.block_count dev -> length buf = 512%nat ->
    exists o wr d', Block.ops dev = Some o /\ Block.op_write o = Some wr /\
      wr lba buf d = Some (BLK_OK, d') /\ ok d' /\
      forall id' lba', disk id' d' lba' = if decide (id' = id /\ lba' = lba) then buf else disk id' d lba';
  bd_flush : forall d, ok d -> exists o fl d', Block.ops dev = Some o /\ Block.op_flush o = Some fl /\
      fl d = Some (BLK_OK, d') /\ ok d' /\ forall id' lba', disk id' d' lba' = disk id' d lba'
}.

Module BlockProofs.
Import Block.

Section proofs.
Context {D : Type} (ok : D -> Prop) (disk : Z -> D -> Z -> list Z).
Implicit Types s : blk_state D.

Definition registered s (id : Z) (dev : block_device D) : Prop :=
  exists p, blk_get_device id s = Some (Some p) /\ devices s !! p = Some dev.

Definition cached s (id lba : Z) (e : buffer_cache_entry) : Prop :=
  exists i, buffer_cache s !! i = Some e /\ entry_is id lba e.

(** The registry part of the state, which I/O never changes. *)
Definition same_registry s s' : Prop :=
  block_device_table s' = block_device_table s /\ devices s' = devices s.

Record blk_inv s : Prop := {
  bi_len : length (buffer_cache s) = 32%nat;
  bi_ok : ok (drv s);
  bi_drivers : forall id dev, registered s id dev -> BlockDriver ok disk id dev;
  bi_entries : forall i e, buffer_cache s !! i = Some e -> e_valid e <> 0 ->
    (exists dev, registered s (e_dev e) dev /\ 0 <= e_lba e < block_count dev) /\
    length (e_data e) = 512%nat /\ (e_dirty e = 0 -> e_data e = disk (e_dev e) (drv s) (e_lba e));
  bi_unique : forall i j e e', buffer_cache s !! i = Some e -> buffer_cache s !! j = Some e' ->
    entry_is (e_dev e) (e_lba e) e' -> e_valid e <> 0 -> i = j
}.

(** What the layer promises to hold in block [lba] of device [id]. *)
Definition contents s (id lba : Z) : list Z :=
  match blk_cache_lookup id lba s with
  | Some i => default [] (e_data <$> buffer_cache s !! i)
  | None => disk id (drv s) lba
  end.

(** ** Lookup *)

Lemma lookup_hit s id lba i : blk_cache_lookup id lba s = Some i ->
  exists e, buffer_cache s !! i = Some e /\ entry_is id lba e.
Proof.
  unfold blk_cache_lookup. intros ([j e] & (Hj & He & _)%list_find_Some & ->)%fmap_Some_1. eauto.
Qed.

Lemma lookup_miss s id lba : blk_cache_lookup id lba s = None -> forall e, ~ cached s id lba e.
Proof.
  unfold blk_cache_lookup. intros H%fmap_None. apply list_find_None in H.
  intros e (i & Hi & He). by eapply Forall_lookup_1 in H.
Qed.

Lemma contents_cached s id lba e : blk_inv s -> cached s id lba e -> contents s id lba = e_data e.
Proof.
  intros Hs (i & Hi & He). unfold contents. destruct (blk_cache_lookup id lba s) as [j|] eqn:E.
  - apply lookup_hit in E as (e' & Hj & He'). destruct He as (Hv & <- & <-).
    assert (i = j) as -> by (by eapply bi_unique). rewrite Hi. done.
  - exfalso. eapply (lookup_miss _ _ _ E e). exists i. done.
Qed.

Lemma contents_uncached s id lba : (forall e, ~ cached s id lba e) -> contents s id lba = disk id (drv s) lba.
Proof.
  intros Hno. unfold contents. destruct (blk_cache_lookup id lba s) as [j|] eqn:E; [|done].
  apply lookup_hit in E as (e & Hj & He). exfalso. apply (Hno e). by exists j.
Qed.

Lemma cached_dec s id lba : (exists e, cached s id lba e) \/ (forall e, ~ cached s id lba e).
Proof.
  destruct (blk_cache_lookup id lba s) as [i|] eqn:E.
  - left. apply lookup_hit in E as (e & ? & ?). exists e, i. done.
  - right. by apply lookup_miss.
Qed.

Lemma find_empty_hit s i : blk_cache_find_empty s = Some i ->
  exists e, buffer_cache s !! i = Some e /\ e_valid e = 0.
Proof.
  unfold blk_cache_find_empty. intros ([j e] & (Hj & He & _)%list_find_Some & ->)%fmap_Some_1. eauto.
Qed.

(** ** Filling an entry *)

(** Slot [i] may take block [(id, lba)]: it holds that block or nothing, and
    no other slot holds it. *)
Definition slot_for s (id lba : Z) (i : nat) : Prop :=
  exists e0, buffer_cache s !! i = Some e0 /\ (e_valid e0 = 0 \/ entry_is id lba e0) /\
    forall j e, buffer_cache s !! j = Some e -> entry_is id lba e -> j = i.

Lemma cached_fill s id lba i e id' lba' e' :
  slot_for s id lba i -> entry_is id lba e ->
  cached (set_cache s (<[i := e]> (buffer_cache s))) id' lba' e' <->
    if decide (id' = id /\ lba' = lba) then e' = e else cached s id' lba' e'.
Proof.
  intros (e0 & Hi & H0 & Huniq) (Hv & Hid & Hl). unfold cached. simpl. case_decide as E.
  - destruct E as [-> ->]. split.
    + intros (j & Hj & He'). rewrite (lookup_insert_at _ _ _ _ _ Hi) in Hj. case_decide; [congruence|].
      exfalso. by apply (Huniq j e') in Hj; [|done].
    + intros ->. exists i. rewrite (lookup_insert_at _ _ _ _ _ Hi), decide_True by done. done.
  - split; intros (j & Hj & He').
    + rewrite (lookup_insert_at _ _ _ _ _ Hi) in Hj. case_decide; [|by exists j].
      injection Hj as <-. destruct He' as (_ & ? & ?). exfalso. apply E. split; congruence.
    + exists j. split; [|done]. rewrite (lookup_insert_at _ _ _ _ _ Hi). case_decide as Eij; [|done]. subst j.
      rewrite Hi in Hj. injection Hj as <-. destruct He' as (? & ? & ?).
      destruct H0 as [|(_ & ? & ?)]; [done|]. exfalso. apply E. split; congruence.
Qed.

Lemma fill_inv s id lba i e dev :
  blk_inv s -> slot_for s id lba i -> entry_is id lba e -> registered s id dev -> 0 <= lba < block_count dev ->
  length (e_data e) = 512%nat -> (e_dirty e = 0 -> e_data e = disk id (drv s) lba) ->
  blk_inv (set_cache s (<[i := e]> (buffer_cache s))).
Proof.
  intros [Hlen Hok Hdrv Hent Huniq] Hslot He Hreg Hlba Hdata Hclean.
  pose proof Hslot as (e0 & Hi & H0 & Hslotu). pose proof He as (Hv & Hid & Hl).
  constructor; simpl; try done; [by rewrite length_insert|..].
  - intros j e' Hj Hv'. rewrite (lookup_insert_at _ _ _ _ _ Hi) in Hj. case_decide; [|by eapply Hent].
    injection Hj as <-. rewrite Hid, Hl. split_and!; [by exists dev|done|done].
  - intros j k e1 e2 Hj Hk (Hv2 & Hd2 & Hl2) Hv1.
    rewrite (lookup_insert_at _ _ _ _ _ Hi) in Hj. rewrite (lookup_insert_at _ _ _ _ _ Hi) in Hk.
    destruct (decide (i = j)) as [Ej|Ej], (decide (i = k)) as [Ek|Ek]; [congruence|injection Hj as Hj|injection Hk as Hk|].
    + subst j e1. symmetry. apply (Hslotu k e2 Hk). split; [done|]. by rewrite Hd2, Hl2.
    + subst k e2. apply (Hslotu j e1 Hj). split; [done|]. by rewrite <- Hd2, <- Hl2.
    + by apply (Huniq j k e1 e2).
Qed.

Lemma contents_fill s id lba i e dev id' lba' :
  blk_inv s -> slot_for s id lba i -> entry_is id lba e -> registered s id dev -> 0 <= lba < block_count dev ->
  length (e_data e) = 512%nat -> (e_dirty e = 0 -> e_data e = disk id (drv s) lba) ->
  contents (set_cache s (<[i := e]> (buffer_cache s))) id' lba' =
    if decide (id' = id /\ lba' = lba) then e_data e else contents s id' lba'.
Proof.
  intros Hs Hslot He Hreg Hlba Hdata Hclean.
  pose proof (fill_inv s id lba i e dev Hs Hslot He Hreg Hlba Hdata Hclean) as Hs'.
  case_decide as E.
  - apply contents_cached; [done|]. apply (cached_fill s id lba i e); [done|done|]. by rewrite decide_True.
  - destruct (cached_dec s id' lba') as [[e' He']|Hno].
    + rewrite (contents_cached s id' lba' e') by done. apply contents_cached; [done|].
      apply (cached_fill s id lba i e); [done|done|]. by rewrite decide_False.
    + rewrite (contents_uncached s) by done. rewrite contents_uncached; [done|].
      intros e' He'. apply (cached_fill s id lba i e) in He'; [|done|done]. rewrite decide_False in He' by done.
      by apply (Hno e').
Qed.

Lemma hit_slot s id lba i : blk_inv s -> blk_cache_lookup id lba s = Some i -> slot_for s id lba i.
Proof.
  intros Hs E. apply lookup_hit in E as (e & Hi & He). exists e. split_and!; [done|by right|].
  intros j e' Hj (Hv' & Hd' & Hl'). destruct He as (Hv & Hd & Hl).
  eapply bi_unique; [done|exact Hj|exact Hi| |done]. split; [done|]. split; congruence.
Qed.

Lemma empty_slot s id lba i : blk_cache_lookup id lba s = None -> blk_cache_find_empty s = Some i -> slot_for s id lba i.
Proof.
  intros Hn E. apply find_empty_hit in E as (e & Hi & He). exists e. split_and!; [done|by left|].
  intros j e' Hj He'. exfalso. eapply (lookup_miss _ _ _ Hn e'). by exists j.
Qed.

Lemma set_drv_id s : set_drv s (drv s) = s.
Proof. by destruct s. Qed.

Lemma get_device_range s id p : blk_get_device id s = Some (Some p) -> id < 16.
Proof. unfold blk_get_device, MCSOS_MAX_BLOCK_DEVICES. destruct (Z.leb_spec 16 id); [done|]. intros _. lia. Qed.

(** ** The operations *)

Lemma contents_len s id dev lba : blk_inv s -> registered s id dev -> 0 <= lba < block_count dev ->
  length (contents s id lba) = 512%nat.
Proof.
  intros Hs Hreg Hlba. destruct (cached_dec s id lba) as [[e He]|Hno].
  - rewrite (contents_cached _ _ _ e) by done. destruct He as (i & Hi & Hv & _). by apply (bi_entries _ Hs i e Hi Hv).
  - rewrite contents_uncached by done. destruct (bi_drivers _ Hs id dev Hreg). apply bd_len0; [apply Hs|done].
Qed.

Lemma blk_read_spec s id dev lba buf :
  blk_inv s -> registered s id dev -> 0 <= lba < block_count dev -> length buf = 512%nat ->
  exists s', blk_read id lba (Some buf) s = Some (BLK_OK, Some (contents s id lba), s') /\
    blk_inv s' /\ same_registry s s' /\ forall id' lba', contents s' id' lba' = contents s id' lba'.
Proof.
  intros Hs Hreg Hlba Hbuf. pose proof Hreg as (p & Hp & Hdev). unfold blk_read. rewrite Hp. cbn [mbind option_bind].
  rewrite Hdev. cbn [mbind option_bind]. destruct (Z.leb_spec (block_count dev) lba); [lia|].
  destruct (blk_cache_lookup id lba s) as [i|] eqn:E.
  - pose proof E as (e & Hi & He)%lookup_hit. rewrite Hi. cbn [mbind option_bind].
    assert (Hlen : length (e_data e) = 512%nat) by (apply (bi_entries _ Hs i e Hi), He).
    rewrite slice_all by (rewrite Hlen; done). cbn [mbind option_bind]. rewrite splice_all by congruence.
    cbn [mbind option_bind]. exists s. split_and!; try done.
    rewrite (contents_cached s id lba e); [done|done|by exists i].
  - pose proof (lookup_miss _ _ _ E) as Hno.
    destruct (bi_drivers _ Hs id dev Hreg) as [Hdl Hdr _ _].
    destruct (Hdr (drv s) lba buf) as (o & rd & Ho & Hrd & Hrun); [apply Hs|done|done|].
    rewrite Ho. cbn [mbind option_bind]. rewrite Hrd. cbn [mbind option_bind]. rewrite Hrun. cbn [mbind option_bind].
    change (negb (BLK_OK =? BLK_OK)) with false. cbv iota. rewrite set_drv_id.
    rewrite (contents_uncached s id lba) by done. destruct (blk_cache_find_empty s) as [i|] eqn:Ee.
    + assert (Hlen : length (disk id (drv s) lba) = 512%nat) by (apply Hdl; [apply Hs|done]).
      rewrite slice_all by (rewrite Hlen; done). cbn [mbind option_bind].
      pose proof (empty_slot s id lba i E Ee) as Hslot.
      assert (He : entry_is id lba (mk_entry id lba 1 0 (disk id (drv s) lba))) by done.
      eexists. split_and!; [done|by apply (fill_inv s id lba i _ dev)|done|].
      intros id' lba'. rewrite (contents_fill s id lba i _ dev) by done. case_decide as Eq; [|done].
      destruct Eq as [-> ->]. by rewrite (contents_uncached s id lba).
    + exists s. done.
Qed.

Definition room s (id lba : Z) : Prop :=
  blk_cache_lookup id lba s <> None \/ blk_cache_find_empty s <> None.

Lemma blk_write_spec s id dev lba buf :
  blk_inv s -> registered s id dev -> 0 <= lba < block_count dev -> length buf = 512%nat ->
  exists s', blk_write id lba (Some buf) s = Some (BLK_OK, s') /\ blk_inv s' /\ same_registry s s' /\
    (room s id lba -> forall id' lba',
       contents s' id' lba' = if decide (id' = id /\ lba' = lba) then buf else contents s id' lba') /\
    (~ room s id lba -> s' = s).
Proof.
  intros Hs Hreg Hlba Hbuf. pose proof Hreg as (p & Hp & Hdev). unfold blk_write. rewrite Hp. cbn [mbind option_bind].
  rewrite Hdev. cbn [mbind option_bind]. destruct (Z.leb_spec (block_count dev) lba); [lia|].
  assert (Hfill : forall i, slot_for s id lba i -> room s id lba ->
    exists s', (data ← slice buf 0 MCSOS_BLOCK_SIZE;
       Some (BLK_OK, set_cache s (<[i:=mk_entry id lba 1 1 data]> (buffer_cache s)))) = Some (BLK_OK, s') /\
      blk_inv s' /\ same_registry s s' /\
      (room s id lba -> forall id' lba',
         contents s' id' lba' = if decide (id' = id /\ lba' = lba) then buf else contents s id' lba') /\
      (~ room s id lba -> s' = s)).
  { intros i Hslot Hroom. rewrite slice_all by (rewrite Hbuf; done). cbn [mbind option_bind].
    assert (He : entry_is id lba (mk_entry id lba 1 1 buf)) by done.
    eexists. split_and!; [done|by apply (fill_inv s id lba i _ dev)|done| |done].
    intros _ id' lba'. by rewrite (contents_fill s id lba i _ dev). }
  destruct (blk_cache_lookup id lba s) as [i|] eqn:E; [|destruct (blk_cache_find_empty s) as [i|] eqn:Ee].
  - apply Hfill; [by apply hit_slot|left; congruence].
  - apply Hfill; [by apply empty_slot|right; congruence].
  - exists s. split_and!; try done. intros [Hr|Hr]; congruence.
Qed.

(** Bad arguments: a [NULL] buffer, a device number nothing is registered
    under (also one beyond the table) and a block number beyond the device
    get their own error codes from [blk_read], [blk_write] and [blk_flush],
    and the state and the caller's buffer stay as they were. *)
Theorem blk_io_errors s id lba buf :
  0 <= id -> length (block_device_table s) = 16%nat ->
  (forall i p, block_device_table s !! i = Some (Some p) -> is_Some (devices s !! p)) ->
  blk_read id lba None s = Some (BLK_ERR_INVALID_LBA, None, s) /\
  blk_write id lba None s = Some (BLK_ERR_INVALID_LBA, s) /\
  ((forall dev, ~ registered s id dev) ->
     blk_read id lba (Some buf) s = Some (BLK_ERR_INVALID_DEV, Some buf, s) /\
     blk_write id lba (Some buf) s = Some (BLK_ERR_INVALID_DEV, s) /\
     blk_flush id s = Some (BLK_ERR_INVALID_DEV, s)) /\
  (forall dev, registered s id dev -> block_count dev <= lba ->
     blk_read id lba (Some buf) s = Some (BLK_ERR_INVALID_LBA, Some buf, s) /\
     blk_write id lba (Some buf) s = Some (BLK_ERR_INVALID_LBA, s)).
Proof.
  intros Hid Hlen Htab. split_and!; [done|done| |].
  - intros Hno. assert (Hg : blk_get_device id s = Some None).
    { unfold blk_get_device, MCSOS_MAX_BLOCK_DEVICES. destruct (Z.leb_spec 16 id); [done|].
      destruct (arr_get_is_Some (block_device_table s) id) as [[p|] Hp]; [lia| |done].
      exfalso. unfold arr_get in Hp. destruct (Z.ltb_spec id 0); [lia|]. destruct (Htab _ _ Hp) as [dev Hdev].
      apply (Hno dev). exists p. split; [|done]. unfold blk_get_device, MCSOS_MAX_BLOCK_DEVICES, arr_get.
      destruct (Z.leb_spec 16 id); [lia|]. by destruct (Z.ltb_spec id 0); [lia|]. }
    unfold blk_read, blk_write, blk_flush. by rewrite Hg.
  - intros dev (p & Hp & Hdev) Hl. unfold blk_read, blk_write. rewrite Hp. cbn [mbind option_bind]. rewrite Hdev.
    cbn [mbind option_bind]. by destruct (Z.leb_spec (block_count dev) lba); [|lia].
Qed.

(** ** Flushing *)

Definition needs (id : Z) (e : buffer_cache_entry) : bool :=
  negb (e_valid e =? 0) && (e_dev e =? id) && negb (e_dirty e =? 0).

Lemma needs_true id e : needs id e = true <-> e_valid e <> 0 /\ e_dev e = id /\ e_dirty e <> 0.
Proof.
  unfold needs. rewrite !andb_true_iff, !negb_true_iff, !Z.eqb_neq, Z.eqb_eq. tauto.
Qed.

(** No block appears twice among the valid entries. *)
Definition distinct (es : list buffer_cache_entry) : Prop :=
  forall i j e e', es !! i = Some e -> es !! j = Some e' ->
    entry_is (e_dev e) (e_lba e) e' -> e_valid e <> 0 -> i = j.

Lemma distinct_tail e es : distinct (e :: es) -> distinct es.
Proof. intros H i j e1 e2 Hi Hj Hm Hv. by injection (H (S i) (S j) e1 e2 Hi Hj Hm Hv). Qed.

Lemma distinct_head e es e' : distinct (e :: es) -> e_valid e <> 0 -> e' ∈ es -> e_valid e' <> 0 ->
  e_dev e' = e_dev e -> e_lba e' <> e_lba e.
Proof.
  intros H Hv [j Hj]%list_elem_of_lookup Hv' Hd Hl.
  by pose proof (H 0%nat (S j) e e' eq_refl Hj (conj Hv' (conj Hd Hl)) Hv).
Qed.

(** The effect of writing the entries selected by [f] to their devices. *)
Definition flushed (f : buffer_cache_entry -> bool) (es : list buffer_cache_entry) (d d' : D) : Prop :=
  ok d' /\
  (forall e, e ∈ es -> f e = true -> disk (e_dev e) d' (e_lba e) = e_data e) /\
  (forall id lba, (forall e, e ∈ es -> f e = true -> ~ (e_dev e = id /\ e_lba e = lba)) ->
     disk id d' lba = disk id d lba).

Lemma flushed_nil f d : ok d -> flushed f [] d d.
Proof. intros Hd. split_and!; [done| |done]. intros e He. by apply elem_of_nil in He. Qed.

Lemma flushed_skip f e es d d' : f e = false -> flushed f es d d' -> flushed f (e :: es) d d'.
Proof.
  intros Hf (Hok & H1 & H2). split_and!; [done| |].
  - intros e' [->|He]%elem_of_cons Hf'; [congruence|by apply H1].
  - intros id lba Hno. apply H2. intros e' He Hf'. apply Hno; [by right|done].
Qed.

Lemma flushed_write f e es d d1 d' :
  f e = true -> (forall e, f e = true -> e_valid e <> 0) -> distinct (e :: es) ->
  (forall id lba, disk id d1 lba = if decide (id = e_dev e /\ lba = e_lba e) then e_data e else disk id d lba) ->
  flushed f es d1 d' -> flushed f (e :: es) d d'.
Proof.
  intros Hf Hfv Hdist Hw (Hok & H1 & H2). split_and!; [done| |].
  - intros e' [->|He]%elem_of_cons Hf'; [|by apply H1]. rewrite H2, Hw, decide_True; [done|done|].
    intros e'' He'' Hf'' [Hd Hl]. by eapply (distinct_head e es e''); auto.
  - intros id lba Hno. rewrite H2, Hw.
    + rewrite decide_False; [done|]. intros [-> ->]. by apply (Hno e); [left|done|].
    + intros e' He' Hf'. apply Hno; [by right|done].
Qed.

Definition entries_in_range s (es : list buffer_cache_entry) : Prop :=
  forall e, e ∈ es -> e_valid e <> 0 ->
    exists dev, registered s (e_dev e) dev /\ 0 <= e_lba e < block_count dev /\ length (e_data e) = 512%nat.

Lemma entries_tail s e es : entries_in_range s (e :: es) -> entries_in_range s es.
Proof. intros H e' He'. apply H. by right. Qed.

Lemma registered_inj s id dev dev' : registered s id dev -> registered s id dev' -> dev = dev'.
Proof. intros (p & Hp & Hd) (p' & Hp' & Hd'). congruence. Qed.

Lemma flush_dev_from_spec s id dev o es d :
  (forall id dev, registered s id dev -> BlockDriver ok disk id dev) ->
  registered s id dev -> ops dev = Some o -> ok d -> entries_in_range s es -> distinct es ->
  exists d', flush_dev_from (op_write o) id es d =
      Some (true, map (fun e => if needs id e then clean e else e) es, d') /\
    flushed (needs id) es d d'.
Proof.
  intros Hdrv Hreg Ho. revert d. induction es as [|e es IH]; intros d Hd Hr Hdist.
  { exists d. split; [done|by apply flushed_nil]. }
  pose proof (entries_tail _ _ _ Hr) as Hr'. pose proof (distinct_tail _ _ Hdist) as Hdist'.
  cbn [flush_dev_from map]. fold (needs id e). destruct (needs id e) eqn:En.
  - pose proof (proj1 (needs_true id e) En) as (Hv & Hid & _).
    destruct (Hr e) as (dev' & Hreg' & Hlba & Hlen); [by left|done|]. rewrite Hid in Hreg'.
    assert (dev' = dev) as -> by (by eapply registered_inj).
    destruct (Hdrv id dev Hreg) as [_ _ Hw _].
    destruct (Hw d (e_lba e) (e_data e)) as (o' & wr & d1 & Ho' & Hwr & Hrun & Hok1 & Heff); [done|done|done|].
    rewrite Ho in Ho'. injection Ho' as <-. rewrite Hwr. cbn [mbind option_bind]. rewrite Hrun.
    cbn [mbind option_bind fst snd]. change (negb (BLK_OK =? BLK_OK)) with false. cbv iota.
    rewrite <- Hwr. destruct (IH d1 Hok1 Hr' Hdist') as (d' & Hloop & Hfl). rewrite Hloop. cbn [mbind option_bind fst snd].
    exists d'. split; [done|]. eapply flushed_write; [exact En| |done| |exact Hfl].
    + intros e' ?%needs_true. tauto.
    + intros id' lba'. rewrite Heff. by rewrite Hid.
  - destruct (IH d Hd Hr' Hdist') as (d' & Hloop & Hfl). rewrite Hloop. exists d'. split; [done|by apply flushed_skip].
Qed.

Definition dirty_entry (e : buffer_cache_entry) : bool := negb (e_valid e =? 0) && negb (e_dirty e =? 0).

Lemma flush_all_from_spec s es rc d :
  (forall id dev, registered s id dev -> BlockDriver ok disk id dev) ->
  ok d -> entries_in_range s es -> distinct es ->
  exists d', flush_all_from s es rc d =
      Some (rc, map (fun e => if dirty_entry e then clean e else e) es, d') /\
    flushed dirty_entry es d d'.
Proof.
  intros Hdrv. revert d. induction es as [|e es IH]; intros d Hd Hr Hdist.
  { exists d. split; [done|by apply flushed_nil]. }
  pose proof (entries_tail _ _ _ Hr) as Hr'. pose proof (distinct_tail _ _ Hdist) as Hdist'.
  cbn [flush_all_from map]. fold (dirty_entry e). destruct (dirty_entry e) eqn:En.
  - assert (Hv : e_valid e <> 0).
    { unfold dirty_entry in En. apply andb_true_iff in En as [Hv _]. by rewrite negb_true_iff, Z.eqb_neq in Hv. }
    destruct (Hr e) as (dev & Hreg & Hlba & Hlen); [by left|done|].
    pose proof Hreg as (p & Hp & Hdev). rewrite Hp. cbn [mbind option_bind]. rewrite Hdev. cbn [mbind option_bind].
    destruct (Hdrv _ dev Hreg) as [_ _ Hw _].
    destruct (Hw d (e_lba e) (e_data e)) as (o & wr & d1 & Ho & Hwr & Hrun & Hok1 & Heff); [done|done|done|].
    rewrite Ho. cbn [mbind option_bind]. rewrite Hwr. cbn [mbind option_bind]. rewrite Hrun.
    cbn [mbind option_bind fst snd]. change (negb (BLK_OK =? BLK_OK)) with false. cbv iota.
    destruct (IH d1 Hok1 Hr' Hdist') as (d' & Hloop & Hfl). rewrite Hloop. cbn [mbind option_bind fst snd].
    exists d'. split; [done|]. eapply flushed_write; [exact En| |done|exact Heff|exact Hfl].
    intros e' He'. unfold dirty_entry in He'. apply andb_true_iff in He' as [Hv' _].
    by rewrite negb_true_iff, Z.eqb_neq in Hv'.
  - destruct (IH d Hd Hr' Hdist') as (d' & Hloop & Hfl). rewrite Hloop. exists d'. split; [done|by apply flushed_skip].
Qed.

Lemma inv_entries s : blk_inv s -> entries_in_range s (buffer_cache s) /\ distinct (buffer_cache s).
Proof.
  intros Hs. split.
  - intros e [i Hi]%list_elem_of_lookup Hv. destruct (bi_entries _ Hs i e Hi Hv) as ((dev & ? & ?) & ? & _). eauto.
  - intros i j e e' Hi Hj Hm Hv. by eapply bi_unique.
Qed.

Lemma lookup_cleaned (f : buffer_cache_entry -> bool) es i e' :
  map (fun e => if f e then clean e else e) es !! i = Some e' ->
  exists e, es !! i = Some e /\ e_dev e' = e_dev e /\ e_lba e' = e_lba e /\ e_valid e' = e_valid e /\
    e_data e' = e_data e /\ (e' = e /\ f e = false \/ e_dirty e' = 0 /\ f e = true).
Proof.
  intros (e & -> & Hi)%list_lookup_fmap_Some. exists e. split; [done|]. destruct (f e); simpl; auto 10.
Qed.

(** Writing back a set of dirty entries keeps the invariant and what the
    layer promises. *)
Lemma flush_inv s f d' :
  blk_inv s -> (forall e, f e = true -> e_valid e <> 0 /\ e_dirty e <> 0) ->
  flushed f (buffer_cache s) (drv s) d' ->
  let s' := set_drv (set_cache s (map (fun e => if f e then clean e else e) (buffer_cache s))) d' in
  blk_inv s' /\ forall id lba, contents s' id lba = contents s id lba.
Proof.
  intros Hs Hfd (Hok & Hwr & Hrest). cbv zeta. set (s' := set_drv _ d').
  assert (Hinv : blk_inv s').
  { destruct (inv_entries s Hs) as [_ Hdist]. constructor; simpl; [|done|apply Hs| |].
    - rewrite length_map. apply Hs.
    - intros i e' Hi Hv. destruct (lookup_cleaned f _ i e' Hi) as (e & He & Hd & Hl & Hv' & Hda & Hcase).
      rewrite Hd, Hl, Hda. rewrite Hv' in Hv. destruct (bi_entries _ Hs i e He Hv) as (? & ? & Hcl). split_and!; [done|done|].
      intros Hdirty. destruct Hcase as [[-> Hf]|[_ Hf]].
      + rewrite Hrest; [by apply Hcl|]. intros e2 [j Hj]%list_elem_of_lookup Hf2 [Hd2 Hl2].
        destruct (Hfd e2 Hf2) as [Hv2 _]. assert (j = i) as -> by (eapply (Hdist j i e2 e); [done|done| |done]; done).
        rewrite He in Hj. injection Hj as <-. congruence.
      + symmetry. apply Hwr; [|done]. apply list_elem_of_lookup. eauto.
    - intros i j e1 e2 Hi Hj Hm Hv. destruct (lookup_cleaned f _ i e1 Hi) as (x1 & Hx1 & Hd1 & Hl1 & Hv1 & _).
      destruct (lookup_cleaned f _ j e2 Hj) as (x2 & Hx2 & Hd2 & Hl2 & Hv2 & _).
      destruct Hm as (? & ? & ?). eapply (Hdist i j x1 x2); [done|done| |congruence]. split_and!; congruence. }
  split; [done|]. intros id lba. destruct (cached_dec s' id lba) as [[e' He']|Hno].
  - rewrite (contents_cached s' id lba e') by done. destruct He' as (i & Hi & Hm).
    destruct (lookup_cleaned f _ i e' Hi) as (e & He & Hd & Hl & Hv & Hda & _).
    rewrite Hda. symmetry. apply contents_cached; [done|]. exists i. split; [done|].
    destruct Hm as (? & ? & ?). split_and!; congruence.
  - assert (Hno' : forall e, ~ cached s id lba e).
    { intros e (i & Hi & Hm). apply (Hno (if f e then clean e else e)). exists i. simpl.
      rewrite list_lookup_fmap, Hi. split; [done|]. destruct Hm as (? & ? & ?). by destruct (f e). }
    rewrite (contents_uncached s'), (contents_uncached s) by done. apply Hrest.
    intros e [i Hi]%list_elem_of_lookup Hf [Hd Hl]. apply (Hno' e). exists i. split; [done|].
    split_and!; [by apply Hfd|done|done].
Qed.

(** After a write-back that covers device [id], the medium holds what the
    layer promises for it. *)
Lemma flushed_durable s f d' id lba :
  blk_inv s -> (forall e, f e = true -> e_valid e <> 0 /\ e_dirty e <> 0) ->
  (forall e, e_valid e <> 0 -> e_dev e = id -> e_dirty e <> 0 -> f e = true) ->
  flushed f (buffer_cache s) (drv s) d' -> disk id d' lba = contents s id lba.
Proof.
  intros Hs Hfd Hcov (Hok & Hwr & Hrest). destruct (inv_entries s Hs) as [_ Hdist].
  destruct (cached_dec s id lba) as [[e He]|Hno].
  - rewrite (contents_cached s id lba e) by done. destruct He as (i & Hi & Hv & <- & <-).
    destruct (decide (e_dirty e = 0)) as [Hc|Hc].
    + rewrite Hrest; [symmetry; by apply (bi_entries _ Hs i e Hi Hv)|].
      intros e2 [j Hj]%list_elem_of_lookup Hf2 [Hd2 Hl2]. destruct (Hfd e2 Hf2) as [Hv2 Hdirty2].
      assert (j = i) as -> by (eapply (Hdist j i e2 e); [done|done| |done]; done). congruence.
    + apply Hwr; [apply list_elem_of_lookup; eauto|]. by apply Hcov.
  - rewrite contents_uncached by done. apply Hrest. intros e [i Hi]%list_elem_of_lookup Hf [Hd Hl].
    apply (Hno e). exists i. split; [done|]. split_and!; [by apply Hfd|done|done].
Qed.

Lemma needs_dirty id e : needs id e = true -> e_valid e <> 0 /\ e_dirty e <> 0.
Proof. intros ?%needs_true. tauto. Qed.

Lemma dirty_entry_true e : dirty_entry e = true <-> e_valid e <> 0 /\ e_dirty e <> 0.
Proof. unfold dirty_entry. rewrite !andb_true_iff, !negb_true_iff, !Z.eqb_neq. tauto. Qed.

Lemma set_drv_inv s d' :
  blk_inv s -> ok d' -> (forall id lba, disk id d' lba = disk id (drv s) lba) ->
  blk_inv (set_drv s d') /\ forall id lba, contents (set_drv s d') id lba = contents s id lba.
Proof.
  intros [H1 H2 H3 H4 H5] Hok Hd. split.
  - constructor; simpl; try done. intros i e Hi Hv. destruct (H4 i e Hi Hv) as (? & ? & Hcl).
    split_and!; [done|done|]. intros Hdirty. rewrite Hd. by apply Hcl.
  - intros id lba. unfold contents, blk_cache_lookup. simpl. by rewrite Hd.
Qed.

Lemma blk_flush_spec s id dev :
  blk_inv s -> registered s id dev ->
  exists s', blk_flush id s = Some (BLK_OK, s') /\ blk_inv s' /\ same_registry s s' /\
    (forall id' lba', contents s' id' lba' = contents s id' lba') /\
    forall lba, disk id (drv s') lba = contents s id lba.
Proof.
  intros Hs Hreg. pose proof Hreg as (p & Hp & Hdev). unfold blk_flush. rewrite Hp. cbn [mbind option_bind].
  rewrite Hdev. cbn [mbind option_bind]. pose proof (bi_drivers _ Hs id dev Hreg) as [_ _ _ Hfl].
  destruct (Hfl (drv s)) as (o & fl & _ & Ho & Hflush & _); [apply Hs|]. rewrite Ho, Hflush.
  destruct (inv_entries s Hs) as [Hr Hdist].
  destruct (flush_dev_from_spec s id dev o (buffer_cache s) (drv s)) as (d1 & Hloop & Hfd);
    [apply Hs|done|done|apply Hs|done|done|].
  rewrite Hloop. cbn [mbind option_bind fst snd negb].
  destruct (flush_inv s (needs id) d1 Hs (needs_dirty id) Hfd) as [Hs1 Hc1]. set (s1 := set_drv _ d1) in *.
  destruct (Hfl (drv s1)) as (o' & fl' & d2 & Ho' & Hflush' & Hrun & Hok2 & Hsame); [apply Hs1|].
  rewrite Ho in Ho'. injection Ho' as <-. rewrite Hflush in Hflush'. injection Hflush' as <-.
  rewrite Hrun. cbn [mbind option_bind fst snd].
  destruct (set_drv_inv s1 d2 Hs1 Hok2 Hsame) as [Hs2 Hc2].
  exists (set_drv s1 d2). split_and!; [done|done|done| |].
  - intros id' lba'. by rewrite Hc2, Hc1.
  - intros lba. simpl. rewrite Hsame. apply (flushed_durable s (needs id) d1); [done|apply needs_dirty| |done].
    intros e ???. by apply needs_true.
Qed.

Lemma blk_cache_flush_all_spec s :
  blk_inv s ->
  exists s', blk_cache_flush_all s = Some (BLK_OK, s') /\ blk_inv s' /\ same_registry s s' /\
    forall id lba, contents s' id lba = contents s id lba /\ disk id (drv s') lba = contents s id lba.
Proof.
  intros Hs. unfold blk_cache_flush_all. destruct (inv_entries s Hs) as [Hr Hdist].
  destruct (flush_all_from_spec s (buffer_cache s) BLK_OK (drv s)) as (d1 & Hloop & Hfd);
    [apply Hs|apply Hs|done|done|]. rewrite Hloop. cbn [mbind option_bind fst snd].
  assert (Hdirty : forall e, dirty_entry e = true -> e_valid e <> 0 /\ e_dirty e <> 0) by (intros e; apply dirty_entry_true).
  destruct (flush_inv s dirty_entry d1 Hs Hdirty Hfd) as [Hs1 Hc1].
  eexists. split_and!; [done|done|done|]. intros id lba. split; [apply Hc1|].
  apply (flushed_durable s dirty_entry d1); [done|done| |done]. intros e ???. by apply dirty_entry_true.
Qed.

Lemma cache_init_contents s id lba : contents (blk_cache_init s) id lba = disk id (drv s) lba.
Proof.
  rewrite contents_uncached; [done|]. intros e (i & Hi & Hv & _).
  change (replicate (Z.to_nat MCSOS_BUFFER_CACHE_ENTRIES) empty_entry !! i = Some e) in Hi. apply lookup_replicate_1 in Hi as [-> _]. done.
Qed.

(** C6. The cache is transparent: behind drivers that store blocks, and as
    long as there is a slot for the block written, the layer behaves as one
    array of blocks per device.  [blk_read] returns the block's contents and
    changes none, [blk_write] changes exactly the block it names, and
    [blk_flush] and [blk_cache_flush_all] change none; all of them return
    [BLK_OK] and keep the cache invariant. *)
Theorem blk_layer_refines s id dev lba buf :
  blk_inv s -> registered s id dev -> 0 <= lba < block_count dev -> length buf = 512%nat ->
  (exists s', blk_read id lba (Some buf) s = Some (BLK_OK, Some (contents s id lba), s') /\ blk_inv s' /\
     forall id' lba', contents s' id' lba' = contents s id' lba') /\
  (room s id lba -> exists s', blk_write id lba (Some buf) s = Some (BLK_OK, s') /\ blk_inv s' /\
     forall id' lba', contents s' id' lba' = if decide (id' = id /\ lba' = lba) then buf else contents s id' lba') /\
  (exists s', blk_flush id s = Some (BLK_OK, s') /\ blk_inv s' /\
     forall id' lba', contents s' id' lba' = contents s id' lba') /\
  (exists s', blk_cache_flush_all s = Some (BLK_OK, s') /\ blk_inv s' /\
     forall id' lba', contents s' id' lba' = contents s id' lba').
Proof.
  intros Hs Hreg Hlba Hbuf. split_and!.
  - destruct (blk_read_spec s id dev lba buf) as (s' & ? & ? & _ & ?); eauto.
  - intros Hroom. destruct (blk_write_spec s id dev lba buf) as (s' & ? & ? & _ & Hw & _); eauto.
  - destruct (blk_flush_spec s id dev) as (s' & ? & ? & _ & ? & _); eauto.
  - destruct (blk_cache_flush_all_spec s) as (s' & ? & ? & _ & Hc); [done|]. exists s'. split_and!; [done|done|]. apply Hc.
Qed.

(** C33. Durability: once [blk_flush] has returned, the device's medium alone
    holds what the layer promised, so losing the cache (as [blk_init] does)
    loses nothing of that device; [blk_cache_flush_all] gives it for all
    devices. *)
Theorem blk_flush_durable s id dev :
  blk_inv s -> registered s id dev ->
  (exists s', blk_flush id s = Some (BLK_OK, s') /\ blk_inv s' /\
     forall lba, contents (blk_cache_init s') id lba = contents s id lba) /\
  (exists s', blk_cache_flush_all s = Some (BLK_OK, s') /\ blk_inv s' /\
     forall id' lba, contents (blk_cache_init s') id' lba = contents s id' lba).
Proof.
  intros Hs Hreg. split.
  - destruct (blk_flush_spec s id dev) as (s' & ? & ? & _ & _ & Hd); [done|done|].
    exists s'. split_and!; [done|done|]. intros lba. by rewrite cache_init_contents.
  - destruct (blk_cache_flush_all_spec s) as (s' & ? & ? & _ & Hc); [done|].
    exists s'. split_and!; [done|done|]. intros id' lba. rewrite cache_init_contents. apply Hc.
Qed.

(** A full cache loses writes: when all 32 entries are in use and none
    holds the block, [blk_write] stores the data nowhere and still returns
    [BLK_OK]; the next [blk_read] of the block returns the old contents. *)
Theorem blk_write_lost_when_full s id dev lba buf buf2 :
  blk_inv s -> registered s id dev -> 0 <= lba < block_count dev ->
  length buf = 512%nat -> length buf2 = 512%nat -> ~ room s id lba ->
  blk_write id lba (Some buf) s = Some (BLK_OK, s) /\
  exists s', blk_read id lba (Some buf2) s = Some (BLK_OK, Some (contents s id lba), s').
Proof.
  intros Hs Hreg Hlba Hb Hb2 Hroom. destruct (blk_write_spec s id dev lba buf) as (s' & Hw & _ & _ & _ & Hsame); [done..|].
  rewrite (Hsame Hroom) in Hw. split; [done|].
  destruct (blk_read_spec s id dev lba buf2) as (s2 & ? & _); eauto.
Qed.

End proofs.
End BlockProofs.

(** ** The RAM driver implements the interface *)

Module RamblkProofs.
Import Block Ramblk BlockProofs.

Definition ramblk_ok (d : ramblk_device) : Prop :=
  magic d = RAMBLK_MAGIC /\ length (storage d) = 4096%nat /\ Forall (fun b => length b = 512%nat) (storage d).

(** Device 0 is the RAM disk. *)
Definition ramblk_disk (id : Z) (d : ramblk_device) (lba : Z) : list Z :=
  if decide (id = 0) then default [] (arr_get (storage d) lba) else [].

Lemma ramblk_get d lba : ramblk_ok d -> 0 <= lba < 4096 ->
  exists b, arr_get (storage d) lba = Some b /\ length b = 512%nat.
Proof.
  intros (_ & Hl & Hf) Hlba. destruct (arr_get_is_Some (storage d) lba) as [b Hb]; [lia|]. exists b. split; [done|].
  unfold arr_get in Hb. destruct (lba <? 0); [done|]. by eapply Forall_lookup_1 in Hf.
Qed.

#[export] Instance ramblk_driver n : BlockDriver ramblk_ok ramblk_disk 0
  (mk_blkdev n MCSOS_BLOCK_SIZE RAMBLK_DEVICE_SIZE_BLOCKS (Some ramblk_ops)).
Proof.
  split; simpl; unfold RAMBLK_DEVICE_SIZE_BLOCKS.
  - intros d lba Hok Hlba. destruct (ramblk_get d lba Hok Hlba) as (b & Hb & Hl). unfold ramblk_disk. by rewrite decide_True, Hb.
  - intros d lba buf Hok Hlba Hbuf. exists ramblk_ops, ramblk_read. split_and!; [done|done|].
    destruct (ramblk_get d lba Hok Hlba) as (b & Hb & Hl). destruct Hok as (Hm & _).
    unfold ramblk_read, ramblk_disk, RAMBLK_DEVICE_SIZE_BLOCKS. destruct (Z.leb_spec 4096 lba); [lia|].
    rewrite Hm, Z.eqb_refl, Hb. simpl. rewrite slice_all by (rewrite Hl; done). simpl.
    rewrite splice_all by congruence. done.
  - intros d lba buf Hok Hlba Hbuf. exists ramblk_ops, ramblk_write. destruct Hok as (Hm & Hl & Hf).
    unfold ramblk_write, RAMBLK_DEVICE_SIZE_BLOCKS. destruct (Z.leb_spec 4096 lba); [lia|].
    rewrite Hm, Z.eqb_refl. simpl. rewrite slice_all by (rewrite Hbuf; done). simpl.
    rewrite arr_set_Some by lia. simpl. eexists. split_and!; [done|done|done| |].
    + split_and!; simpl; [done|by rewrite length_insert|by apply Forall_insert].
    + intros id' lba'. unfold ramblk_disk. simpl. destruct (decide (id' = 0)) as [->|]; [|by rewrite decide_False by naive_solver].
      rewrite arr_get_insert by lia. repeat case_decide; naive_solver.
  - intros d Hok. exists ramblk_ops, ramblk_flush, d. done.
Qed.

(** The statics of the two files before anything ran, [ramblk_block_device]
    being device structure 0. *)
Definition boot_state (d : ramblk_device) : blk_state ramblk_device :=
  mk_blk (replicate 16 None) 0 (replicate 32 empty_entry) [ramblk_block_device] d.

Definition ram_device : block_device ramblk_device :=
  mk_blkdev 0 MCSOS_BLOCK_SIZE RAMBLK_DEVICE_SIZE_BLOCKS (Some ramblk_ops).

(** The state with the RAM disk registered and the given cache. *)
Definition ram_state (c : list buffer_cache_entry) (d : ramblk_device) : blk_state ramblk_device :=
  mk_blk (Some 0%nat :: replicate 15 None) 1 c [ram_device] d.

Lemma ram_registered c d : registered (ram_state c d) 0 ram_device.
Proof. exists 0%nat. split; reflexivity. Qed.

Lemma ram_registered_inv c d id dev : registered (ram_state c d) id dev -> id = 0 /\ dev = ram_device.
Proof.
  intros (p & Hp & Hdev). unfold blk_get_device in Hp. destruct (MCSOS_MAX_BLOCK_DEVICES <=? id); [done|].
  unfold arr_get in Hp. destruct (Z.ltb_spec id 0); [done|].
  change (block_device_table (ram_state c d)) with (Some 0%nat :: replicate 15 None) in Hp.
  destruct (Z.to_nat id) as [|k] eqn:E; [|by apply lookup_replicate_1 in Hp as [? _]].
  injection Hp as <-. injection Hdev as <-. split; [lia|done].
Qed.

(** The cache invariant of the RAM disk, given that of the entries. *)
Lemma ram_inv c d :
  ramblk_ok d -> length c = 32%nat ->
  (forall i e, c !! i = Some e -> e_valid e <> 0 ->
     e_dev e = 0 /\ 0 <= e_lba e < 4096 /\ length (e_data e) = 512%nat /\ e_dirty e <> 0) ->
  distinct c -> blk_inv ramblk_ok ramblk_disk (ram_state c d).
Proof.
  intros Hok Hl He Hdist. constructor; [done|done| | |done].
  - intros id dev [-> ->]%ram_registered_inv. apply ramblk_driver.
  - intros i e Hi Hv. destruct (He i e Hi Hv) as (Hd & Hlba & Hlen & Hdirty). rewrite Hd.
    split_and!; [exists ram_device; split; [apply ram_registered|done]|done|done].
Qed.

Lemma ram_boot_inv d : ramblk_ok d -> blk_inv ramblk_ok ramblk_disk (ram_state (replicate 32 empty_entry) d).
Proof.
  intros Hok. apply ram_inv; [done|apply length_replicate|..].
  - intros i e Hi Hv. by apply lookup_replicate_1 in Hi as [-> _].
  - intros i j e e' Hi _ _ Hv. by apply lookup_replicate_1 in Hi as [-> _].
Qed.

(** [ramblk_init] at boot returns [BLK_OK] and makes the RAM disk device
    0 with 4096 blocks, the only device, in a state that satisfies the cache
    invariant over the RAM driver, with the contents of the RAM storage. *)
Theorem ramblk_init_layer d :
  ramblk_ok d ->
  exists s, ramblk_init 0 (boot_state d) = Some (BLK_OK, s) /\ blk_inv ramblk_ok ramblk_disk s /\
    (exists dev, registered s 0 dev /\ block_count dev = RAMBLK_DEVICE_SIZE_BLOCKS /\ dev_id dev = 0) /\
    (forall id dev, registered s id dev -> id = 0) /\
    forall id lba, contents ramblk_disk s id lba = ramblk_disk id d lba.
Proof.
  intros Hok. exists (ram_state (replicate 32 empty_entry) d). split_and!; [done|by apply ram_boot_inv| | |].
  - exists ram_device. split; [apply ram_registered|done].
  - intros id dev H. by destruct (ram_registered_inv _ _ _ _ H).
  - intros id lba. apply (cache_init_contents ramblk_disk (ram_state [] d)).
Qed.

Definition zero_disk : ramblk_device := mk_ramblk RAMBLK_MAGIC (replicate 4096 (replicate 512 0)).

Lemma zero_disk_ok : ramblk_ok zero_disk.
Proof.
  split; [reflexivity|]. split; [exact (length_replicate 4096 _)|]. apply Forall_replicate. exact (length_replicate 512 _).
Qed.

Lemma ramblk_init_layer_witness :
  exists s, ramblk_init 0 (boot_state zero_disk) = Some (BLK_OK, s) /\ blk_inv ramblk_ok ramblk_disk s.
Proof.
  destruct (ramblk_init_layer zero_disk zero_disk_ok) as (s & Hr & Hs & _). exists s. split; [exact Hr|exact Hs].
Defined.

Definition boot_ram : blk_state ramblk_device := ram_state (replicate 32 empty_entry) zero_disk.

Lemma blk_layer_refines_witness :
  exists s', blk_write 0 7 (Some (replicate 512 9)) boot_ram = Some (BLK_OK, s') /\
    contents ramblk_disk s' 0 7 = replicate 512 9.
Proof.
  destruct (blk_layer_refines ramblk_ok ramblk_disk boot_ram 0 ram_device 7 (replicate 512 9)
    (ram_boot_inv _ zero_disk_ok) (ram_registered _ _) ltac:(split; [lia|reflexivity]) (length_replicate 512 9))
    as (_ & Hw & _).
  destruct Hw as (s' & Hrun & _ & Hc); [right; discriminate|].
  exists s'. split; [exact Hrun|]. rewrite Hc. reflexivity.
Defined.

Lemma blk_flush_durable_witness :
  exists s', blk_flush 0 boot_ram = Some (BLK_OK, s') /\
    forall lba, contents ramblk_disk (blk_cache_init s') 0 lba = contents ramblk_disk boot_ram 0 lba.
Proof.
  destruct (blk_flush_durable ramblk_ok ramblk_disk boot_ram 0 ram_device (ram_boot_inv _ zero_disk_ok)
    (ram_registered _ _)) as ((s' & Hr & _ & Hc) & _).
  exists s'. split; [exact Hr|exact Hc].
Defined.

(** A cache full of dirty blocks 0 to 31. *)
Definition full_cache : list buffer_cache_entry :=
  map (fun i => mk_entry 0 i 1 1 (replicate 512 7)) (seqZ 0 32).
Definition full_ram : blk_state ramblk_device := ram_state full_cache zero_disk.

Lemma full_ram_inv : blk_inv ramblk_ok ramblk_disk full_ram.
Proof.
  assert (Hget : forall i e, full_cache !! i = Some e -> e = mk_entry 0 (Z.of_nat i) 1 1 (replicate 512 7) /\ (i < 32)%nat).
  { intros i e (z & -> & Hz)%list_lookup_fmap_Some. apply lookup_seqZ in Hz as [-> Hi]. split; [done|lia]. }
  apply ram_inv; [apply zero_disk_ok|reflexivity|..].
  - intros i e [-> Hi]%Hget _. split; [done|]. split; [simpl; lia|]. split; [exact (length_replicate 512 _)|done].
  - intros i j e e' [-> Hi]%Hget [-> Hj]%Hget (_ & _ & Hl) _. simpl in Hl. lia.
Qed.

Lemma blk_write_lost_when_full_witness :
  blk_write 0 40 (Some (replicate 512 9)) full_ram = Some (BLK_OK, full_ram) /\
  exists s', blk_read 0 40 (Some (replicate 512 1)) full_ram =
    Some (BLK_OK, Some (contents ramblk_disk full_ram 0 40), s').
Proof.
  apply (blk_write_lost_when_full ramblk_ok ramblk_disk full_ram 0 ram_device 40 (replicate 512 9) (replicate 512 1)
    full_ram_inv (ram_registered _ _)); [split; [lia|reflexivity]|reflexivity|reflexivity|].
  intros [H|H]; apply H; reflexivity.
Defined.

Lemma blk_io_errors_witness :
  blk_read 99 0 (Some [1]) boot_ram = Some (BLK_ERR_INVALID_DEV, Some [1], boot_ram) /\
  blk_write 0 5000 (Some [1]) boot_ram = Some (BLK_ERR_INVALID_LBA, boot_ram).
Proof.
  assert (Htab : forall i p, block_device_table boot_ram !! i = Some (Some p) -> is_Some (devices boot_ram !! p)).
  { intros [|i] p Hp; [injection Hp as <-; eexists; reflexivity|].
    apply (lookup_replicate_1 15 None) in Hp as [Hp _]. discriminate Hp. }
  destruct (blk_io_errors boot_ram 99 0 [1] ltac:(lia) eq_refl Htab) as (_ & _ & H1 & _).
  destruct (blk_io_errors boot_ram 0 5000 [1] ltac:(lia) eq_refl Htab) as (_ & _ & _ & H2).
  split.
  - apply H1. intros dev (p & Hp & _). discriminate Hp.
  - apply (H2 ram_device (ram_registered _ _)). discriminate.
Defined.

End RamblkProofs.
