(* ===== verification/Thread.v ===== *)
(** * Threads and the round-robin scheduler

    Model of [kernel/mcsos_thread.c] with [include/mcsos_thread.h], and of the
    register switch in [arch/x86_64/context_switch.S].  Thread control blocks
    live in a store indexed by their addresses, so the intrusive ready queue
    (the [next] fields) is shared mutable memory, as in the code; [0] is
    [NULL] and following an address that holds no thread is undefined. *)
From S2P Require Import Prelude.
From stdpp Require Import base gmap list numbers option strings relations.
From Stdlib Require Import ZArith Lia.

Open Scope Z_scope.

Module Thread.

Definition MCSOS_THREAD_MAGIC : Z := 0x4d435448524541.
Definition MCSOS_MIN_KERNEL_STACK : Z := 4096.
Definition MCSOS_STACK_ALIGN : Z := 16.

Definition MCSOS_SCHED_OK : Z := 0.
Definition MCSOS_SCHED_EINVAL : Z := -1.
Definition MCSOS_SCHED_ESTACK : Z := -2.
Definition MCSOS_SCHED_ESTATE : Z := -3.
Definition MCSOS_SCHED_ECORRUPT : Z := -4.

Inductive mcsos_thread_state_t :=
| MCSOS_THREAD_NEW
| MCSOS_THREAD_READY
| MCSOS_THREAD_RUNNING
| MCSOS_THREAD_BLOCKED
| MCSOS_THREAD_ZOMBIE.

#[export] Instance thread_state_eq_dec : EqDecision mcsos_thread_state_t.
Proof. solve_decision. Defined.

Record mcsos_context_t := mk_ctx {
  rsp : Z; rbp : Z; rbx : Z; r12 : Z; r13 : Z; r14 : Z; r15 : Z; rip : Z
}.

Record mcsos_thread_t := mk_thread {
  magic : Z;
  id : Z;
  name : string;
  state : mcsos_thread_state_t;
  context : mcsos_context_t;
  entry : Z;
  arg : Z;
  stack_base : Z;
  stack_size : Z;
  next : Z;
  switches : Z;
  t_ticks : Z;
  exit_code : Z
}.

Record mcsos_scheduler_t := mk_sched {
  initialized : Z;
  current : Z;
  idle : Z;
  ready_head : Z;
  ready_tail : Z;
  runnable_count : Z;
  context_switches : Z;
  s_ticks : Z;
  next_id : Z
}.

(** The scheduler object, the thread store, the callee-saved registers of the
    CPU, and the stack words [mcsos_thread_prepare] writes. *)
Record sys := mk_sys {
  sched : mcsos_scheduler_t;
  threads : gmap Z mcsos_thread_t;
  cpu : mcsos_context_t;
  words : gmap Z Z
}.

Definition set_state (t : mcsos_thread_t) (st : mcsos_thread_state_t) : mcsos_thread_t :=
  mk_thread (magic t) (id t) (name t) st (context t) (entry t) (arg t) (stack_base t) (stack_size t)
    (next t) (switches t) (t_ticks t) (exit_code t).
Definition set_next (t : mcsos_thread_t) (n : Z) : mcsos_thread_t :=
  mk_thread (magic t) (id t) (name t) (state t) (context t) (entry t) (arg t) (stack_base t) (stack_size t)
    n (switches t) (t_ticks t) (exit_code t).
Definition set_context (t : mcsos_thread_t) (c : mcsos_context_t) : mcsos_thread_t :=
  mk_thread (magic t) (id t) (name t) (state t) c (entry t) (arg t) (stack_base t) (stack_size t)
    (next t) (switches t) (t_ticks t) (exit_code t).
Definition inc_switches (t : mcsos_thread_t) : mcsos_thread_t :=
  mk_thread (magic t) (id t) (name t) (state t) (context t) (entry t) (arg t) (stack_base t) (stack_size t)
    (next t) (u64 (switches t + 1)) (t_ticks t) (exit_code t).
Definition inc_ticks (t : mcsos_thread_t) : mcsos_thread_t :=
  mk_thread (magic t) (id t) (name t) (state t) (context t) (entry t) (arg t) (stack_base t) (stack_size t)
    (next t) (switches t) (u64 (t_ticks t + 1)) (exit_code t).

Definition set_queue (s : mcsos_scheduler_t) (h t c : Z) : mcsos_scheduler_t :=
  mk_sched (initialized s) (current s) (idle s) h t c (context_switches s) (s_ticks s) (next_id s).

Definition set_threads (s : sys) (m : gmap Z mcsos_thread_t) : sys := mk_sys (sched s) m (cpu s) (words s).
Definition set_sched (s : sys) (sc : mcsos_scheduler_t) : sys := mk_sys sc (threads s) (cpu s) (words s).

(** [thread->f = ...] through a pointer. *)
Definition upd (p : Z) (f : mcsos_thread_t -> mcsos_thread_t) (s : sys) : option sys :=
  t ← threads s !! p; Some (set_threads s (<[p := f t]> (threads s))).

(** ** Helpers *)

Definition align_down_uintptr (value alignment : Z) : Z :=
  Z.land value (u64 (Z.lnot (u64 (alignment - 1)))).

Definition valid_thread_object (s : sys) (p : Z) : option bool :=
  if p =? 0 then Some false else t ← threads s !! p; Some (magic t =? MCSOS_THREAD_MAGIC).

Definition zero_context : mcsos_context_t := mk_ctx 0 0 0 0 0 0 0 0.

(** ** Operations (on a scheduler that is not [NULL]) *)

Definition mcsos_scheduler_init (boot : Z) (s : sys) : option (Z * sys) :=
  if boot =? 0 then Some (MCSOS_SCHED_EINVAL, s) else
  _ ← threads s !! boot;
  let b := mk_thread MCSOS_THREAD_MAGIC 0 "boot" MCSOS_THREAD_RUNNING zero_context 0 0 0 0 0 0 0 0 in
  Some (MCSOS_SCHED_OK, mk_sys (mk_sched 1 boot boot 0 0 0 0 0 1) (<[boot := b]> (threads s)) (cpu s) (words s)).

Definition mcsos_thread_prepare (thread : Z) (nm : string) (ent ar base size ident : Z) (s : sys)
    : option (Z * sys) :=
  if (thread =? 0) || (ent =? 0) || (base =? 0) then Some (MCSOS_SCHED_EINVAL, s) else
  if size <? MCSOS_MIN_KERNEL_STACK then Some (MCSOS_SCHED_ESTACK, s) else
  let low := base in
  let high := u64 (low + size) in
  if high <=? low then Some (MCSOS_SCHED_ESTACK, s) else
  let top := align_down_uintptr high MCSOS_STACK_ALIGN in
  if top <=? u64 (low + 128) then Some (MCSOS_SCHED_ESTACK, s) else
  let top := u64 (top - 8) in
  _ ← threads s !! thread;
  let ctx := mk_ctx top 0 0 0 0 0 0 ent in
  let t := mk_thread MCSOS_THREAD_MAGIC ident nm MCSOS_THREAD_NEW ctx ent ar base size 0 0 0 0 in
  Some (MCSOS_SCHED_OK, mk_sys (sched s) (<[thread := t]> (threads s)) (cpu s) (<[top := 0]> (words s))).

Definition mcsos_sched_enqueue (thread : Z) (s : sys) : option (Z * sys) :=
  if initialized (sched s) =? 0 then Some (MCSOS_SCHED_EINVAL, s) else
  v ← valid_thread_object s thread;
  if negb v then Some (MCSOS_SCHED_EINVAL, s) else
  t ← threads s !! thread;
  if negb (bool_decide (state t = MCSOS_THREAD_NEW)) && negb (bool_decide (state t = MCSOS_THREAD_READY))
     && negb (bool_decide (state t = MCSOS_THREAD_BLOCKED))
  then Some (MCSOS_SCHED_ESTATE, s) else
  s ← upd thread (fun t => set_next (set_state t MCSOS_THREAD_READY) 0) s;
  let sc := sched s in
  let count := u64 (runnable_count sc + 1) in
  if ready_tail sc =? 0 then
    Some (MCSOS_SCHED_OK, set_sched s (set_queue sc thread thread count))
  else
    s ← upd (ready_tail sc) (fun t => set_next t thread) s;
    Some (MCSOS_SCHED_OK, set_sched s (set_queue sc (ready_head sc) thread count)).

Definition mcsos_sched_pick_next (s : sys) : option (Z * sys) :=
  let sc := sched s in
  if initialized sc =? 0 then Some (0, s) else
  let thread := ready_head sc in
  if thread =? 0 then Some (idle sc, s) else
  t ← threads s !! thread;
  let head := next t in
  let tail := if head =? 0 then 0 else ready_tail sc in
  s ← upd thread (fun t => set_next t 0) s;
  let count := if 0 <? runnable_count sc then u64 (runnable_count sc - 1) else runnable_count sc in
  Some (thread, set_sched s (set_queue sc head tail count)).

(** [mcsos_context_switch(&old->context, &new->context)]; [resume] is the
    address of the label behind the jump. *)
Definition mcsos_context_switch (resume old new : Z) (s : sys) : option sys :=
  let c := cpu s in
  s ← upd old (fun t => set_context t (mk_ctx (rsp c) (rbp c) (rbx c) (r12 c) (r13 c) (r14 c) (r15 c) resume)) s;
  t ← threads s !! new;
  Some (mk_sys (sched s) (threads s) (context t) (words s)).

(** The end of [mcsos_sched_yield], once the next thread is chosen. *)
Definition switch_to (resume old nxt : Z) (s : sys) : option (Z * sys) :=
  s ← upd nxt (fun t => set_state t MCSOS_THREAD_RUNNING) s;
  let sc := sched s in
  let s := set_sched s (mk_sched (initialized sc) nxt (idle sc) (ready_head sc) (ready_tail sc)
             (runnable_count sc) (context_switches sc) (s_ticks sc) (next_id sc)) in
  s ← upd old inc_switches s;
  s ← upd nxt inc_switches s;
  let sc := sched s in
  let s := set_sched s (mk_sched (initialized sc) (current sc) (idle sc) (ready_head sc) (ready_tail sc)
             (runnable_count sc) (u64 (context_switches sc + 1)) (s_ticks sc) (next_id sc)) in
  s ← mcsos_context_switch resume old nxt s;
  Some (MCSOS_SCHED_OK, s).

Definition mcsos_sched_yield (resume : Z) (s : sys) : option (Z * sys) :=
  if initialized (sched s) =? 0 then Some (MCSOS_SCHED_EINVAL, s) else
  v ← valid_thread_object s (current (sched s));
  if negb v then Some (MCSOS_SCHED_EINVAL, s) else
  let old := current (sched s) in
  r ← mcsos_sched_pick_next s;
  let '(nxt, s) := r in
  v ← valid_thread_object s nxt;
  if negb v then Some (MCSOS_SCHED_ECORRUPT, s) else
  if nxt =? old then
    s ← upd old (fun t => set_state t MCSOS_THREAD_RUNNING) s;
    Some (MCSOS_SCHED_OK, s)
  else
  o ← threads s !! old;
  r ← (if bool_decide (state o = MCSOS_THREAD_RUNNING) && negb (old =? idle (sched s)) then
         s ← upd old (fun t => set_state t MCSOS_THREAD_READY) s;
         mcsos_sched_enqueue old s
       else Some (MCSOS_SCHED_OK, s));
  let '(rc, s) := r in
  if negb (rc =? MCSOS_SCHED_OK) then Some (rc, s) else
  switch_to resume old nxt s.

Definition mcsos_sched_tick (s : sys) : option (Z * sys) :=
  if initialized (sched s) =? 0 then Some (MCSOS_SCHED_EINVAL, s) else
  v ← valid_thread_object s (current (sched s));
  if negb v then Some (MCSOS_SCHED_EINVAL, s) else
  let sc := sched s in
  let s := set_sched s (mk_sched (initialized sc) (current sc) (idle sc) (ready_head sc) (ready_tail sc)
             (runnable_count sc) (context_switches sc) (u64 (s_ticks sc + 1)) (next_id sc)) in
  s ← upd (current sc) inc_ticks s;
  Some (MCSOS_SCHED_OK, s).

Definition mcsos_thread_block_current (resume : Z) (s : sys) : option (Z * sys) :=
  if initialized (sched s) =? 0 then Some (MCSOS_SCHED_EINVAL, s) else
  v ← valid_thread_object s (current (sched s));
  if negb v then Some (MCSOS_SCHED_EINVAL, s) else
  if current (sched s) =? idle (sched s) then Some (MCSOS_SCHED_ESTATE, s) else
  s ← upd (current (sched s)) (fun t => set_state t MCSOS_THREAD_BLOCKED) s;
  mcsos_sched_yield resume s.

Definition mcsos_thread_mark_ready (thread : Z) (s : sys) : option (Z * sys) :=
  v ← valid_thread_object s thread;
  if negb v then Some (MCSOS_SCHED_EINVAL, s) else
  t ← threads s !! thread;
  if negb (bool_decide (state t = MCSOS_THREAD_BLOCKED)) then Some (MCSOS_SCHED_ESTATE, s) else
  mcsos_sched_enqueue thread s.

(** The walk of [mcsos_sched_ready_count] from [cursor]; running out of fuel
    is [None]. *)
Fixpoint count_from (fuel : nat) (m : gmap Z mcsos_thread_t) (cursor count : Z) : option Z :=
  if cursor =? 0 then Some count else
  match fuel with
  | O => None
  | S f => t ← m !! cursor; count_from f m (next t) (u64 (count + 1))
  end.

Definition mcsos_sched_ready_count (fuel : nat) (s : sys) : option Z :=
  if initialized (sched s) =? 0 then Some 0 else count_from fuel (threads s) (ready_head (sched s)) 0.

(** The walk of [mcsos_sched_validate]. *)
Fixpoint validate_from (fuel : nat) (s : sys) (cursor last count : Z) : option Z :=
  if cursor =? 0 then
    Some (if negb (last =? ready_tail (sched s)) then MCSOS_SCHED_ECORRUPT else
          if negb (count =? runnable_count (sched s)) then MCSOS_SCHED_ECORRUPT else MCSOS_SCHED_OK)
  else
  match fuel with
  | O => None
  | S f =>
      v ← valid_thread_object s cursor;
      if negb v then Some MCSOS_SCHED_ECORRUPT else
      t ← threads s !! cursor;
      if negb (bool_decide (state t = MCSOS_THREAD_READY)) then Some MCSOS_SCHED_ECORRUPT else
      if cursor =? current (sched s) then Some MCSOS_SCHED_ECORRUPT else
      let count := u64 (count + 1) in
      if u64 (runnable_count (sched s) + 1) <? count then Some MCSOS_SCHED_ECORRUPT else
      validate_from f s (next t) cursor count
  end.

(** The fuel covers the walk's own bound of [runnable_count + 1] steps. *)
Definition mcsos_sched_validate (s : sys) : option Z :=
  if initialized (sched s) =? 0 then Some MCSOS_SCHED_EINVAL else
  v ← valid_thread_object s (current (sched s));
  if negb v then Some MCSOS_SCHED_EINVAL else
  validate_from (Z.to_nat (runnable_count (sched s)) + 2) s (ready_head (sched s)) 0 0.

(** ** The ready queue as a list *)

Fixpoint chain (m : gmap Z mcsos_thread_t) (p : Z) (q : list Z) : Prop :=
  match q with
  | [] => p = 0
  | t :: q => p = t /\ t <> 0 /\ exists th, m !! t = Some th /\ chain m (next th) q
  end.

Definition last_or (d : Z) (q : list Z) : Z := default d (last q).

Definition ready_ok (m : gmap Z mcsos_thread_t) (t : Z) : Prop :=
  exists th, m !! t = Some th /\ magic th = MCSOS_THREAD_MAGIC /\ state th = MCSOS_THREAD_READY.

Definition valid_at (m : gmap Z mcsos_thread_t) (t : Z) (st : mcsos_thread_state_t) : Prop :=
  t <> 0 /\ exists th, m !! t = Some th /\ magic th = MCSOS_THREAD_MAGIC /\ state th = st.

(** The queue part of the invariant. *)
Record queue_ok (s : sys) (q : list Z) : Prop := {
  q_init : initialized (sched s) <> 0;
  q_chain : chain (threads s) (ready_head (sched s)) q;
  q_tail : ready_tail (sched s) = last_or 0 q;
  q_count : runnable_count (sched s) = Z.of_nat (length q);
  q_small : Z.of_nat (length q) < 2 ^ 63;
  q_nodup : NoDup q;
  q_ready : Forall (ready_ok (threads s)) q;
  q_idle : valid_at (threads s) (idle (sched s)) MCSOS_THREAD_RUNNING
}.

(** The scheduler's invariant: [st] is the state of the current thread. *)
Record sched_inv (s : sys) (q : list Z) (st : mcsos_thread_state_t) : Prop := {
  si_queue : queue_ok s q;
  si_current : valid_at (threads s) (current (sched s)) st;
  si_out : current (sched s) ∉ q
}.

Lemma chain_nonzero m p q t : chain m p q -> t ∈ q -> t <> 0.
Proof.
  revert p. induction q as [|u q IH]; intros p Hc Ht; [by apply elem_of_nil in Ht|].
  destruct Hc as (_ & Hu & th & _ & Hc). apply elem_of_cons in Ht as [->|Ht]; [done|by eapply IH].
Qed.

(** Changes to threads outside the queue, and changes that keep [next]. *)
Lemma chain_frame m m' p q :
  (forall t th, t ∈ q -> m !! t = Some th -> exists th', m' !! t = Some th' /\ next th' = next th) ->
  chain m p q -> chain m' p q.
Proof.
  revert p. induction q as [|t q IH]; intros p Hf Hc; [done|]. destruct Hc as (-> & Ht & th & Hth & Hc).
  destruct (Hf t th) as (th' & Hth' & Hn); [by left|done|]. split_and!; [done|done|]. exists th'. split; [done|].
  rewrite Hn. apply IH; [|done]. intros u uh Hu. apply Hf. by right.
Qed.

Lemma chain_insert_out m p q t th : t ∉ q -> chain m p q -> chain (<[t := th]> m) p q.
Proof.
  intros Ht. apply chain_frame. intros u uh Hu Huh. exists uh. split; [|done].
  rewrite lookup_insert_ne; [done|]. by intros ->.
Qed.

(** Linking a fresh last element. *)
Lemma chain_snoc m p q t th :
  chain m p q -> NoDup q -> t ∉ q -> t <> 0 -> m !! t = Some th -> next th = 0 ->
  forall tl tlh, last q = Some tl -> m !! tl = Some tlh -> chain (<[tl := set_next tlh t]> m) p (q ++ [t]).
Proof.
  revert p. induction q as [|u q IH]; intros p Hc Hnd Ht Ht0 Hth Hn tl tlh Hl Htl; [done|].
  destruct Hc as (-> & Hu & uh & Huh & Hc). apply NoDup_cons in Hnd as [Huq Hnd].
  assert (Htu : t <> u) by (intros ->; apply Ht; by left). assert (Htq : t ∉ q) by (intros ?; apply Ht; by right).
  destruct q as [|w q].
  - simpl in Hl. injection Hl as <-. simpl in Hc. simpl. split_and!; [done|done|].
    exists (set_next tlh t). rewrite lookup_insert_eq. split; [done|]. simpl. split_and!; [done|done|].
    exists th. rewrite lookup_insert_ne by done. done.
  - rewrite last_cons_cons in Hl. split_and!; [done|done|].
    exists uh. assert (tl <> u). { intros ->. apply Huq. by apply last_Some_elem_of in Hl. }
    rewrite lookup_insert_ne by done. split; [done|]. by apply (IH (next uh)).
Qed.

Lemma last_or_zero m p q : chain m p q -> last_or 0 q = 0 <-> q = [].
Proof.
  intros Hc. split; [|by intros ->]. unfold last_or. destruct (last q) as [t|] eqn:E; [|by apply last_None in E].
  simpl. intros ->. exfalso. eapply (chain_nonzero _ _ _ 0 Hc); [by apply last_Some_elem_of|done].
Qed.

Lemma upd_Some p f s t : threads s !! p = Some t -> upd p f s = Some (set_threads s (<[p := f t]> (threads s))).
Proof. intros H. unfold upd. by rewrite H. Qed.

Lemma valid_object_true s p th : p <> 0 -> threads s !! p = Some th -> magic th = MCSOS_THREAD_MAGIC ->
  valid_thread_object s p = Some true.
Proof.
  intros Hp Hth Hm. unfold valid_thread_object. destruct (Z.eqb_spec p 0); [done|]. rewrite Hth. simpl.
  by rewrite Hm, Z.eqb_refl.
Qed.

(** The scheduler fields other than the queue, and the rest of the machine. *)
Definition same_rest (s s' : sys) : Prop :=
  initialized (sched s') = initialized (sched s) /\ current (sched s') = current (sched s) /\
  idle (sched s') = idle (sched s) /\ context_switches (sched s') = context_switches (sched s) /\
  s_ticks (sched s') = s_ticks (sched s) /\ next_id (sched s') = next_id (sched s) /\
  cpu s' = cpu s /\ words s' = words s.

(** Threads other than those in [ts] differ at most in [next]. *)
Definition same_threads (ts : list Z) (s s' : sys) : Prop :=
  forall u th, u ∉ ts -> threads s !! u = Some th -> exists n, threads s' !! u = Some (set_next th n).

Lemma set_next_twice th n n' : set_next (set_next th n) n' = set_next th n'.
Proof. done. Qed.
Lemma set_next_id th : set_next th (next th) = th.
Proof. by destruct th. Qed.

Lemma same_threads_trans ts s1 s2 s3 : same_threads ts s1 s2 -> same_threads ts s2 s3 -> same_threads ts s1 s3.
Proof.
  intros H1 H2 u th Hu Hth. destruct (H1 u th Hu Hth) as [n Hn]. destruct (H2 u _ Hu Hn) as [n' Hn'].
  exists n'. by rewrite set_next_twice in Hn'.
Qed.

Lemma same_threads_mono ts ts' s s' : ts ⊆ ts' -> same_threads ts s s' -> same_threads ts' s s'.
Proof. intros Hsub H u th Hu. apply H. set_solver. Qed.

(** Rewriting a thread that is not queued; the idle thread stays RUNNING. *)
Lemma queue_ok_set s q p th :
  queue_ok s q -> p ∉ q ->
  (p = idle (sched s) -> magic th = MCSOS_THREAD_MAGIC /\ state th = MCSOS_THREAD_RUNNING) ->
  queue_ok (set_threads s (<[p := th]> (threads s))) q.
Proof.
  intros [H1 H2 H3 H4 H5 H6 H7 (Hi0 & ith & Hi & Him & Hist)] Hp Hidle.
  constructor; simpl; try done.
  - by apply chain_insert_out.
  - apply Forall_forall. intros u Hu. rewrite Forall_forall in H7. destruct (H7 u Hu) as (uh & Huh & ? & ?).
    exists uh. rewrite lookup_insert_ne; [done|]. by intros ->.
  - split; [done|]. destruct (decide (p = idle (sched s))) as [->|Hne].
    + exists th. rewrite lookup_insert_eq. split; [done|]. by apply Hidle.
    + exists ith. rewrite lookup_insert_ne by done. done.
Qed.

Lemma queue_ok_ext s s' q :
  queue_ok s q -> threads s' = threads s -> initialized (sched s') <> 0 ->
  ready_head (sched s') = ready_head (sched s) -> ready_tail (sched s') = ready_tail (sched s) ->
  runnable_count (sched s') = runnable_count (sched s) -> idle (sched s') = idle (sched s) -> queue_ok s' q.
Proof. intros [H1 H2 H3 H4 H5 H6 H7 H8] E0 E1 E2 E3 E4 E5. constructor; rewrite ?E0, ?E2, ?E3, ?E4, ?E5; done. Qed.

Definition can_queue (st : mcsos_thread_state_t) : Prop :=
  st = MCSOS_THREAD_NEW \/ st = MCSOS_THREAD_READY \/ st = MCSOS_THREAD_BLOCKED.

(** Linking a prepared thread behind the tail. *)
Lemma link_spec s q t th :
  queue_ok s q -> t ∉ q -> t <> 0 -> Z.of_nat (length q) + 1 < 2 ^ 63 ->
  threads s !! t = Some th -> magic th = MCSOS_THREAD_MAGIC -> state th = MCSOS_THREAD_READY -> next th = 0 ->
  let sc := sched s in
  let count := u64 (runnable_count sc + 1) in
  exists s', (if ready_tail sc =? 0 then Some (MCSOS_SCHED_OK, set_sched s (set_queue sc t t count))
              else s ← upd (ready_tail sc) (fun t' => set_next t' t) s;
                   Some (MCSOS_SCHED_OK, set_sched s (set_queue sc (ready_head sc) t count))) = Some (MCSOS_SCHED_OK, s') /\
    queue_ok s' (q ++ [t]) /\ threads s' !! t = Some th /\ same_rest s s' /\ same_threads [t] s s'.
Proof.
  intros Hq Htq Ht0 Hlen Hth Hm Hst Hn sc count. pose proof Hq as [H1 H2 H3 H4 H5 H6 H7 H8]. rewrite Forall_forall in H7.
  assert (Hcnt : count = Z.of_nat (length (q ++ [t]))).
  { subst count sc. rewrite H4, length_app. simpl. rewrite wrap_small; unfold in_u; lia. }
  destruct (Z.eqb_spec (ready_tail sc) 0) as [E|E]; subst sc.
  - rewrite H3 in E. apply (last_or_zero _ _ _ H2) in E as ->. eexists. split_and!; [done| |done|done|].
    + constructor; simpl; try done; [|apply NoDup_singleton|].
      * split_and!; [done|done|]. by exists th.
      * constructor; [by exists th|done].
    + intros u uh _ Huh. exists (next uh). by rewrite set_next_id.
  - destruct (last q) as [tl|] eqn:El; [|apply last_None in El as ->; by rewrite H3 in E].
    assert (Htail : ready_tail (sched s) = tl) by (rewrite H3; unfold last_or; by rewrite El).
    pose proof (last_Some_elem_of _ _ El) as Htl. destruct (H7 tl Htl) as (tlh & Htlh & Htm & Htst).
    rewrite Htail, (upd_Some tl _ s tlh Htlh). cbn [mbind option_bind]. assert (Hne : t <> tl) by (by intros ->).
    assert (Hkeep : forall u uh, threads s !! u = Some uh -> exists n, <[tl := set_next tlh t]> (threads s) !! u = Some (set_next uh n)).
    { intros u uh Huh. destruct (decide (u = tl)) as [->|Hut]; [exists t|exists (next uh)].
      - rewrite lookup_insert_eq. by rewrite Htlh in Huh; injection Huh as <-.
      - by rewrite set_next_id, lookup_insert_ne by done. }
    eexists. split_and!; [done| |simpl; by rewrite lookup_insert_ne by done|done|intros u uh _; apply Hkeep].
    constructor; simpl; try done.
    + by eapply (chain_snoc (threads s) _ q t th).
    + unfold last_or. by rewrite last_snoc.
    + rewrite length_app. simpl. lia.
    + apply NoDup_app. split_and!; [done|set_solver|apply NoDup_singleton].
    + apply Forall_app. split; [|constructor; [|done]].
      * apply Forall_forall. intros u Hu. destruct (H7 u Hu) as (uh & Huh & ? & ?). destruct (Hkeep u uh Huh) as [k Hk]. by exists (set_next uh k).
      * exists th. by rewrite lookup_insert_ne by done.
    + destruct H8 as (? & ih & Hih & ? & Hir). split; [done|]. exists ih. rewrite lookup_insert_ne; [done|]. intros ->. congruence.
Qed.

Lemma enqueue_spec s q t st :
  queue_ok s q -> valid_at (threads s) t st -> can_queue st -> t ∉ q -> Z.of_nat (length q) + 1 < 2 ^ 63 ->
  exists s' th, mcsos_sched_enqueue t s = Some (MCSOS_SCHED_OK, s') /\ queue_ok s' (q ++ [t]) /\
    threads s !! t = Some th /\ threads s' !! t = Some (set_next (set_state th MCSOS_THREAD_READY) 0) /\
    same_rest s s' /\ same_threads [t] s s'.
Proof.
  intros Hq (Ht0 & th & Hth & Hm & Hst) Hcan Htq Hlen.
  unfold mcsos_sched_enqueue. destruct (Z.eqb_spec (initialized (sched s)) 0); [by destruct (q_init _ _ Hq)|].
  rewrite (valid_object_true s t th) by done. cbn [mbind option_bind negb]. rewrite Hth. cbn [mbind option_bind].
  assert (Hck : negb (bool_decide (state th = MCSOS_THREAD_NEW)) && negb (bool_decide (state th = MCSOS_THREAD_READY))
     && negb (bool_decide (state th = MCSOS_THREAD_BLOCKED)) = false).
  { rewrite Hst. destruct Hcan as [-> | [-> | -> ] ]; done. }
  rewrite Hck. rewrite (upd_Some t _ s th Hth). cbn [mbind option_bind]. set (th1 := set_next _ 0).
  assert (Hti : t <> idle (sched s)).
  { intros ->. destruct (q_idle _ _ Hq) as (_ & ih & Hih & _ & Hr). rewrite Hth in Hih. injection Hih as <-.
    rewrite Hr in Hst. subst st. by destruct Hcan as [? | [? | ? ] ]. }
  assert (Hq1 : queue_ok (set_threads s (<[t := th1]> (threads s))) q) by (apply queue_ok_set; done).
  destruct (link_spec _ q t th1 Hq1 Htq Ht0 Hlen) as (s' & E & Hq' & Ht' & Hr' & Hs'); [simpl; by rewrite lookup_insert_eq|done..|].
  exists s', th. split_and!; [exact E|done|done|done|exact Hr'|].
  eapply same_threads_trans; [|exact Hs']. intros u uh Hu Huh. exists (next uh). rewrite set_next_id. simpl. rewrite lookup_insert_ne; [done|set_solver].
Qed.

Lemma pick_next_spec s t q :
  queue_ok s (t :: q) ->
  exists s' th, mcsos_sched_pick_next s = Some (t, s') /\ queue_ok s' q /\
    threads s !! t = Some th /\ threads s' !! t = Some (set_next th 0) /\ same_rest s s' /\ same_threads [] s s'.
Proof.
  intros Hq. pose proof Hq as [H1 H2 H3 H4 H5 H6 H7 H8]. unfold mcsos_sched_pick_next.
  destruct (Z.eqb_spec (initialized (sched s)) 0); [done|]. destruct H2 as (Hh & Ht0 & th & Hth & Hc).
  rewrite Hh. destruct (Z.eqb_spec t 0); [done|]. rewrite Hth. cbn [mbind option_bind].
  rewrite (upd_Some t _ s th Hth). cbn [mbind option_bind]. eexists _, th. split; [done|].
  apply NoDup_cons in H6 as [Htq Hnd]. apply Forall_cons in H7 as [_ H7].
  assert (Hti : t <> idle (sched s)).
  { intros ->. destruct H8 as (_ & ih & Hih & _ & Hr). pose proof (q_ready _ _ Hq) as Hf. apply Forall_cons in Hf as [(x & Hx & _ & Hxr) _].
    congruence. }
  assert (Hthr : same_threads [] s (set_threads s (<[t := set_next th 0]> (threads s)))).
  { intros u uh _ Huh. simpl. destruct (decide (u = t)) as [->|Hut].
    - exists 0. rewrite lookup_insert_eq. by rewrite Hth in Huh; injection Huh as <-.
    - exists (next uh). rewrite set_next_id, lookup_insert_ne by done. done. }
  split_and!; [|done|simpl; by rewrite lookup_insert_eq|done|done].
  constructor; simpl; try done.
  - by apply chain_insert_out.
  - destruct q as [|u q]; simpl in Hc.
    + rewrite Hc. done.
    + destruct Hc as (Hc & Hu0 & _). destruct (Z.eqb_spec (next th) 0); [congruence|]. rewrite H3. unfold last_or.
      by rewrite last_cons_cons.
  - rewrite H4. simpl. destruct (Z.ltb_spec 0 (Z.of_nat (S (length q)))); [|lia].
    rewrite wrap_small; [lia|]. unfold in_u. simpl in H5. lia.
  - simpl in H5. lia.
  - apply Forall_forall. intros u Hu. rewrite Forall_forall in H7. destruct (H7 u Hu) as (uh & Huh & ? & ?).
    exists uh. rewrite lookup_insert_ne; [done|]. by intros ->.
  - destruct H8 as (? & ih & ? & ? & ?). split; [done|]. exists ih. by rewrite lookup_insert_ne.
Qed.

(** Changing fields the queue does not depend on, of any thread. *)
Lemma queue_ok_same s q p th th' :
  queue_ok s q -> threads s !! p = Some th ->
  next th' = next th -> magic th' = magic th -> state th' = state th ->
  queue_ok (set_threads s (<[p := th']> (threads s))) q.
Proof.
  intros [H1 H2 H3 H4 H5 H6 H7 H8] Hp En Em Es.
  assert (Hst : forall u st, valid_at (threads s) u st -> valid_at (<[p := th']> (threads s)) u st).
  { intros u st (Hu & uh & Huh & ? & ?). split; [done|]. destruct (decide (u = p)) as [->|Hne].
    - exists th'. rewrite lookup_insert_eq. rewrite Hp in Huh. injection Huh as ->. split_and!; [done|congruence..].
    - exists uh. by rewrite lookup_insert_ne. }
  constructor; simpl; try done; [| |by apply Hst].
  - apply (chain_frame (threads s)); [|done]. intros u uh _ Huh. destruct (decide (u = p)) as [->|Hne].
    + exists th'. rewrite lookup_insert_eq. split; [done|congruence].
    + exists uh. by rewrite lookup_insert_ne.
  - apply Forall_forall. intros u Hu. rewrite Forall_forall in H7. destruct (H7 u Hu) as (uh & Huh & ? & ?).
    destruct (Hst u MCSOS_THREAD_READY) as (_ & uh' & ?); [split; [by eapply chain_nonzero|eauto]|]. exists uh'. done.
Qed.

Lemma pick_any s q :
  queue_ok s q ->
  exists s', mcsos_sched_pick_next s = Some (hd (idle (sched s)) q, s') /\ queue_ok s' (tl q) /\
    same_rest s s' /\ same_threads [] s s'.
Proof.
  intros Hq. destruct q as [|t q].
  - exists s. split_and!; [|done|done|].
    + unfold mcsos_sched_pick_next. destruct Hq as [H1 H2 _ _ _ _ _ _].
      destruct (Z.eqb_spec (initialized (sched s)) 0); [done|]. simpl in H2. rewrite H2. done.
    + intros u th _ Hth. exists (next th). by rewrite set_next_id.
  - destruct (pick_next_spec s t q Hq) as (s' & th & ? & ? & _ & _ & ? & ?). exists s'. done.
Qed.

Lemma queue_idle_out s q : queue_ok s q -> idle (sched s) ∉ q.
Proof.
  intros [_ _ _ _ _ _ H7 (_ & ih & Hih & _ & Hr)] Hin. rewrite Forall_forall in H7.
  destruct (H7 _ Hin) as (x & Hx & _ & Hxr). congruence.
Qed.

(** The thread a yield runs next is not in the queue it leaves behind. *)
Lemma head_out s q : queue_ok s q -> hd (idle (sched s)) q ∉ tl q.
Proof.
  intros Hq. destruct q as [|t q]; simpl; [set_solver|]. by destruct (proj1 (NoDup_cons _ _) (q_nodup _ _ Hq)).
Qed.

Lemma head_valid s q : queue_ok s q -> exists st, valid_at (threads s) (hd (idle (sched s)) q) st.
Proof.
  intros Hq. destruct q as [|t q]; simpl; [eexists; apply Hq|].
  pose proof (q_ready _ _ Hq) as Hr. apply Forall_cons in Hr as [(th & ? & ? & ?) _].
  exists MCSOS_THREAD_READY. split; [|eauto]. by destruct (q_chain _ _ Hq) as (_ & ? & _).
Qed.

Definition requeues (s : sys) (st : mcsos_thread_state_t) : bool :=
  bool_decide (st = MCSOS_THREAD_RUNNING) && negb (current (sched s) =? idle (sched s)).

(** The queue after a yield. *)
Definition rotate (s : sys) (q : list Z) (st : mcsos_thread_state_t) : list Z :=
  tl q ++ (if requeues s st then [current (sched s)] else []).

(** The step of a yield that puts the old thread back. *)
Lemma requeue_spec s1 q1 old oh st (b : bool) :
  queue_ok s1 q1 -> old ∉ q1 -> old <> 0 -> threads s1 !! old = Some oh -> magic oh = MCSOS_THREAD_MAGIC ->
  state oh = st -> b = bool_decide (st = MCSOS_THREAD_RUNNING) && negb (old =? idle (sched s1)) ->
  Z.of_nat (length q1) + 1 < 2 ^ 63 ->
  exists s2 oh2,
    (if bool_decide (state oh = MCSOS_THREAD_RUNNING) && negb (old =? idle (sched s1))
     then s ← upd old (fun t => set_state t MCSOS_THREAD_READY) s1; mcsos_sched_enqueue old s
     else Some (MCSOS_SCHED_OK, s1)) = Some (MCSOS_SCHED_OK, s2) /\
    queue_ok s2 (q1 ++ if b then [old] else []) /\ same_rest s1 s2 /\ same_threads [old] s1 s2 /\
    threads s2 !! old = Some oh2 /\ magic oh2 = MCSOS_THREAD_MAGIC /\ context oh2 = context oh /\
    state oh2 = if b then MCSOS_THREAD_READY else st.
Proof.
  intros Hq Hout H0 Hoh Hm Hst Hb Hlen. rewrite Hst, <- Hb. destruct b.
  2:{ exists s1, oh. rewrite app_nil_r. split_and!; try done. intros u uh _ Huh. exists (next uh). by rewrite set_next_id. }
  rewrite (upd_Some old _ s1 oh Hoh). cbn [mbind option_bind]. set (s1' := set_threads s1 _).
  symmetry in Hb. apply andb_true_iff in Hb as [_ Hne]. rewrite negb_true_iff, Z.eqb_neq in Hne.
  assert (Hq' : queue_ok s1' q1) by (by apply queue_ok_set).
  assert (Hl1 : threads s1' !! old = Some (set_state oh MCSOS_THREAD_READY)) by (simpl; by rewrite lookup_insert_eq).
  destruct (enqueue_spec s1' q1 old MCSOS_THREAD_READY) as (s2 & th & Hrun & Hq2 & Hth & Hth2 & Hrest & Hthr);
    [done|split; [done|eexists; split; [exact Hl1|done]]|by right; left|done|done|].
  rewrite Hl1 in Hth. injection Hth as <-. exists s2. eexists. split_and!; [done|done|done| |exact Hth2|done|done|done].
  intros u uh Hu Huh. apply Hthr; [done|]. simpl. rewrite lookup_insert_ne; [done|set_solver].
Qed.

Definition ctx_of (s : sys) (u : Z) : option mcsos_context_t := context <$> threads s !! u.

Definition saved (c : mcsos_context_t) (resume : Z) : mcsos_context_t :=
  mk_ctx (rsp c) (rbp c) (rbx c) (r12 c) (r13 c) (r14 c) (r15 c) resume.

(** What a switch from [old] to [nxt] did, besides the queue. *)
Record switched (resume : Z) (s s' : sys) (old nxt : Z) (st' : mcsos_thread_state_t) : Prop := {
  sw_current : current (sched s') = nxt;
  sw_idle : idle (sched s') = idle (sched s);
  sw_others : forall u st, u <> old -> u <> nxt -> valid_at (threads s) u st -> valid_at (threads s') u st;
  sw_old : nxt <> old -> valid_at (threads s') old st';
  sw_count : context_switches (sched s') =
    (if nxt =? old then context_switches (sched s) else u64 (context_switches (sched s) + 1));
  sw_cpu : nxt <> old -> Some (cpu s') = ctx_of s nxt;
  sw_ctx : forall u, is_Some (threads s !! u) ->
    ctx_of s' u = (if decide (u = old /\ nxt <> old) then Some (saved (cpu s) resume) else ctx_of s u)
}.

Lemma switch_run resume s old nxt oh nh :
  old <> nxt -> threads s !! old = Some oh -> threads s !! nxt = Some nh ->
  switch_to resume old nxt s =
  Some (MCSOS_SCHED_OK,
    mk_sys (mk_sched (initialized (sched s)) nxt (idle (sched s)) (ready_head (sched s)) (ready_tail (sched s))
        (runnable_count (sched s)) (u64 (context_switches (sched s) + 1)) (s_ticks (sched s)) (next_id (sched s)))
      (<[old := set_context (inc_switches oh) (saved (cpu s) resume)]>
        (<[nxt := inc_switches (set_state nh MCSOS_THREAD_RUNNING)]> (threads s)))
      (context nh) (words s)).
Proof.
  intros Hne Ho Hn. unfold switch_to. rewrite (upd_Some nxt _ s nh Hn). cbn [mbind option_bind]. unfold mcsos_context_switch.
  unfold upd. cbn [threads set_threads set_sched sched].
  rewrite lookup_insert_ne, Ho by done. cbn [mbind option_bind threads set_threads set_sched].
  rewrite lookup_insert_ne, lookup_insert_eq by done. cbn [mbind option_bind threads set_threads set_sched].
  rewrite lookup_insert_ne, lookup_insert_eq by done. cbn [mbind option_bind threads set_threads set_sched].
  rewrite lookup_insert_ne, lookup_insert_eq by done. cbn [mbind option_bind]. do 3 f_equal. simpl.
  apply map_eq. intros u. rewrite !lookup_insert. by repeat case_decide.
Qed.

(** The switch itself, from a state [s2] in which the old thread may have been
    put back into the queue. *)
Lemma switch_switched resume s s2 s3 old nxt oh nh :
  switch_to resume old nxt s2 = Some (MCSOS_SCHED_OK, s3) -> nxt <> old -> old <> 0 -> same_rest s s2 -> same_threads [old] s s2 ->
  threads s !! nxt = Some nh -> threads s2 !! old = Some oh -> magic oh = MCSOS_THREAD_MAGIC ->
  switched resume s s3 old nxt (state oh).
Proof.
  intros Hrun Hne H0 (F1 & F2 & F3 & F4 & F5 & F6 & F7 & F8) Ht Hnh Hoh Hm. destruct (Ht nxt nh) as [n Hnh2]; [set_solver|done|].
  rewrite (switch_run resume s2 old nxt oh _ (not_eq_sym Hne) Hoh Hnh2) in Hrun. injection Hrun as <-. constructor; simpl; try done.
  - intros u ust Hu1 Hu2 (Hu0 & uh & Huh & ? & ?). split; [done|]. destruct (Ht u uh) as [k Hk]; [set_solver|done|].
    exists (set_next uh k). rewrite !lookup_insert_ne by done. done.
  - intros _. split; [done|]. eexists. rewrite lookup_insert_eq. done.
  - destruct (Z.eqb_spec nxt old); [done|]. by rewrite F4.
  - intros _. unfold ctx_of. by rewrite Hnh.
  - intros u [uh Huh]. unfold ctx_of. simpl. destruct (decide (u = old)) as [->|Hu].
    + rewrite lookup_insert_eq, decide_True by done. simpl. by rewrite F7.
    + rewrite lookup_insert_ne by done. rewrite decide_False by tauto. destruct (decide (u = nxt)) as [->|Hu'].
      * rewrite lookup_insert_eq. by rewrite Hnh.
      * rewrite lookup_insert_ne by done. destruct (Ht u uh) as [k Hk]; [set_solver|done|]. by rewrite Hk, Huh.
Qed.

(** The idle thread goes on when the queue is empty. *)
Lemma idle_goes_on resume s s1 oh n :
  let i := idle (sched s) in
  queue_ok s1 [] -> same_rest s s1 -> same_threads [] s s1 -> i <> 0 -> current (sched s) = i ->
  threads s !! i = Some oh -> magic oh = MCSOS_THREAD_MAGIC ->
  let s2 := set_threads s1 (<[i := set_state (set_next oh n) MCSOS_THREAD_RUNNING]> (threads s1)) in
  sched_inv s2 [] MCSOS_THREAD_RUNNING /\ switched resume s s2 i i MCSOS_THREAD_RUNNING.
Proof.
  intros i Hq1 (E1 & E2 & E3 & E4 & E5 & E6 & E7 & E8) Ht1 Hi0 Hcur Hoh Hm s2. subst s2.
  split; constructor; simpl; try done.
  - apply queue_ok_set; [done|set_solver|done].
  - rewrite E2, Hcur. split; [done|]. eexists. rewrite lookup_insert_eq. done.
  - set_solver.
  - by rewrite E2, Hcur.
  - intros u ust Hu _ (Hu0 & uh & Huh & ? & ?). split; [done|]. destruct (Ht1 u uh) as [k Hk]; [set_solver|done|].
    exists (set_next uh k). rewrite lookup_insert_ne by congruence. done.
  - by rewrite E4, Z.eqb_refl.
  - intros u [uh Huh]. rewrite decide_False by tauto. unfold ctx_of. simpl.
    destruct (decide (u = i)) as [->|Hu]; [by rewrite lookup_insert_eq, Hoh|].
    rewrite lookup_insert_ne by done. destruct (Ht1 u uh) as [k Hk]; [set_solver|done|]. by rewrite Hk, Huh.
Qed.

Lemma yield_spec resume s q st :
  sched_inv s q st -> (current (sched s) = idle (sched s) -> st = MCSOS_THREAD_RUNNING) ->
  Z.of_nat (length q) + 1 < 2 ^ 63 ->
  exists s', mcsos_sched_yield resume s = Some (MCSOS_SCHED_OK, s') /\
    sched_inv s' (rotate s q st) MCSOS_THREAD_RUNNING /\
    switched resume s s' (current (sched s)) (hd (idle (sched s)) q)
      (if requeues s st then MCSOS_THREAD_READY else st).
Proof.
  intros [Hq (H0 & oh & Hoh & Hm & Hst) Hout] Hidl Hlen. unfold mcsos_sched_yield.
  destruct (Z.eqb_spec (initialized (sched s)) 0) as [Hi|_]; [by destruct (q_init _ _ Hq)|].
  rewrite (valid_object_true s _ oh) by done. cbn [mbind option_bind negb].
  destruct (pick_any s q Hq) as (s1 & Hpick & Hq1 & Hr1 & Ht1). rewrite Hpick. cbn [mbind option_bind].
  set (nxt := hd (idle (sched s)) q) in *. set (old := current (sched s)) in *.
  destruct (head_valid s q Hq) as (nst & Hn0 & nh & Hnh & Hnm & Hnst). fold nxt in Hn0, Hnh.
  destruct (Ht1 nxt nh) as [n1 Hnh1]; [set_solver|done|]. destruct (Ht1 old oh) as [n2 Hoh1]; [set_solver|done|].
  rewrite (valid_object_true s1 nxt _ Hn0 Hnh1) by done. cbn [mbind option_bind negb].
  pose proof Hr1 as (E1 & E2 & E3 & E4 & E5 & E6 & E7 & E8).
  pose proof (queue_idle_out s q Hq) as Hiq. pose proof (head_out s q Hq) as Hno. fold nxt in Hno.
  assert (Htl : forall u, u ∈ tl q -> u ∈ q) by (destruct q; set_solver).
  destruct (Z.eqb_spec nxt old) as [Eno|Hne].
  { assert (q = [] /\ old = idle (sched s)) as [-> Hold].
    { destruct q as [|t q]; [done|]. exfalso. apply Hout. rewrite <- Eno. by left. }
    rewrite (upd_Some old _ s1 _ Hoh1). cbn [mbind option_bind]. eexists. split; [done|].
    rewrite Hidl in * by done. unfold rotate, requeues. fold old. rewrite Eno, Hold, Z.eqb_refl, andb_false_r in *. cbn [tl app].
    by apply idle_goes_on. }
  rewrite Hoh1. cbn [mbind option_bind].
  destruct (requeue_spec s1 (tl q) old (set_next oh n2) st (requeues s st)) as (s2 & oh2 & Hrun & Hq2 & Hr2 & Ht2 & Hoh2 & Hm2 & Hc2 & Hst2);
    [done|by intros ?%Htl|done|done|done|done|unfold requeues; fold old; by rewrite E3|destruct q; simpl in *; lia|].
  rewrite Hrun. cbn [mbind option_bind]. change (negb (MCSOS_SCHED_OK =? MCSOS_SCHED_OK)) with false. cbv iota.
  destruct (Ht2 nxt (set_next nh n1)) as [n3 Hnh2]; [set_solver|done|]. rewrite set_next_twice in Hnh2.
  pose proof (switch_run resume s2 old nxt oh2 _ (not_eq_sym Hne) Hoh2 Hnh2) as Hsw. rewrite Hsw. eexists. split; [reflexivity|].
  change (tl q ++ (if requeues s st then [old] else [])) with (rotate s q st) in Hq2.
  assert (Hnr : nxt ∉ rotate s q st) by (unfold rotate; fold old; destruct (requeues s st); set_solver).
  split.
  - constructor; simpl; [|split; [done|]|done].
    + assert (Hqa : queue_ok (set_threads s2 (<[nxt := inc_switches (set_state (set_next nh n3) MCSOS_THREAD_RUNNING)]> (threads s2))) (rotate s q st))
        by (by apply queue_ok_set).
      eapply (queue_ok_same _ _ old oh2 (set_context (inc_switches oh2) (saved (cpu s2) resume))) in Hqa; [|simpl; by rewrite lookup_insert_ne|done..].
      eapply (queue_ok_ext _ _ _ Hqa); simpl; try done. by apply Hq2.
    + eexists. rewrite lookup_insert_ne by done. rewrite lookup_insert_eq. done.
  - rewrite <- Hst2. apply (switch_switched resume s s2 _ old nxt oh2 nh Hsw Hne H0); [|eapply same_threads_trans; [|exact Ht2]; intros u uh _ Huh; apply Ht1; [set_solver|done]|done..].
    destruct Hr2 as (F1 & F2 & F3 & F4 & F5 & F6 & F7 & F8). unfold same_rest. split_and!; congruence.
Qed.

(** ** The store never grows *)

Lemma upd_dom p f s s' : upd p f s = Some s' -> dom (threads s') = dom (threads s) /\ sched s' = sched s.
Proof.
  unfold upd. destruct (threads s !! p) as [t|] eqn:E; [|done]. intros [= <-]. simpl. split; [|done].
  apply dom_insert_lookup_L. by rewrite E.
Qed.

Ltac dom_step :=
  match goal with
  | H : upd _ _ _ = Some _ |- _ => apply upd_dom in H as [H ?]
  | H : Some _ = Some _ |- _ => injection H as H; subst
  | H : (_, _) = (_, _) |- _ => injection H as ? ?; subst
  | H : None = Some _ |- _ => discriminate H
  | H : context [mbind _ ?o] |- _ => destruct o eqn:?; cbn [mbind option_bind] in H
  | H : (if ?b then _ else _) = Some _ |- _ => destruct b eqn:?
  end.
Ltac dom_tac := repeat (dom_step; cbn [mbind option_bind] in *); simpl in *; try congruence.

Lemma enqueue_dom t s rc s' : mcsos_sched_enqueue t s = Some (rc, s') -> dom (threads s') = dom (threads s).
Proof. unfold mcsos_sched_enqueue. intros H. cbv zeta in H. dom_tac. Qed.

Lemma pick_next_dom s t s' : mcsos_sched_pick_next s = Some (t, s') -> dom (threads s') = dom (threads s).
Proof. unfold mcsos_sched_pick_next. intros H. cbv zeta in H. dom_tac. Qed.

Lemma switch_to_dom resume old nxt s rc s' :
  switch_to resume old nxt s = Some (rc, s') -> dom (threads s') = dom (threads s).
Proof. unfold switch_to, mcsos_context_switch. intros H. cbv zeta in H. dom_tac. Qed.

Lemma yield_dom resume s rc s' : mcsos_sched_yield resume s = Some (rc, s') -> dom (threads s') = dom (threads s).
Proof.
  unfold mcsos_sched_yield. intros H. cbv zeta in H.
  destruct (initialized (sched s) =? 0); [dom_tac|].
  destruct (valid_thread_object s _) as [[]|]; cbn [mbind option_bind negb] in H; [|dom_tac|dom_tac].
  destruct (mcsos_sched_pick_next s) as [[nxt s1]|] eqn:Hp; cbn [mbind option_bind] in H; [|done].
  apply pick_next_dom in Hp. destruct (valid_thread_object s1 nxt) as [[]|]; cbn [mbind option_bind negb] in H; [|dom_tac|dom_tac].
  destruct (nxt =? current (sched s)); [dom_tac|].
  destruct (threads s1 !! current (sched s)) as [o|]; cbn [mbind option_bind] in H; [|done].
  set (r := if _ && _ then _ else _) in H. destruct r as [[rc2 s2]|] eqn:Hr; cbn [mbind option_bind] in H; [|done].
  assert (Hd : dom (threads s2) = dom (threads s1)).
  { subst r. destruct (_ && _); [|by injection Hr as <- <-].
    destruct (upd _ _ s1) as [s1'|] eqn:Hu; cbn [mbind option_bind] in Hr; [|done].
    apply upd_dom in Hu as [Hu _]. apply enqueue_dom in Hr. congruence. }
  destruct (negb (rc2 =? MCSOS_SCHED_OK)); [dom_tac|]. apply switch_to_dom in H. congruence.
Qed.

(** ** Every sequence of calls *)

(** A TCB that was never prepared, threads running, and the calls of the API
    (each on the arguments the code is written for: a thread handed to
    [mcsos_sched_enqueue] is not READY already). *)
Inductive sched_step (resume : Z) : sys -> sys -> Prop :=
| st_prepare t nm ent ar base size ident s rc s' th :
    threads s !! t = Some th -> magic th <> MCSOS_THREAD_MAGIC ->
    mcsos_thread_prepare t nm ent ar base size ident s = Some (rc, s') -> sched_step resume s s'
| st_enqueue t s rc s' th :
    threads s !! t = Some th -> state th <> MCSOS_THREAD_READY ->
    mcsos_sched_enqueue t s = Some (rc, s') -> sched_step resume s s'
| st_yield s rc s' : mcsos_sched_yield resume s = Some (rc, s') -> sched_step resume s s'
| st_tick s rc s' : mcsos_sched_tick s = Some (rc, s') -> sched_step resume s s'
| st_block s rc s' : mcsos_thread_block_current resume s = Some (rc, s') -> sched_step resume s s'
| st_mark_ready t s rc s' : mcsos_thread_mark_ready t s = Some (rc, s') -> sched_step resume s s'
| st_exec s c : sched_step resume s (mk_sys (sched s) (threads s) c (words s)).

Record sys_inv (s : sys) (q : list Z) : Prop := {
  sy_inv : sched_inv s q MCSOS_THREAD_RUNNING;
  sy_size : Z.of_nat (size (threads s)) < 2 ^ 63
}.

Lemma queue_size (m : gmap Z mcsos_thread_t) (q : list Z) :
  NoDup q -> (forall t, t ∈ q -> is_Some (m !! t)) -> (length q <= size m)%nat.
Proof.
  intros Hnd Hm. rewrite <- size_dom, <- (size_list_to_set (C := gset Z)) by done.
  apply subseteq_size. intros t Ht%elem_of_list_to_set. by apply elem_of_dom, Hm.
Qed.

(** There is room in the counter for one more thread. *)
Lemma queue_room s q st t :
  sched_inv s q st -> Z.of_nat (size (threads s)) < 2 ^ 63 -> is_Some (threads s !! t) -> t ∉ q ->
  Z.of_nat (length q) + 1 < 2 ^ 63.
Proof.
  intros [Hq _ _] Hsz Ht Htq. assert (length (t :: q) <= size (threads s))%nat; [|simpl in *; lia].
  apply queue_size; [constructor; [done|apply Hq]|]. intros u [->|Hu]%elem_of_cons; [done|].
  pose proof (q_ready _ _ Hq) as Hr. rewrite Forall_forall in Hr. destruct (Hr u Hu) as (th & ? & _). eauto.
Qed.

Lemma size_dom_eq (m m' : gmap Z mcsos_thread_t) : dom m' = dom m -> size m' = size m.
Proof. intros H. by rewrite <- !size_dom, H. Qed.

Lemma valid_lookup m t st : valid_at m t st -> is_Some (m !! t).
Proof. intros (_ & th & ? & _). eauto. Qed.

Lemma enqueue_refused s t th q :
  queue_ok s q -> threads s !! t = Some th -> ~ can_queue (state th) \/ magic th <> MCSOS_THREAD_MAGIC \/ t = 0 ->
  exists rc, mcsos_sched_enqueue t s = Some (rc, s) /\ rc <> MCSOS_SCHED_OK.
Proof.
  intros Hq Hth Hbad. unfold mcsos_sched_enqueue.
  destruct (Z.eqb_spec (initialized (sched s)) 0); [by destruct (q_init _ _ Hq)|].
  unfold valid_thread_object. destruct (Z.eqb_spec t 0); [by exists MCSOS_SCHED_EINVAL|].
  rewrite Hth. cbn [mbind option_bind]. destruct (Z.eqb_spec (magic th) MCSOS_THREAD_MAGIC); [|by exists MCSOS_SCHED_EINVAL].
  cbn [negb]. destruct (_ && _) eqn:E; [by exists MCSOS_SCHED_ESTATE|]. exfalso.
  destruct Hbad as [Hc|[?|?]]; [|done|done]. apply Hc. unfold can_queue.
  rewrite !andb_false_iff, !negb_false_iff, !bool_decide_eq_true in E. tauto.
Qed.

Lemma same_rest_current s s' : same_rest s s' -> current (sched s') = current (sched s).
Proof. by intros (_ & ? & _). Qed.

(** A successful enqueue of a thread that is not queued keeps the invariant. *)
Lemma enqueue_inv s q t th rc s' :
  sys_inv s q -> threads s !! t = Some th -> state th <> MCSOS_THREAD_READY ->
  mcsos_sched_enqueue t s = Some (rc, s') ->
  (rc <> MCSOS_SCHED_OK /\ s' = s) \/
  (rc = MCSOS_SCHED_OK /\ sys_inv s' (q ++ [t]) /\ (t ∉ q) /\ t <> current (sched s) /\
   same_rest s s' /\ same_threads [t] s s' /\ ctx_of s' t = ctx_of s t).
Proof.
  intros [Hinv Hsz] Hth Hst Hrun. pose proof Hinv as [Hq (H0 & ch & Hch & Hcm & Hcs) Hout].
  destruct (decide (can_queue (state th) /\ magic th = MCSOS_THREAD_MAGIC /\ t <> 0)) as [(Hc & Hm & Ht0)|Hno].
  2:{ left. destruct (enqueue_refused s t th q) as (rc' & Hr & Hne); [done|done| |].
      - destruct (decide (magic th = MCSOS_THREAD_MAGIC)); [|tauto]. destruct (decide (t = 0)); tauto.
      - rewrite Hrun in Hr. by injection Hr as -> ->. }
  right. assert (Htq : t ∉ q).
  { intros Hin. pose proof (q_ready _ _ Hq) as Hr. rewrite Forall_forall in Hr. destruct (Hr t Hin) as (x & ? & _ & ?). congruence. }
  assert (Htc : t <> current (sched s)).
  { intros ->. rewrite Hth in Hch. injection Hch as <-. rewrite Hcs in Hc. by destruct Hc as [?|[?|?]]. }
  destruct (enqueue_spec s q t (state th)) as (s2 & th2 & Hr & Hq2 & Hth2 & Ht2 & Hrest & Hthr);
    [done|split; [done|eauto]|done|done|by eapply queue_room; eauto|].
  rewrite Hrun in Hr. injection Hr as -> ->. split_and!; try done.
  - split; [|by rewrite (size_dom_eq _ _ (enqueue_dom _ _ _ _ Hrun))]. split; [done| |].
    + rewrite (same_rest_current _ _ Hrest). split; [done|].
      destruct (Hthr (current (sched s)) ch) as [k Hk]; [set_solver|done|]. exists (set_next ch k). done.
    + rewrite (same_rest_current _ _ Hrest). set_solver.
  - unfold ctx_of. rewrite Ht2, Hth. rewrite Hth in Hth2. by injection Hth2 as <-.
Qed.

Lemma yield_room s q st : sched_inv s q st -> Z.of_nat (size (threads s)) < 2 ^ 63 -> Z.of_nat (length q) + 1 < 2 ^ 63.
Proof.
  intros Hinv Hsz. eapply (queue_room s q st (current (sched s))); [done|done| |apply Hinv].
  eapply valid_lookup, Hinv.
Qed.

Lemma yield_inv resume s q rc s' :
  sys_inv s q -> mcsos_sched_yield resume s = Some (rc, s') ->
  rc = MCSOS_SCHED_OK /\ sys_inv s' (rotate s q MCSOS_THREAD_RUNNING) /\
  switched resume s s' (current (sched s)) (hd (idle (sched s)) q)
    (if requeues s MCSOS_THREAD_RUNNING then MCSOS_THREAD_READY else MCSOS_THREAD_RUNNING).
Proof.
  intros [Hinv Hsz] Hrun.
  destruct (yield_spec resume s q MCSOS_THREAD_RUNNING Hinv) as (s2 & Hr & Hinv2 & Hsw); [done|by eapply yield_room|].
  pose proof Hr as Hd. apply yield_dom in Hd. rewrite Hrun in Hr. injection Hr as -> ->.
  split_and!; [done| |done]. split; [done|]. by rewrite (size_dom_eq _ _ Hd).
Qed.

Lemma block_spec resume s q rc s' :
  sys_inv s q -> mcsos_thread_block_current resume s = Some (rc, s') ->
  (current (sched s) = idle (sched s) /\ rc = MCSOS_SCHED_ESTATE /\ s' = s) \/
  (current (sched s) <> idle (sched s) /\ rc = MCSOS_SCHED_OK /\ sys_inv s' (tl q) /\
   switched resume s s' (current (sched s)) (hd (idle (sched s)) q) MCSOS_THREAD_BLOCKED).
Proof.
  intros [[Hq (H0 & ch & Hch & Hcm & Hcs) Hout] Hsz] Hrun. unfold mcsos_thread_block_current in Hrun.
  destruct (Z.eqb_spec (initialized (sched s)) 0); [by destruct (q_init _ _ Hq)|].
  rewrite (valid_object_true s _ ch) in Hrun by done. cbn [mbind option_bind negb] in Hrun.
  destruct (Z.eqb_spec (current (sched s)) (idle (sched s))) as [E|E]; [by injection Hrun as <- <-; left|].
  right. rewrite (upd_Some _ _ s ch Hch) in Hrun. cbn [mbind option_bind] in Hrun.
  set (cur := current (sched s)) in *. set (s1 := set_threads s _) in Hrun.
  assert (Hl1 : threads s1 !! cur = Some (set_state ch MCSOS_THREAD_BLOCKED)) by (simpl; by rewrite lookup_insert_eq).
  assert (Hinv1 : sched_inv s1 q MCSOS_THREAD_BLOCKED).
  { split; [by apply queue_ok_set| |done]. split; [done|]. eexists. split; [exact Hl1|done]. }
  assert (Hd1 : dom (threads s1) = dom (threads s)) by (simpl; apply dom_insert_lookup_L; by rewrite Hch).
  destruct (yield_spec resume s1 q MCSOS_THREAD_BLOCKED) as (s2 & Hr & Hinv2 & Hsw); [done|done| |].
  { eapply yield_room; [done|]. by rewrite (size_dom_eq _ _ Hd1). }
  pose proof Hr as Hd. apply yield_dom in Hd. rewrite Hrun in Hr. injection Hr as -> ->.
  unfold rotate, requeues in Hinv2. simpl in Hinv2. rewrite app_nil_r in Hinv2.
  split_and!; [done|done|split; [done|rewrite (size_dom_eq _ _ Hd), (size_dom_eq _ _ Hd1); done]|].
  destruct Hsw as [W1 W2 W3 W4 W5 W6 W7]. simpl in *. fold cur in W1, W3, W4, W5, W6, W7. constructor; try done.
  - intros u st Hu1 Hu2 (Hu0 & uh & Huh & ? & ?). apply W3; [done|done|]. split; [done|]. exists uh.
    by rewrite lookup_insert_ne.
  - intros Hne. rewrite W6 by done. unfold ctx_of. simpl. by rewrite lookup_insert_ne by done.
  - intros u Hu. rewrite W7 by (by apply lookup_insert_is_Some'; right). match goal with |- (if ?x then _ else _) = (if ?y then _ else _) => change y with x; destruct x; [done|] end.
    unfold ctx_of. simpl. destruct (decide (u = cur)) as [->|Hne].
    + rewrite lookup_insert_eq. by rewrite Hch.
    + by rewrite lookup_insert_ne.
Qed.

Lemma block_total resume s q : sys_inv s q -> is_Some (mcsos_thread_block_current resume s).
Proof.
  intros [[Hq (H0 & ch & Hch & Hcm & Hcs) Hout] Hsz]. unfold mcsos_thread_block_current.
  destruct (Z.eqb_spec (initialized (sched s)) 0); [by destruct (q_init _ _ Hq)|].
  rewrite (valid_object_true s _ ch) by done. cbn [mbind option_bind negb].
  destruct (Z.eqb_spec (current (sched s)) (idle (sched s))); [eauto|].
  rewrite (upd_Some _ _ s ch Hch). cbn [mbind option_bind]. set (s1 := set_threads s _).
  assert (Hinv1 : sched_inv s1 q MCSOS_THREAD_BLOCKED).
  { split; [by apply queue_ok_set| |done]. split; [done|]. eexists. simpl. rewrite lookup_insert_eq. done. }
  destruct (yield_spec resume s1 q MCSOS_THREAD_BLOCKED) as (s2 & Hr & _); [done|done| |eauto].
  eapply yield_room; [done|]. rewrite (size_dom_eq (threads s)); [done|]. simpl. apply dom_insert_lookup_L. by rewrite Hch.
Qed.

(** Preparing a fresh TCB does not concern the scheduler. *)
Lemma prepare_inv s q t nm ent ar base size ident rc s' th :
  sys_inv s q -> threads s !! t = Some th -> magic th <> MCSOS_THREAD_MAGIC ->
  mcsos_thread_prepare t nm ent ar base size ident s = Some (rc, s') ->
  sys_inv s' q /\ sched s' = sched s /\ cpu s' = cpu s /\ (forall u, u <> t -> threads s' !! u = threads s !! u).
Proof.
  intros Hs Hth Hm Hrun. pose proof Hs as [[Hq (H0 & ch & Hch & Hcm & Hcs) Hout] Hsz].
  unfold mcsos_thread_prepare in Hrun. cbv zeta in Hrun.
  repeat match type of Hrun with (if ?b then _ else _) = _ => destruct b; [by injection Hrun as <- <-|] end.
  rewrite Hth in Hrun. cbn [mbind option_bind] in Hrun. injection Hrun as <- <-. simpl.
  assert (Htq : t ∉ q).
  { intros Hin. pose proof (q_ready _ _ Hq) as Hr. rewrite Forall_forall in Hr. destruct (Hr t Hin) as (x & ? & ? & _). congruence. }
  assert (Hti : t <> idle (sched s)) by (intros ->; destruct (q_idle _ _ Hq) as (_ & x & ? & ? & _); congruence).
  assert (Htc : t <> current (sched s)) by (intros ->; congruence).
  split_and!; [|done|done|intros u Hu; by rewrite lookup_insert_ne]. split; [split|]; simpl.
  - eapply (queue_ok_ext (set_threads s (<[t := _]> (threads s))));
      [apply queue_ok_set; [exact Hq|exact Htq|by intros ->]|reflexivity|apply Hq|reflexivity..].
  - split; [done|]. exists ch. by rewrite lookup_insert_ne.
  - done.
  - rewrite (size_dom_eq (threads s)); [done|]. apply dom_insert_lookup_L. by rewrite Hth.
Qed.

Lemma mark_ready_cases t s q rc s' :
  queue_ok s q -> mcsos_thread_mark_ready t s = Some (rc, s') ->
  s' = s \/ exists th, threads s !! t = Some th /\ state th = MCSOS_THREAD_BLOCKED /\
    mcsos_sched_enqueue t s = Some (rc, s').
Proof.
  intros Hq. unfold mcsos_thread_mark_ready, valid_thread_object. destruct (Z.eqb_spec t 0); [by intros [= <- <-]; left|].
  destruct (threads s !! t) as [th|] eqn:Hth; [|done]. cbn [mbind option_bind].
  destruct (Z.eqb_spec (magic th) MCSOS_THREAD_MAGIC); cbn [negb]; [|by intros [= <- <-]; left].
  case_bool_decide; cbn [negb]; [|by intros [= <- <-]; left]. intros Hr. right. exists th. done.
Qed.

Lemma tick_inv s q rc s' : sys_inv s q -> mcsos_sched_tick s = Some (rc, s') ->
  sys_inv s' q /\ current (sched s') = current (sched s) /\ cpu s' = cpu s /\ forall u, ctx_of s' u = ctx_of s u.
Proof.
  intros [[Hq (H0 & ch & Hch & Hcm & Hcs) Hout] Hsz] Hrun. unfold mcsos_sched_tick in Hrun.
  destruct (Z.eqb_spec (initialized (sched s)) 0); [by destruct (q_init _ _ Hq)|].
  rewrite (valid_object_true s _ ch) in Hrun by done. cbn [mbind option_bind negb] in Hrun. cbv zeta in Hrun.
  set (s1 := set_sched s _) in Hrun. rewrite (upd_Some _ _ s1 ch Hch) in Hrun. cbn [mbind option_bind] in Hrun.
  injection Hrun as <- <-. subst s1. simpl. split_and!; [|done|done|].
  - split; [split|]; simpl.
    + eapply queue_ok_ext; [apply (queue_ok_same s q (current (sched s)) ch (inc_ticks ch)); done|reflexivity|apply Hq|reflexivity..].
    + split; [done|]. eexists. rewrite lookup_insert_eq. done.
    + done.
    + rewrite (size_dom_eq (threads s)); [done|]. apply dom_insert_lookup_L. by rewrite Hch.
  - intros u. unfold ctx_of. simpl. destruct (decide (u = current (sched s))) as [->|Hne].
    + by rewrite lookup_insert_eq, Hch.
    + by rewrite lookup_insert_ne.
Qed.

Definition known (s : sys) (t : Z) : Prop :=
  t <> 0 /\ exists th, threads s !! t = Some th /\ magic th = MCSOS_THREAD_MAGIC.

(** A thread [t] that does not run keeps the registers it saved, and gets
    them back when it starts to run. *)
Definition keeps_context (s s' : sys) (t : Z) : Prop :=
  ctx_of s' t = ctx_of s t /\ known s' t /\ (current (sched s') = t -> Some (cpu s') = ctx_of s t).

Lemma switched_keeps resume s s' t nxt st' st'' :
  switched resume s s' (current (sched s)) nxt st' -> valid_at (threads s') (current (sched s')) st'' ->
  current (sched s) <> t -> known s t -> keeps_context s s' t.
Proof.
  intros [W1 _ W3 _ _ W6 W7] Hcur Hne (Ht0 & th & Hth & Hm). rewrite W1 in Hcur. split_and!.
  - rewrite W7 by eauto. rewrite decide_False; [done|]. intros [-> _]. done.
  - split; [done|]. destruct (decide (t = nxt)) as [->|Hn]; [destruct Hcur as (_ & x & ? & ? & _); eauto|].
    destruct (W3 t (state th)) as (_ & x & ? & ? & _); [done|done|split; [done|eauto]|eauto].
  - intros Hc. rewrite W1 in Hc. rewrite W6 by congruence. by rewrite Hc.
Qed.

Lemma keeps_refl s t : current (sched s) <> t -> known s t -> keeps_context s s t.
Proof. intros Hne Hk. split_and!; [done|done|done]. Qed.

Lemma enqueue_keeps s q u th rc s' t :
  sys_inv s q -> threads s !! u = Some th -> state th <> MCSOS_THREAD_READY ->
  mcsos_sched_enqueue u s = Some (rc, s') ->
  (exists q', sys_inv s' q') /\ (current (sched s) <> t -> known s t -> keeps_context s s' t).
Proof.
  intros Hs Hth Hst Hrun.
  destruct (enqueue_inv s q u th rc s' Hs Hth Hst Hrun) as [[_ ->]|(_ & Hs' & _ & _ & Hrest & Hthr & Hctx)].
  { split; [eauto|]. intros Hne Hk. by apply keeps_refl. }
  split; [eauto|]. intros Hne (Ht0 & x & Hx & Hxm). unfold keeps_context. rewrite (same_rest_current _ _ Hrest).
  destruct (decide (t = u)) as [->|Ht].
  - split_and!; [done| |done]. split; [done|]. destruct Hs' as [[Hq' _ _] _].
    pose proof (q_ready _ _ Hq') as Hr. apply Forall_app in Hr as [_ Hr].
    apply Forall_cons in Hr as [(z & ? & ? & _) _]. eauto.
  - destruct (Hthr t x) as [k Hk]; [set_solver|done|]. unfold ctx_of. rewrite Hk, Hx. split_and!; [done| |done].
    split; [done|]. exists (set_next x k). done.
Qed.

(** Any step keeps the invariant and the saved registers. *)
Lemma step_inv resume s s' q t :
  sys_inv s q -> sched_step resume s s' ->
  (exists q', sys_inv s' q') /\ (current (sched s) <> t -> known s t -> keeps_context s s' t).
Proof.
  intros Hs Hstep.
  destruct Hstep as [t' nm ent ar base size ident s rc s' th Hth Hm Hrun|t' s rc s' th Hth Hst Hrun|s rc s' Hrun|s rc s' Hrun
    |s rc s' Hrun|t' s rc s' Hrun|s c].
  - destruct (prepare_inv s q t' nm ent ar base size ident rc s' th Hs Hth Hm Hrun) as (Hs' & Esc & Ecpu & Eth).
    split; [eauto|]. intros Hne (Ht0 & x & Hx & Hxm). assert (t <> t') by (intros ->; congruence).
    unfold keeps_context, known, ctx_of. rewrite !Eth, Esc by done. split_and!; [done|done|eauto|done].
  - by eapply enqueue_keeps.
  - destruct (yield_inv resume s q rc s' Hs Hrun) as (_ & Hs' & Hw). split; [eauto|]. intros Hne Hk.
    eapply switched_keeps; [exact Hw|apply Hs'|done|done].
  - destruct (tick_inv s q rc s' Hs Hrun) as (Hs' & Ec & Ecpu & Ectx). split; [eauto|]. intros Hne (Ht0 & x & Hx & Hxm).
    unfold keeps_context. rewrite Ectx, Ec. split_and!; [done| |done]. split; [done|].
    unfold mcsos_sched_tick in Hrun. destruct Hs as [[Hq (H0 & ch & Hch & Hcm & Hcs) Hout] _].
    destruct (Z.eqb_spec (initialized (sched s)) 0); [by destruct (q_init _ _ Hq)|].
    rewrite (valid_object_true s _ ch) in Hrun by done. cbn [mbind option_bind negb] in Hrun. cbv zeta in Hrun.
    set (s1 := set_sched s _) in Hrun. rewrite (upd_Some _ _ s1 ch Hch) in Hrun. cbn [mbind option_bind] in Hrun.
    injection Hrun as <- <-. exists x. simpl. by rewrite lookup_insert_ne.
  - destruct (block_spec resume s q rc s' Hs Hrun) as [(_ & _ & ->)|(_ & _ & Hs' & Hw)].
    + split; [eauto|]. intros Hne Hk. by apply keeps_refl.
    + split; [eauto|]. intros Hne Hk. eapply switched_keeps; [exact Hw|apply Hs'|done|done].
  - destruct (mark_ready_cases t' s q rc s') as [->|(th & Hth & Hst & Hrun')]; [apply Hs|done| |].
    + split; [eauto|]. intros Hne Hk. by apply keeps_refl.
    + eapply enqueue_keeps; [done|done|congruence|done].
  - split; [|intros Hne Hk; split_and!; done]. exists q. destruct Hs as [[Hq Hc Hout] Hsz].
    split; [|done]. split; [|done|done]. eapply queue_ok_ext; [done|done|apply Hq|done..].
Qed.

(** ** Validation and counting *)

Lemma count_from_chain m p q fuel c :
  chain m p q -> (length q <= fuel)%nat -> 0 <= c -> c + Z.of_nat (length q) < 2 ^ 64 ->
  count_from fuel m p c = Some (c + Z.of_nat (length q)).
Proof.
  revert p fuel c. induction q as [|t q IH]; intros p fuel c Hc Hf Hc0 Hb.
  - simpl in Hc. subst p. destruct fuel; simpl; f_equal; lia.
  - destruct Hc as (-> & Ht & th & Hth & Hc). destruct fuel as [|fuel]; [simpl in Hf; lia|]. simpl in *.
    destruct (Z.eqb_spec t 0); [done|]. rewrite Hth. simpl. rewrite wrap_small by (unfold in_u; lia).
    rewrite (IH (next th)); [f_equal; lia|done|lia|lia|lia].
Qed.

Lemma validate_from_chain s p q pre fuel :
  chain (threads s) p q -> Forall (ready_ok (threads s)) q -> current (sched s) ∉ q ->
  (length q <= fuel)%nat -> runnable_count (sched s) = Z.of_nat (length (pre ++ q)) ->
  Z.of_nat (length (pre ++ q)) < 2 ^ 63 -> ready_tail (sched s) = last_or 0 (pre ++ q) ->
  validate_from fuel s p (last_or 0 pre) (Z.of_nat (length pre)) = Some MCSOS_SCHED_OK.
Proof.
  revert p pre fuel. induction q as [|t q IH]; intros p pre fuel Hc Hr Hcur Hf Hcnt Hsm Htail.
  - simpl in Hc. subst p. rewrite app_nil_r in *. destruct fuel; simpl; by rewrite Htail, Hcnt, !Z.eqb_refl.
  - destruct Hc as (-> & Ht & th & Hth & Hc). destruct fuel as [|fuel]; [simpl in Hf; lia|].
    apply Forall_cons in Hr as [(th' & Hth' & Hm & Hst) Hr]. rewrite Hth in Hth'. injection Hth' as <-.
    cbn [validate_from]. destruct (Z.eqb_spec t 0); [done|].
    rewrite (valid_object_true s t th) by done. cbn [mbind option_bind negb]. rewrite Hth. cbn [mbind option_bind].
    rewrite bool_decide_true by done. cbn [negb]. destruct (Z.eqb_spec t (current (sched s))); [set_solver|].
    rewrite length_app in *. cbn [length] in *.
    rewrite (wrap_small 64 (Z.of_nat (length pre) + 1)) by (unfold in_u; lia).
    rewrite (wrap_small 64 (runnable_count (sched s) + 1)) by (unfold in_u; lia).
    destruct (Z.ltb_spec (runnable_count (sched s) + 1) (Z.of_nat (length pre) + 1)); [lia|].
    replace (Z.of_nat (length pre) + 1) with (Z.of_nat (length (pre ++ [t]))) by (rewrite length_app; simpl; lia).
    replace t with (last_or 0 (pre ++ [t])) at 1 by (unfold last_or; by rewrite last_snoc).
    apply IH; rewrite <- ?app_assoc; try done; [set_solver|lia|rewrite length_app; simpl; lia|rewrite length_app; simpl; lia].
Qed.

Lemma validate_ok s q : sys_inv s q ->
  mcsos_sched_validate s = Some MCSOS_SCHED_OK /\
  mcsos_sched_ready_count (length q) s = Some (runnable_count (sched s)).
Proof.
  intros [[Hq (H0 & ch & Hch & Hcm & Hcs) Hout] _]. pose proof Hq as [H1 H2 H3 H4 H5 H6 H7 H8]. split.
  - unfold mcsos_sched_validate. destruct (Z.eqb_spec (initialized (sched s)) 0); [done|].
    rewrite (valid_object_true s _ ch) by done. cbn [mbind option_bind negb].
    apply (validate_from_chain s _ q []); try done. lia.
  - unfold mcsos_sched_ready_count. destruct (Z.eqb_spec (initialized (sched s)) 0); [done|].
    rewrite (count_from_chain _ _ q); [f_equal; lia|done|lia|lia|lia].
Qed.

(** C5. The scheduler is a FIFO: on a well-formed state with ready queue [q],
    [mcsos_sched_enqueue] of a NEW or BLOCKED thread appends it and refuses,
    changing nothing, a null pointer, an object without the magic number and a
    thread that is RUNNING or a ZOMBIE (a READY thread, which is in the queue
    already, it does not refuse: see [double_enqueue_corrupts]);
    [mcsos_sched_yield] runs the head (the idle thread when [q] is empty) and
    appends the running thread unless it is the idle one, and
    [mcsos_thread_block_current] runs the head without appending, leaving the
    old thread BLOCKED, and refuses the idle thread.  Each keeps the state
    well-formed. *)
Theorem sched_refines_fifo resume s q :
  sys_inv s q ->
  (forall t st, valid_at (threads s) t st -> st = MCSOS_THREAD_NEW \/ st = MCSOS_THREAD_BLOCKED ->
     exists s', mcsos_sched_enqueue t s = Some (MCSOS_SCHED_OK, s') /\ sys_inv s' (q ++ [t]) /\
       current (sched s') = current (sched s)) /\
  (forall t, t = 0 \/ (exists th, threads s !! t = Some th /\
       (magic th <> MCSOS_THREAD_MAGIC \/ state th = MCSOS_THREAD_RUNNING \/ state th = MCSOS_THREAD_ZOMBIE)) ->
     exists rc, mcsos_sched_enqueue t s = Some (rc, s) /\ rc <> MCSOS_SCHED_OK) /\
  (exists s', mcsos_sched_yield resume s = Some (MCSOS_SCHED_OK, s') /\
     sys_inv s' (tl q ++ if current (sched s) =? idle (sched s) then [] else [current (sched s)]) /\
     current (sched s') = hd (idle (sched s)) q) /\
  (current (sched s) = idle (sched s) -> mcsos_thread_block_current resume s = Some (MCSOS_SCHED_ESTATE, s)) /\
  (current (sched s) <> idle (sched s) ->
     exists s', mcsos_thread_block_current resume s = Some (MCSOS_SCHED_OK, s') /\ sys_inv s' (tl q) /\
       current (sched s') = hd (idle (sched s)) q /\
       valid_at (threads s') (current (sched s)) MCSOS_THREAD_BLOCKED).
Proof.
  intros Hs. pose proof Hs as [Hinv Hsz]. pose proof (block_total resume s q Hs) as [[rcb sb] Hb]. split_and!.
  - intros t st (Ht0 & th & Hth & Hm & Hst) Hcase.
    assert (Hnr : state th <> MCSOS_THREAD_READY) by (destruct Hcase; congruence).
    destruct (enqueue_spec s q t st) as (s' & _ & Hrun & _); [apply Hinv|split; eauto|unfold can_queue; tauto| | |].
    + intros Hin. pose proof (q_ready _ _ (si_queue _ _ _ Hinv)) as Hr. rewrite Forall_forall in Hr.
      destruct (Hr t Hin) as (x & ? & _ & ?). congruence.
    + eapply (queue_room s q MCSOS_THREAD_RUNNING t); eauto. intros Hin.
      pose proof (q_ready _ _ (si_queue _ _ _ Hinv)) as Hr. rewrite Forall_forall in Hr.
      destruct (Hr t Hin) as (x & ? & _ & ?). congruence.
    + exists s'. destruct (enqueue_inv s q t th _ s' Hs Hth Hnr Hrun) as [[? _]|(_ & Hs' & _ & _ & Hrest & _)]; [done|].
      split_and!; [done|done|by apply same_rest_current].
  - intros t [->|(th & Hth & Hbad)].
    { unfold mcsos_sched_enqueue. destruct (Z.eqb_spec (initialized (sched s)) 0); by exists MCSOS_SCHED_EINVAL. }
    apply (enqueue_refused s t th q); [apply Hinv|done|].
    destruct Hbad as [?|[E|E]]; [tauto|left; rewrite E|left; rewrite E]; unfold can_queue; by intros [?|[?|?]].
  - destruct (yield_spec resume s q MCSOS_THREAD_RUNNING Hinv) as (s' & Hrun & _ & _); [done|by eapply yield_room|].
    destruct (yield_inv resume s q _ s' Hs Hrun) as (_ & Hs' & Hw). exists s'. split_and!; [done| |apply Hw].
    unfold rotate, requeues in Hs'. rewrite bool_decide_true in Hs' by done. simpl in Hs'.
    by destruct (current (sched s) =? idle (sched s)).
  - intros E. destruct (block_spec resume s q rcb sb Hs Hb) as [(_ & -> & ->)|(? & _)]; [done|done].
  - intros E. destruct (block_spec resume s q rcb sb Hs Hb) as [(? & _)|(_ & -> & Hs' & Hw)]; [done|].
    exists sb. split_and!; [done|done|apply Hw|]. apply (sw_old _ _ _ _ _ _ Hw). intros Hh.
    destruct q as [|t q]; simpl in Hh; [congruence|]. apply (si_out _ _ _ Hinv). rewrite <- Hh. by left.
Qed.

(** ** Boot *)

Lemma init_inv boot s s1 :
  Z.of_nat (size (threads s)) < 2 ^ 63 -> mcsos_scheduler_init boot s = Some (MCSOS_SCHED_OK, s1) -> sys_inv s1 [].
Proof.
  intros Hsz. unfold mcsos_scheduler_init. destruct (Z.eqb_spec boot 0); [by intros [=]|].
  destruct (threads s !! boot) as [b|] eqn:Hb; [|done]. cbn [mbind option_bind]. intros [= <-].
  assert (Hv : valid_at (<[boot := mk_thread MCSOS_THREAD_MAGIC 0 "boot" MCSOS_THREAD_RUNNING zero_context 0 0 0 0 0 0 0 0]> (threads s))
    boot MCSOS_THREAD_RUNNING).
  { split; [done|]. eexists. rewrite lookup_insert_eq. done. }
  split; [split; [|done|set_solver]|]; simpl.
  - constructor; simpl; try done. constructor.
  - rewrite (size_dom_eq (threads s)); [done|]. apply dom_insert_lookup_L. by rewrite Hb.
Qed.

Lemma reachable_inv resume s1 s2 q : sys_inv s1 q -> rtc (sched_step resume) s1 s2 -> exists q', sys_inv s2 q'.
Proof.
  intros Hs Hr. revert q Hs. induction Hr as [s|s a b Hstep _ IH]; intros q Hs; [eauto|].
  destruct (step_inv resume s a q 0 Hs Hstep) as [[q' Hs'] _]. by eapply IH.
Qed.

(** C17. Every state the scheduler can reach is well-formed: after
    [mcsos_scheduler_init] and any sequence of thread creations, enqueues,
    yields, ticks, blocks, wake-ups and thread execution,
    [mcsos_sched_validate] returns OK and [mcsos_sched_ready_count] terminates
    with the value of [runnable_count]. *)
Theorem sched_reachable_valid resume boot s s1 s2 :
  Z.of_nat (size (threads s)) < 2 ^ 63 -> mcsos_scheduler_init boot s = Some (MCSOS_SCHED_OK, s1) ->
  rtc (sched_step resume) s1 s2 ->
  mcsos_sched_validate s2 = Some MCSOS_SCHED_OK /\
  mcsos_sched_ready_count (Z.to_nat (runnable_count (sched s2))) s2 = Some (runnable_count (sched s2)).
Proof.
  intros Hsz Hinit Hr. destruct (reachable_inv resume s1 s2 [] (init_inv boot s s1 Hsz Hinit) Hr) as [q Hs].
  destruct (validate_ok s2 q Hs) as [Hv Hc]. split; [done|]. destruct Hs as [[Hq _ _] _].
  rewrite (q_count _ _ Hq) in *. by rewrite Nat2Z.id.
Qed.

(** ** Round robin *)

Fixpoint yields (resume : Z) (n : nat) (s : sys) : option sys :=
  match n with
  | O => Some s
  | S n => r ← mcsos_sched_yield resume s; yields resume n (snd r)
  end.

(** C39. No starvation: a thread at position [k] of the ready queue runs after
    exactly [k + 1] yields. *)
Theorem yield_round_robin resume s q k t :
  sys_inv s q -> q !! k = Some t ->
  exists s', yields resume (S k) s = Some s' /\ current (sched s') = t.
Proof.
  revert s q. induction k as [|k IH]; intros s q Hs Hk.
  all: destruct (yield_spec resume s q MCSOS_THREAD_RUNNING (sy_inv _ _ Hs)) as (s1 & Hrun & _ & _);
    [done|eapply yield_room; apply Hs|].
  all: destruct (yield_inv resume s q _ s1 Hs Hrun) as (_ & Hs1 & Hw); destruct q as [|u q]; [done|].
  - exists s1. cbn [yields]. rewrite Hrun. split; [done|]. rewrite (sw_current _ _ _ _ _ _ Hw). by injection Hk as <-.
  - cbn [yields] in *. rewrite Hrun. cbn [mbind option_bind snd]. apply (IH s1 _ Hs1). unfold rotate. simpl in *.
    by apply lookup_app_l_Some.
Qed.

(** C16. A thread resumes where it left off: when thread [t] gives up the CPU
    by a yield, then whatever happens until it is scheduled again (other
    threads run and use the registers, threads are created, blocked and
    woken), the registers it gets back are those it had, with the
    instruction pointer at the return of the switch. *)
Theorem yield_restores_context resume s q s1 s2 s3 t :
  sys_inv s q -> current (sched s) = t ->
  mcsos_sched_yield resume s = Some (MCSOS_SCHED_OK, s1) -> current (sched s1) <> t ->
  rtc (fun a b => sched_step resume a b /\ current (sched b) <> t) s1 s2 ->
  sched_step resume s2 s3 -> current (sched s3) = t ->
  cpu s3 = saved (cpu s) resume.
Proof.
  intros Hs Ht Hrun Hne Hr Hstep H3.
  destruct (yield_inv resume s q _ s1 Hs Hrun) as (_ & Hs1 & Hw). rewrite Ht in Hw.
  pose proof (sw_current _ _ _ _ _ _ Hw) as Hcur1. rewrite Hcur1 in Hne.
  destruct Hs as [[_ Hcv _] _]. rewrite Ht in Hcv.
  assert (Hctx1 : ctx_of s1 t = Some (saved (cpu s) resume)).
  { rewrite (sw_ctx _ _ _ _ _ _ Hw) by (by eapply valid_lookup). by rewrite decide_True. }
  assert (Hk1 : known s1 t).
  { destruct (sw_old _ _ _ _ _ _ Hw Hne) as (? & th & ? & ? & _). split; eauto. }
  rewrite <- Hcur1 in Hne. clear Hw Hcur1 Hrun. revert Hs1 Hctx1 Hk1 Hne. generalize (rotate s q MCSOS_THREAD_RUNNING) as q1.
  induction Hr as [s1|s1 a b [Hst Hna] _ IH]; intros q1 Hs1 Hctx Hk1 Hne.
  - destruct (step_inv resume s1 s3 q1 t Hs1 Hstep) as [_ Hkeep]. destruct (Hkeep Hne Hk1) as (_ & _ & Hc).
    specialize (Hc H3). rewrite Hctx in Hc. by injection Hc.
  - destruct (step_inv resume s1 a q1 t Hs1 Hst) as [[q2 Hs2] Hkeep]. destruct (Hkeep Hne Hk1) as (E & Hk2 & _).
    apply (IH Hstep q2); [done|congruence|done|done].
Qed.

(** ** The validator *)

(** What [mcsos_sched_validate] is to decide: the links from the head are a
    finite queue without repetition of READY threads other than the current
    one, with the right tail and count. *)
Record well_formed (s : sys) (q : list Z) : Prop := {
  wf_chain : chain (threads s) (ready_head (sched s)) q;
  wf_tail : ready_tail (sched s) = last_or 0 q;
  wf_count : runnable_count (sched s) = Z.of_nat (length q);
  wf_nodup : NoDup q;
  wf_ready : Forall (ready_ok (threads s)) q;
  wf_out : current (sched s) ∉ q
}.

(** Every link leads to a thread object. *)
Definition closed (s : sys) : Prop :=
  let ok p := p = 0 \/ is_Some (threads s !! p) in
  ok (ready_head (sched s)) /\ forall t th, threads s !! t = Some th -> ok (next th).

Lemma chain_det m p q1 q2 : chain m p q1 -> chain m p q2 -> q1 = q2.
Proof.
  revert p q2. induction q1 as [|t q1 IH]; intros p [|u q2] H1 H2; simpl in *.
  - done.
  - destruct H2 as (-> & ? & _). done.
  - destruct H1 as (-> & ? & _). done.
  - destruct H1 as (-> & _ & th & Hth & H1), H2 as (<- & _ & th' & Hth' & H2). simplify_eq. f_equal. by eapply IH.
Qed.

(** A chain can be cut at any of its elements. *)
Lemma chain_suffix m p pre t r : chain m p (pre ++ t :: r) -> chain m t (t :: r).
Proof.
  revert p. induction pre as [|u pre IH]; intros p H; simpl in H.
  - destruct H as (-> & ? & ?). split_and!; done.
  - destruct H as (_ & _ & th & _ & H). by eapply IH.
Qed.

Lemma chain_nodup m p q : chain m p q -> NoDup q.
Proof.
  revert p. induction q as [|t q IH]; intros p Hc; [constructor|]. pose proof Hc as (-> & ? & th & Hth & Hc').
  constructor; [|by eapply IH]. intros (l1 & l2 & ->)%list_elem_of_split.
  apply (chain_suffix _ _ (t :: l1)) in Hc as Hs. pose proof (chain_det _ _ _ _ Hc Hs) as E.
  apply (f_equal length) in E. simpl in E. rewrite length_app in E. simpl in E. lia.
Qed.

(** Two stores that agree on [pre] have the same links up to [t]. *)
Lemma chain_prefix m m' p pre t r q' :
  chain m p (pre ++ t :: r) -> (forall u, u ∈ pre -> m' !! u = m !! u) -> chain m' p q' ->
  exists r', q' = pre ++ t :: r' /\ chain m' t (t :: r').
Proof.
  revert p q'. induction pre as [|u pre IH]; intros p q' H Hag H'.
  - destruct H as (-> & ? & _). destruct q' as [|x r']; [done|]. destruct H' as (<- & ?). exists r'. done.
  - destruct H as (-> & ? & th & Hth & H). destruct q' as [|x r']; [done|].
    destruct H' as (<- & _ & th' & Hth' & H'). rewrite (Hag u), Hth in Hth' by (by left). injection Hth' as <-.
    destruct (IH _ r' H) as (r'' & -> & ?); [|done|by exists r'']. intros v Hv. apply Hag. by right.
Qed.

Lemma count_from_finite fuel m p c n : count_from fuel m p c = Some n -> exists q, chain m p q.
Proof.
  revert p c. induction fuel as [|f IH]; intros p c; simpl; destruct (Z.eqb_spec p 0) as [->|Hp].
  1, 3: intros _; by exists [].
  - done.
  - destruct (m !! p) as [th|] eqn:Hth; [|done]. simpl. intros H. destruct (IH _ _ H) as [q Hq].
    exists (p :: q). split_and!; [done|done|]. eauto.
Qed.

Lemma last_or_cons d t q : last_or d (t :: q) = last_or t q.
Proof. unfold last_or. rewrite last_cons. by destruct (last q). Qed.

(** One iteration of the walk on an object: it stops with ECORRUPT or goes on
    with a READY thread. *)
Lemma validate_step fuel s p th lst c :
  p <> 0 -> threads s !! p = Some th -> 0 <= c <= runnable_count (sched s) + 1 -> runnable_count (sched s) < 2 ^ 63 ->
  let go := magic th = MCSOS_THREAD_MAGIC /\ state th = MCSOS_THREAD_READY /\ p <> current (sched s) /\
    c + 1 <= runnable_count (sched s) + 1 in
  (go /\ validate_from (S fuel) s p lst c = validate_from fuel s (next th) p (c + 1)) \/
  (~ go /\ validate_from (S fuel) s p lst c = Some MCSOS_SCHED_ECORRUPT).
Proof.
  intros Hp Hth Hc Hrc go. cbn [validate_from]. destruct (Z.eqb_spec p 0); [done|].
  unfold valid_thread_object. destruct (Z.eqb_spec p 0); [done|]. rewrite Hth. cbn [mbind option_bind].
  rewrite (wrap_small 64 (c + 1)), (wrap_small 64 (runnable_count (sched s) + 1)) by (unfold in_u; lia).
  destruct (Z.eqb_spec (magic th) MCSOS_THREAD_MAGIC); simpl; [|right; unfold go; tauto].
  case_bool_decide; simpl; [|right; unfold go; tauto].
  destruct (Z.eqb_spec p (current (sched s))); [right; unfold go; tauto|].
  destruct (Z.ltb_spec (runnable_count (sched s) + 1) (c + 1)); [right|left]; split; unfold go; try done; lia.
Qed.

Lemma validate_from_sound s fuel p lst c :
  0 <= c <= runnable_count (sched s) + 1 -> runnable_count (sched s) < 2 ^ 63 ->
  validate_from fuel s p lst c = Some MCSOS_SCHED_OK ->
  exists q, chain (threads s) p q /\ Forall (ready_ok (threads s)) q /\ (current (sched s) ∉ q) /\
    ready_tail (sched s) = last_or lst q /\ runnable_count (sched s) = c + Z.of_nat (length q).
Proof.
  intros Hc Hrc. revert p lst c Hc. induction fuel as [|f IH]; intros p lst c Hc.
  all: destruct (decide (p = 0)) as [->|Hp]; [|destruct (threads s !! p) as [th|] eqn:Hth].
  1, 4: simpl; destruct (Z.eqb_spec lst (ready_tail (sched s))); simpl; [|done];
    destruct (Z.eqb_spec c (runnable_count (sched s))); simpl; [|done];
    intros _; exists []; split_and!; [done|constructor|set_solver|done|simpl; lia].
  1, 2: simpl; by destruct (Z.eqb_spec p 0).
  - destruct (validate_step f s p th lst c) as [[(? & ? & ? & ?) ->]|[_ ->]]; [done..| |done].
    intros Hv. destruct (IH (next th) p (c + 1)) as (q & ? & ? & ? & ? & ?); [lia|done|].
    exists (p :: q). split_and!; [by split_and!; eauto|constructor; [|done]; by exists th|set_solver|by rewrite last_or_cons|].
    cbn [length]. lia.
  - simpl. destruct (Z.eqb_spec p 0); [done|]. unfold valid_thread_object. destruct (Z.eqb_spec p 0); [done|].
    by rewrite Hth.
Qed.

Lemma validate_from_total s fuel p lst c :
  0 <= c <= runnable_count (sched s) + 1 -> runnable_count (sched s) < 2 ^ 63 ->
  runnable_count (sched s) + 1 - c < Z.of_nat fuel ->
  (p = 0 \/ is_Some (threads s !! p)) -> closed s ->
  exists rc, validate_from fuel s p lst c = Some rc /\ (rc = MCSOS_SCHED_OK \/ rc = MCSOS_SCHED_ECORRUPT).
Proof.
  intros Hc Hrc Hf Hp Hcl. revert p lst c Hc Hf Hp. induction fuel as [|f IH]; intros p lst c Hc Hf Hp; [lia|].
  destruct (decide (p = 0)) as [->|Hp0].
  - simpl. repeat case_match; eauto.
  - destruct Hp as [?|[th Hth]]; [done|].
    destruct (validate_step f s p th lst c) as [[(? & ? & ? & ?) ->]|[_ ->]]; [done..| |eauto].
    apply IH; [lia|lia|]. by eapply Hcl.
Qed.

Lemma validate_total s st :
  initialized (sched s) <> 0 -> 0 <= runnable_count (sched s) < 2 ^ 63 ->
  valid_at (threads s) (current (sched s)) st -> closed s ->
  mcsos_sched_validate s = Some MCSOS_SCHED_OK \/ mcsos_sched_validate s = Some MCSOS_SCHED_ECORRUPT.
Proof.
  intros Hi Hrc (H0 & ch & Hch & Hm & _) Hcl. unfold mcsos_sched_validate.
  destruct (Z.eqb_spec (initialized (sched s)) 0); [done|]. rewrite (valid_object_true s _ ch) by done.
  cbn [mbind option_bind negb].
  destruct (validate_from_total s (Z.to_nat (runnable_count (sched s)) + 2) (ready_head (sched s)) 0 0)
    as (rc & -> & Hcase); [lia|lia|lia|apply Hcl|done|]. destruct Hcase as [->| ->]; tauto.
Qed.

Lemma validate_sound s :
  0 <= runnable_count (sched s) < 2 ^ 63 -> mcsos_sched_validate s = Some MCSOS_SCHED_OK -> exists q, well_formed s q.
Proof.
  intros Hrc. unfold mcsos_sched_validate. destruct (Z.eqb_spec (initialized (sched s)) 0); [done|].
  destruct (valid_thread_object s (current (sched s))) as [[]|]; [|done|done]. cbn [mbind option_bind negb]. intros E.
  destruct (validate_from_sound s _ _ 0 0 ltac:(lia) ltac:(lia) E) as (q & Hq & ? & ? & ? & ?).
  exists q. constructor; try done. by eapply chain_nodup.
Qed.

(** C38. [mcsos_sched_validate] decides well-formedness: on any store whose
    links lead to thread objects, cyclic or not, it terminates, and it returns
    OK exactly when the links form a finite queue of distinct READY threads
    without the current one, with the recorded tail and count, and ECORRUPT
    otherwise. *)
Theorem validate_decides s st :
  initialized (sched s) <> 0 -> 0 <= runnable_count (sched s) < 2 ^ 63 ->
  valid_at (threads s) (current (sched s)) st -> closed s ->
  (mcsos_sched_validate s = Some MCSOS_SCHED_OK /\ exists q, well_formed s q) \/
  (mcsos_sched_validate s = Some MCSOS_SCHED_ECORRUPT /\ ~ exists q, well_formed s q).
Proof.
  intros Hi Hrc Hcur Hcl. destruct (validate_total s st Hi Hrc Hcur Hcl) as [E|E]; [left|right]; split; try done.
  - by apply validate_sound.
  - intros [q [Hc Ht Hn Hnd Hr Ho]]. destruct Hcur as (H0 & ch & Hch & Hm & _). revert E. unfold mcsos_sched_validate.
    destruct (Z.eqb_spec (initialized (sched s)) 0); [done|]. rewrite (valid_object_true s _ ch) by done.
    cbn [mbind option_bind negb]. rewrite (validate_from_chain s _ q []); try done; simpl; lia.
Qed.

(** ** Queueing a thread twice *)

(** The store after [mcsos_sched_enqueue] of a thread that is already queued. *)
Lemma enqueue_again s q t :
  queue_ok s q -> t ∈ q ->
  exists s' th tl tlh, mcsos_sched_enqueue t s = Some (MCSOS_SCHED_OK, s') /\
    threads s !! t = Some th /\ last q = Some tl /\ is_Some (threads s !! tl) /\
    threads s' = <[tl := set_next tlh t]> (<[t := set_next (set_state th MCSOS_THREAD_READY) 0]> (threads s)) /\
    sched s' = set_queue (sched s) (ready_head (sched s)) t (runnable_count (sched s) + 1).
Proof.
  intros [H1 H2 H3 H4 H5 H6 H7 H8] Ht. rewrite Forall_forall in H7. destruct (H7 t Ht) as (th & Hth & Hm & Hst).
  pose proof (chain_nonzero _ _ _ _ H2 Ht) as Ht0.
  destruct (last q) as [tl|] eqn:Htl; [|apply last_None in Htl; subst q; set_solver].
  apply last_Some_elem_of in Htl as Htlq. destruct (H7 tl Htlq) as (tlh & Htlh & _).
  pose proof (chain_nonzero _ _ _ _ H2 Htlq) as Htl0.
  assert (Etl : ready_tail (sched s) = tl) by (rewrite H3; unfold last_or; by rewrite Htl).
  unfold mcsos_sched_enqueue. destruct (Z.eqb_spec (initialized (sched s)) 0); [done|].
  rewrite (valid_object_true s t th) by done. cbn [mbind option_bind negb]. rewrite Hth. cbn [mbind option_bind].
  rewrite Hst, (bool_decide_true (MCSOS_THREAD_READY = MCSOS_THREAD_READY)) by done.
  rewrite andb_false_r. cbn [negb andb]. rewrite (upd_Some t _ s th Hth). cbn [mbind option_bind].
  set (s1 := set_threads s _). change (sched s1) with (sched s). rewrite Etl. destruct (Z.eqb_spec tl 0); [done|].
  assert (exists x, threads s1 !! tl = Some x) as [x Hx].
  { simpl. destruct (decide (t = tl)) as [->|]; [rewrite lookup_insert_eq; eauto|]. rewrite lookup_insert_ne by done. eauto. }
  rewrite (upd_Some tl _ s1 x Hx). cbn [mbind option_bind].
  rewrite wrap_small by (unfold in_u; lia). eexists _, th, tl, x. split_and!; [done|done|done|by eexists|done|done].
Qed.

(** The links from the head after that: up to [t] as before, then at [t]
    itself again when [t] was the tail, and the end otherwise. *)
Lemma enqueue_again_links s q t s' :
  queue_ok s q -> t ∈ q -> mcsos_sched_enqueue t s = Some (MCSOS_SCHED_OK, s') ->
  forall q', chain (threads s') (ready_head (sched s')) q' -> last q <> Some t /\ (length q' < length q)%nat.
Proof.
  intros Hq Ht Hrun q' Hc'.
  destruct (enqueue_again s q t Hq Ht) as (s1 & th & tl & tlh & Hrun' & Hth & Htl & [tlo Htlo] & Hm & Hsc).
  rewrite Hrun in Hrun'. injection Hrun' as <-. destruct (list_elem_of_split q t Ht) as (pre & post & ->).
  pose proof Hq as [_ H2 _ _ _ H6 _ _]. apply NoDup_app in H6 as (_ & Hdis & Hnd).
  assert (Htlin : tl ∈ t :: post).
  { rewrite last_app_cons in Htl. by apply last_Some_elem_of in Htl. }
  rewrite Hsc in Hc'. cbn [ready_head set_queue] in Hc'.
  assert (Hag : forall u, u ∈ pre -> threads s' !! u = threads s !! u).
  { intros u Hu. rewrite Hm, !lookup_insert_ne; [done|..]; intros <-; apply (Hdis _ Hu); [by left|done]. }
  destruct (chain_prefix _ _ _ _ _ _ q' H2 Hag Hc')
    as (r' & -> & Hr'). pose proof Hr' as (_ & _ & x & Hx & Hr). rewrite Hm in Hx.
  rewrite last_app_cons in Htl |- *. destruct post as [|y post].
  - exfalso. injection Htl as <-. rewrite lookup_insert_eq in Hx. injection Hx as <-. simpl in Hr.
    pose proof (chain_det _ _ _ _ Hr' Hr) as E. apply (f_equal length) in E. simpl in E. lia.
  - rewrite last_cons_cons in Htl |- *. apply last_Some_elem_of in Htl as Hin. apply NoDup_cons in Hnd as [Htn _].
    assert (tl <> t) by (by intros ->). split; [congruence|].
    rewrite lookup_insert_ne, lookup_insert_eq in Hx by done. injection Hx as <-. simpl in Hr.
    destruct r' as [|z r']; [|destruct Hr as (<- & ? & _); done]. rewrite !length_app. simpl. lia.
Qed.

(** That state still satisfies what the validator needs to terminate. *)
Lemma enqueue_again_ok s q t s' :
  queue_ok s q -> valid_at (threads s) (current (sched s)) MCSOS_THREAD_RUNNING -> current (sched s) ∉ q ->
  Z.of_nat (size (threads s)) < 2 ^ 63 -> closed s -> t ∈ q -> mcsos_sched_enqueue t s = Some (MCSOS_SCHED_OK, s') ->
  initialized (sched s') <> 0 /\ 0 <= runnable_count (sched s') < 2 ^ 63 /\
  (exists st, valid_at (threads s') (current (sched s')) st) /\ closed s'.
Proof.
  intros Hq Hcur Hout Hsz [Hhd Hcl] Ht Hrun.
  destruct (enqueue_again s q t Hq Ht) as (s1 & th & tl & tlh & Hrun' & Hth & Htl & [tlo Htlo] & Hm & Hsc).
  rewrite Hrun in Hrun'. injection Hrun' as <-. apply last_Some_elem_of in Htl.
  assert (Hk : forall u, is_Some (threads s !! u) -> is_Some (threads s' !! u)).
  { intros u Hu. rewrite Hm, !lookup_insert_is_Some'. tauto. }
  assert (Hroom : Z.of_nat (length q) + 1 < 2 ^ 63) by (by eapply yield_room; [constructor|]).
  pose proof (q_count _ _ Hq) as Hn. split_and!.
  - rewrite Hsc. apply Hq.
  - rewrite Hsc. simpl. lia.
  - rewrite Hsc. simpl. lia.
  - exists MCSOS_THREAD_RUNNING. rewrite Hsc. simpl. destruct Hcur as (? & ch & ? & ?). split; [done|]. exists ch.
    rewrite Hm, !lookup_insert_ne; [done|..]; intros E; by rewrite <- E in Hout.
  - unfold closed. rewrite Hsc. split; [simpl; destruct Hhd; [by left|right; auto]|].
    intros u uh Hu. rewrite Hm in Hu. apply lookup_insert_Some in Hu as [[<- <-]|[_ Hu]]; [right; simpl; apply Hk; eauto|].
    apply lookup_insert_Some in Hu as [[<- <-]|[_ Hu]]; [by left|]. destruct (Hcl u uh Hu); [by left|right; auto].
Qed.

(** [mcsos_sched_enqueue] does not refuse a thread that is already in the
    ready queue: it returns OK and leaves a corrupt queue, which
    [mcsos_sched_validate] reports, and when the thread was the last of the
    queue the links form a cycle on which [mcsos_sched_ready_count] never
    returns. *)
Theorem double_enqueue_corrupts s q t :
  sys_inv s q -> closed s -> t ∈ q ->
  exists s', mcsos_sched_enqueue t s = Some (MCSOS_SCHED_OK, s') /\
    mcsos_sched_validate s' = Some MCSOS_SCHED_ECORRUPT /\
    (last q = Some t -> forall fuel, mcsos_sched_ready_count fuel s' = None).
Proof.
  intros [[Hq Hcur Hout] Hsz] Hcl Ht.
  destruct (enqueue_again s q t Hq Ht) as (s' & th & tl & tlh & Hrun & Hth & Htl & Htlo & Hm & Hsc).
  pose proof (enqueue_again_links s q t s' Hq Ht Hrun) as Hlinks. pose proof Hq as [H1 H2 H3 H4 H5 H6 H7 H8].
  assert (Htlq : tl ∈ q) by (by apply last_Some_elem_of). exists s'. split_and!; [done| |].
  - destruct (enqueue_again_ok s q t s' Hq Hcur Hout Hsz Hcl Ht Hrun) as (? & ? & [st Hv] & ?).
    destruct (validate_total s' st) as [E|]; [done..| |done].
    destruct (validate_sound s' ltac:(done) E) as [q' Hwf].
    destruct (Hlinks q' (wf_chain _ _ Hwf)) as [_ Hl]. pose proof (wf_count _ _ Hwf) as Hn.
    rewrite Hsc in Hn. simpl in Hn. lia.
  - intros Hl fuel. unfold mcsos_sched_ready_count. rewrite Hsc. simpl.
    destruct (Z.eqb_spec (initialized (sched s)) 0); [done|].
    destruct (count_from _ _ _ _) as [k|] eqn:E; [|done]. apply count_from_finite in E as [q' Hq'].
    exfalso. rewrite Hsc in Hlinks. by apply (Hlinks q').
Qed.

(** ** Stacks of new threads *)

Lemma align_down_16 v : 0 <= v < 2 ^ 64 -> align_down_uintptr v MCSOS_STACK_ALIGN = v - v mod 16.
Proof.
  intros Hv. unfold align_down_uintptr. rewrite (land_not_ones 64 4) by (unfold in_u; lia). change (2 ^ 4) with 16.
  pose proof (Z.div_mod v 16). lia.
Qed.

(** [mcsos_thread_prepare] gives the new thread a usable stack: it
    succeeds exactly when the stack has at least 4096 bytes and ends below the
    top of the address space; then the saved stack pointer lies inside the
    stack, 16-byte aligned plus 8 as at a function's entry, with the zero
    return address it points to written there, and the saved instruction
    pointer is the entry; otherwise it returns ESTACK and changes nothing. *)
Theorem thread_prepare_stack t nm ent ar base size ident s th :
  t <> 0 -> ent <> 0 -> threads s !! t = Some th -> 0 < base < 2 ^ 64 -> 0 <= size < 2 ^ 64 ->
  if (MCSOS_MIN_KERNEL_STACK <=? size) && (base + size <? 2 ^ 64) then
    exists s' th', mcsos_thread_prepare t nm ent ar base size ident s = Some (MCSOS_SCHED_OK, s') /\
      threads s' = <[t := th']> (threads s) /\ sched s' = sched s /\
      state th' = MCSOS_THREAD_NEW /\ magic th' = MCSOS_THREAD_MAGIC /\ next th' = 0 /\
      rip (context th') = ent /\
      (let sp := rsp (context th') in
       base <= sp /\ sp + 8 <= base + size /\ base + size < sp + 24 /\ sp mod 16 = 8 /\ words s' = <[sp := 0]> (words s))
  else mcsos_thread_prepare t nm ent ar base size ident s = Some (MCSOS_SCHED_ESTACK, s).
Proof.
  intros Ht He Hth Hb Hs. unfold mcsos_thread_prepare.
  destruct (Z.eqb_spec t 0), (Z.eqb_spec ent 0), (Z.eqb_spec base 0); [lia..|]. cbn [orb].
  unfold MCSOS_MIN_KERNEL_STACK. destruct (Z.leb_spec 4096 size), (Z.ltb_spec size 4096); try lia; [|done]. cbn [andb].
  destruct (Z.ltb_spec (base + size) (2 ^ 64)) as [Hno|Hov].
  - rewrite (wrap_small 64 (base + size)) by (unfold in_u; lia). destruct (Z.leb_spec (base + size) base); [lia|].
    rewrite align_down_16 by lia. rewrite (wrap_small 64 (base + 128)) by (unfold in_u; lia).
    pose proof (Z.mod_pos_bound (base + size) 16).
    destruct (Z.leb_spec (base + size - (base + size) mod 16) (base + 128)); [lia|].
    rewrite wrap_small by (unfold in_u; lia). rewrite Hth. cbn [mbind option_bind].
    eexists _, _. split_and!; [done|done|done|done|done|done|done|simpl; lia|simpl; lia|simpl; lia| |done].
    cbn [rsp context]. pose proof (Z.div_mod (base + size) 16).
    replace (base + size - (base + size) mod 16 - 8) with (8 + ((base + size) / 16 - 1) * 16) by lia.
    by rewrite Z_mod_plus_full.
  - replace (u64 (base + size)) with (base + size - 2 ^ 64).
    + destruct (Z.leb_spec (base + size - 2 ^ 64) base); [done|lia].
    + unfold wrap. apply Z.mod_unique with 1; lia.
Qed.

(** ** A small system: boot thread 100, workers 200 and 300 *)

Definition raw_thread : mcsos_thread_t :=
  mk_thread 0 0 "" MCSOS_THREAD_NEW zero_context 0 0 0 0 0 0 0 0.
Definition ex_regs : mcsos_context_t := mk_ctx 4000 1 2 3 4 5 6 0.
Definition ex0 : sys :=
  mk_sys (mk_sched 0 0 0 0 0 0 0 0 0) {[100 := raw_thread; 200 := raw_thread; 300 := raw_thread]} ex_regs ∅.
Definition ex_run (f : sys -> option (Z * sys)) (s : sys) : sys := from_option snd s (f s).
Definition ex_boot : sys := ex_run (mcsos_scheduler_init 100) ex0.
Definition ex_prep (t : Z) : sys -> sys := ex_run (mcsos_thread_prepare t "w" 5000 0 65536 8192 1).
Definition ex2 : sys :=
  ex_run (mcsos_sched_enqueue 300) (ex_run (mcsos_sched_enqueue 200) (ex_prep 300 (ex_prep 200 ex_boot))).

Lemma ex2_inv : sys_inv ex2 [200; 300].
Proof.
  split; [split; [constructor|..]|]; try by vm_compute.
  - vm_compute. split_and!; [done|done|]. eexists. split; [done|]. simpl. split_and!; [done|done|]. by eexists.
  - repeat constructor; set_solver.
  - repeat constructor; vm_compute; by eexists.
  - split; [by vm_compute|]. vm_compute. by eexists.
  - split; [by vm_compute|]. vm_compute. by eexists.
  - change (current (sched ex2)) with 100. set_solver.
Qed.

Lemma ex2_closed : closed ex2.
Proof.
  split; [right; vm_compute; by eexists|].
  assert (H : map_Forall (fun _ th => next th = 0 \/ is_Some (threads ex2 !! next th)) (threads ex2)).
  { apply (bool_decide_unpack _). by vm_compute. }
  exact H.
Qed.

Lemma sched_refines_fifo_witness :
  exists s', mcsos_sched_yield 7000 ex2 = Some (MCSOS_SCHED_OK, s') /\ sys_inv s' [300] /\ current (sched s') = 200.
Proof. exact (proj1 (proj2 (proj2 (sched_refines_fifo 7000 ex2 [200; 300] ex2_inv)))). Defined.

Lemma sched_reachable_valid_witness :
  mcsos_sched_validate (ex_prep 200 ex_boot) = Some MCSOS_SCHED_OK /\
  mcsos_sched_ready_count 0 (ex_prep 200 ex_boot) = Some 0.
Proof.
  apply (sched_reachable_valid 7000 100 ex0 ex_boot (ex_prep 200 ex_boot)); [by vm_compute|by vm_compute|].
  apply rtc_once. eapply (st_prepare 7000 200 "w" 5000 0 65536 8192 1); [by vm_compute|by vm_compute|by vm_compute].
Defined.

Lemma yield_round_robin_witness : exists s', yields 7000 2 ex2 = Some s' /\ current (sched s') = 300.
Proof. apply (yield_round_robin 7000 ex2 [200; 300] 1); [exact ex2_inv|done]. Defined.

(** Boot yields to 200, which yields to 300; 200 comes back by two yields. *)
Definition ex3 : sys := ex_run (mcsos_sched_yield 7000) ex2.
Definition ex4 : sys := ex_run (mcsos_sched_yield 7000) ex3.
Definition ex5 : sys := ex_run (mcsos_sched_yield 7000) ex4.

Lemma ex3_inv : sys_inv ex3 [300].
Proof. apply (yield_inv 7000 ex2 [200; 300] MCSOS_SCHED_OK ex3 ex2_inv). by vm_compute. Qed.

Lemma yield_restores_context_witness : cpu ex5 = saved (cpu ex3) 7000.
Proof.
  apply (yield_restores_context 7000 ex3 [300] ex4 ex4 ex5 200); [exact ex3_inv|by vm_compute..|apply rtc_refl| |by vm_compute].
  apply (st_yield 7000 ex4 MCSOS_SCHED_OK). by vm_compute.
Defined.

Lemma validate_decides_witness :
  (mcsos_sched_validate ex2 = Some MCSOS_SCHED_OK /\ exists q, well_formed ex2 q) \/
  (mcsos_sched_validate ex2 = Some MCSOS_SCHED_ECORRUPT /\ ~ exists q, well_formed ex2 q).
Proof.
  apply (validate_decides ex2 MCSOS_THREAD_RUNNING); [by vm_compute|by vm_compute|apply (si_current _ _ _ (sy_inv _ _ ex2_inv))|].
  exact ex2_closed.
Defined.

Lemma double_enqueue_corrupts_witness :
  exists s', mcsos_sched_enqueue 300 ex2 = Some (MCSOS_SCHED_OK, s') /\
    mcsos_sched_validate s' = Some MCSOS_SCHED_ECORRUPT /\
    (last [200; 300] = Some 300 -> forall fuel, mcsos_sched_ready_count fuel s' = None).
Proof. apply (double_enqueue_corrupts ex2 [200; 300] 300); [exact ex2_inv|exact ex2_closed|set_solver]. Defined.

Lemma thread_prepare_stack_witness :
  exists s' th', mcsos_thread_prepare 200 "w" 5000 0 65536 8192 1 ex_boot = Some (MCSOS_SCHED_OK, s') /\
    threads s' = <[200 := th']> (threads ex_boot) /\ sched s' = sched ex_boot /\
    state th' = MCSOS_THREAD_NEW /\ magic th' = MCSOS_THREAD_MAGIC /\ next th' = 0 /\
    rip (context th') = 5000 /\
    (let sp := rsp (context th') in
     65536 <= sp /\ sp + 8 <= 65536 + 8192 /\ 65536 + 8192 < sp + 24 /\ sp mod 16 = 8 /\ words s' = <[sp := 0]> (words ex_boot)).
Proof. apply (thread_prepare_stack 200 "w" 5000 0 65536 8192 1 ex_boot raw_thread); by vm_compute. Defined.
End Thread.
