(* ===== verification/Memory.v ===== *)
(** * Byte-addressed memory

    Memory as a finite map from addresses to bytes, for the code that works
    on raw addresses (the kernel heap).  An access to an address that is not
    mapped is undefined ([None]); multi-byte values are little-endian. *)
From S2P Require Import Prelude.
From stdpp Require Import base gmap list numbers option.
From Stdlib Require Import ZArith Lia.

Open Scope Z_scope.

Abbreviation memory := (gmap Z Z).

Fixpoint load (n : nat) (m : memory) (a : Z) : option Z :=
  match n with
  | O => Some 0
  | S n => b ← m !! a; r ← load n m (a + 1); Some (b + 256 * r)
  end.

Fixpoint store (n : nat) (m : memory) (a v : Z) : option memory :=
  match n with
  | O => Some m
  | S n => _ ← m !! a; store n (<[a := v mod 256]> m) (a + 1) (v / 256)
  end.

(** [memset]. *)
Fixpoint fill (n : nat) (m : memory) (a b : Z) : option memory :=
  match n with
  | O => Some m
  | S n => _ ← m !! a; fill n (<[a := b mod 256]> m) (a + 1) b
  end.

(** Bytes are mapped on the whole range [a, a + len). *)
Definition mapped (m : memory) (a len : Z) : Prop :=
  forall i, a <= i < a + len -> exists b, m !! i = Some b /\ 0 <= b < 256.

(** [m'] differs from [m] only in [lo, hi), and maps what [m] maps. *)
Record changed (m m' : memory) (lo hi : Z) : Prop := {
  ch_same : forall i, ~ lo <= i < hi -> m' !! i = m !! i;
  ch_mapped : forall a len, mapped m a len -> mapped m' a len
}.

Lemma changed_refl m lo hi : changed m m lo hi.
Proof. by split. Qed.

Lemma changed_trans m1 m2 m3 lo hi : changed m1 m2 lo hi -> changed m2 m3 lo hi -> changed m1 m3 lo hi.
Proof. intros [H1 M1] [H2 M2]. split; [|by auto]. intros i Hi. by rewrite H2, H1. Qed.

Lemma changed_weaken m m' lo hi lo' hi' : changed m m' lo hi -> lo' <= lo -> hi <= hi' -> changed m m' lo' hi'.
Proof. intros [H M] ??. split; [|done]. intros i Hi. apply H. lia. Qed.

Lemma mapped_sub m a len a' len' : mapped m a len -> a <= a' -> a' + len' <= a + len -> mapped m a' len'.
Proof. intros H ?? i Hi. apply H. lia. Qed.

Lemma mapped_insert m a b x len : 0 <= b < 256 -> mapped m x len -> mapped (<[a := b]> m) x len.
Proof.
  intros Hb H i Hi. destruct (decide (i = a)) as [->|]; [rewrite lookup_insert_eq; eauto|].
  rewrite lookup_insert_ne by done. by apply H.
Qed.

Lemma changed_insert m a b lo hi : 0 <= b < 256 -> lo <= a < hi -> changed m (<[a := b]> m) lo hi.
Proof.
  intros Hb Ha. split; [|by intros; apply mapped_insert]. intros i Hi. rewrite lookup_insert_ne; [done|]. lia.
Qed.

(** A load sees only its own bytes. *)
Lemma load_ext n m m' a : (forall i, a <= i < a + Z.of_nat n -> m' !! i = m !! i) -> load n m' a = load n m a.
Proof.
  revert a. induction n as [|n IH]; intros a H; [done|]. cbn [load]. rewrite H by lia.
  destruct (m !! a); [|done]. cbn [mbind option_bind]. rewrite IH; [done|]. intros i Hi. apply H. lia.
Qed.

Lemma load_changed n m m' lo hi a :
  changed m m' lo hi -> a + Z.of_nat n <= lo \/ hi <= a -> load n m' a = load n m a.
Proof. intros [H _] Ha. apply load_ext. intros i Hi. apply H. lia. Qed.

Lemma load_mapped n m a :
  mapped m a (Z.of_nat n) -> exists v, load n m a = Some v /\ 0 <= v < 2 ^ (8 * Z.of_nat n).
Proof.
  revert a. induction n as [|n IH]; intros a H; [by exists 0|]. cbn [load].
  destruct (H a) as (b & Hb & Hr); [lia|]. rewrite Hb. cbn [mbind option_bind].
  destruct (IH (a + 1)) as (v & Hv & Hvr); [eapply mapped_sub; [done|lia|lia]|]. rewrite Hv. cbn [mbind option_bind].
  eexists. split; [done|]. replace (8 * Z.of_nat (S n)) with (8 + 8 * Z.of_nat n) by lia.
  rewrite Z.pow_add_r by lia. change (2 ^ 8) with 256. lia.
Qed.

Lemma store_spec n m a v :
  mapped m a (Z.of_nat n) ->
  exists m', store n m a v = Some m' /\ changed m m' a (a + Z.of_nat n) /\
    (0 <= v < 2 ^ (8 * Z.of_nat n) -> load n m' a = Some v).
Proof.
  revert m a v. induction n as [|n IH]; intros m a v H.
  - exists m. split_and!; [done|apply changed_refl|]. change (2 ^ (8 * Z.of_nat 0)) with 1. intros ?. simpl. f_equal. lia.
  - cbn [store load]. destruct (H a) as (b & Hb & _); [lia|]. rewrite Hb. cbn [mbind option_bind].
    pose proof (Z.mod_pos_bound v 256 ltac:(lia)) as Hm.
    destruct (IH (<[a := v mod 256]> m) (a + 1) (v / 256)) as (m' & Hs & Hc & Hl).
    { apply mapped_insert; [done|]. eapply mapped_sub; [done|lia|lia]. }
    exists m'. split_and!; [done| |].
    + eapply changed_trans; [apply (changed_insert m a (v mod 256)); lia|]. eapply changed_weaken; [done|lia|lia].
    + replace (8 * Z.of_nat (S n)) with (8 + 8 * Z.of_nat n) by lia. rewrite Z.pow_add_r by lia.
      change (2 ^ 8) with 256. intros Hv. rewrite (ch_same _ _ _ _ Hc) by lia. rewrite lookup_insert_eq.
      cbn [mbind option_bind]. rewrite Hl.
      * cbn [mbind option_bind]. f_equal. pose proof (Z.div_mod v 256). lia.
      * split; [apply Z.div_pos; lia|]. apply Z.div_lt_upper_bound; lia.
Qed.

Lemma fill_spec n m a b :
  mapped m a (Z.of_nat n) ->
  exists m', fill n m a b = Some m' /\ changed m m' a (a + Z.of_nat n) /\
    forall i, a <= i < a + Z.of_nat n -> m' !! i = Some (b mod 256).
Proof.
  revert m a. induction n as [|n IH]; intros m a H.
  - exists m. split_and!; [done|apply changed_refl|]. lia.
  - cbn [fill]. destruct (H a) as (x & Hx & _); [lia|]. rewrite Hx. cbn [mbind option_bind].
    pose proof (Z.mod_pos_bound b 256 ltac:(lia)) as Hm.
    destruct (IH (<[a := b mod 256]> m) (a + 1)) as (m' & Hs & Hc & Hl).
    { apply mapped_insert; [done|]. eapply mapped_sub; [done|lia|lia]. }
    exists m'. split_and!; [done| |].
    + eapply changed_trans; [apply (changed_insert m a (b mod 256)); lia|]. eapply changed_weaken; [done|lia|lia].
    + intros i Hi. destruct (decide (i = a)) as [->|]; [|apply Hl; lia].
      rewrite (ch_same _ _ _ _ Hc) by lia. by rewrite lookup_insert_eq.
Qed.

(** Deciding [mapped], for concrete memories. *)
Definition mappedb (m : memory) (a len : Z) : bool :=
  forallb (fun i => match m !! i with Some b => (0 <=? b) && (b <? 256) | None => false end) (seqZ a len).

Lemma mappedb_ok m a len : mappedb m a len = true -> mapped m a len.
Proof.
  unfold mappedb. intros H i Hi. rewrite forallb_forall in H. specialize (H i).
  assert (In i (seqZ a len)) as Hin by (apply list_elem_of_In, elem_of_seqZ; lia). specialize (H Hin).
  destruct (m !! i) as [b|]; [|done]. apply andb_true_iff in H as [?%Z.leb_le ?%Z.ltb_lt]. eauto.
Qed.
