(* ===== verification/Kmem.v ===== *)
(** * The kernel heap

    Model of [kernel/mm/kmem.c] with [include/mcsos/kmem.h]: a first-fit
    allocator whose block headers live in the heap itself.  The memory is the
    byte map of [Memory], so headers and payloads share one store and what the
    users of the heap write is part of the state. *)
From S2P Require Import Prelude Memory.
From stdpp Require Import base gmap list numbers option relations.
From Stdlib Require Import ZArith Lia.

Open Scope Z_scope.

Module Kmem.

Definition KMEM_ALIGN : Z := 16.
Definition KMEM_MAGIC : Z := 0x4d43534f53484541.
Definition KMEM_MIN_SPLIT : Z := 32.
Definition SIZE_MAX : Z := 2 ^ 64 - 1.

(** [sizeof(kmem_block_t)] and the offsets of its fields. *)
Definition HDR : Z := 48.

Record kmem := mk_kmem {
  g_heap_base : Z;
  g_heap_end : Z;
  g_head : Z;
  g_initialized : Z;
  mem : memory
}.

Definition set_mem (s : kmem) (m : memory) : kmem :=
  mk_kmem (g_heap_base s) (g_heap_end s) (g_head s) (g_initialized s) m.

Definition get_magic (p : Z) (s : kmem) : option Z := load 8 (mem s) p.
Definition get_size (p : Z) (s : kmem) : option Z := load 8 (mem s) (p + 8).
Definition get_free (p : Z) (s : kmem) : option Z := load 4 (mem s) (p + 16).
Definition get_prev (p : Z) (s : kmem) : option Z := load 8 (mem s) (p + 32).
Definition get_next (p : Z) (s : kmem) : option Z := load 8 (mem s) (p + 40).

Definition put (n : nat) (a v : Z) (s : kmem) : option kmem := set_mem s <$> store n (mem s) a v.
Definition set_magic (p v : Z) : kmem -> option kmem := put 8 p v.
Definition set_size (p v : Z) : kmem -> option kmem := put 8 (p + 8) v.
Definition set_free (p v : Z) : kmem -> option kmem := put 4 (p + 16) v.
Definition set_prev (p v : Z) : kmem -> option kmem := put 8 (p + 32) v.
Definition set_next (p v : Z) : kmem -> option kmem := put 8 (p + 40) v.

(** ** Helpers *)

Definition kmem_align_up_size (value align : Z) : Z :=
  if align =? 0 then value else
  let mask := u64 (align - 1) in
  if negb (Z.land align mask =? 0) then 0 else
  if SIZE_MAX - mask <? value then 0 else
  Z.land (u64 (value + mask)) (u64 (Z.lnot mask)).

Definition kmem_align_up_ptr (value align : Z) : Z :=
  let mask := u64 (align - 1) in
  if negb (Z.land align mask =? 0) then 0 else
  if SIZE_MAX - mask <? value then 0 else
  Z.land (u64 (value + mask)) (u64 (Z.lnot mask)).

Definition kmem_payload (block : Z) : Z := u64 (block + HDR).
Definition kmem_header_from_payload (ptr : Z) : Z := u64 (ptr - HDR).

Definition kmem_ptr_in_heap (ptr : Z) (s : kmem) : bool :=
  negb (g_initialized s =? 0) && (g_heap_base s <=? ptr) && (ptr <? g_heap_end s).

Definition kmem_memset (dst value bytes : Z) (s : kmem) : option kmem :=
  set_mem s <$> fill (Z.to_nat bytes) (mem s) dst value.

Definition kmem_split_if_useful (block wanted : Z) (s : kmem) : option kmem :=
  let header := kmem_align_up_size HDR KMEM_ALIGN in
  if header =? 0 then Some s else
  size ← get_size block s;
  if size <? u64 (wanted + header + KMEM_MIN_SPLIT) then Some s else
  let new_addr := kmem_align_up_ptr (u64 (kmem_payload block + wanted)) KMEM_ALIGN in
  if new_addr =? 0 then Some s else
  if g_heap_end s <=? u64 (new_addr + HDR) then Some s else
  let consumed := u64 (new_addr - kmem_payload block) in
  if size <=? u64 (consumed + HDR + KMEM_MIN_SPLIT) then Some s else
  s ← set_magic new_addr KMEM_MAGIC s;
  s ← set_size new_addr (u64 (size - consumed - HDR)) s;
  s ← set_free new_addr 1 s;
  s ← set_prev new_addr block s;
  nxt ← get_next block s;
  s ← set_next new_addr nxt s;
  s ← (if nxt =? 0 then Some s else set_prev nxt new_addr s);
  s ← set_next block new_addr s;
  set_size block wanted s.

(** The body of the loop of [kmem_coalesce_forward]: [next] is merged into
    [block] and its header is wiped. *)
Definition merge_next (block next : Z) (s : kmem) : option kmem :=
  bsize ← get_size block s;
  nsize ← get_size next s;
  s ← set_size block (u64 (bsize + u64 (HDR + nsize))) s;
  nn ← get_next next s;
  s ← set_next block nn s;
  s ← (if nn =? 0 then Some s else set_prev nn block s);
  s ← set_magic next 0 s;
  s ← set_size next 0 s;
  s ← set_prev next 0 s;
  set_next next 0 s.

Fixpoint kmem_coalesce_forward (fuel : nat) (block : Z) (s : kmem) : option kmem :=
  if block =? 0 then Some s else
  next ← get_next block s;
  if next =? 0 then Some s else
  free ← get_free next s;
  if free =? 0 then Some s else
  match fuel with
  | O => None
  | S f =>
      size ← get_size block s;
      let expected := kmem_align_up_ptr (u64 (kmem_payload block + size)) KMEM_ALIGN in
      if negb (expected =? next) then Some s else
      s ← merge_next block next s;
      kmem_coalesce_forward f block s
  end.

(** Every block takes at least [HDR] bytes, so the walks over the heap take at
    most this many steps. *)
Definition heap_fuel (s : kmem) : nat := Z.to_nat ((g_heap_end s - g_heap_base s) / HDR + 2).

Fixpoint validate_from (fuel : nat) (s : kmem) (cur prev cursor guard : Z) : option Z :=
  if cur =? 0 then Some 0 else
  match fuel with
  | O => None
  | S f =>
      let guard := u64 (guard + 1) in
      if 1048576 <? guard then Some (-3) else
      if negb (cur =? cursor) then Some (-4) else
      if (cur <? g_heap_base s) || (g_heap_end s <? u64 (cur + HDR)) then Some (-5) else
      magic ← get_magic cur s;
      if negb (magic =? KMEM_MAGIC) then Some (-6) else
      p ← get_prev cur s;
      if negb (p =? prev) then Some (-7) else
      size ← get_size cur s;
      if u64 (g_heap_end s - kmem_payload cur) <? size then Some (-8) else
      let cursor := kmem_align_up_ptr (u64 (kmem_payload cur + size)) KMEM_ALIGN in
      if (cursor =? 0) || (g_heap_end s <? cursor) then Some (-9) else
      next ← get_next cur s;
      validate_from f s next cur cursor guard
  end.

Definition kmem_validate (s : kmem) : option Z :=
  if (g_initialized s =? 0) || (g_heap_base s =? 0) || (g_heap_end s <=? g_heap_base s) || (g_head s =? 0)
  then Some (-1) else
  if negb (g_head s =? g_heap_base s) then Some (-2) else
  validate_from (heap_fuel s) s (g_head s) 0 (g_heap_base s) 0.

(** ** Operations *)

Definition kmem_init (base bytes : Z) (s : kmem) : option (Z * kmem) :=
  if (base =? 0) || (bytes <? HDR + KMEM_MIN_SPLIT) then Some (-1, s) else
  let start := kmem_align_up_ptr base KMEM_ALIGN in
  if (start =? 0) || (start <? base) then Some (-2, s) else
  let lost := u64 (start - base) in
  if bytes <=? u64 (lost + HDR + KMEM_MIN_SPLIT) then Some (-3, s) else
  let usable := Z.land (u64 (bytes - lost)) (u64 (Z.lnot (KMEM_ALIGN - 1))) in
  if usable <=? HDR + KMEM_MIN_SPLIT then Some (-4, s) else
  let s := mk_kmem start (u64 (start + usable)) start (g_initialized s) (mem s) in
  s ← set_magic start KMEM_MAGIC s;
  s ← set_size start (u64 (usable - HDR)) s;
  s ← set_free start 1 s;
  s ← set_prev start 0 s;
  s ← set_next start 0 s;
  let s := mk_kmem (g_heap_base s) (g_heap_end s) (g_head s) 1 (mem s) in
  rc ← kmem_validate s;
  Some (rc, s).

(** The first-fit search from [cur]. *)
Fixpoint alloc_from (fuel : nat) (cur wanted : Z) (s : kmem) : option (Z * kmem) :=
  if cur =? 0 then Some (0, s) else
  match fuel with
  | O => None
  | S f =>
      magic ← get_magic cur s;
      if negb (magic =? KMEM_MAGIC) then Some (0, s) else
      free ← get_free cur s;
      size ← get_size cur s;
      if negb (free =? 0) && (wanted <=? size) then
        s ← kmem_split_if_useful cur wanted s;
        s ← set_free cur 0 s;
        Some (kmem_payload cur, s)
      else
        next ← get_next cur s;
        alloc_from f next wanted s
  end.

Definition kmem_alloc (bytes : Z) (s : kmem) : option (Z * kmem) :=
  if (g_initialized s =? 0) || (bytes =? 0) then Some (0, s) else
  let wanted := kmem_align_up_size bytes KMEM_ALIGN in
  if wanted =? 0 then Some (0, s) else
  alloc_from (heap_fuel s) (g_head s) wanted s.

Definition kmem_calloc (count bytes : Z) (s : kmem) : option (Z * kmem) :=
  if negb (count =? 0) && (SIZE_MAX / count <? bytes) then Some (0, s) else
  let total := u64 (count * bytes) in
  r ← kmem_alloc total s;
  let '(ptr, s) := r in
  if ptr =? 0 then Some (ptr, s) else
  s ← kmem_memset ptr 0 total s;
  Some (ptr, s).

(** The part of [kmem_free_checked] behind its checks: mark the block free
    and merge it with its free neighbours. *)
Definition coalesce_back (block : Z) (s : kmem) : option kmem :=
  prev ← get_prev block s;
  if prev =? 0 then Some s else
  pfree ← get_free prev s;
  if pfree =? 0 then Some s else kmem_coalesce_forward (heap_fuel s) prev s.

Definition release (block : Z) (s : kmem) : option (Z * kmem) :=
  s ← set_free block 1 s;
  s ← kmem_coalesce_forward (heap_fuel s) block s;
  s ← coalesce_back block s;
  rc ← kmem_validate s;
  Some (rc, s).

Definition kmem_free_checked (ptr : Z) (s : kmem) : option (Z * kmem) :=
  if ptr =? 0 then Some (0, s) else
  if negb (kmem_ptr_in_heap ptr s) then Some (-1, s) else
  if negb (Z.land ptr (KMEM_ALIGN - 1) =? 0) then Some (-2, s) else
  let block := kmem_header_from_payload ptr in
  if negb (kmem_ptr_in_heap block s) then Some (-3, s) else
  magic ← get_magic block s;
  if negb (magic =? KMEM_MAGIC) then Some (-3, s) else
  free ← get_free block s;
  if negb (free =? 0) then Some (-4, s) else
  release block s.

Record kmem_stats := mk_stats {
  total_bytes : Z; used_bytes : Z; free_bytes : Z; block_count : Z; free_count : Z; largest_free : Z
}.

Fixpoint stats_from (fuel : nat) (s : kmem) (cur : Z) (o : kmem_stats) : option kmem_stats :=
  if cur =? 0 then Some o else
  match fuel with
  | O => None
  | S f =>
      free ← get_free cur s;
      size ← get_size cur s;
      next ← get_next cur s;
      let blocks := u64 (block_count o + 1) in
      stats_from f s next
        (if free =? 0 then
           mk_stats (total_bytes o) (u64 (used_bytes o + size)) (free_bytes o) blocks (free_count o) (largest_free o)
         else
           mk_stats (total_bytes o) (used_bytes o) (u64 (free_bytes o + size)) blocks (u64 (free_count o + 1))
             (if largest_free o <? size then size else largest_free o))
  end.

Definition kmem_get_stats (s : kmem) : option kmem_stats :=
  if g_initialized s =? 0 then Some (mk_stats 0 0 0 0 0 0) else
  stats_from (heap_fuel s) s (g_head s) (mk_stats (u64 (g_heap_end s - g_heap_base s)) 0 0 0 0 0).

(** ** The heap as a list of blocks *)

(** A block is its payload size and whether it is free. *)
Abbreviation blocks := (list (Z * bool)).

Fixpoint span (bs : blocks) : Z :=
  match bs with
  | [] => 0
  | (sz, _) :: r => HDR + sz + span r
  end.

Record hdr (m : memory) (a sz : Z) (fr : bool) (prev next : Z) : Prop := {
  h_magic : load 8 m a = Some KMEM_MAGIC;
  h_size : load 8 m (a + 8) = Some sz;
  h_free : load 4 m (a + 16) = Some (if fr then 1 else 0);
  h_prev : load 8 m (a + 32) = Some prev;
  h_next : load 8 m (a + 40) = Some next
}.

(** The pointer to the first block of [bs] when [bs] starts at [a]. *)
Definition first_or (n a : Z) (bs : blocks) : Z := match bs with [] => n | _ => a end.

(** [bs] tiles the memory from [a] to [e]; the first block points back to
    [prev] and the last one on to [n]. *)
Fixpoint seg (m : memory) (prev a : Z) (bs : blocks) (e n : Z) : Prop :=
  match bs with
  | [] => a = e
  | (sz, fr) :: r =>
      0 < sz /\ sz mod 16 = 0 /\ hdr m a sz fr prev (first_or n (a + HDR + sz) r) /\
      seg m a (a + HDR + sz) r e n
  end.

Fixpoint last_addr (prev a : Z) (bs : blocks) : Z :=
  match bs with
  | [] => prev
  | (sz, _) :: r => last_addr a (a + HDR + sz) r
  end.

Definition head_free (bs : blocks) : bool := match bs with (_, true) :: _ => true | _ => false end.
Definition last_free (bs : blocks) : bool := match last bs with Some (_, true) => true | _ => false end.

(** No two free blocks side by side. *)
Fixpoint no_adj (bs : blocks) : Prop :=
  match bs with
  | [] => True
  | (_, fr) :: r => (fr = true -> head_free r = false) /\ no_adj r
  end.

(** The allocations: payload address and size of the blocks in use. *)
Fixpoint live (a : Z) (bs : blocks) : list (Z * Z) :=
  match bs with
  | [] => []
  | (sz, fr) :: r => (if fr then [] else [(a + HDR, sz)]) ++ live (a + HDR + sz) r
  end.

(** The heap consists of the blocks [bs]. *)
Record heap_ok (s : kmem) (bs : blocks) : Prop := {
  ki_init : g_initialized s = 1;
  ki_base : 0 < g_heap_base s;
  ki_align : g_heap_base s mod 16 = 0;
  ki_end : g_heap_end s < 2 ^ 64;
  ki_small : g_heap_end s - g_heap_base s <= 2 ^ 26;
  ki_head : g_head s = g_heap_base s;
  ki_mapped : mapped (mem s) (g_heap_base s) (g_heap_end s - g_heap_base s);
  ki_seg : seg (mem s) 0 (g_heap_base s) bs (g_heap_end s) 0;
  ki_ne : bs <> []
}.

(** The invariant between calls. *)
Record kinv (s : kmem) (bs : blocks) : Prop := {
  ki_heap : heap_ok s bs;
  ki_coalesced : no_adj bs
}.

Lemma seg_end m p a bs e n : seg m p a bs e n -> e = a + span bs.
Proof.
  revert p a. induction bs as [|[sz fr] r IH]; intros p a; cbn [seg span]; [lia|].
  intros (_ & _ & _ & H). apply IH in H. lia.
Qed.

Lemma seg_span m p a bs e n : seg m p a bs e n -> 64 * Z.of_nat (length bs) <= span bs /\ span bs mod 16 = 0.
Proof.
  revert p a. induction bs as [|[sz fr] r IH]; intros p a; cbn [seg span length]; [done|].
  intros (Hs & Hm & _ & H). apply IH in H as [Hl Ha]. unfold HDR. split.
  - assert (16 <= sz); [|lia]. apply Z.mod_divide in Hm as [k Hk]; lia.
  - apply Z.mod_divide in Hm as [k Hk]; [|lia]. apply Z.mod_divide in Ha as [j Hj]; [|lia].
    apply Z.mod_divide; [lia|]. exists (3 + k + j). lia.
Qed.

Lemma seg_app m p a b1 b2 e n :
  seg m p a (b1 ++ b2) e n <->
  seg m p a b1 (a + span b1) (first_or n (a + span b1) b2) /\ seg m (last_addr p a b1) (a + span b1) b2 e n.
Proof.
  revert p a. induction b1 as [|[sz fr] r IH]; intros p a; cbn [app seg span last_addr].
  - rewrite Z.add_0_r. tauto.
  - rewrite IH. replace (a + HDR + sz + span r) with (a + (HDR + sz + span r)) by lia.
    destruct r as [|x r]; simpl; [rewrite ?Z.add_0_r; destruct b2; simpl; rewrite ?Z.add_0_r|]; try tauto.
    all: replace (a + HDR + sz) with (a + (HDR + sz)) by lia; tauto.
Qed.

Lemma hdr_changed m m' lo hi a sz fr p n :
  changed m m' lo hi -> hi <= a \/ a + HDR <= lo -> hdr m a sz fr p n -> hdr m' a sz fr p n.
Proof.
  intros Hc Hd [H1 H2 H3 H4 H5]. unfold HDR in Hd.
  constructor; (rewrite (load_changed _ m m' lo hi) by (done || lia)); done.
Qed.

Lemma seg_changed m m' lo hi p a bs e n :
  changed m m' lo hi -> hi <= a \/ e <= lo -> seg m p a bs e n -> seg m' p a bs e n.
Proof.
  intros Hc. revert p a. induction bs as [|[sz fr] r IH]; intros p a Hd H; [done|].
  pose proof (seg_end _ _ _ _ _ _ H) as He. apply seg_span in H as Hs. cbn [seg span length] in *.
  destruct H as (H1 & H2 & H3 & H4). pose proof (seg_span _ _ _ _ _ _ H4). unfold HDR in *.
  split_and!; [done|done|eapply hdr_changed; [done|unfold HDR; lia|done]|]. apply IH; [lia|done].
Qed.

(** ** Stores to headers *)

Lemma put_spec n a v s :
  mapped (mem s) a (Z.of_nat n) -> 0 <= v < 2 ^ (8 * Z.of_nat n) ->
  exists m', put n a v s = Some (set_mem s m') /\ changed (mem s) m' a (a + Z.of_nat n) /\ load n m' a = Some v.
Proof.
  intros Hm Hv. destruct (store_spec n (mem s) a v Hm) as (m' & Hs & Hc & Hl).
  exists m'. unfold put. rewrite Hs. auto.
Qed.

(** Facts about the memory after a series of stores come from the facts
    before them: each store is recorded as a [changed] hypothesis. *)
Ltac solve_mapped :=
  repeat match goal with H : changed _ ?m' _ _ |- mapped ?m' _ _ => apply (ch_mapped _ _ _ _ H) end;
  eapply mapped_sub; [eassumption|lia|lia].
Ltac solve_load :=
  repeat first [eassumption |
    match goal with H : changed ?m ?m' ?lo ?hi |- load ?n ?m' ?a = _ => rewrite (load_changed n m m' lo hi a H) by lia end].
Ltac solve_same :=
  repeat match goal with H : changed ?m ?m' ?lo ?hi |- ?m' !! _ = _ => rewrite (ch_same _ _ _ _ H) by lia end; reflexivity.
Ltac solve_changed :=
  repeat match goal with
  | |- changed ?m ?m _ _ => apply changed_refl
  | H : changed ?m ?m' _ _ |- changed ?m ?m' _ _ => eapply changed_weaken; [exact H|lia|lia]
  | H : changed ?m1 ?m' _ _ |- changed _ ?m' _ _ => eapply (changed_trans _ m1); [|eapply changed_weaken; [exact H|lia|lia]]
  end.
Ltac solve_seg :=
  repeat match goal with H : changed ?m ?m' _ _ |- seg ?m' _ _ _ _ _ => eapply (seg_changed m m'); [exact H|lia|] end;
  eassumption.

(** Run the next store of the goal. *)
Ltac step_put :=
  match goal with
  | |- context [put ?n ?a ?v ?s] =>
      let m := fresh "m" in let E := fresh "E" in let Hc := fresh "Hc" in let Hl := fresh "Hl" in
      destruct (put_spec n a v s) as (m & E & Hc & Hl);
      [cbn [mem set_mem]; solve_mapped|try (unfold KMEM_MAGIC; lia)|
       rewrite E; cbn [mbind option_bind mem set_mem g_heap_base g_heap_end g_head g_initialized] in *; clear E]
  end.
(** Run the next load of the goal, of value [v]. *)
Ltac step_load n a v :=
  match goal with
  | |- context [load n ?m a] =>
      let E := fresh "E" in
      assert (E : load n m a = Some v) by solve_load;
      rewrite E; cbn [mbind option_bind]; clear E
  end.

Definition live_byte (a : Z) (bs : blocks) (i : Z) : Prop :=
  exists p sz, (p, sz) ∈ live a bs /\ p <= i < p + sz.

Lemma live_range m p a bs e n q sz :
  seg m p a bs e n -> (q, sz) ∈ live a bs -> a + HDR <= q /\ q + sz <= e /\ 0 < sz.
Proof.
  revert p a. induction bs as [|[s0 fr] r IH]; intros p a Hs Hin; [by apply elem_of_nil in Hin|].
  pose proof (seg_end _ _ _ _ _ _ Hs) as He. pose proof (seg_span _ _ _ _ _ _ Hs). cbn [seg span length live] in *.
  destruct Hs as (H1 & _ & _ & Hs). pose proof (seg_span _ _ _ _ _ _ Hs).
  apply elem_of_app in Hin as [Hin|Hin].
  - destruct fr; [by apply elem_of_nil in Hin|]. apply list_elem_of_singleton in Hin as [= -> ->]. unfold HDR in *. lia.
  - specialize (IH _ _ Hs Hin). unfold HDR in *. lia.
Qed.

(** [nn->prev = block], unless [nn] is [NULL]. *)
Lemma relink_spec s p a bs e b :
  seg (mem s) p a bs e 0 -> mapped (mem s) a (e - a) -> 0 < a -> e < 2 ^ 64 -> 0 <= b < 2 ^ 64 ->
  exists m', (if first_or 0 a bs =? 0 then Some s else set_prev (first_or 0 a bs) b s) = Some (set_mem s m') /\
    seg m' b a bs e 0 /\ changed (mem s) m' a e /\
    (forall i, live_byte a bs i -> m' !! i = mem s !! i).
Proof.
  intros Hs Hm Ha He Hb. destruct bs as [|[sz fr] r]; cbn [first_or].
  - exists (mem s). rewrite Z.eqb_refl. split_and!; [by destruct s|done|apply changed_refl|done].
  - destruct (Z.eqb_spec a 0); [lia|]. pose proof (seg_end _ _ _ _ _ _ Hs) as Hend. apply seg_span in Hs as Hsp.
    pose proof Hs as (H1 & H2 & Hh & Hr). apply seg_span in Hr as Hrs. cbn [span length] in *. unfold HDR in *.
    unfold set_prev. step_put. exists m. destruct Hh as [? ? ? ? ?]. split_and!; [done| |solve_changed|].
    + cbn [seg]. split_and!; [done|done|constructor; solve_load|unfold HDR; solve_seg].
    + intros i (q & l & Hin & Hi). destruct (live_range _ _ _ _ _ _ _ _ Hs Hin) as (? & ? & ?). unfold HDR in *. solve_same.
Qed.

(** ** Coalescing *)

Lemma merge_spec s p A s1 s2 post e :
  0 < A -> e < 2 ^ 64 -> mapped (mem s) A (e - A) ->
  seg (mem s) p A ((s1, true) :: (s2, true) :: post) e 0 ->
  exists m', merge_next A (A + HDR + s1) s = Some (set_mem s m') /\
    seg m' p A ((s1 + HDR + s2, true) :: post) e 0 /\ changed (mem s) m' A e /\
    load 8 m' (A + HDR + s1) = Some 0 /\
    (forall i, live_byte (A + HDR + s1 + HDR + s2) post i -> m' !! i = mem s !! i) /\
    (forall i, A + HDR <= i < A + HDR + s1 -> m' !! i = mem s !! i).
Proof.
  intros HA He Hm Hs. pose proof (seg_end _ _ _ _ _ _ Hs) as Hend. apply seg_span in Hs as Hsp.
  cbn [seg span length first_or] in *. destruct Hs as (H1 & Ha1 & [M1 S1 F1 P1 N1] & H2 & Ha2 & [M2 S2 F2 P2 N2] & Hr).
  apply seg_span in Hr as Hrs. unfold merge_next, get_size, get_next, set_size, set_next, set_magic.
  unfold HDR in *. remember (A + 48 + s1) as B eqn:HB. remember (B + 48 + s2) as C eqn:HC.
  step_load 8%nat (A + 8) s1. step_load 8%nat (B + 8) s2.
  rewrite (wrap_small 64 (48 + s2)), wrap_small by (unfold in_u; lia).
  replace (s1 + (48 + s2)) with (s1 + 48 + s2) by lia. step_put.
  step_load 8%nat (B + 40) (first_or 0 C post).
  step_put; [destruct post; cbn [first_or]; lia|].
  match goal with |- context [if _ then Some ?s' else _] =>
    destruct (relink_spec s' B C post e A) as (m1 & E & Hseg & Hc1 & Hlive) end;
    [cbn [mem]; solve_seg|cbn [mem]; solve_mapped|lia|lia|lia|].
  rewrite E. clear E. cbn [mbind option_bind mem set_mem g_heap_base g_heap_end g_head g_initialized] in *. unfold set_prev. do 4 step_put.
  eexists. split; [done|]. split; [|split; [solve_changed|split; [solve_load|]]].
  - cbn [seg]. unfold HDR. replace (A + 48 + (s1 + 48 + s2)) with C by lia. split_and!; [lia| |constructor; solve_load|].
    + apply Z.mod_divide in Ha1 as [j Hj]; [|lia]. apply Z.mod_divide in Ha2 as [k Hk]; [|lia].
      apply Z.mod_divide; [lia|]. exists (j + 3 + k). lia.
    + solve_seg.
  - split; [|intros i Hi; solve_same]. intros i Hi. assert (C + 48 <= i < e).
    { destruct Hi as (q & l & Hin & Hi). destruct (live_range _ _ _ _ _ _ _ _ Hr Hin) as (? & ? & ?). unfold HDR in *. lia. }
    transitivity (m1 !! i); [solve_same|]. rewrite Hlive by done. solve_same.
Qed.

(** What the forward pass leaves: [block] absorbs the free blocks behind it. *)
Fixpoint absorb (sz : Z) (bs : blocks) : Z * blocks :=
  match bs with
  | (s2, true) :: r => absorb (sz + HDR + s2) r
  | _ => (sz, bs)
  end.

Lemma align_up_ptr_id v : 0 <= v < 2 ^ 64 -> v mod 16 = 0 -> kmem_align_up_ptr v KMEM_ALIGN = v.
Proof.
  intros Hv Hm. unfold kmem_align_up_ptr, KMEM_ALIGN, SIZE_MAX. change (u64 (16 - 1)) with 15.
  change (negb (Z.land 16 15 =? 0)) with false. cbn match. apply Z.mod_divide in Hm as [k ->]; [|lia].
  destruct (Z.ltb_spec (2 ^ 64 - 1 - 15) (k * 16)); [lia|]. rewrite (wrap_small 64 (k * 16 + 15)) by (unfold in_u; lia).
  change (u64 (Z.lnot 15)) with (u64 (Z.lnot (u64 (2 ^ 4 - 1)))). rewrite land_not_ones by (unfold in_u; lia).
  change (2 ^ 4) with 16. rewrite Z.div_add_l by lia. change (15 / 16) with 0. lia.
Qed.

Lemma seg_payload_end m p a sz fr r e n :
  seg m p a ((sz, fr) :: r) e n -> 0 < a -> a mod 16 = 0 -> e < 2 ^ 64 ->
  kmem_align_up_ptr (u64 (kmem_payload a + sz)) KMEM_ALIGN = a + HDR + sz.
Proof.
  intros Hs Ha Hal He. pose proof (seg_end _ _ _ _ _ _ Hs). cbn [seg span] in *. destruct Hs as (Hp & Hm & _ & Hs).
  apply seg_span in Hs. unfold kmem_payload, HDR in *. rewrite (wrap_small 64 (a + 48)) by (unfold in_u; lia).
  rewrite wrap_small by (unfold in_u; lia). apply align_up_ptr_id; [lia|].
  apply Z.mod_divide in Hm as [k ->]; [|lia]. apply Z.mod_divide in Hal as [j ->]; [|lia].
  apply Z.mod_divide; [lia|]. exists (j + 3 + k). lia.
Qed.

Lemma coalesce_spec fuel s p A s1 post e :
  0 < A -> A mod 16 = 0 -> e < 2 ^ 64 -> mapped (mem s) A (e - A) -> (length post <= fuel)%nat ->
  seg (mem s) p A ((s1, true) :: post) e 0 ->
  forall s1' post', absorb s1 post = (s1', post') ->
  exists m', kmem_coalesce_forward fuel A s = Some (set_mem s m') /\
    seg m' p A ((s1', true) :: post') e 0 /\ changed (mem s) m' A e /\
    (forall i, live_byte (A + HDR + s1) post i -> m' !! i = mem s !! i) /\
    live (A + HDR + s1') post' = live (A + HDR + s1) post /\
    (forall i, A + HDR <= i < A + HDR + s1 -> m' !! i = mem s !! i) /\
    (head_free post = true -> load 8 m' (A + HDR + s1) = Some 0).
Proof.
  intros HA Hal He. revert s s1 post. induction fuel as [|f IH]; intros s s1 post Hm Hf Hs s1' post' Habs.
  all: pose proof (seg_payload_end _ _ _ _ _ _ _ _ Hs HA Hal He) as Hexp.
  all: pose proof (seg_end _ _ _ _ _ _ Hs) as Hend; pose proof Hs as (Hp & _ & [M1 S1 F1 P1 N1] & Hr).
  all: pose proof (seg_span _ _ _ _ _ _ Hr) as Hsp; cbn [span] in Hend.
  all: cbn [kmem_coalesce_forward]; destruct (Z.eqb_spec A 0); [lia|].
  all: unfold get_next; rewrite N1; cbn [mbind option_bind].
  all: destruct post as [|[s2 fr] post]; cbn [first_or absorb] in *.
  1, 3: injection Habs as <- <-; rewrite Z.eqb_refl; exists (mem s); split; [by destruct s|]; split; [done|]; split; [apply changed_refl|done].
  - simpl in Hf. lia.
  - destruct (Z.eqb_spec (A + HDR + s1) 0); [unfold HDR in *; lia|]. pose proof Hr as (_ & _ & [M2 S2 F2 P2 N2] & _).
    unfold get_free, get_size. rewrite F2. cbn [mbind option_bind]. destruct fr; cbn match.
    + change (1 =? 0) with false. cbn match. rewrite S1. cbn [mbind option_bind]. rewrite Hexp, Z.eqb_refl. cbn [negb].
      destruct (merge_spec s p A s1 s2 post e HA He Hm Hs) as (m1 & -> & Hseg & Hc & Hz & Hlive & Hpay). cbn [mbind option_bind].
      destruct (IH (set_mem s m1) (s1 + HDR + s2) post) with s1' post' as (m2 & -> & Hseg2 & Hc2 & Hlive2 & Hl & Hpay2 & _);
        [cbn [mem set_mem]; solve_mapped|simpl in Hf; lia|done|done|].
      cbn [mem set_mem] in *. replace (A + HDR + (s1 + HDR + s2)) with (A + HDR + s1 + HDR + s2) in * by lia.
      exists m2. split; [done|]. split; [done|]. split; [solve_changed|]. split; [intros i Hi; by rewrite Hlive2, Hlive|]. split; [done|].
      pose proof Hr as (? & _ & _ & _). unfold HDR in *. split; [intros i Hi; rewrite Hpay2, Hpay by lia; done|].
      intros _. rewrite (load_ext 8 m1 m2); [done|]. intros i Hi. apply Hpay2. lia.
    + change (0 =? 0) with true. cbn match. injection Habs as <- <-.
      exists (mem s). split; [by destruct s|]; split; [done|]; split; [apply changed_refl|done].
Qed.

(** ** Splitting and first fit *)

Lemma align_mod a b : a mod 16 = 0 -> b mod 16 = 0 -> (a + b) mod 16 = 0.
Proof.
  intros Ha Hb. rewrite Z.add_mod, Ha, Hb by lia. done.
Qed.

Lemma span_mod m p a bs e n : seg m p a bs e n -> a mod 16 = 0 -> e mod 16 = 0.
Proof. intros Hs Ha. rewrite (seg_end _ _ _ _ _ _ Hs). apply align_mod; [done|]. by eapply seg_span. Qed.

(** The block keeps its size, or is cut to [w] bytes with the rest as a new
    free block behind it. *)
Definition split_blocks (w sz : Z) (post : blocks) (w' : Z) (tail : blocks) : Prop :=
  (w' = sz /\ tail = post /\ sz <= w + HDR + KMEM_MIN_SPLIT) \/
  (w' = w /\ tail = (sz - w - HDR, true) :: post /\ w + HDR + KMEM_MIN_SPLIT < sz).

Lemma split_spec s p A sz post e w :
  0 < A -> A mod 16 = 0 -> g_heap_end s = e -> e < 2 ^ 64 -> e - A <= 2 ^ 26 -> mapped (mem s) A (e - A) ->
  0 < w <= sz -> w mod 16 = 0 ->
  seg (mem s) p A ((sz, true) :: post) e 0 ->
  exists m' w' tail, kmem_split_if_useful A w s = Some (set_mem s m') /\ split_blocks w sz post w' tail /\
    seg m' p A ((w', true) :: tail) e 0 /\ changed (mem s) m' A e /\
    (forall i, live_byte (A + HDR + sz) post i -> m' !! i = mem s !! i).
Proof.
  intros HA Hal He He64 Hsm Hm Hw Hwm Hs. pose proof (seg_end _ _ _ _ _ _ Hs) as Hend.
  pose proof Hs as (Hsz & Hszm & [M1 S1 F1 P1 N1] & Hr). pose proof (seg_span _ _ _ _ _ _ Hr) as Hsp. cbn [span] in Hend.
  unfold kmem_split_if_useful. change (kmem_align_up_size HDR KMEM_ALIGN) with 48.
  change (48 =? 0) with false. cbn match. unfold get_size. rewrite S1. cbn [mbind option_bind].
  unfold split_blocks, KMEM_MIN_SPLIT, kmem_payload, HDR in *.
  rewrite (wrap_small 64 (w + 48 + 32)) by (unfold in_u; lia).
  rewrite (wrap_small 64 (A + 48)), (wrap_small 64 (A + 48 + w)) by (unfold in_u; lia).
  rewrite align_up_ptr_id by (try lia; repeat apply align_mod; done).
  replace (A + 48 + w - (A + 48)) with w by lia. rewrite (wrap_small 64 w) by (unfold in_u; lia).
  rewrite (wrap_small 64 (w + 48 + 32)) by (unfold in_u; lia).
  destruct (Z.eqb_spec (A + 48 + w) 0); [lia|].
  destruct (Z.le_gt_cases sz (w + 48 + 32)) as [Hsmall|Hbig].
  - exists (mem s), sz, post. split; [|split; [by left|split; [done|split; [apply changed_refl|done]]]].
    destruct (Z.leb_spec sz (w + 48 + 32)); [|lia]. destruct s. by repeat case_match.
  - rewrite (wrap_small 64 (A + 48 + w + 48)) by (unfold in_u; lia).
    destruct (Z.ltb_spec sz (w + 48 + 32)), (Z.leb_spec (g_heap_end s) (A + 48 + w + 48)), (Z.leb_spec sz (w + 48 + 32)); try lia.
    rewrite (wrap_small 64 (sz - w - 48)) by (unfold in_u; lia). unfold set_magic, set_size, set_free, set_prev, set_next, get_next.
    remember (A + 48 + w) as B eqn:HB. remember (A + 48 + sz) as C eqn:HC. do 4 step_put.
    step_load 8%nat (A + 40) (first_or 0 C post). step_put; [destruct post; cbn [first_or]; lia|].
    match goal with |- context [if _ then Some ?s' else _] =>
      destruct (relink_spec s' A C post e B) as (m4 & E & Hseg & Hc4 & Hlive) end;
      [cbn [mem]; solve_seg|cbn [mem]; solve_mapped|lia|lia|lia|].
    unfold set_prev in E. rewrite E. clear E. cbn [mbind option_bind mem set_mem g_heap_base g_heap_end g_head g_initialized] in *.
    do 2 step_put. eexists _, w, _. split; [done|]. split; [by right|]. split; [|split; [solve_changed|]].
    + cbn [seg first_or]. unfold HDR. rewrite <- HB. replace (B + 48 + (sz - w - 48)) with C by lia.
      split_and!; [lia|done|constructor; solve_load|lia| |constructor; solve_load|].
      * rewrite <- Z.sub_add_distr. rewrite Zminus_mod, Hszm, (align_mod w 48) by done. done.
      * solve_seg.
    + intros i Hi. assert (C + 48 <= i < e).
      { destruct Hi as (q & l & Hin & Hi). destruct (live_range _ _ _ _ _ _ _ _ Hr Hin) as (? & ? & ?). unfold HDR in *. lia. }
      transitivity (m4 !! i); [solve_same|]. rewrite Hlive by done. solve_same.
Qed.

(** The search: it stops at the first free block that is large enough. *)
Lemma alloc_walk fuel s w p a bs e :
  seg (mem s) p a bs e 0 -> 0 < a -> (length bs <= fuel)%nat ->
  (Forall (fun b => b.2 = true -> b.1 < w) bs /\ alloc_from fuel (first_or 0 a bs) w s = Some (0, s)) \/
  (exists pre sz post, bs = pre ++ (sz, true) :: post /\ w <= sz /\ Forall (fun b => b.2 = true -> b.1 < w) pre /\
     alloc_from fuel (first_or 0 a bs) w s =
       (s1 ← kmem_split_if_useful (a + span pre) w s; s2 ← set_free (a + span pre) 0 s1;
        Some (kmem_payload (a + span pre), s2))).
Proof.
  revert fuel p a. induction bs as [|[sz fr] r IH]; intros fuel p a Hs Ha Hf.
  - left. split; [constructor|]. by destruct fuel.
  - destruct fuel as [|f]; [simpl in Hf; lia|]. cbn [first_or alloc_from]. destruct (Z.eqb_spec a 0); [lia|].
    destruct Hs as (Hp & _ & [M S F P N] & Hr). unfold get_magic, get_free, get_size, get_next.
    rewrite M. cbn [mbind option_bind]. rewrite Z.eqb_refl. cbn [negb]. rewrite F. cbn [mbind option_bind].
    rewrite S. cbn [mbind option_bind].
    destruct (Z.leb_spec w sz) as [Hw|Hw]; destruct fr; cbn [andb negb]; change (1 =? 0) with false; change (0 =? 0) with true; cbn [andb negb].
    { right. exists [], sz, r. cbn [span app]. rewrite Z.add_0_r. split_and!; [done|done|constructor|done]. }
    all: rewrite N; cbn [mbind option_bind];
      destruct (IH f a (a + HDR + sz) Hr) as [[Hall ->]|(pre & sz' & post & -> & ? & ? & ->)]; [unfold HDR; lia|simpl in Hf; lia|..].
    all: try (left; split; [|done]; constructor; [simpl; intros; done || lia|done]).
    all: right; eexists ((sz, _) :: pre), sz', post; cbn [span app];
      replace (a + (HDR + sz + span pre)) with (a + HDR + sz + span pre) by lia;
      split_and!; [done|done| |done]; constructor; [simpl; intros; done || lia|done].
Qed.

(** ** The list view *)

Lemma span_app b1 b2 : span (b1 ++ b2) = span b1 + span b2.
Proof. induction b1 as [|[sz fr] r IH]; simpl; [lia|]. rewrite IH. lia. Qed.

Lemma live_app a b1 b2 : live a (b1 ++ b2) = live a b1 ++ live (a + span b1) b2.
Proof.
  revert a. induction b1 as [|[sz fr] r IH]; intros a; cbn [app live span].
  - by rewrite Z.add_0_r.
  - rewrite IH, <- app_assoc. do 3 f_equal. lia.
Qed.

Lemma no_adj_app b1 b2 :
  no_adj (b1 ++ b2) <-> no_adj b1 /\ no_adj b2 /\ (last_free b1 = true -> head_free b2 = false).
Proof.
  induction b1 as [|[sz fr] r IH]; cbn [app no_adj]; [unfold last_free; simpl; intuition done|].
  rewrite IH. destruct r as [|x r].
  - cbn [app no_adj head_free]. unfold last_free. simpl. destruct fr; intuition done.
  - replace (last_free ((sz, fr) :: x :: r)) with (last_free (x :: r)) by done.
    replace (head_free ((x :: r) ++ b2)) with (head_free (x :: r)) by (by destruct x as [? []]). tauto.
Qed.

Lemma absorb_head sz bs : head_free (snd (absorb sz bs)) = false.
Proof. revert sz. induction bs as [|[s2 []] r IH]; intros sz; [done|apply IH|done]. Qed.

Lemma absorb_no_adj sz bs : no_adj bs -> no_adj (snd (absorb sz bs)).
Proof. revert sz. induction bs as [|[s2 []] r IH]; intros sz; [done|intros [_ H]; by apply IH|done]. Qed.

Lemma absorb_length sz bs : (length (snd (absorb sz bs)) <= length bs)%nat.
Proof. revert sz. induction bs as [|[s2 []] r IH]; intros sz; cbn [absorb snd length]; [lia| |lia]. specialize (IH (sz + HDR + s2)). lia. Qed.

Lemma last_addr_snoc p a b x : last_addr p a (b ++ [x]) = a + span b.
Proof.
  revert p a. induction b as [|[sz fr] r IH]; intros p a; [destruct x; simpl; lia|].
  cbn [app last_addr span]. rewrite IH. lia.
Qed.

Lemma live_disjoint m p a bs e n i j q1 z1 q2 z2 :
  seg m p a bs e n -> live a bs !! i = Some (q1, z1) -> live a bs !! j = Some (q2, z2) -> i <> j ->
  q1 + z1 + HDR <= q2 \/ q2 + z2 + HDR <= q1.
Proof.
  revert p a i j q1 z1 q2 z2. induction bs as [|[sz fr] r IH]; intros p a i j q1 z1 q2 z2 Hs H1 H2 Hij; [done|].
  destruct Hs as (_ & _ & _ & Hr). cbn [live] in *. destruct fr; [by eapply IH|].
  destruct i as [|i], j as [|j]; [done|..]; simpl in H1, H2.
  - injection H1 as <- <-. apply list_elem_of_lookup_2 in H2. apply (live_range _ _ _ _ _ _ _ _ Hr) in H2. lia.
  - injection H2 as <- <-. apply list_elem_of_lookup_2 in H1. apply (live_range _ _ _ _ _ _ _ _ Hr) in H1. lia.
  - eapply IH; [done|done|done|congruence].
Qed.

(** ** Validation *)

Lemma heap_fuel_enough s bs :
  seg (mem s) 0 (g_heap_base s) bs (g_heap_end s) 0 -> (length bs + 1 <= heap_fuel s)%nat.
Proof.
  intros Hs. pose proof (seg_end _ _ _ _ _ _ Hs). pose proof (seg_span _ _ _ _ _ _ Hs) as [Hl _]. unfold heap_fuel, HDR.
  assert (Z.of_nat (length bs) <= (g_heap_end s - g_heap_base s) / 48); [|lia]. apply Z.div_le_lower_bound; lia.
Qed.

Lemma validate_walk fuel s p a bs guard :
  seg (mem s) p a bs (g_heap_end s) 0 -> 0 < g_heap_base s <= a -> a mod 16 = 0 -> g_heap_end s < 2 ^ 64 ->
  (length bs <= fuel)%nat -> 0 <= guard -> guard + Z.of_nat (length bs) <= 1048576 ->
  validate_from fuel s (first_or 0 a bs) p a guard = Some 0.
Proof.
  intros Hs Hb Ha He. revert fuel p a guard Hs Hb Ha.
  induction bs as [|[sz fr] r IH]; intros fuel p a guard Hs Hb Ha Hf Hg Hlen; [by destruct fuel|].
  destruct fuel as [|f]; [simpl in Hf; lia|]. pose proof (seg_end _ _ _ _ _ _ Hs) as Hend.
  pose proof (seg_payload_end _ _ _ _ _ _ _ _ Hs ltac:(lia) Ha He) as Hexp.
  pose proof (span_mod _ _ _ _ _ _ Hs Ha) as Hem.
  destruct Hs as (Hp & Hm & [M S F P N] & Hr). pose proof (seg_span _ _ _ _ _ _ Hr) as [Hsp _].
  cbn [span length first_or validate_from] in *. destruct (Z.eqb_spec a 0); [lia|].
  rewrite (wrap_small 64 (guard + 1)) by (unfold in_u; lia). destruct (Z.ltb_spec 1048576 (guard + 1)); [lia|].
  rewrite Z.eqb_refl. cbn [negb]. unfold HDR in *. rewrite (wrap_small 64 (a + 48)) by (unfold in_u; lia).
  destruct (Z.ltb_spec a (g_heap_base s)), (Z.ltb_spec (g_heap_end s) (a + 48)); try lia. cbn [orb].
  unfold get_magic, get_prev, get_size, get_next.
  rewrite M. cbn [mbind option_bind]. rewrite Z.eqb_refl. cbn [negb]. rewrite P. cbn [mbind option_bind].
  rewrite Z.eqb_refl. cbn [negb]. rewrite S. cbn [mbind option_bind].
  rewrite Hexp. unfold kmem_payload, HDR. rewrite (wrap_small 64 (a + 48)), wrap_small by (unfold in_u; lia).
  destruct (Z.ltb_spec (g_heap_end s - (a + 48)) sz), (Z.eqb_spec (a + 48 + sz) 0), (Z.ltb_spec (g_heap_end s) (a + 48 + sz)); try lia.
  cbn [orb]. rewrite N. cbn [mbind option_bind]. apply (IH f a (a + 48 + sz)); [done|lia| |lia|lia|lia].
  repeat apply align_mod; done.
Qed.

Lemma heap_validate_ok s bs : heap_ok s bs -> kmem_validate s = Some 0.
Proof.
  intros [H1 H2 H3 H4 H5 H6 H7 H8 H9]. pose proof (seg_end _ _ _ _ _ _ H8) as Hend.
  pose proof (seg_span _ _ _ _ _ _ H8) as [Hsp _]. pose proof (heap_fuel_enough s bs H8) as Hf.
  assert (1 <= length bs)%nat by (destruct bs; [done|simpl; lia]).
  unfold kmem_validate. rewrite H1, H6. destruct (Z.eqb_spec 1 0); [done|].
  destruct (Z.eqb_spec (g_heap_base s) 0), (Z.leb_spec (g_heap_end s) (g_heap_base s)); try lia. cbn [orb].
  rewrite Z.eqb_refl. cbn [negb]. replace (g_heap_base s) with (first_or 0 (g_heap_base s) bs) at 1 by (by destruct bs).
  apply validate_walk; try done; lia.
Qed.

(** ** Focusing on a block *)

Lemma heap_focus s pre rest :
  heap_ok s (pre ++ rest) -> rest <> [] ->
  let A := g_heap_base s + span pre in
  0 < A /\ A mod 16 = 0 /\ g_heap_base s <= A /\ A + span rest = g_heap_end s /\
  mapped (mem s) A (g_heap_end s - A) /\
  seg (mem s) (last_addr 0 (g_heap_base s) pre) A rest (g_heap_end s) 0 /\
  seg (mem s) 0 (g_heap_base s) pre A A.
Proof.
  intros [H1 H2 H3 H4 H5 H6 H7 H8 H9] Hne A. apply seg_app in H8 as [Hp Hr].
  pose proof (seg_span _ _ _ _ _ _ Hp) as [Hl Hm]. pose proof (seg_end _ _ _ _ _ _ Hr).
  replace (first_or 0 (g_heap_base s + span pre) rest) with A in Hp by (by destruct rest). unfold A in *.
  refine (conj _ (conj _ (conj _ (conj _ (conj _ (conj _ _)))))); [lia|by apply align_mod|lia|lia| |done|done].
  eapply mapped_sub; [done|lia|lia].
Qed.

Lemma heap_replace s pre rest rest' m' :
  let A := g_heap_base s + span pre in
  heap_ok s (pre ++ rest) -> rest <> [] -> changed (mem s) m' A (g_heap_end s) ->
  seg m' (last_addr 0 (g_heap_base s) pre) A rest' (g_heap_end s) 0 -> rest' <> [] ->
  heap_ok (set_mem s m') (pre ++ rest').
Proof.
  intros A Hs Hne Hc Hseg Hne'. destruct (heap_focus s pre rest Hs Hne) as (_ & _ & ? & _ & _ & _ & Hp).
  destruct Hs as [H1 H2 H3 H4 H5 H6 H7 H8 H9].
  constructor; cbn [set_mem mem g_heap_base g_heap_end g_head g_initialized]; try done.
  - by apply (ch_mapped _ _ _ _ Hc).
  - apply seg_app. fold A. split; [|done]. replace (first_or 0 A rest') with A by (by destruct rest').
    eapply seg_changed; [done|lia|done].
  - by destruct pre.
Qed.

(** Live bytes of a heap lie in front of the focus or behind it. *)
Lemma live_byte_app a b1 b2 i : live_byte a (b1 ++ b2) i <-> live_byte a b1 i \/ live_byte (a + span b1) b2 i.
Proof.
  unfold live_byte. rewrite live_app. split.
  - intros (p & sz & [?|?]%elem_of_app & ?); [left|right]; eauto.
  - intros [(p & sz & ? & ?)|(p & sz & ? & ?)]; exists p, sz; rewrite elem_of_app; eauto.
Qed.

Lemma live_byte_front s pre rest m' i :
  heap_ok s (pre ++ rest) -> rest <> [] -> changed (mem s) m' (g_heap_base s + span pre) (g_heap_end s) ->
  live_byte (g_heap_base s) pre i -> m' !! i = mem s !! i.
Proof.
  intros Hs Hne Hc (q & l & Hin & Hi). destruct (heap_focus s pre rest Hs Hne) as (_ & _ & _ & _ & _ & _ & Hp).
  destruct (live_range _ _ _ _ _ _ _ _ Hp Hin) as (? & ? & ?). rewrite (ch_same _ _ _ _ Hc); [done|lia].
Qed.

(** ** Allocation *)

Definition round16 (n : Z) : Z := (n + 15) / 16 * 16.

Lemma round16_range n : 0 < n -> n <= round16 n < n + 16 /\ round16 n mod 16 = 0 /\ 0 < round16 n.
Proof.
  intros Hn. unfold round16. pose proof (Z.div_mod (n + 15) 16 ltac:(lia)). pose proof (Z.mod_pos_bound (n + 15) 16 ltac:(lia)).
  split_and!; [lia|lia|by apply Z_mod_mult|lia].
Qed.

Lemma align_up_size_16 n :
  0 <= n < 2 ^ 64 -> kmem_align_up_size n KMEM_ALIGN = if 2 ^ 64 - 16 <? n then 0 else round16 n.
Proof.
  intros Hn. unfold kmem_align_up_size, KMEM_ALIGN, SIZE_MAX. change (16 =? 0) with false. change (u64 (16 - 1)) with 15.
  change (negb (Z.land 16 15 =? 0)) with false. cbn match. replace (2 ^ 64 - 1 - 15) with (2 ^ 64 - 16) by lia.
  destruct (Z.ltb_spec (2 ^ 64 - 16) n); [done|]. rewrite (wrap_small 64 (n + 15)) by (unfold in_u; lia).
  change (u64 (Z.lnot 15)) with (u64 (Z.lnot (u64 (2 ^ 4 - 1)))). rewrite land_not_ones by (unfold in_u; lia). done.
Qed.

Lemma alloc_core s pre sz post w :
  kinv s (pre ++ (sz, true) :: post) -> 0 < w <= sz -> w mod 16 = 0 ->
  let A := g_heap_base s + span pre in
  exists m' w' tail, (s1 ← kmem_split_if_useful A w s; s2 ← set_free A 0 s1; Some (kmem_payload A, s2)) =
      Some (A + HDR, set_mem s m') /\
    split_blocks w sz post w' tail /\ kinv (set_mem s m') (pre ++ (w', false) :: tail) /\
    (forall i, live_byte (g_heap_base s) (pre ++ (sz, true) :: post) i -> m' !! i = mem s !! i) /\
    changed (mem s) m' (g_heap_base s) (g_heap_end s).
Proof.
  intros [Hs Hadj] Hw Hwm A. destruct (heap_focus s pre ((sz, true) :: post) Hs ltac:(done)) as (HA & Hal & HbA & Hend & Hm & Hseg & _).
  fold A in HA, Hal, HbA, Hend, Hm, Hseg. pose proof Hs as [_ _ _ He Hsm _ _ _ _].
  destruct (split_spec s (last_addr 0 (g_heap_base s) pre) A sz post (g_heap_end s) w)
    as (m1 & w' & tail & -> & Hsplit & Hseg1 & Hc1 & Hl1); [done|done|done|done|lia|done|done|done|done|].
  cbn [mbind option_bind]. unfold set_free. cbn [span] in Hend.
  assert (0 <= span post) by (destruct Hseg as (_ & _ & _ & Hr); apply seg_span in Hr; lia).
  pose proof (seg_end _ _ _ _ _ _ Hseg1) as Hend1. cbn [span] in Hend1.
  pose proof Hseg1 as (Hp1 & Hm1 & [M S F P N] & Hr1). pose proof (seg_span _ _ _ _ _ _ Hr1) as [Hsp1 _]. unfold HDR in *.
  step_put. exists m, w', tail.
  assert (HcA : changed (mem s) m A (g_heap_end s)) by solve_changed.
  refine (conj _ (conj Hsplit (conj _ (conj _ _)))).
  - do 2 f_equal. unfold kmem_payload, HDR. apply wrap_small. unfold in_u. lia.
  - split; [eapply (heap_replace s pre _ ((w', false) :: tail) m Hs); [done|done| |done]|].
    + cbn [seg]. split_and!; [done|done|constructor; unfold HDR; solve_load|unfold HDR; solve_seg].
    + apply no_adj_app in Hadj as (H1 & [H2 H3] & H4). apply no_adj_app. split; [done|]. split; [|intros _; reflexivity]. split; [done|].
      destruct Hsplit as [(-> & -> & _)|(-> & -> & _)]; [done|]. split; [|done]. intros _. by apply H2.
  - intros i [Hi|Hi]%live_byte_app; [by eapply (live_byte_front s pre)|].
    assert (A + 48 + sz <= i).
    { destruct Hi as (q & l & Hin & Hi). cbn [live app] in Hin. destruct Hseg as (_ & _ & _ & Hr).
      destruct (live_range _ _ _ _ _ _ _ _ Hr Hin) as (? & ? & ?). unfold HDR in *. lia. }
    rewrite (ch_same _ _ _ _ Hc) by lia. apply Hl1. by destruct Hi as (q & l & ? & ?); exists q, l.
  - solve_changed.
Qed.

(** Where an allocation is. *)
Lemma live_inv a bs q sz :
  (q, sz) ∈ live a bs -> exists pre post, bs = pre ++ (sz, false) :: post /\ q = a + span pre + HDR.
Proof.
  revert a. induction bs as [|[s0 fr] r IH]; intros a Hin; [by apply elem_of_nil in Hin|].
  cbn [live] in Hin. apply elem_of_app in Hin as [Hin|Hin].
  - destruct fr; [by apply elem_of_nil in Hin|]. apply list_elem_of_singleton in Hin as [= -> ->].
    exists [], r. split; [done|]. simpl. lia.
  - destruct (IH _ Hin) as (pre & post & -> & ->). exists ((s0, fr) :: pre), post. split; [done|]. simpl. lia.
Qed.

(** ** Releasing *)

(** The forward pass at a free block of the heap. *)
Lemma heap_coalesce s pre s1 post s1' post' :
  heap_ok s (pre ++ (s1, true) :: post) -> absorb s1 post = (s1', post') ->
  let A := g_heap_base s + span pre in
  exists m', kmem_coalesce_forward (heap_fuel s) A s = Some (set_mem s m') /\
    heap_ok (set_mem s m') (pre ++ (s1', true) :: post') /\
    live (g_heap_base s) (pre ++ (s1', true) :: post') = live (g_heap_base s) (pre ++ (s1, true) :: post) /\
    (forall i, live_byte (g_heap_base s) (pre ++ (s1, true) :: post) i -> m' !! i = mem s !! i) /\
    changed (mem s) m' A (g_heap_end s) /\
    (head_free post = true -> load 8 m' (A + HDR + s1) = Some 0).
Proof.
  intros Hs Habs A. destruct (heap_focus s pre ((s1, true) :: post) Hs ltac:(done)) as (HA & Hal & HbA & Hend & Hm & Hseg & _).
  fold A in HA, Hal, HbA, Hend, Hm, Hseg. pose proof (heap_fuel_enough s _ (ki_seg _ _ Hs)) as Hf.
  rewrite length_app in Hf. cbn [length] in Hf.
  destruct (coalesce_spec (heap_fuel s) s _ A s1 post (g_heap_end s) HA Hal (ki_end _ _ Hs) Hm ltac:(lia) Hseg s1' post' Habs)
    as (m' & Hrun & Hseg' & Hc & Hl & Hlive & _ & Hz). exists m'. split; [done|]. split; [by eapply heap_replace|].
  split; [|split; [|done]].
  - rewrite !live_app. f_equal. exact Hlive.
  - intros i [Hi|Hi]%live_byte_app; [by eapply (live_byte_front s pre)|]. by apply Hl.
Qed.

Lemma heap_mark_free s pre sz post :
  heap_ok s (pre ++ (sz, false) :: post) ->
  let A := g_heap_base s + span pre in
  exists m', set_free A 1 s = Some (set_mem s m') /\ heap_ok (set_mem s m') (pre ++ (sz, true) :: post) /\
    changed (mem s) m' A (A + HDR).
Proof.
  intros Hs A. destruct (heap_focus s pre ((sz, false) :: post) Hs ltac:(done)) as (HA & Hal & HbA & Hend & Hm & Hseg & _).
  fold A in HA, Hal, HbA, Hend, Hm, Hseg. pose proof Hseg as (Hp & Hsm & [M S F P N] & Hr).
  pose proof (seg_span _ _ _ _ _ _ Hr). cbn [span] in Hend. unfold set_free, HDR in *. step_put. exists m.
  split; [done|]. split; [|solve_changed]. eapply heap_replace; [done|done|fold A; solve_changed| |done].
  fold A. cbn [seg]. split_and!; [done|done|constructor; unfold HDR; solve_load|unfold HDR; solve_seg].
Qed.

(** After the forward pass at [A], the backward step: the block is merged
    into a free predecessor. *)
Lemma heap_back s pre sz post :
  heap_ok s (pre ++ (sz, true) :: post) -> no_adj pre -> no_adj post -> head_free post = false ->
  let A := g_heap_base s + span pre in
  exists m' bs', coalesce_back A s = Some (set_mem s m') /\ kinv (set_mem s m') bs' /\
    live (g_heap_base s) bs' = live (g_heap_base s) (pre ++ (sz, true) :: post) /\
    (forall i, live_byte (g_heap_base s) (pre ++ (sz, true) :: post) i -> m' !! i = mem s !! i) /\
    changed (mem s) m' (g_heap_base s) (g_heap_end s) /\
    (load 8 m' A = Some 0 \/ load 4 m' (A + 16) = Some 1).
Proof.
  intros Hs Hpre Hpost Hhead A. destruct (heap_focus s pre _ Hs ltac:(done)) as (HA & Hal & HbA & Hend & Hm & Hseg & Hp).
  fold A in HA, Hal, HbA, Hend, Hm, Hseg, Hp. pose proof Hseg as (_ & _ & [M S F P N] & Hr).
  unfold coalesce_back, get_prev, get_free. rewrite P. cbn [mbind option_bind].
  assert (Hstay : (last_free pre = true -> False) ->
    exists m' bs', Some s = Some (set_mem s m') /\ kinv (set_mem s m') bs' /\
      live (g_heap_base s) bs' = live (g_heap_base s) (pre ++ (sz, true) :: post) /\
      (forall i, live_byte (g_heap_base s) (pre ++ (sz, true) :: post) i -> m' !! i = mem s !! i) /\
      changed (mem s) m' (g_heap_base s) (g_heap_end s) /\
      (load 8 m' A = Some 0 \/ load 4 m' (A + 16) = Some 1)).
  { intros Hlf. exists (mem s), (pre ++ (sz, true) :: post). replace (set_mem s (mem s)) with s by (by destruct s).
    split; [done|]. split; [split; [done|]|split; [done|split; [done|split; [apply changed_refl|by right]]]].
    apply no_adj_app. split; [done|]. split; [done|]. intros Hl. by destruct (Hlf Hl). }
  destruct pre as [|[s0 f0] pre0 _] using rev_ind.
  { cbn [last_addr]. rewrite Z.eqb_refl. by apply Hstay. }
  rewrite last_addr_snoc. rewrite <- app_assoc in *. cbn [app] in *.
  destruct (heap_focus s pre0 ((s0, f0) :: (sz, true) :: post) Hs ltac:(done)) as (HA0 & _ & ? & _ & _ & Hseg0 & _).
  destruct (Z.eqb_spec (g_heap_base s + span pre0) 0); [lia|]. pose proof Hseg0 as (_ & _ & [_ _ F0 _ _] & _).
  rewrite F0. cbn [mbind option_bind]. apply no_adj_app in Hpre as (Hn0 & _ & Hn1).
  unfold last_free in Hstay. rewrite last_snoc in Hstay. destruct f0; cbn match; [|by apply Hstay].
  change (1 =? 0) with false. cbn match. clear Hstay.
  destruct (heap_coalesce s pre0 s0 ((sz, true) :: post) (s0 + HDR + sz) post Hs) as (m' & Hrun & Hok & Hlive & Hb & Hc & Hz).
  { cbn [absorb]. by destruct post as [|[? []] ?]. }
  exists m', (pre0 ++ (s0 + HDR + sz, true) :: post). split; [done|]. split; [split; [done|]|split; [done|split; [done|split]]].
  - apply no_adj_app. split; [done|]. split; [done|]. intros Hl. by specialize (Hn1 Hl).
  - solve_changed.
  - left. unfold A. rewrite span_app. cbn [span].
    replace (g_heap_base s + (span pre0 + (HDR + s0 + 0))) with (g_heap_base s + span pre0 + HDR + s0) by lia. by apply Hz.
Qed.

Lemma release_spec s pre sz post :
  kinv s (pre ++ (sz, false) :: post) ->
  let A := g_heap_base s + span pre in
  exists m' bs', release A s = Some (0, set_mem s m') /\ kinv (set_mem s m') bs' /\
    live (g_heap_base s) bs' = live (g_heap_base s) pre ++ live (A + HDR + sz) post /\
    (forall i, live_byte (g_heap_base s) bs' i -> m' !! i = mem s !! i) /\
    changed (mem s) m' (g_heap_base s) (g_heap_end s) /\
    (load 8 m' A = Some 0 \/ load 4 m' (A + 16) = Some 1).
Proof.
  intros [Hs Hadj] A. apply no_adj_app in Hadj as (Hpre & [_ Hpost] & _).
  destruct (heap_focus s pre _ Hs ltac:(done)) as (HA & _ & ? & Hend & _ & Hseg & _). fold A in Hend, Hseg.
  pose proof Hseg as (Hsz & _ & _ & Hr). pose proof (seg_span _ _ _ _ _ _ Hr). cbn [span] in Hend.
  destruct (heap_mark_free s pre sz post Hs) as (m1 & Hrun1 & Hok1 & Hc1). fold A in Hrun1, Hc1.
  destruct (absorb sz post) as [sz' post'] eqn:Habs.
  pose proof (absorb_head sz post) as Hh. pose proof (absorb_no_adj sz post Hpost) as Hn. rewrite Habs in Hh, Hn. cbn [snd] in *.
  destruct (heap_coalesce (set_mem s m1) pre sz post sz' post' Hok1 Habs) as (m2 & Hrun2 & Hok2 & Hlive2 & Hb2 & Hc2 & _).
  destruct (heap_back (set_mem s m2) pre sz' post' Hok2 Hpre Hn Hh) as (m3 & bs' & Hrun3 & Hk3 & Hlive3 & Hb3 & Hc3 & Hfin).
  cbn [mem set_mem g_heap_base g_heap_end g_head g_initialized] in *. fold A in Hrun2, Hrun3, Hc2, Hfin.
  exists m3, bs'. unfold release. rewrite Hrun1. cbn [mbind option_bind]. rewrite Hrun2. cbn [mbind option_bind].
  change (set_mem (set_mem s m1) m2) with (set_mem s m2). rewrite Hrun3. cbn [mbind option_bind].
  change (set_mem (set_mem s m2) m3) with (set_mem s m3). rewrite (heap_validate_ok (set_mem s m3) bs' (ki_heap _ _ Hk3)). cbn [mbind option_bind].
  assert (Hl : live (g_heap_base s) bs' = live (g_heap_base s) pre ++ live (A + HDR + sz) post).
  { rewrite Hlive3, Hlive2, live_app. done. }
  split; [done|]. split; [done|]. split; [done|]. split; [|split; [unfold HDR in *; solve_changed|done]].
  intros i Hi. assert (Hi2 : live_byte (g_heap_base s) (pre ++ (sz, true) :: post) i).
  { unfold live_byte in *. by rewrite Hlive3, Hlive2 in Hi. }
  rewrite Hb3, Hb2 by (done || (unfold live_byte in *; by rewrite Hlive2)).
  apply (ch_same _ _ _ _ Hc1). intros Hi1. apply live_byte_app in Hi2 as [Hi2|Hi2].
  - destruct Hi2 as (q & l & Hin & ?). destruct (heap_focus s pre _ Hs ltac:(done)) as (_ & _ & _ & _ & _ & _ & Hp).
    destruct (live_range _ _ _ _ _ _ _ _ Hp Hin) as (? & ? & ?). unfold A in *. lia.
  - destruct Hi2 as (q & l & Hin & ?). cbn [live app] in Hin.
    destruct (live_range _ _ _ _ _ _ _ _ Hr Hin) as (? & ? & ?). unfold A, HDR in *. lia.
Qed.

(** ** Statistics *)

Fixpoint size_sum (fr : bool) (bs : blocks) : Z :=
  match bs with
  | [] => 0
  | (sz, f) :: r => (if Bool.eqb f fr then sz else 0) + size_sum fr r
  end.
Fixpoint free_blocks (bs : blocks) : Z :=
  match bs with
  | [] => 0
  | (_, f) :: r => (if f then 1 else 0) + free_blocks r
  end.
Fixpoint max_free (bs : blocks) : Z :=
  match bs with
  | [] => 0
  | (sz, f) :: r => if f then Z.max sz (max_free r) else max_free r
  end.

Lemma sums m p a bs e n :
  seg m p a bs e n ->
  span bs = size_sum true bs + size_sum false bs + HDR * Z.of_nat (length bs) /\
  0 <= size_sum true bs /\ 0 <= size_sum false bs /\ 0 <= free_blocks bs <= Z.of_nat (length bs) /\
  0 <= max_free bs <= size_sum true bs.
Proof.
  revert p a. induction bs as [|[sz fr] r IH]; intros p a Hs; [cbn; lia|].
  destruct Hs as (Hp & _ & _ & Hr). specialize (IH _ _ Hr). cbn [span size_sum free_blocks max_free length] in *.
  unfold HDR in *. destruct fr; cbn [Bool.eqb] in *; lia.
Qed.

Lemma stats_walk fuel s p a bs e o :
  seg (mem s) p a bs e 0 -> 0 < a -> (length bs <= fuel)%nat ->
  0 <= used_bytes o -> 0 <= free_bytes o -> 0 <= block_count o -> 0 <= free_count o -> 0 <= largest_free o ->
  used_bytes o + free_bytes o + block_count o + free_count o + 2 * span bs < 2 ^ 64 ->
  stats_from fuel s (first_or 0 a bs) o =
    Some (mk_stats (total_bytes o) (used_bytes o + size_sum false bs) (free_bytes o + size_sum true bs)
            (block_count o + Z.of_nat (length bs)) (free_count o + free_blocks bs) (Z.max (largest_free o) (max_free bs))).
Proof.
  revert fuel p a o. induction bs as [|[sz fr] r IH]; intros fuel p a o Hs Ha Hf H1 H2 H3 H4 H5 Hb.
  - destruct o. destruct fuel; cbn in *; rewrite !Z.add_0_r, Z.max_l by lia; done.
  - destruct fuel as [|f]; [simpl in Hf; lia|]. pose proof (seg_span _ _ _ _ _ _ Hs) as [Hsp _]. cbn [length] in *.
    destruct Hs as (Hp & _ & [M S F P N] & Hr). pose proof (seg_span _ _ _ _ _ _ Hr) as [Hspr _].
    cbn [first_or stats_from span size_sum free_blocks max_free] in *. destruct (Z.eqb_spec a 0); [lia|].
    unfold get_free, get_size, get_next, HDR in *. rewrite F. cbn [mbind option_bind]. rewrite S. cbn [mbind option_bind].
    rewrite N. cbn [mbind option_bind].
    rewrite (IH f a (a + 48 + sz)); [|done|lia|lia|..];
      destruct fr; cbn [Bool.eqb Z.eqb total_bytes used_bytes free_bytes block_count free_count largest_free].
    all: rewrite ?(wrap_small 64 (block_count o + 1)), ?(wrap_small 64 (free_count o + 1)),
      ?(wrap_small 64 (used_bytes o + sz)), ?(wrap_small 64 (free_bytes o + sz)) by (unfold in_u; lia).
    all: try (destruct (Z.ltb_spec (largest_free o) sz); lia); try lia.
    all: f_equal; f_equal; try lia. destruct (Z.ltb_spec (largest_free o) sz); lia.
Qed.

Lemma stats_spec s bs :
  heap_ok s bs ->
  kmem_get_stats s = Some (mk_stats (g_heap_end s - g_heap_base s) (size_sum false bs) (size_sum true bs)
    (Z.of_nat (length bs)) (free_blocks bs) (max_free bs)).
Proof.
  intros [H1 H2 H3 H4 H5 H6 H7 H8 H9]. pose proof (seg_end _ _ _ _ _ _ H8). pose proof (heap_fuel_enough _ _ H8).
  pose proof (sums _ _ _ _ _ _ H8) as (? & ? & ? & ? & ?). pose proof (seg_span _ _ _ _ _ _ H8) as [? _].
  unfold kmem_get_stats. rewrite H1, H6. change (1 =? 0) with false. cbn match.
  replace (g_heap_base s) with (first_or 0 (g_heap_base s) bs) at 1 by (by destruct bs).
  rewrite (stats_walk _ s 0 (g_heap_base s) bs (g_heap_end s)); cbn [total_bytes used_bytes free_bytes block_count free_count largest_free]; try done; try lia.
  rewrite wrap_small by (unfold in_u; lia). rewrite !Z.add_0_l, Z.max_r by lia. done.
Qed.

(** ** Initialisation *)

Definition heap_start (base : Z) : Z := round16 base.
Definition heap_size (base bytes : Z) : Z := (bytes - (heap_start base - base)) / 16 * 16.

Lemma align_up_ptr_16 n :
  0 <= n <= 2 ^ 64 - 16 -> kmem_align_up_ptr n KMEM_ALIGN = round16 n.
Proof.
  intros Hn. transitivity (kmem_align_up_size n KMEM_ALIGN); [done|]. rewrite align_up_size_16 by lia.
  destruct (Z.ltb_spec (2 ^ 64 - 16) n); [lia|done].
Qed.

Lemma init_spec base bytes s :
  0 < base -> 0 <= bytes <= 2 ^ 26 -> base + bytes < 2 ^ 64 -> mapped (mem s) base bytes ->
  if HDR + KMEM_MIN_SPLIT <? heap_size base bytes then
    exists s', kmem_init base bytes s = Some (0, s') /\ kinv s' [(heap_size base bytes - HDR, true)] /\
      g_heap_base s' = heap_start base /\ g_heap_end s' = heap_start base + heap_size base bytes
  else exists rc, kmem_init base bytes s = Some (rc, s) /\ rc < 0.
Proof.
  intros Hb Hn Hw Hm. unfold heap_size, heap_start. destruct (round16_range base Hb) as (Hr & Hral & Hr0).
  unfold kmem_init, KMEM_MIN_SPLIT, HDR. destruct (Z.eqb_spec base 0); [lia|]. cbn [orb].
  set (lost := round16 base - base) in *. pose proof (Z.div_mod (bytes - lost) 16 ltac:(lia)) as Hdm.
  pose proof (Z.mod_pos_bound (bytes - lost) 16 ltac:(lia)) as Hmb. set (us := (bytes - lost) / 16 * 16) in *.
  destruct (Z.ltb_spec bytes (48 + 32)).
  { destruct (Z.ltb_spec (48 + 32) us); [lia|]. eauto with lia. }
  rewrite align_up_ptr_16 by lia. destruct (Z.eqb_spec (round16 base) 0), (Z.ltb_spec (round16 base) base); try lia. cbn [orb].
  fold lost. rewrite (wrap_small 64 lost) by (unfold in_u; lia). rewrite (wrap_small 64 (lost + 48 + 32)) by (unfold in_u; lia).
  destruct (Z.leb_spec bytes (lost + 48 + 32)).
  { destruct (Z.ltb_spec (48 + 32) us); [lia|]. eauto with lia. }
  rewrite (wrap_small 64 (bytes - lost)) by (unfold in_u; lia).
  change (u64 (Z.lnot (KMEM_ALIGN - 1))) with (u64 (Z.lnot (u64 (2 ^ 4 - 1)))). rewrite land_not_ones by (unfold in_u; lia).
  change (2 ^ 4) with 16. fold us. destruct (Z.leb_spec us (48 + 32)), (Z.ltb_spec (48 + 32) us); try lia; [eauto with lia|].
  rewrite (wrap_small 64 (round16 base + us)), (wrap_small 64 (us - 48)) by (unfold in_u; lia).
  set (B := round16 base) in *. assert (B = base + lost) by lia. unfold set_magic, set_size, set_free, set_prev, set_next.
  do 5 step_put. set (s' := mk_kmem B (B + us) B 1 _).
  assert (Hk : heap_ok s' [(us - 48, true)]).
  { constructor; cbn [g_heap_base g_heap_end g_head g_initialized mem s']; try done; try lia.
    - solve_mapped.
    - cbn [seg first_or]. unfold HDR. split_and!; [lia| |constructor; solve_load|lia].
      unfold us. rewrite <- (Z.mul_1_r 48) at 1. replace (48 * 1) with (3 * 16) by lia.
      rewrite <- Z.mul_sub_distr_r. apply Z_mod_mult. }
  rewrite (heap_validate_ok s' _ Hk). cbn [mbind option_bind]. exists s'. split; [done|]. split; [|done]. split; [done|]. split; done.
Qed.

(** ** Theorems *)

Lemma alloc_spec s bs n :
  kinv s bs -> 0 < n < 2 ^ 64 ->
  (exists m' bs' l1 l2 p sz, kmem_alloc n s = Some (p, set_mem s m') /\ kinv (set_mem s m') bs' /\
     n <= sz /\ 0 < p /\ p mod 16 = 0 /\
     live (g_heap_base s) bs = l1 ++ l2 /\ live (g_heap_base s) bs' = l1 ++ (p, sz) :: l2 /\
     (forall i, live_byte (g_heap_base s) bs i -> m' !! i = mem s !! i) /\
     changed (mem s) m' (g_heap_base s) (g_heap_end s)) \/
  (kmem_alloc n s = Some (0, s) /\ Forall (fun b => b.2 = true -> b.1 < round16 n) bs).
Proof.
  intros Hk Hn. pose proof Hk as [Hs Hadj]. pose proof Hs as [H1 H2 H3 H4 H5 H6 H7 H8 H9].
  pose proof (seg_end _ _ _ _ _ _ H8) as Hend. destruct (round16_range n ltac:(lia)) as (Hr & Hrm & Hr0).
  unfold kmem_alloc. rewrite H1, H6. change (1 =? 0) with false. destruct (Z.eqb_spec n 0); [lia|]. cbn [orb].
  rewrite align_up_size_16 by lia. destruct (Z.ltb_spec (2 ^ 64 - 16) n) as [Hbig|Hbig].
  { right. rewrite Z.eqb_refl. split; [done|]. apply Forall_forall. intros [sz fr] Hin _. cbn [fst].
    apply list_elem_of_split in Hin as (l1 & l2 & ->). destruct (heap_focus s l1 _ Hs ltac:(done)) as (? & _ & ? & He & _ & Hseg & _).
    cbn [span] in He. destruct Hseg as (_ & _ & _ & Hr2). pose proof (seg_span _ _ _ _ _ _ Hr2). unfold HDR in *. lia. }
  destruct (Z.eqb_spec (round16 n) 0); [lia|].
  replace (g_heap_base s) with (first_or 0 (g_heap_base s) bs) at 2 by (by destruct bs).
  pose proof (heap_fuel_enough s bs H8).
  destruct (alloc_walk (heap_fuel s) s (round16 n) 0 (g_heap_base s) bs (g_heap_end s) H8 H2 ltac:(lia))
    as [[Hall E]|(pre & sz & post & -> & Hw & _ & E)]; [right; split; [by destruct bs|done]|left].
  destruct (alloc_core s pre sz post (round16 n) Hk ltac:(lia) Hrm) as (m' & w' & tail & Hrun & Hsplit & Hk' & Hb & Hc).
  destruct (heap_focus s pre _ Hs ltac:(done)) as (HA & Hal & _).
  exists m', (pre ++ (w', false) :: tail), (live (g_heap_base s) pre), (live (g_heap_base s + span pre + HDR + sz) post),
    (g_heap_base s + span pre + HDR), w'.
  rewrite !live_app. cbn [live app].
  split; [replace (first_or 0 (g_heap_base s) (pre ++ (sz, true) :: post)) with (g_heap_base s) in * by (by destruct pre); by rewrite E|].
  split; [done|]. split; [unfold split_blocks in Hsplit; lia|]. split; [unfold HDR; lia|].
  split; [by apply align_mod|]. split; [done|]. split; [|done]. do 2 f_equal.
  destruct Hsplit as [(-> & -> & _)|(-> & -> & _)]; [done|]. cbn [live app]. f_equal. lia.
Qed.

Lemma live_disjoint_new m p0 a bs e n l1 l2 p sz q l :
  seg m p0 a bs e n -> live a bs = l1 ++ (p, sz) :: l2 -> (q, l) ∈ l1 ++ l2 -> p + sz + HDR <= q \/ q + l + HDR <= p.
Proof.
  intros Hs Hl Hin. assert (Hp : live a bs !! length l1 = Some (p, sz)) by (rewrite Hl; by apply list_lookup_middle).
  apply elem_of_app in Hin as [Hin|Hin]; apply list_elem_of_lookup_1 in Hin as [i Hi].
  - eapply (live_disjoint _ _ _ _ _ _ (length l1) i); [done|done| |].
    + rewrite Hl. by apply lookup_app_l_Some.
    + apply lookup_lt_Some in Hi. lia.
  - eapply (live_disjoint _ _ _ _ _ _ (length l1) (S (length l1 + i))); [done|done| |lia].
    rewrite Hl, lookup_app_r by lia. by replace (S (length l1 + i) - length l1)%nat with (S i) by lia.
Qed.

(** C20. [kmem_alloc] from any heap that satisfies the invariant: it either
    returns [NULL], because no free block is large enough for the size rounded
    up to 16, and changes nothing, or it returns a 16-byte aligned block of at
    least the size asked for, inside the heap and disjoint from every
    allocation made before; the allocations are those before and the new one,
    no byte of an old one changes and nothing outside the heap does. *)
Theorem kmem_alloc_correct s bs n :
  kinv s bs -> 0 < n < 2 ^ 64 ->
  exists p s', kmem_alloc n s = Some (p, s') /\
  ((p = 0 /\ s' = s /\ Forall (fun b => b.2 = true -> b.1 < round16 n) bs) \/
   (p <> 0 /\ p mod 16 = 0 /\ g_heap_base s <= p /\ p + n <= g_heap_end s /\
    exists bs' sz, kinv s' bs' /\ n <= sz /\ live (g_heap_base s) bs' ≡ₚ (p, sz) :: live (g_heap_base s) bs /\
      (forall q l, (q, l) ∈ live (g_heap_base s) bs -> p + n <= q \/ q + l <= p) /\
      (forall i, live_byte (g_heap_base s) bs i -> mem s' !! i = mem s !! i) /\
      (forall i, ~ g_heap_base s <= i < g_heap_end s -> mem s' !! i = mem s !! i))).
Proof.
  intros Hk Hn.
  destruct (alloc_spec s bs n Hk Hn) as [(m' & bs' & l1 & l2 & p & sz & Hrun & Hk' & Hsz & Hp & Hal & Hl & Hl' & Hb & Hc)|[Hrun Hall]].
  - exists p, (set_mem s m'). split; [done|]. right. pose proof (ki_seg _ _ (ki_heap _ _ Hk')) as Hseg.
    cbn [set_mem mem g_heap_base g_heap_end] in Hseg.
    assert (Hin : (p, sz) ∈ live (g_heap_base s) bs') by (rewrite Hl'; set_solver).
    destruct (live_range _ _ _ _ _ _ _ _ Hseg Hin) as (? & ? & ?). unfold HDR in *.
    split_and!; [lia|done|lia|lia|]. exists bs', sz. split_and!; [done|lia| | |done|by apply Hc].
    + rewrite Hl, Hl'. by rewrite Permutation_middle.
    + intros q l Hq. rewrite Hl in Hq. destruct (live_disjoint_new _ _ _ _ _ _ _ _ _ _ _ _ Hseg Hl' Hq); unfold HDR in *; lia.
  - exists 0, s. split; [done|]. by left.
Qed.

Lemma free_spec s bs p sz :
  kinv s bs -> (p, sz) ∈ live (g_heap_base s) bs ->
  exists m' bs' l1 l2, kmem_free_checked p s = Some (0, set_mem s m') /\ kinv (set_mem s m') bs' /\
    live (g_heap_base s) bs = l1 ++ (p, sz) :: l2 /\ live (g_heap_base s) bs' = l1 ++ l2 /\
    (forall i, live_byte (g_heap_base s) bs' i -> m' !! i = mem s !! i) /\
    changed (mem s) m' (g_heap_base s) (g_heap_end s) /\
    (load 8 m' (p - HDR) = Some 0 \/ load 4 m' (p - HDR + 16) = Some 1).
Proof.
  intros Hk Hin. pose proof Hk as [Hs _]. apply live_inv in Hin as (pre & post & -> & ->).
  destruct (heap_focus s pre _ Hs ltac:(done)) as (HA & Hal & HbA & Hend & _ & Hseg & _).
  pose proof Hseg as (Hsz & _ & [M S F P N] & Hr). pose proof (seg_span _ _ _ _ _ _ Hr). cbn [span] in Hend.
  pose proof Hs as [H1 H2 H3 H4 H5 H6 H7 H8 H9].
  destruct (release_spec s pre sz post Hk) as (m' & bs' & Hrun & Hk' & Hl & Hb & Hc & Hd).
  set (A := g_heap_base s + span pre) in *. exists m', bs', (live (g_heap_base s) pre), (live (A + HDR + sz) post).
  split; [|rewrite live_app; cbn [live app]; split_and!; try done; by replace (A + HDR - HDR) with A by lia].
  unfold kmem_free_checked, kmem_ptr_in_heap, kmem_header_from_payload. rewrite H1. change (1 =? 0) with false. cbn [negb andb].
  unfold HDR in *. replace (A + 48 - 48) with A by lia. rewrite (wrap_small 64 A) by (unfold in_u; lia).
  destruct (Z.eqb_spec (A + 48) 0), (Z.leb_spec (g_heap_base s) (A + 48)), (Z.ltb_spec (A + 48) (g_heap_end s)); try lia. cbn [negb andb].
  change (KMEM_ALIGN - 1) with (2 ^ 4 - 1). rewrite (land_ones_mod 4 (A + 48)) by lia. change (2 ^ 4) with 16. rewrite (align_mod A 48) by done.
  rewrite Z.eqb_refl. cbn [negb]. destruct (Z.leb_spec (g_heap_base s) A), (Z.ltb_spec A (g_heap_end s)); try lia. cbn [negb andb].
  unfold get_magic, get_free. rewrite M. cbn [mbind option_bind]. rewrite Z.eqb_refl. cbn [negb].
  rewrite F. cbn [mbind option_bind]. rewrite Z.eqb_refl. cbn [negb]. exact Hrun.
Qed.

(** C21. [kmem_free_checked] of any allocation returns 0, gives back a heap
    that satisfies the invariant (no two free blocks side by side) whose
    allocations are the others, with their contents unchanged; freeing the
    same pointer again at once is refused with -3 or -4 and changes nothing. *)
Theorem kmem_free_correct s bs p sz :
  kinv s bs -> (p, sz) ∈ live (g_heap_base s) bs ->
  exists s' bs', kmem_free_checked p s = Some (0, s') /\ kinv s' bs' /\
    live (g_heap_base s) bs ≡ₚ (p, sz) :: live (g_heap_base s) bs' /\
    (forall i, live_byte (g_heap_base s) bs' i -> mem s' !! i = mem s !! i) /\
    (forall i, ~ g_heap_base s <= i < g_heap_end s -> mem s' !! i = mem s !! i) /\
    exists rc, kmem_free_checked p s' = Some (rc, s') /\ (rc = -3 \/ rc = -4).
Proof.
  intros Hk Hin. pose proof Hk as [Hs _].
  destruct (live_range _ _ _ _ _ _ _ _ (ki_seg _ _ Hs) Hin) as (Hq1 & Hq2 & Hq3).
  destruct (free_spec s bs p sz Hk Hin) as (m' & bs' & l1 & l2 & Hrun & Hk' & Hl & Hl' & Hb & Hc & Hd).
  exists (set_mem s m'), bs'. split_and!; [done|done| |done|by apply Hc|].
  { rewrite Hl, Hl'. by rewrite Permutation_middle. }
  pose proof Hs as [H1 H2 H3 H4 H5 H6 H7 H8 H9]. unfold kmem_free_checked, kmem_ptr_in_heap, kmem_header_from_payload.
  cbn [set_mem g_heap_base g_heap_end g_initialized]. rewrite H1. change (1 =? 0) with false. cbn [negb andb].
  unfold HDR in *. rewrite (wrap_small 64 (p - 48)) by (unfold in_u; lia).
  destruct (Z.eqb_spec p 0), (Z.leb_spec (g_heap_base s) p), (Z.ltb_spec p (g_heap_end s)); try lia. cbn [negb andb].
  assert (Hpm : Z.land p (KMEM_ALIGN - 1) = 0).
  { apply live_inv in Hin as (pre & post & -> & ->). destruct (heap_focus s pre _ Hs ltac:(done)) as (_ & Hal & _).
    change (KMEM_ALIGN - 1) with (2 ^ 4 - 1). rewrite (land_ones_mod 4) by lia. by apply align_mod. }
  rewrite Hpm, Z.eqb_refl. cbn [negb]. destruct (Z.leb_spec (g_heap_base s) (p - 48)), (Z.ltb_spec (p - 48) (g_heap_end s)); try lia.
  cbn [negb andb]. unfold get_magic, get_free. cbn [mem set_mem]. destruct Hd as [->|Hd]; [cbn [mbind option_bind]; eauto|].
  destruct (load_mapped 8 m' (p - 48)) as (v & -> & _); [apply (ch_mapped _ _ _ _ Hc); eapply mapped_sub; [done|lia|lia]|].
  cbn [mbind option_bind]. rewrite Hd. cbn [mbind option_bind]. destruct (Z.eqb_spec v KMEM_MAGIC); cbn [negb]; eauto.
Qed.

(** ** The users of the heap *)

(** Writing inside an allocation does not touch the heap's own data. *)
Lemma kinv_write s bs p sz m' lo hi :
  kinv s bs -> (p, sz) ∈ live (g_heap_base s) bs -> p <= lo -> hi <= p + sz -> changed (mem s) m' lo hi ->
  kinv (set_mem s m') bs.
Proof.
  intros [Hs Hadj] Hin Hlo Hhi Hc. split; [|done]. apply live_inv in Hin as (pre & post & -> & ->).
  destruct (heap_focus s pre _ Hs ltac:(done)) as (HA & _ & HbA & Hend & _ & Hseg & Hp).
  destruct Hs as [H1 H2 H3 H4 H5 H6 H7 H8 H9]. pose proof Hseg as (Hsz & Hm & Hh & Hr). pose proof (seg_span _ _ _ _ _ _ Hr).
  cbn [span] in Hend. unfold HDR in *. constructor; cbn [set_mem mem g_heap_base g_heap_end g_head g_initialized]; try done.
  - by apply (ch_mapped _ _ _ _ Hc).
  - apply seg_app. cbn [first_or]. split; [eapply seg_changed; [done|lia|done]|]. cbn [seg]. unfold HDR.
    split_and!; [done|done|eapply hdr_changed; [done|unfold HDR; lia|done]|eapply seg_changed; [done|lia|done]].
Qed.

Lemma calloc_spec s bs count n :
  kinv s bs -> 0 <= count < 2 ^ 64 -> 0 <= n < 2 ^ 64 ->
  (kmem_calloc count n s = Some (0, s)) \/
  (0 < count * n < 2 ^ 64 /\
   exists m' bs' l1 l2 p sz, kmem_calloc count n s = Some (p, set_mem s m') /\ kinv (set_mem s m') bs' /\
     count * n <= sz /\ 0 < p /\ p mod 16 = 0 /\
     live (g_heap_base s) bs = l1 ++ l2 /\ live (g_heap_base s) bs' = l1 ++ (p, sz) :: l2 /\
     (forall i, live_byte (g_heap_base s) bs i -> m' !! i = mem s !! i) /\
     (forall i, p <= i < p + count * n -> m' !! i = Some 0)).
Proof.
  intros Hk Hcount Hn. unfold kmem_calloc, SIZE_MAX.
  destruct (negb (count =? 0) && ((2 ^ 64 - 1) / count <? n)) eqn:Hov; [by left|].
  assert (Htot : count * n < 2 ^ 64).
  { apply andb_false_iff in Hov as [?%negb_false_iff%Z.eqb_eq|?%Z.ltb_ge]; [nia|].
    destruct (decide (count = 0)) as [->|]; [lia|]. pose proof (Z.mul_div_le (2 ^ 64 - 1) count). nia. }
  rewrite wrap_small by (unfold in_u; nia). set (t := count * n) in *.
  destruct (decide (t = 0)) as [->|Ht0].
  { left. unfold kmem_alloc. rewrite orb_true_r. done. }
  assert (Ht : 0 < t < 2 ^ 64) by (subst t; nia).
  destruct (alloc_spec s bs t Hk Ht) as [(m1 & bs' & l1 & l2 & p & sz & Hrun & Hk' & Hsz & Hp & Hal & Hl & Hl' & Hb & Hc)|[Hrun _]];
    rewrite Hrun; cbn [mbind option_bind]; [right|by left].
  split; [done|]. destruct (Z.eqb_spec p 0); [lia|]. unfold kmem_memset.
  assert (Hin : (p, sz) ∈ live (g_heap_base s) bs') by (rewrite Hl'; set_solver).
  pose proof (ki_heap _ _ Hk') as Hs'. pose proof (ki_seg _ _ Hs') as Hseg. pose proof (ki_mapped _ _ Hs') as Hmap.
  cbn [set_mem mem g_heap_base g_heap_end] in Hseg, Hmap. destruct (live_range _ _ _ _ _ _ _ _ Hseg Hin) as (? & ? & ?). unfold HDR in *.
  cbn [mem set_mem]. destruct (fill_spec (Z.to_nat t) m1 p 0) as (m2 & Hfill & Hc2 & Hz).
  { eapply mapped_sub; [done|lia|lia]. }
  rewrite Hfill. cbn [fmap option_fmap option_map mbind option_bind]. rewrite Z2Nat.id in Hc2, Hz by lia.
  exists m2, bs', l1, l2, p, sz. split_and!; try done.
  - eapply (kinv_write (set_mem s m1) bs' p sz m2 p (p + t)); [done|done|lia|lia|done].
  - intros i Hi. rewrite (ch_same _ _ _ _ Hc2); [by apply Hb|]. destruct Hi as (q & l & Hq & Hi). rewrite Hl in Hq.
    destruct (live_disjoint_new _ _ _ _ _ _ _ _ _ _ _ _ Hseg Hl' Hq); unfold HDR in *; lia.
Qed.

(** [kmem_calloc] either returns [NULL] and changes nothing (always when
    the product overflows), or returns a new allocation of at least
    [count * bytes] bytes, that many of them zero, and no byte of an older
    allocation changes. *)
Theorem kmem_calloc_zeroed s bs count n :
  kinv s bs -> 0 <= count < 2 ^ 64 -> 0 <= n < 2 ^ 64 ->
  (2 ^ 64 <= count * n -> kmem_calloc count n s = Some (0, s)) /\
  exists p s', kmem_calloc count n s = Some (p, s') /\
    (p <> 0 -> exists bs' sz, kinv s' bs' /\ count * n <= sz /\
       live (g_heap_base s) bs' ≡ₚ (p, sz) :: live (g_heap_base s) bs /\
       (forall i, p <= i < p + count * n -> mem s' !! i = Some 0) /\
       (forall i, live_byte (g_heap_base s) bs i -> mem s' !! i = mem s !! i)) /\
    (p = 0 -> s' = s).
Proof.
  intros Hk Hcount Hn.
  destruct (calloc_spec s bs count n Hk Hcount Hn)
    as [E|(? & m' & bs' & l1 & l2 & p & sz & Hrun & Hk' & Hsz & Hp & Hal & Hl & Hl' & Hb & Hz)].
  - split; [done|]. exists 0, s. split_and!; [done|lia|done].
  - split; [lia|]. exists p, (set_mem s m'). split_and!; [done| |lia]. intros _. exists bs', sz.
    split_and!; [done|done| |done|done]. rewrite Hl, Hl'. by rewrite Permutation_middle.
Qed.

(** The heap with the allocations its users hold: address and size asked
    for.  Users allocate, free what they hold, and write where they may. *)
Inductive heap_step : kmem * list (Z * Z) -> kmem * list (Z * Z) -> Prop :=
| hs_alloc n s s' own p :
    0 < n < 2 ^ 64 -> kmem_alloc n s = Some (p, s') ->
    heap_step (s, own) (s', if p =? 0 then own else (p, n) :: own)
| hs_calloc c n s s' own p :
    0 <= c < 2 ^ 64 -> 0 <= n < 2 ^ 64 -> kmem_calloc c n s = Some (p, s') ->
    heap_step (s, own) (s', if p =? 0 then own else (p, c * n) :: own)
| hs_free s s' own1 own2 p n rc :
    kmem_free_checked p s = Some (rc, s') -> heap_step (s, own1 ++ (p, n) :: own2) (s', own1 ++ own2)
| hs_write s own p n m' lo hi :
    (p, n) ∈ own -> p <= lo -> hi <= p + n -> changed (mem s) m' lo hi -> heap_step (s, own) (set_mem s m', own).

(** What the users hold is what the heap regards as allocated. *)
Record owns (own lv : list (Z * Z)) : Prop := {
  ow_in : forall p n, (p, n) ∈ own -> exists sz, (p, sz) ∈ lv /\ 0 < n <= sz;
  ow_all : forall p sz, (p, sz) ∈ lv -> exists n, (p, n) ∈ own;
  ow_nodup : NoDup own.*1
}.

Definition held (x : kmem * list (Z * Z)) : Prop :=
  exists bs, kinv x.1 bs /\ owns x.2 (live (g_heap_base x.1) bs).

Lemma owns_add own l1 l2 p n sz :
  owns own (l1 ++ l2) -> 0 < n <= sz -> (forall q l, (q, l) ∈ l1 ++ l2 -> q <> p) ->
  owns ((p, n) :: own) (l1 ++ (p, sz) :: l2).
Proof.
  intros [H1 H2 H3] Hn Hf. split.
  - intros q k [[= -> ->]|Hq]%elem_of_cons; [exists sz; split; [set_solver|done]|].
    destruct (H1 q k Hq) as (z & Hz & ?). exists z. split; [set_solver|done].
  - intros q l Hq. destruct (decide (q = p)) as [->|]; [exists n; set_solver|].
    destruct (H2 q l) as [k Hk]; [set_solver|]. exists k. set_solver.
  - cbn [fmap list_fmap fst]. constructor; [|done]. intros ([q k] & Hq & Hin)%list_elem_of_fmap. simpl in Hq. subst q.
    destruct (H1 p k Hin) as (z & Hz & _). by apply (Hf p z).
Qed.

Lemma owns_remove own1 own2 l1 l2 p n sz :
  owns (own1 ++ (p, n) :: own2) (l1 ++ (p, sz) :: l2) -> (forall q l, (q, l) ∈ l1 ++ l2 -> q <> p) ->
  owns (own1 ++ own2) (l1 ++ l2).
Proof.
  intros [H1 H2 H3] Hf. rewrite fmap_app in H3. cbn [fmap list_fmap fst] in H3.
  apply NoDup_app in H3 as (Hn1 & Hd & [Hp Hn2]%NoDup_cons). split.
  - intros q k Hq. destruct (H1 q k) as (z & Hz & ?); [set_solver|]. exists z. split; [|done].
    assert (q <> p); [|set_solver]. intros ->. apply elem_of_app in Hq as [Hq|Hq]; apply (list_elem_of_fmap_2 fst) in Hq; simpl in Hq.
    + apply (Hd p Hq). by left.
    + done.
  - intros q l Hq. pose proof (Hf q l Hq). destruct (H2 q l) as [k Hk]; [set_solver|]. exists k. set_solver.
  - rewrite fmap_app. apply NoDup_app. split_and!; [done| |done]. intros q Hq Hq2. apply (Hd q Hq). by right.
Qed.

Lemma live_fresh m p0 a bs e n l1 l2 p sz q l :
  seg m p0 a bs e n -> live a bs = l1 ++ (p, sz) :: l2 -> (q, l) ∈ l1 ++ l2 -> q <> p.
Proof.
  intros Hs Hl Hq. assert (Hp : (p, sz) ∈ live a bs) by (rewrite Hl; set_solver).
  assert (Hq' : (q, l) ∈ live a bs) by (rewrite Hl; set_solver).
  apply (live_range _ _ _ _ _ _ _ _ Hs) in Hp as (? & ? & ?). apply (live_range _ _ _ _ _ _ _ _ Hs) in Hq' as (? & ? & ?).
  destruct (live_disjoint_new _ _ _ _ _ _ _ _ _ _ _ _ Hs Hl Hq); unfold HDR in *; lia.
Qed.

Lemma held_step x y : held x -> heap_step x y -> held y /\ g_heap_base y.1 = g_heap_base x.1 /\ g_heap_end y.1 = g_heap_end x.1.
Proof.
  intros (bs & Hk & Ho) Hst. destruct Hst as [n s s' own p Hn Hrun|c n s s' own p Hc Hn Hrun|s s' own1 own2 p n rc Hrun|s own p n m' lo hi Hin Hlo Hhi Hch];
    cbn [fst snd] in *.
  - destruct (alloc_spec s bs n Hk Hn) as [(m' & bs' & l1 & l2 & q & sz & E & Hk' & ? & ? & _ & Hl & Hl' & _)|[E _]];
      rewrite E in Hrun; injection Hrun as <- <-; [|rewrite Z.eqb_refl; split; [by exists bs|done]].
    destruct (Z.eqb_spec q 0); [lia|]. split; [|done]. exists bs'. split; [done|]. cbn [fst snd set_mem g_heap_base]. rewrite Hl'. rewrite Hl in Ho.
    apply owns_add; [done|lia|]. intros ? ?. by eapply live_fresh; [apply (ki_seg _ _ (ki_heap _ _ Hk'))|].
  - destruct (calloc_spec s bs c n Hk Hc Hn) as [E|(? & m' & bs' & l1 & l2 & q & sz & E & Hk' & ? & ? & _ & Hl & Hl' & _)];
      rewrite E in Hrun; injection Hrun as <- <-; [rewrite Z.eqb_refl; split; [by exists bs|done]|].
    destruct (Z.eqb_spec q 0); [lia|]. split; [|done]. exists bs'. split; [done|]. cbn [fst snd set_mem g_heap_base]. rewrite Hl'. rewrite Hl in Ho.
    apply owns_add; [done|lia|]. intros ? ?. by eapply live_fresh; [apply (ki_seg _ _ (ki_heap _ _ Hk'))|].
  - destruct (ow_in _ _ Ho p n) as (sz & Hin & _); [set_solver|].
    destruct (free_spec s bs p sz Hk Hin) as (m' & bs' & l1 & l2 & E & Hk' & Hl & Hl' & _). rewrite E in Hrun. injection Hrun as <- <-.
    split; [|done]. exists bs'. split; [done|]. cbn [fst snd set_mem g_heap_base]. rewrite Hl'. rewrite Hl in Ho. eapply owns_remove; [done|].
    intros ? ?. by eapply live_fresh; [apply (ki_seg _ _ (ki_heap _ _ Hk))|].
  - destruct (ow_in _ _ Ho p n Hin) as (sz & Hl & ?). split; [|done]. exists bs. split; [|done].
    apply (kinv_write s bs p sz m' lo hi); [done|done|done|lia|done].
Qed.

Lemma held_reachable x y : held x -> rtc heap_step x y ->
  held y /\ g_heap_base y.1 = g_heap_base x.1 /\ g_heap_end y.1 = g_heap_end x.1.
Proof.
  intros Hx Hr. induction Hr as [x|x y z Hst _ IH]; [done|]. destruct (held_step x y Hx Hst) as (Hy & E1 & E2).
  destruct (IH Hy) as (? & ? & ?). split_and!; [done|congruence|congruence].
Qed.

(** With nothing allocated, the heap is one free block again. *)
Lemma all_free_single a bs : live a bs = [] -> no_adj bs -> bs <> [] -> exists sz, bs = [(sz, true)].
Proof.
  intros Hl Hadj Hne. destruct bs as [|[s1 f1] r]; [done|]. cbn [live] in Hl. apply app_nil in Hl as [H1 Hl].
  destruct f1; [|done]. destruct Hadj as [Hh _]. specialize (Hh eq_refl).
  destruct r as [|[s2 f2] r]; [by exists s1|]. cbn [live] in Hl. apply app_nil in Hl as [H2 _]. by destruct f2.
Qed.

(** C19. The heap in use: from a successful [kmem_init], whatever the users
    allocate, free and write into their own allocations, [kmem_validate]
    returns 0, the allocations they hold are aligned, inside the arena and
    pairwise disjoint, and once everything is freed the statistics show one
    free block that spans the heap. *)
Theorem kmem_in_use_safe base bytes s0 s1 s own :
  0 < base -> 0 <= bytes <= 2 ^ 26 -> base + bytes < 2 ^ 64 -> mapped (mem s0) base bytes ->
  kmem_init base bytes s0 = Some (0, s1) -> rtc heap_step (s1, []) (s, own) ->
  kmem_validate s = Some 0 /\
  (forall p n, (p, n) ∈ own -> p mod 16 = 0 /\ base <= p /\ p + n <= base + bytes) /\
  (forall i j p n q k, own !! i = Some (p, n) -> own !! j = Some (q, k) -> i <> j -> p + n <= q \/ q + k <= p) /\
  (own = [] -> kmem_get_stats s = Some (mk_stats (heap_size base bytes) 0 (heap_size base bytes - HDR) 1 1 (heap_size base bytes - HDR))).
Proof.
  intros Hb Hn Hw Hm Hinit Hr. pose proof (init_spec base bytes s0 Hb Hn Hw Hm) as Hi.
  destruct (_ <? _) eqn:Hsz; [|destruct Hi as (rc & E & ?); rewrite E in Hinit; injection Hinit as -> _; lia].
  destruct Hi as (s' & E & Hk & Eb & Ee). rewrite E in Hinit. injection Hinit as ->. apply Z.ltb_lt in Hsz.
  assert (Hh : held (s1, [])).
  { exists [(heap_size base bytes - HDR, true)]. split; [done|]. split; [set_solver|cbn [live app]; set_solver|constructor]. }
  destruct (held_reachable _ _ Hh Hr) as ((bs & Hks & Ho) & Eb' & Ee'). cbn [fst snd] in *.
  pose proof (ki_heap _ _ Hks) as Hs. pose proof (ki_seg _ _ Hs) as Hseg.
  pose proof (round16_range base Hb) as (? & ? & ?). unfold heap_size, heap_start in *.
  pose proof (Z.mul_div_le (bytes - (round16 base - base)) 16 ltac:(lia)).
  split_and!.
  - by eapply heap_validate_ok.
  - intros p n Hin. destruct (ow_in _ _ Ho p n Hin) as (sz & Hl & ?).
    destruct (live_range _ _ _ _ _ _ _ _ Hseg Hl) as (? & ? & ?). unfold HDR in *. split; [|lia].
    apply live_inv in Hl as (pre & post & -> & ->). destruct (heap_focus s pre _ Hs ltac:(done)) as (_ & Hal & _). by apply align_mod.
  - intros i j p n q k Hi Hj Hij. destruct (ow_in _ _ Ho p n) as (z1 & Hl1 & ?); [by eapply list_elem_of_lookup_2|].
    destruct (ow_in _ _ Ho q k) as (z2 & Hl2 & ?); [by eapply list_elem_of_lookup_2|].
    apply list_elem_of_lookup_1 in Hl1 as [i1 Hl1], Hl2 as [i2 Hl2]. destruct (decide (i1 = i2)) as [->|Hne].
    + exfalso. apply Hij. eapply (NoDup_lookup own.*1); [apply Ho|rewrite list_lookup_fmap, Hi; done|].
      rewrite list_lookup_fmap, Hj. simpl. congruence.
    + destruct (live_disjoint _ _ _ _ _ _ _ _ _ _ _ _ Hseg Hl1 Hl2 Hne); unfold HDR in *; lia.
  - intros ->. rewrite (stats_spec s bs Hs), Ee', Eb', Eb, Ee.
    assert (Hl : live (g_heap_base s) bs = []).
    { destruct (live (g_heap_base s) bs) as [|[p z] r] eqn:El; [done|]. destruct (ow_all _ _ Ho p z) as [k Hk']; [by left|].
      by apply elem_of_nil in Hk'. }
    destruct (all_free_single _ _ Hl (ki_coalesced _ _ Hks) (ki_ne _ _ Hs)) as [sz ->].
    pose proof (seg_end _ _ _ _ _ _ Hseg) as Hend. cbn [span size_sum free_blocks max_free length Bool.eqb] in *.
    pose proof Hseg as (? & _ & _ & _). unfold HDR in *. do 2 f_equal; lia.
Qed.

(** ** A small heap: 200 bytes at 4090, and the calls of the host test *)

Definition ex_mem : memory := list_to_map (map (fun i => (4090 + Z.of_nat i, 7)) (seq 0 200)).
Definition ex_run (f : kmem -> option (Z * kmem)) (s : kmem) : kmem := from_option snd s (f s).
Definition ex0 : kmem := mk_kmem 0 0 0 0 ex_mem.
Definition ex1 : kmem := ex_run (kmem_init 4090 200) ex0.
Definition ex2 : kmem := ex_run (kmem_alloc 20) ex1.

Lemma ex_mapped : mapped ex_mem 4090 200.
Proof. apply mappedb_ok. by vm_compute. Qed.

Lemma heap_ex1_inv : kinv ex1 [(144, true)].
Proof.
  split; [constructor; [by vm_compute..|apply mappedb_ok; by vm_compute| |done]|done].
  cbn [seg]. split_and!; [done|done| |by vm_compute]. constructor; by vm_compute.
Qed.

Lemma heap_ex2_inv : kinv ex2 [(32, false); (64, true)].
Proof.
  split; [constructor; [by vm_compute..|apply mappedb_ok; by vm_compute| |done]|done].
  cbn [seg]. split_and!; [done|done| |done|done| |by vm_compute]; constructor; by vm_compute.
Qed.

Lemma kmem_alloc_correct_witness :
  exists p s', kmem_alloc 20 ex1 = Some (p, s') /\
  ((p = 0 /\ s' = ex1 /\ Forall (fun b => b.2 = true -> b.1 < round16 20) [(144, true)]) \/
   (p <> 0 /\ p mod 16 = 0 /\ g_heap_base ex1 <= p /\ p + 20 <= g_heap_end ex1 /\
    exists bs' sz, kinv s' bs' /\ 20 <= sz /\ live (g_heap_base ex1) bs' ≡ₚ (p, sz) :: live (g_heap_base ex1) [(144, true)] /\
      (forall q l, (q, l) ∈ live (g_heap_base ex1) [(144, true)] -> p + 20 <= q \/ q + l <= p) /\
      (forall i, live_byte (g_heap_base ex1) [(144, true)] i -> mem s' !! i = mem ex1 !! i) /\
      (forall i, ~ g_heap_base ex1 <= i < g_heap_end ex1 -> mem s' !! i = mem ex1 !! i))).
Proof. apply (kmem_alloc_correct ex1 [(144, true)] 20); [exact heap_ex1_inv|lia]. Defined.

Lemma kmem_free_correct_witness :
  exists s' bs', kmem_free_checked 4144 ex2 = Some (0, s') /\ kinv s' bs' /\
    live (g_heap_base ex2) [(32, false); (64, true)] ≡ₚ (4144, 32) :: live (g_heap_base ex2) bs' /\
    (forall i, live_byte (g_heap_base ex2) bs' i -> mem s' !! i = mem ex2 !! i) /\
    (forall i, ~ g_heap_base ex2 <= i < g_heap_end ex2 -> mem s' !! i = mem ex2 !! i) /\
    exists rc, kmem_free_checked 4144 s' = Some (rc, s') /\ (rc = -3 \/ rc = -4).
Proof.
  apply (kmem_free_correct ex2 [(32, false); (64, true)] 4144 32); [exact heap_ex2_inv|].
  replace (g_heap_base ex2) with 4096 by (by vm_compute). cbn [live app]. apply elem_of_cons. left. by vm_compute.
Defined.

Lemma kmem_calloc_zeroed_witness :
  (2 ^ 64 <= 5 * 4 -> kmem_calloc 5 4 ex1 = Some (0, ex1)) /\
  exists p s', kmem_calloc 5 4 ex1 = Some (p, s') /\
    (p <> 0 -> exists bs' sz, kinv s' bs' /\ 5 * 4 <= sz /\
       live (g_heap_base ex1) bs' ≡ₚ (p, sz) :: live (g_heap_base ex1) [(144, true)] /\
       (forall i, p <= i < p + 5 * 4 -> mem s' !! i = Some 0) /\
       (forall i, live_byte (g_heap_base ex1) [(144, true)] i -> mem s' !! i = mem ex1 !! i)) /\
    (p = 0 -> s' = ex1).
Proof. apply (kmem_calloc_zeroed ex1 [(144, true)] 5 4); [exact heap_ex1_inv|lia|lia]. Defined.

(** Allocate 20 bytes and free them. *)
Definition ex3 : kmem := ex_run (kmem_free_checked 4144) ex2.

Lemma kmem_in_use_safe_witness :
  kmem_validate ex3 = Some 0 /\
  (forall p n, (p, n) ∈ ([] : list (Z * Z)) -> p mod 16 = 0 /\ 4090 <= p /\ p + n <= 4090 + 200) /\
  (forall i j p n q k, ([] : list (Z * Z)) !! i = Some (p, n) -> ([] : list (Z * Z)) !! j = Some (q, k) -> i <> j ->
     p + n <= q \/ q + k <= p) /\
  (([] : list (Z * Z)) = [] -> kmem_get_stats ex3 =
     Some (mk_stats (heap_size 4090 200) 0 (heap_size 4090 200 - HDR) 1 1 (heap_size 4090 200 - HDR))).
Proof.
  apply (kmem_in_use_safe 4090 200 ex0 ex1 ex3 []); [lia|lia|lia|exact ex_mapped|by vm_compute|].
  eapply (rtc_l _ _ (ex2, [(4144, 20)])); [apply (hs_alloc 20 ex1 ex2 [] 4144); [lia|by vm_compute]|].
  apply rtc_once, (hs_free ex2 ex3 [] [] 4144 20 0). by vm_compute.
Defined.
End Kmem.
