(* ===== verification/Vmm.v ===== *)
(** * Page tables

    Model of [src/vmm.c] with [include/vmm.h]: four-level page tables over a
    frame allocator and a physical-to-virtual translation that the caller
    supplies as function pointers.  Page tables are arrays of 512 words in a
    store indexed by their virtual addresses; the store also remembers which
    translations the CPU may have cached.  [FrameSource] states what the
    page-table code needs of the frame allocator. *)
From S2P Require Import Prelude.
From stdpp Require Import base gmap list numbers option relations.
From Stdlib Require Import ZArith Lia.

Open Scope Z_scope.

Module Vmm.

Definition VMM_PAGE_SIZE : Z := 4096.
Definition VMM_ENTRIES_PER_TABLE : nat := 512.
Definition VMM_INVALID_PHYS : Z := 2 ^ 64 - 1.

Definition VMM_PTE_PRESENT : Z := 2 ^ 0.
Definition VMM_PTE_WRITABLE : Z := 2 ^ 1.
Definition VMM_PTE_USER : Z := 2 ^ 2.
Definition VMM_PTE_WRITE_THROUGH : Z := 2 ^ 3.
Definition VMM_PTE_CACHE_DISABLE : Z := 2 ^ 4.
Definition VMM_PTE_HUGE : Z := 2 ^ 7.
Definition VMM_PTE_GLOBAL : Z := 2 ^ 8.
Definition VMM_PTE_NO_EXECUTE : Z := 2 ^ 63.
Definition VMM_PTE_ADDR_MASK : Z := 0x000FFFFFFFFFF000.

Definition VMM_MAP_OK : Z := 0.
Definition VMM_ERR_INVAL : Z := -1.
Definition VMM_ERR_NOMEM : Z := -2.
Definition VMM_ERR_EXISTS : Z := -3.
Definition VMM_ERR_NOT_FOUND : Z := -4.

Record vmm_mapping := mk_mapping { m_vaddr : Z; m_paddr : Z; m_flags : Z }.

Section vmm.
(** The object behind the [ctx] pointer. *)
Context {C : Type}.

Record vmm_space := mk_space {
  root_paddr : Z;
  alloc_frame : option (C -> option (Z * C));
  free_frame : option (C -> Z -> option C);
  phys_to_virt : option (C -> Z -> Z)
}.

Record vm := mk_vm {
  ctx : C;
  tabs : gmap Z (list Z);
  tlb : gmap Z (Z * Z)
}.

Definition set_ctx (s : vm) (c : C) : vm := mk_vm c (tabs s) (tlb s).
Definition set_tabs (s : vm) (t : gmap Z (list Z)) : vm := mk_vm (ctx s) t (tlb s).

(** [table[i]] and [table[i] = e] through a pointer. *)
Definition rd (table : Z) (i : nat) (s : vm) : option Z := t ← tabs s !! table; t !! i.
Definition wr (table : Z) (i : nat) (e : Z) (s : vm) : option vm :=
  t ← tabs s !! table;
  if decide (i < length t)%nat then Some (set_tabs s (<[table := <[i := e]> t]> (tabs s))) else None.

Definition vmm_zero_page (page : Z) (s : vm) : option vm :=
  t ← tabs s !! page;
  if decide (VMM_ENTRIES_PER_TABLE <= length t)%nat
  then Some (set_tabs s (<[page := replicate VMM_ENTRIES_PER_TABLE 0 ++ drop VMM_ENTRIES_PER_TABLE t]> (tabs s)))
  else None.

Definition vmm_is_aligned_4k (value : Z) : bool := Z.land value (VMM_PAGE_SIZE - 1) =? 0.

Definition vmm_is_canonical (vaddr : Z) : bool :=
  let sign := Z.land (Z.shiftr vaddr 47) 1 in
  let upper := Z.shiftr vaddr 48 in
  if negb (sign =? 0) then upper =? 0xFFFF else upper =? 0.

Definition idx_pml4 (vaddr : Z) : nat := Z.to_nat (Z.land (Z.shiftr vaddr 39) 0x1FF).
Definition idx_pdpt (vaddr : Z) : nat := Z.to_nat (Z.land (Z.shiftr vaddr 30) 0x1FF).
Definition idx_pd (vaddr : Z) : nat := Z.to_nat (Z.land (Z.shiftr vaddr 21) 0x1FF).
Definition idx_pt (vaddr : Z) : nat := Z.to_nat (Z.land (Z.shiftr vaddr 12) 0x1FF).

Definition present (e : Z) : bool := negb (Z.land e VMM_PTE_PRESENT =? 0).
Definition huge (e : Z) : bool := negb (Z.land e VMM_PTE_HUGE =? 0).

(** The virtual address of a table, [0] where there is none. *)
Definition table_from_phys (space : vmm_space) (paddr : Z) (s : vm) : Z :=
  match phys_to_virt space with
  | None => 0
  | Some f => if negb (vmm_is_aligned_4k paddr) then 0 else f (ctx s) paddr
  end.

(** The result code and, on success, the pointer stored in [out]. *)
Definition get_or_alloc_next_table (space : vmm_space) (table : Z) (index : nat) (s : vm)
    : option (Z * Z * vm) :=
  entry ← rd table index s;
  if present entry then
    if huge entry then Some (VMM_ERR_EXISTS, 0, s) else
    let next := table_from_phys space (Z.land entry VMM_PTE_ADDR_MASK) s in
    if next =? 0 then Some (VMM_ERR_INVAL, 0, s) else Some (VMM_MAP_OK, next, s)
  else
  match alloc_frame space with
  | None => Some (VMM_ERR_NOMEM, 0, s)
  | Some alloc =>
      r ← alloc (ctx s);
      let '(new_paddr, c) := r in
      let s := set_ctx s c in
      if (new_paddr =? VMM_INVALID_PHYS) || negb (vmm_is_aligned_4k new_paddr) then Some (VMM_ERR_NOMEM, 0, s) else
      let new_table := table_from_phys space new_paddr s in
      if new_table =? 0 then
        match free_frame space with
        | None => Some (VMM_ERR_INVAL, 0, s)
        | Some free => c ← free (ctx s) new_paddr; Some (VMM_ERR_INVAL, 0, set_ctx s c)
        end
      else
      s ← vmm_zero_page new_table s;
      s ← wr table index (Z.lor (Z.lor (Z.land new_paddr VMM_PTE_ADDR_MASK) VMM_PTE_PRESENT) VMM_PTE_WRITABLE) s;
      Some (VMM_MAP_OK, new_table, s)
  end.

(** [space] is the object to be filled in; [None] is [NULL]. *)
Definition vmm_space_init (space : option vmm_space) (root : Z)
    (alloc : option (C -> option (Z * C))) (free : option (C -> Z -> option C)) (p2v : option (C -> Z -> Z))
    : Z * option vmm_space :=
  match space, p2v with
  | Some _, Some _ =>
      if negb (vmm_is_aligned_4k root) then (VMM_ERR_INVAL, space)
      else (VMM_MAP_OK, Some (mk_space root alloc free p2v))
  | _, _ => (VMM_ERR_INVAL, space)
  end.

Definition allowed : Z :=
  Z.lor (Z.lor (Z.lor (Z.lor (Z.lor VMM_PTE_WRITABLE VMM_PTE_USER) VMM_PTE_WRITE_THROUGH)
    VMM_PTE_CACHE_DISABLE) VMM_PTE_GLOBAL) VMM_PTE_NO_EXECUTE.

Definition leaf (paddr flags : Z) : Z :=
  Z.lor (Z.lor (Z.land paddr VMM_PTE_ADDR_MASK) VMM_PTE_PRESENT) (Z.land flags allowed).

Definition vmm_map_page (space : option vmm_space) (vaddr paddr flags : Z) (s : vm) : option (Z * vm) :=
  match space with
  | None => Some (VMM_ERR_INVAL, s)
  | Some sp =>
      if negb (vmm_is_canonical vaddr) || negb (vmm_is_aligned_4k vaddr) || negb (vmm_is_aligned_4k paddr)
      then Some (VMM_ERR_INVAL, s) else
      let pml4 := table_from_phys sp (root_paddr sp) s in
      if pml4 =? 0 then Some (VMM_ERR_INVAL, s) else
      r ← get_or_alloc_next_table sp pml4 (idx_pml4 vaddr) s;
      let '(rc, pdpt, s) := r in
      if negb (rc =? VMM_MAP_OK) then Some (rc, s) else
      r ← get_or_alloc_next_table sp pdpt (idx_pdpt vaddr) s;
      let '(rc, pd, s) := r in
      if negb (rc =? VMM_MAP_OK) then Some (rc, s) else
      r ← get_or_alloc_next_table sp pd (idx_pd vaddr) s;
      let '(rc, pt, s) := r in
      if negb (rc =? VMM_MAP_OK) then Some (rc, s) else
      e ← rd pt (idx_pt vaddr) s;
      if present e then Some (VMM_ERR_EXISTS, s) else
      s ← wr pt (idx_pt vaddr) (leaf paddr flags) s;
      Some (VMM_MAP_OK, s)
  end.

(** One level of the walks of [vmm_query_page] and [vmm_unmap_page]: the next
    table, or the code to return. *)
Definition walk_next (sp : vmm_space) (table : Z) (i : nat) (s : vm) : option (Z + Z) :=
  e ← rd table i s;
  if negb (present e) || huge e then Some (inl VMM_ERR_NOT_FOUND) else
  let next := table_from_phys sp (Z.land e VMM_PTE_ADDR_MASK) s in
  if next =? 0 then Some (inl VMM_ERR_INVAL) else Some (inr next).

(** The common part of both: down to the page table. *)
Definition walk_pt (sp : vmm_space) (vaddr : Z) (s : vm) : option (Z + Z) :=
  if negb (vmm_is_canonical vaddr) || negb (vmm_is_aligned_4k vaddr) then Some (inl VMM_ERR_INVAL) else
  let pml4 := table_from_phys sp (root_paddr sp) s in
  if pml4 =? 0 then Some (inl VMM_ERR_INVAL) else
  r ← walk_next sp pml4 (idx_pml4 vaddr) s;
  match r with
  | inl rc => Some (inl rc)
  | inr pdpt =>
      r ← walk_next sp pdpt (idx_pdpt vaddr) s;
      match r with
      | inl rc => Some (inl rc)
      | inr pd => walk_next sp pd (idx_pd vaddr) s
      end
  end.

(** The code and what [*out] holds afterwards; [out] is [None] for [NULL]. *)
Definition vmm_query_page (space : option vmm_space) (vaddr : Z) (out : option vmm_mapping) (s : vm)
    : option (Z * option vmm_mapping) :=
  match space, out with
  | Some sp, Some _ =>
      r ← walk_pt sp vaddr s;
      match r with
      | inl rc => Some (rc, out)
      | inr pt =>
          e ← rd pt (idx_pt vaddr) s;
          if negb (present e) then Some (VMM_ERR_NOT_FOUND, out) else
          Some (VMM_MAP_OK, Some (mk_mapping vaddr (Z.land e VMM_PTE_ADDR_MASK) (Z.land e (u64 (Z.lnot VMM_PTE_ADDR_MASK)))))
      end
  | _, _ => Some (VMM_ERR_INVAL, out)
  end.

(** [invlpg]: the CPU forgets what it cached for the page. *)
Definition vmm_invalidate_page (vaddr : Z) (s : vm) : vm := mk_vm (ctx s) (tabs s) (delete vaddr (tlb s)).

Definition vmm_unmap_page (space : option vmm_space) (vaddr : Z) (s : vm) : option (Z * vm) :=
  match space with
  | None => Some (VMM_ERR_INVAL, s)
  | Some sp =>
      r ← walk_pt sp vaddr s;
      match r with
      | inl rc => Some (rc, s)
      | inr pt =>
          e ← rd pt (idx_pt vaddr) s;
          if negb (present e) then Some (VMM_ERR_NOT_FOUND, s) else
          s ← wr pt (idx_pt vaddr) 0 s;
          Some (VMM_MAP_OK, vmm_invalidate_page vaddr s)
      end
  end.

End vmm.

Arguments vmm_space : clear implicits.
Arguments vm : clear implicits.

(** A physical address a page-table entry can hold. *)
Definition frame (p : Z) : Prop := 0 <= p < 2 ^ 52 /\ p mod 4096 = 0.

(** What the page-table code relies on: the allocator hands out frames that
    were available, and they can be reached through distinct pointers. *)
Class FrameSource {C} (alloc : C -> option (Z * C)) (p2v : C -> Z -> Z)
    (inv : C -> Prop) (avail : C -> Z -> Prop) : Prop := {
  fs_alloc : forall c, inv c ->
    exists f c', alloc c = Some (f, c') /\ inv c' /\ (forall p, p2v c' p = p2v c p) /\
    ((f = VMM_INVALID_PHYS /\ (forall g, ~ avail c g) /\ (forall g, ~ avail c' g)) \/
     (f <> VMM_INVALID_PHYS /\ avail c f /\ forall g, avail c' g <-> avail c g /\ g <> f));
  fs_frame : forall c f, inv c -> avail c f -> frame f;
  fs_p2v : forall c f g, frame f -> frame g -> p2v c f = p2v c g -> f = g;
  fs_nonnull : forall c f, inv c -> avail c f -> p2v c f <> 0
}.

(** ** Bits of entries and addresses *)

Lemma addr_mask : VMM_PTE_ADDR_MASK = Z.ldiff (Z.ones 52) (Z.ones 12).
Proof. done. Qed.

Lemma mask_frame e : frame (Z.land e VMM_PTE_ADDR_MASK).
Proof.
  rewrite addr_mask. assert (E : Z.land e (Z.ldiff (Z.ones 52) (Z.ones 12)) = Z.ldiff (e mod 2 ^ 52) (Z.ones 12)).
  { rewrite <- Z.land_ones by lia. apply Z.bits_inj'. intros i Hi. rewrite !Z.land_spec, !Z.ldiff_spec, Z.land_spec.
    by rewrite andb_assoc. }
  rewrite E, Z.ldiff_ones_r, Z.shiftl_mul_pow2, Z.shiftr_div_pow2 by lia. pose proof (Z.mod_pos_bound e (2 ^ 52) ltac:(lia)).
  split; [|apply Z_mod_mult]. pose proof (Z.mul_div_le (e mod 2 ^ 52) (2 ^ 12) ltac:(lia)).
  split; [apply Z.mul_nonneg_nonneg; [apply Z.div_pos; lia|lia]|lia].
Qed.

Lemma mask_id p : frame p -> Z.land p VMM_PTE_ADDR_MASK = p.
Proof.
  intros [Hp Hm]. rewrite addr_mask. apply Z.bits_inj'. intros i Hi. rewrite Z.land_spec, Z.ldiff_spec, !Z.testbit_ones_nonneg by lia.
  apply Z.mod_divide in Hm as [k ->]; [|lia]. change 4096 with (2 ^ 12) in *.
  destruct (Z.ltb_spec i 12), (Z.ltb_spec i 52); cbn [negb andb]; rewrite ?andb_true_r, ?andb_false_r; try done.
  - by rewrite Z.mul_pow2_bits_low by lia.
  - lia.
  - symmetry. apply (testbit_above 52); [done|lia].
Qed.

Lemma present_lor a b : present (Z.lor a b) = present a || present b.
Proof.
  unfold present. rewrite Z.land_lor_distr_l. destruct (Z.eqb_spec (Z.land a VMM_PTE_PRESENT) 0) as [->|Ha].
  - by rewrite Z.lor_0_l.
  - cbn [negb orb]. destruct (Z.eqb_spec (Z.lor (Z.land a VMM_PTE_PRESENT) (Z.land b VMM_PTE_PRESENT)) 0) as [E|]; [|done].
    by apply Z.lor_eq_0_iff in E as [? _].
Qed.

(** The entry that links a new table. *)
Definition link (f : Z) : Z := Z.lor (Z.lor (Z.land f VMM_PTE_ADDR_MASK) VMM_PTE_PRESENT) VMM_PTE_WRITABLE.

Lemma link_bits f : frame f -> present (link f) = true /\ huge (link f) = false /\ Z.land (link f) VMM_PTE_ADDR_MASK = f.
Proof.
  intros Hf. unfold link. rewrite (mask_id f Hf). split_and!.
  - rewrite !present_lor. by rewrite orb_true_r.
  - unfold huge. rewrite !Z.land_lor_distr_l, <- (mask_id f Hf), <- Z.land_assoc.
    change (Z.land VMM_PTE_ADDR_MASK VMM_PTE_HUGE) with 0. by rewrite Z.land_0_r.
  - rewrite !Z.land_lor_distr_l, (mask_id f Hf). change (Z.land VMM_PTE_PRESENT VMM_PTE_ADDR_MASK) with 0.
    change (Z.land VMM_PTE_WRITABLE VMM_PTE_ADDR_MASK) with 0. by rewrite !Z.lor_0_r.
Qed.

Lemma leaf_bits p fl :
  present (leaf p fl) = true /\ Z.land (leaf p fl) VMM_PTE_ADDR_MASK = Z.land p VMM_PTE_ADDR_MASK /\
  Z.land (leaf p fl) (u64 (Z.lnot VMM_PTE_ADDR_MASK)) = Z.lor VMM_PTE_PRESENT (Z.land fl allowed).
Proof.
  unfold leaf. split_and!.
  - rewrite !present_lor. by rewrite orb_true_r.
  - rewrite !Z.land_lor_distr_l, <- !Z.land_assoc. change (Z.land allowed VMM_PTE_ADDR_MASK) with 0.
    change (Z.land VMM_PTE_PRESENT VMM_PTE_ADDR_MASK) with 0. change (Z.land VMM_PTE_ADDR_MASK VMM_PTE_ADDR_MASK) with VMM_PTE_ADDR_MASK.
    by rewrite Z.land_0_r, !Z.lor_0_r.
  - rewrite !Z.land_lor_distr_l, <- !Z.land_assoc.
    change (Z.land VMM_PTE_ADDR_MASK (u64 (Z.lnot VMM_PTE_ADDR_MASK))) with 0.
    change (Z.land allowed (u64 (Z.lnot VMM_PTE_ADDR_MASK))) with allowed. by rewrite Z.land_0_r, Z.lor_0_l.
Qed.

Lemma aligned_4k v : vmm_is_aligned_4k v = true <-> v mod 4096 = 0.
Proof.
  unfold vmm_is_aligned_4k. change (VMM_PAGE_SIZE - 1) with (2 ^ 12 - 1). rewrite land_ones_mod by lia.
  change (2 ^ 12) with 4096. apply Z.eqb_eq.
Qed.

Lemma idx_eq v k : 0 <= k -> Z.land (Z.shiftr v k) 0x1FF = (v / 2 ^ k) mod 512.
Proof. intros Hk. rewrite Z.shiftr_div_pow2 by done. change 0x1FF with (2 ^ 9 - 1). by rewrite land_ones_mod by lia. Qed.

(** A canonical page address is its four indices. *)
Definition page_addr (v : Z) : Prop := 0 <= v < 2 ^ 64 /\ vmm_is_canonical v = true /\ vmm_is_aligned_4k v = true.

Lemma canonical_eq v : 0 <= v < 2 ^ 64 -> vmm_is_canonical v = true ->
  v = v mod 2 ^ 48 + (if (v mod 2 ^ 48) <? 2 ^ 47 then 0 else 0xFFFF * 2 ^ 48).
Proof.
  intros Hv. unfold vmm_is_canonical. rewrite !Z.shiftr_div_pow2 by lia. change 1 with (2 ^ 1 - 1) at 1. rewrite land_ones_mod by lia.
  change (2 ^ 1) with 2. pose proof (Z.div_mod v (2 ^ 48) ltac:(lia)) as Hd. pose proof (Z.mod_pos_bound v (2 ^ 48) ltac:(lia)) as Hb.
  assert (Hs : (v / 2 ^ 47) mod 2 = v mod 2 ^ 48 / 2 ^ 47).
  { change (2 ^ 48) with (2 ^ 47 * 2). rewrite Z.rem_mul_r by lia. rewrite Z.mul_comm, Z.div_add by lia.
    rewrite (Z.div_small (v mod 2 ^ 47)) by (apply Z.mod_pos_bound; lia). lia. }
  rewrite Hs. destruct (Z.ltb_spec (v mod 2 ^ 48) (2 ^ 47)) as [Hl|Hl].
  - rewrite (Z.div_small (v mod 2 ^ 48)) by lia. cbn [Z.eqb negb]. intros E%Z.eqb_eq. lia.
  - replace (v mod 2 ^ 48 / 2 ^ 47) with 1 by (apply (Z.div_unique _ _ _ (v mod 2 ^ 48 - 2 ^ 47)); lia).
    cbn [Z.eqb negb]. intros E%Z.eqb_eq. lia.
Qed.

Lemma low48_eq v : v mod 4096 = 0 -> 
  v mod 2 ^ 48 = (v / 2 ^ 12) mod 512 * 2 ^ 12 + (v / 2 ^ 21) mod 512 * 2 ^ 21 + (v / 2 ^ 30) mod 512 * 2 ^ 30 + (v / 2 ^ 39) mod 512 * 2 ^ 39.
Proof.
  intros H. change (2 ^ 48) with (2 ^ 39 * 512). rewrite Z.rem_mul_r by lia.
  change (v mod 2 ^ 39) with (v mod (2 ^ 30 * 512)). rewrite Z.rem_mul_r by lia.
  change (v mod 2 ^ 30) with (v mod (2 ^ 21 * 512)). rewrite Z.rem_mul_r by lia.
  change (v mod 2 ^ 21) with (v mod (2 ^ 12 * 512)). rewrite Z.rem_mul_r by lia.
  change (v mod 2 ^ 12) with (v mod 4096). rewrite H. lia.
Qed.

Lemma page_addr_inj v w :
  page_addr v -> page_addr w -> idx_pml4 v = idx_pml4 w -> idx_pdpt v = idx_pdpt w -> idx_pd v = idx_pd w -> idx_pt v = idx_pt w -> v = w.
Proof.
  intros (Hv & Hvc & Hva) (Hw & Hwc & Hwa). unfold idx_pml4, idx_pdpt, idx_pd, idx_pt. rewrite !idx_eq by lia. intros E4 E3 E2 E1.
  apply aligned_4k in Hva, Hwa. assert (E : v mod 2 ^ 48 = w mod 2 ^ 48).
  { rewrite (low48_eq v Hva), (low48_eq w Hwa).
    apply Z2Nat.inj in E1, E2, E3, E4; try (apply Z.mod_pos_bound; lia). by rewrite E1, E2, E3, E4. }
  rewrite (canonical_eq v Hv Hvc), (canonical_eq w Hw Hwc), E. done.
Qed.

Lemma idx_lt v : (idx_pml4 v < 512 /\ idx_pdpt v < 512 /\ idx_pd v < 512 /\ idx_pt v < 512)%nat.
Proof.
  unfold idx_pml4, idx_pdpt, idx_pd, idx_pt. rewrite !idx_eq by lia.
  pose proof (Z.mod_pos_bound (v / 2 ^ 39) 512 ltac:(lia)). pose proof (Z.mod_pos_bound (v / 2 ^ 30) 512 ltac:(lia)).
  pose proof (Z.mod_pos_bound (v / 2 ^ 21) 512 ltac:(lia)). pose proof (Z.mod_pos_bound (v / 2 ^ 12) 512 ltac:(lia)). lia.
Qed.

(** ** The tables as a tree *)

Section tree.
Context {C : Type} (alloc : C -> option (Z * C)) (free : option (C -> Z -> option C)) (p2v : C -> Z -> Z).
Context (inv : C -> Prop) (avail : C -> Z -> Prop) `{FS : !FrameSource alloc p2v inv avail}.
Context (root : Z).

Definition sp : vmm_space C := mk_space root (Some alloc) free (Some p2v).

(** The entry [i] of the table at the physical address [p]. *)
Definition entry (s : vm C) (p : Z) (i : nat) : option Z := rd (p2v (ctx s) p) i s.

(** The table reached from the one at [p] by following the entries [path]. *)
Fixpoint tbl (s : vm C) (p : Z) (path : list nat) : option Z :=
  match path with
  | [] => Some p
  | i :: r =>
      e ← entry s p i;
      if present e && negb (huge e) then tbl s (Z.land e VMM_PTE_ADDR_MASK) r else None
  end.

Definition pos (v : Z) : list nat := [idx_pml4 v; idx_pdpt v; idx_pd v].

(** The address space: physical page and flags of each mapped page. *)
Definition translate (s : vm C) (v : Z) : option (Z * Z) :=
  p ← tbl s root (pos v);
  e ← entry s p (idx_pt v);
  if present e then Some (Z.land e VMM_PTE_ADDR_MASK, Z.land e (u64 (Z.lnot VMM_PTE_ADDR_MASK))) else None.

Record table_ok (s : vm C) (p : Z) : Prop := {
  to_frame : frame p;
  to_ptr : p2v (ctx s) p <> 0;
  to_used : ~ avail (ctx s) p;
  to_words : exists l, tabs s !! p2v (ctx s) p = Some l /\ length l = 512%nat
}.

Record vok (s : vm C) : Prop := {
  vo_inv : inv (ctx s);
  vo_pages : forall f, avail (ctx s) f -> exists l, tabs s !! p2v (ctx s) f = Some l /\ length l = 512%nat;
  vo_tab : forall path p, (length path <= 3)%nat -> tbl s root path = Some p -> table_ok s p;
  vo_inj : forall path path' p, (length path <= 3)%nat -> (length path' <= 3)%nat ->
    tbl s root path = Some p -> tbl s root path' = Some p -> path = path';
  vo_huge : forall path p i e, (length path <= 2)%nat -> tbl s root path = Some p -> entry s p i = Some e ->
    present e = true -> huge e = false
}.

Lemma tbl_app s p a b : tbl s p (a ++ b) = q ← tbl s p a; tbl s q b.
Proof.
  revert p. induction a as [|i a IH]; intros p; [done|]. cbn [app tbl]. destruct (entry s p i) as [e|]; [|done].
  cbn [mbind option_bind]. destruct (present e && negb (huge e)); [apply IH|done].
Qed.

Lemma tbl_snoc s path p i e :
  tbl s root path = Some p -> entry s p i = Some e ->
  tbl s root (path ++ [i]) = if present e && negb (huge e) then Some (Z.land e VMM_PTE_ADDR_MASK) else None.
Proof. intros H He. rewrite tbl_app, H. cbn [mbind option_bind tbl]. by rewrite He. Qed.

Lemma table_entry s p i : table_ok s p -> (i < 512)%nat -> exists e, entry s p i = Some e.
Proof.
  intros [_ _ _ (l & Hl & Hlen)] Hi. unfold entry, rd. rewrite Hl. cbn [mbind option_bind].
  destruct (lookup_lt_is_Some_2 l i) as [e He]; [lia|eauto].
Qed.

Lemma table_ptr s p : frame p -> table_from_phys sp p s = p2v (ctx s) p.
Proof.
  intros [_ Hm]. unfold table_from_phys. cbn [phys_to_virt sp]. by rewrite (proj2 (aligned_4k p) Hm).
Qed.

(** Two states whose entries agree on the tables of the tree. *)
Lemma tbl_agree s s' path :
  (forall a p i, (length a < length path)%nat -> tbl s root a = Some p -> entry s' p i = entry s p i) ->
  tbl s' root path = tbl s root path.
Proof.
  induction path as [|i path IH] using rev_ind; intros H; [done|]. rewrite !tbl_app, IH.
  - destruct (tbl s root path) as [p|] eqn:Hp; [|done]. cbn [mbind option_bind tbl].
    rewrite (H path p i); [done|rewrite length_app; simpl; lia|done].
  - intros a p j Ha. apply H. rewrite length_app. simpl. lia.
Qed.

(** A zeroed root table is an empty address space. *)
Lemma vok_empty s :
  inv (ctx s) -> (forall f, avail (ctx s) f -> exists l, tabs s !! p2v (ctx s) f = Some l /\ length l = 512%nat) ->
  frame root -> p2v (ctx s) root <> 0 -> ~ avail (ctx s) root -> tabs s !! p2v (ctx s) root = Some (replicate 512 0) ->
  vok s /\ forall v, translate s v = None.
Proof.
  intros Hi Hpg Hf Hp Hav Hz.
  assert (He : forall i e, entry s root i = Some e -> e = 0).
  { intros i e. unfold entry, rd. rewrite Hz. cbn [mbind option_bind]. intros H. by apply lookup_replicate in H as [-> _]. }
  assert (Ht : forall a p, tbl s root a = Some p -> a = [] /\ p = root).
  { intros [|i a] p; [by intros [= <-]|]. cbn [tbl]. destruct (entry s root i) as [e|] eqn:E; [|done].
    by rewrite (He i e E). }
  split; [constructor|].
  - done.
  - done.
  - intros a p _ H. apply Ht in H as [-> ->]. split; [done|done|done|]. eexists. split; [done|]. by rewrite length_replicate.
  - intros a b p _ _ Ha Hb. apply Ht in Ha as [-> _]. by apply Ht in Hb as [-> _].
  - intros a p i e _ Ha E Hpr. apply Ht in Ha as [-> ->]. apply He in E. by subst e.
  - intros v. unfold translate. destruct (tbl s root (pos v)) as [p|] eqn:E; [|done]. by apply Ht in E as [? _].
Qed.

(** ** Writing a leaf entry *)

Lemma entry_wr s p i e l :
  frame p -> tabs s !! p2v (ctx s) p = Some l -> (i < length l)%nat ->
  wr (p2v (ctx s) p) i e s = Some (set_tabs s (<[p2v (ctx s) p := <[i := e]> l]> (tabs s))) /\
  forall q j, frame q -> entry (set_tabs s (<[p2v (ctx s) p := <[i := e]> l]> (tabs s))) q j =
    if decide (q = p /\ j = i) then Some e else entry s q j.
Proof.
  intros Hp Hl Hi. split; [unfold wr; rewrite Hl; cbn [mbind option_bind]; by rewrite decide_True|].
  intros q j Hq. unfold entry, rd, set_tabs. cbn [ctx tabs]. destruct (decide (q = p)) as [->|Hne].
  - rewrite lookup_insert_eq, Hl. cbn [mbind option_bind]. destruct (decide (j = i)) as [->|Hj].
    + rewrite decide_True by done. by apply list_lookup_insert_eq.
    + rewrite decide_False by tauto. by apply list_lookup_insert_ne.
  - rewrite decide_False by tauto. rewrite lookup_insert_ne; [done|]. intros E. apply Hne. symmetry. by eapply fs_p2v.
Qed.

Lemma leaf_write s path p i e s' :
  vok s -> length path = 3%nat -> tbl s root path = Some p -> wr (p2v (ctx s) p) i e s = Some s' ->
  vok s' /\ ctx s' = ctx s /\ tlb s' = tlb s /\
  (forall a, (length a <= 3)%nat -> tbl s' root a = tbl s root a) /\
  (forall q j, frame q -> entry s' q j = if decide (q = p /\ j = i) then Some e else entry s q j).
Proof.
  intros Hs Hlen Hp Hw. pose proof (vo_tab _ Hs path p ltac:(lia) Hp) as Hto. pose proof Hto as [Hf _ _ (l & Hl & Hll)].
  unfold wr in Hw. rewrite Hl in Hw. cbn [mbind option_bind] in Hw. destruct (decide (i < length l)%nat) as [Hi|]; [|done].
  injection Hw as <-. destruct (entry_wr s p i e l Hf Hl Hi) as [_ He]. set (s' := set_tabs s _) in *.
  assert (Ht : forall a, (length a <= 3)%nat -> tbl s' root a = tbl s root a).
  { intros a Ha. apply tbl_agree. intros b q j Hb Hq. rewrite He by (by eapply to_frame, (vo_tab _ Hs b); [lia|]).
    rewrite decide_False; [done|]. intros [-> _]. pose proof (vo_inj _ Hs b path p ltac:(lia) ltac:(lia) Hq Hp). subst b. lia. }
  assert (Hw : forall x l0, tabs s !! x = Some l0 -> length l0 = 512%nat -> exists l1, tabs s' !! x = Some l1 /\ length l1 = 512%nat).
  { intros x l0 Hx Hx5. cbn [tabs s' set_tabs]. destruct (decide (x = p2v (ctx s) p)) as [->|].
    - rewrite lookup_insert_eq. eexists. split; [done|]. by rewrite length_insert.
    - rewrite lookup_insert_ne by done. eauto. }
  split; [|done]. constructor.
  - apply Hs.
  - intros f Hav. destruct (vo_pages _ Hs f Hav) as (l0 & ? & ?). by eapply Hw.
  - intros a q Ha Hq. rewrite Ht in Hq by done. destruct (vo_tab _ Hs a q Ha Hq) as [? ? ? (l0 & ? & ?)]. split; try done. by eapply Hw.
  - intros a b q Ha Hb. rewrite !Ht by done. by apply Hs.
  - intros a q j x Ha Hq Hx. rewrite Ht in Hq by lia. pose proof (vo_tab _ Hs a q ltac:(lia) Hq) as [Hqf _ _ _].
    rewrite He in Hx by done. rewrite decide_False in Hx; [by eapply (vo_huge _ Hs)|].
    intros [-> _]. pose proof (vo_inj _ Hs a path p ltac:(lia) ltac:(lia) Hq Hp). subst a. lia.
Qed.

(** ** Adding a table *)

(** The state after a new zeroed table at [f] is linked from entry [i] of the
    table at [p]. *)
Definition grown (s : vm C) (c : C) (p : Z) (i : nat) (f : Z) (s' : vm C) : Prop :=
  ctx s' = c /\ tlb s' = tlb s /\
  (forall q j, frame q -> entry s' q j =
     if decide (q = p /\ j = i) then Some (link f) else
     if decide (q = f) then (if decide (j < 512)%nat then Some 0 else None) else entry s q j) /\
  (forall x l, tabs s !! x = Some l -> length l = 512%nat -> exists l', tabs s' !! x = Some l' /\ length l' = 512%nat).

Lemma grow_run s c p i f :
  frame p -> frame f -> p <> f -> (forall q, p2v c q = p2v (ctx s) q) -> (i < 512)%nat ->
  (exists l, tabs s !! p2v (ctx s) p = Some l /\ length l = 512%nat) ->
  (exists l, tabs s !! p2v (ctx s) f = Some l /\ length l = 512%nat) ->
  exists s', (s1 ← vmm_zero_page (p2v c f) (set_ctx s c); wr (p2v (ctx s) p) i (link f) s1) = Some s' /\ grown s c p i f s'.
Proof.
  intros Hp Hf Hpf Hp2v Hi (l & Hl & Hll) (lf & Hlf & Hlfl).
  assert (Hne : p2v (ctx s) f <> p2v (ctx s) p) by (intros E; apply Hpf; symmetry; by eapply fs_p2v).
  unfold vmm_zero_page. cbn [set_ctx tabs]. rewrite Hp2v, Hlf. cbn [mbind option_bind].
  rewrite decide_True by (unfold VMM_ENTRIES_PER_TABLE; lia). cbn [mbind option_bind]. unfold wr. cbn [set_tabs set_ctx tabs ctx tlb].
  rewrite lookup_insert_ne by done. rewrite Hl. cbn [mbind option_bind]. rewrite decide_True by lia.
  eexists. split; [reflexivity|]. cbn [set_tabs set_ctx tabs ctx tlb]. unfold grown. unfold set_tabs, set_ctx. cbn [tabs ctx tlb].
  split; [done|]. split; [done|]. split.
  - intros q j Hq. unfold entry, rd. cbn [tabs ctx]. rewrite Hp2v. destruct (decide (q = p)) as [->|Hqp].
    + rewrite lookup_insert_eq. cbn [mbind option_bind]. destruct (decide (j = i)) as [->|Hj].
      * rewrite decide_True by done. apply list_lookup_insert_eq. lia.
      * rewrite !decide_False by tauto. rewrite list_lookup_insert_ne by done. by rewrite Hl.
    + rewrite (decide_False (P := q = p /\ j = i)) by tauto.
      rewrite lookup_insert_ne by (intros E; apply Hqp; symmetry; by eapply fs_p2v).
      destruct (decide (q = f)) as [->|Hqf].
      * rewrite lookup_insert_eq. cbn [mbind option_bind]. destruct (decide (j < 512)%nat) as [Hj|Hj].
        -- rewrite lookup_app_l by (rewrite length_replicate; exact Hj). by apply lookup_replicate_2.
        -- apply lookup_ge_None_2. rewrite length_app, length_replicate, length_drop. unfold VMM_ENTRIES_PER_TABLE. lia.
      * rewrite lookup_insert_ne; [done|]. intros E. apply Hqf. symmetry. by eapply fs_p2v.
  - intros x l0 Hx Hx5. destruct (decide (x = p2v (ctx s) p)) as [->|].
    + rewrite lookup_insert_eq. eexists. split; [done|]. rewrite length_insert. done.
    + rewrite lookup_insert_ne by done. destruct (decide (x = p2v (ctx s) f)) as [->|].
      * rewrite lookup_insert_eq. eexists. split; [done|]. rewrite length_app, length_replicate, length_drop.
        unfold VMM_ENTRIES_PER_TABLE. lia.
      * rewrite lookup_insert_ne by done. eauto.
Qed.

Lemma grown_tbl s c path p i f s' e :
  vok s -> (length path <= 2)%nat -> tbl s root path = Some p -> entry s p i = Some e -> present e = false ->
  avail (ctx s) f -> grown s c p i f s' ->
  forall a, (length a <= 3)%nat ->
    tbl s' root a = if decide ((path ++ [i]) `prefix_of` a) then (if decide (a = path ++ [i]) then Some f else None) else tbl s root a.
Proof.
  intros Hs Hlen Hp Hei Hne Hav (_ & _ & He & _). pose proof (fs_frame _ _ (vo_inv _ Hs) Hav) as Hff.
  induction a as [|j a IH] using rev_ind; intros Ha.
  { rewrite decide_False; [done|]. intros Hpre%prefix_nil_inv. by destruct path. }
  rewrite length_app in Ha. cbn [length] in Ha. rewrite tbl_app, IH by lia.
  destruct (decide (path ++ [i] `prefix_of` a)) as [Hpre|Hpre].
  - rewrite (decide_True (P := path ++ [i] `prefix_of` a ++ [j])) by (by apply prefix_app_r).
    rewrite (decide_False (P := a ++ [j] = path ++ [i])).
    2:{ intros E. apply prefix_length in Hpre. rewrite <- E, length_app in Hpre. simpl in Hpre. lia. }
    destruct (decide (a = path ++ [i])); [|done]. cbn [mbind option_bind tbl]. rewrite He by done.
    rewrite decide_False.
    2:{ intros [E _]. subst p. by apply (to_used _ _ (vo_tab _ Hs path f ltac:(lia) Hp)). }
    rewrite decide_True by done. by destruct (decide (j < 512)%nat).
  - destruct (tbl s root a) as [q|] eqn:Hq.
    2:{ cbn [mbind option_bind]. rewrite decide_False; [rewrite tbl_app, Hq; done|].
        intros [k Hk]. destruct k as [|k0 k _] using rev_ind.
        - rewrite app_nil_r in Hk. apply app_inj_tail in Hk as [-> ->]. by rewrite Hp in Hq.
        - rewrite app_assoc in Hk. apply app_inj_tail in Hk as [-> _]. apply Hpre. by exists k. }
    cbn [mbind option_bind tbl]. pose proof (vo_tab _ Hs a q ltac:(lia) Hq) as Hto.
    rewrite He by apply Hto. destruct (decide (q = p /\ j = i)) as [[-> ->]|Hpi].
    + pose proof (vo_inj _ Hs a path p ltac:(lia) ltac:(lia) Hq Hp) as ->. rewrite !decide_True by done. cbn [mbind option_bind].
      destruct (link_bits f Hff) as (-> & -> & ->). done.
    + rewrite (decide_False (P := q = f)) by (intros ->; by apply (to_used _ _ Hto)).
      rewrite decide_False; [by rewrite tbl_app, Hq|].
      intros [k Hk]. destruct k as [|k0 k _] using rev_ind.
      * rewrite app_nil_r in Hk. apply app_inj_tail in Hk as [-> ->]. rewrite Hp in Hq. injection Hq as ->. tauto.
      * rewrite app_assoc in Hk. apply app_inj_tail in Hk as [-> _]. apply Hpre. by exists k.
Qed.

Lemma grown_ok s c path p i f s' e :
  vok s -> (length path <= 2)%nat -> tbl s root path = Some p -> entry s p i = Some e -> present e = false ->
  avail (ctx s) f -> inv c -> (forall q, p2v c q = p2v (ctx s) q) -> (forall g, avail c g <-> avail (ctx s) g /\ g <> f) ->
  grown s c p i f s' ->
  vok s' /\ tbl s' root (path ++ [i]) = Some f /\
  (forall a q, (length a <= 3)%nat -> tbl s root a = Some q -> tbl s' root a = Some q) /\
  (forall v, translate s' v = translate s v).
Proof.
  intros Hs Hlen Hp Hei Hne Hav Hic Hp2v Hav' Hg. pose proof (fs_frame _ _ (vo_inv _ Hs) Hav) as Hff.
  pose proof (grown_tbl s c path p i f s' e Hs Hlen Hp Hei Hne Hav Hg) as Ht. destruct Hg as (Hctx & Htlb & He & Hw).
  assert (Hnew : tbl s root (path ++ [i]) = None) by (by rewrite (tbl_snoc s path p i e), Hne).
  assert (Hold : forall a q, (length a <= 3)%nat -> tbl s root a = Some q -> tbl s' root a = Some q).
  { intros a q Ha Hq. rewrite Ht by done. rewrite decide_False; [done|]. intros [k ->]. by rewrite tbl_app, Hnew in Hq. }
  assert (Hinv : forall a q, (length a <= 3)%nat -> tbl s' root a = Some q -> (a = path ++ [i] /\ q = f) \/ (tbl s root a = Some q /\ q <> f)).
  { intros a q Ha Hq. rewrite Ht in Hq by done. destruct (decide _) as [|].
    - destruct (decide _) as [->|]; [|done]. injection Hq as <-. by left.
    - right. split; [done|]. intros ->. by apply (to_used _ _ (vo_tab _ Hs a f Ha Hq)). }
  split; [|split; [|split; [done|]]].
  - constructor.
    + by rewrite Hctx.
    + rewrite Hctx. intros g [Hg _]%Hav'. destruct (vo_pages _ Hs g Hg) as (l & ? & ?). rewrite Hp2v. by eapply Hw.
    + intros a q Ha Hq. destruct (Hinv a q Ha Hq) as [[-> ->]|[Hq' Hqf]].
      * destruct (vo_pages _ Hs f Hav) as (l & ? & ?). split; rewrite ?Hctx, ?Hp2v; [done| | |by eapply Hw].
        -- by apply (fs_nonnull _ _ (vo_inv _ Hs)).
        -- intros [_ ?]%Hav'. done.
      * destruct (vo_tab _ Hs a q Ha Hq') as [? ? ? (l & ? & ?)]. split; rewrite ?Hctx, ?Hp2v; [done|done| |by eapply Hw].
        intros [? _]%Hav'. done.
    + intros a b q Ha Hb Hqa Hqb. destruct (Hinv a q Ha Hqa) as [[-> ->]|[Ha' ?]], (Hinv b _ Hb Hqb) as [[-> ?]|[Hb' ?]]; try done.
      by eapply (vo_inj _ Hs).
    + intros a q j x Ha Hq Hx Hpr. destruct (Hinv a q ltac:(lia) Hq) as [[-> ->]|[Hq' Hqf]].
      * rewrite He in Hx by done. destruct (decide (f = p /\ j = i)) as [[<- _]|].
        { by destruct (to_used _ _ (vo_tab _ Hs path f ltac:(lia) Hp)). }
        rewrite decide_True in Hx by done. destruct (decide (j < 512)%nat); [|done]. by injection Hx as <-.
      * rewrite He in Hx by apply (vo_tab _ Hs a q ltac:(lia) Hq'). destruct (decide (q = p /\ j = i)).
        { injection Hx as <-. apply link_bits. done. }
        rewrite decide_False in Hx by done. by eapply (vo_huge _ Hs).
  - rewrite Ht by (rewrite length_app; simpl; lia). by rewrite !decide_True.
  - intros v. unfold translate. assert (Hl3 : length (pos v) = 3%nat) by done.
    destruct (tbl s' root (pos v)) as [q|] eqn:Hq'.
    + destruct (Hinv (pos v) q ltac:(lia) Hq') as [[Ea ->]|[Hq Hqf]].
      * rewrite Ea, Hnew. cbn [mbind option_bind]. rewrite He by done.
        rewrite decide_False by (intros [<- _]; by apply (to_used _ _ (vo_tab _ Hs path f ltac:(lia) Hp))).
        rewrite decide_True by done. by destruct (decide _).
      * rewrite Hq. cbn [mbind option_bind]. rewrite He by apply (vo_tab _ Hs (pos v) q ltac:(lia) Hq).
        rewrite !decide_False; [done|done|]. intros [-> _].
        pose proof (vo_inj _ Hs (pos v) path p ltac:(lia) ltac:(lia) Hq Hp) as E. rewrite <- E in Hlen. lia.
    + destruct (tbl s root (pos v)) as [q|] eqn:Hq; [|done]. rewrite (Hold (pos v) q) in Hq'; [done|lia|done].
Qed.

(** ** The operations *)

(** What every step of [vmm_map_page] keeps. *)
Definition extends (s s' : vm C) : Prop :=
  vok s' /\ tlb s' = tlb s /\ (forall p, p2v (ctx s') p = p2v (ctx s) p) /\
  (forall a q, (length a <= 3)%nat -> tbl s root a = Some q -> tbl s' root a = Some q) /\
  (forall v, translate s' v = translate s v).

Lemma extends_refl s : vok s -> extends s s.
Proof. intros Hs. by split_and!. Qed.

Lemma extends_trans s1 s2 s3 : extends s1 s2 -> extends s2 s3 -> extends s1 s3.
Proof.
  intros (_ & E1 & P1 & T1 & R1) (H2 & E2 & P2 & T2 & R2). split_and!; [done|congruence| | |].
  - intros p. by rewrite P2.
  - intros a q Ha Hq. apply T2; [done|]. by apply T1.
  - intros v. by rewrite R2.
Qed.

(** Losing the allocator's last answer changes no table. *)
Lemma ctx_change s c :
  vok s -> inv c -> (forall p, p2v c p = p2v (ctx s) p) -> (forall g, ~ avail c g) -> extends s (set_ctx s c).
Proof.
  intros Hs Hic Hp Hav.
  assert (He : forall p i, entry (set_ctx s c) p i = entry s p i) by (intros p i; unfold entry, rd; cbn [set_ctx ctx tabs]; by rewrite Hp).
  assert (Ht : forall a, tbl (set_ctx s c) root a = tbl s root a) by (intros a; apply tbl_agree; intros; apply He).
  split; [constructor|].
  - done.
  - intros f Hf. by destruct (Hav f).
  - intros a p Ha Hq. rewrite Ht in Hq. destruct (vo_tab _ Hs a p Ha Hq) as [? ? ? ?]. split; cbn [set_ctx ctx tabs]; rewrite ?Hp; done || apply Hav.
  - intros a b p Ha Hb. rewrite !Ht. by apply Hs.
  - intros a p i e Ha. rewrite Ht, He. by apply Hs.
  - split_and!; [done|done| |].
    + intros a q Ha. by rewrite Ht.
    + intros v. unfold translate. rewrite Ht. destruct (tbl s root (pos v)); [|done]. cbn [mbind option_bind]. by rewrite He.
Qed.

Lemma get_or_alloc_spec s path p i :
  vok s -> (length path <= 2)%nat -> tbl s root path = Some p -> (i < 512)%nat ->
  exists rc out s', get_or_alloc_next_table sp (p2v (ctx s) p) i s = Some (rc, out, s') /\ extends s s' /\
    ((rc = VMM_MAP_OK /\ exists q, tbl s' root (path ++ [i]) = Some q /\ out = p2v (ctx s') q) \/
     (rc = VMM_ERR_NOMEM /\ tbl s root (path ++ [i]) = None /\ forall g, ~ avail (ctx s') g)).
Proof.
  intros Hs Hlen Hp Hi. pose proof (vo_tab _ Hs path p ltac:(lia) Hp) as Hto.
  destruct (table_entry s p i Hto Hi) as [e He]. unfold get_or_alloc_next_table. unfold entry in He. rewrite He. cbn [mbind option_bind].
  destruct (present e) eqn:Hpr.
  - assert (Hh : huge e = false) by (by eapply (vo_huge _ Hs path p i e)). rewrite Hh.
    assert (Hq : tbl s root (path ++ [i]) = Some (Z.land e VMM_PTE_ADDR_MASK)) by (rewrite (tbl_snoc s path p i e) by done; by rewrite Hpr, Hh).
    pose proof (vo_tab _ Hs (path ++ [i]) _ ltac:(rewrite length_app; simpl; lia) Hq) as [Hqf Hqp _ _].
    rewrite table_ptr by done. destruct (Z.eqb_spec (p2v (ctx s) (Z.land e VMM_PTE_ADDR_MASK)) 0); [done|].
    eexists _, _, s. split; [done|]. split; [by apply extends_refl|]. left. split; [done|]. eauto.
  - cbn [alloc_frame sp]. destruct (fs_alloc (ctx s) (vo_inv _ Hs)) as (f & c & Ha & Hic & Hpc & Hcase). rewrite Ha. cbn [mbind option_bind].
    assert (Hnone : tbl s root (path ++ [i]) = None) by (rewrite (tbl_snoc s path p i e) by done; by rewrite Hpr).
    destruct Hcase as [(-> & _ & Hno)|(Hf & Hav & Hav')].
    + rewrite Z.eqb_refl. cbn [orb]. eexists _, _, (set_ctx s c). split; [done|]. split; [by apply ctx_change|]. by right.
    + pose proof (fs_frame _ _ (vo_inv _ Hs) Hav) as Hff. destruct (Z.eqb_spec f VMM_INVALID_PHYS); [done|]. cbn [orb].
      rewrite (proj2 (aligned_4k f)) by apply Hff. cbn [negb]. rewrite table_ptr by done. cbn [set_ctx ctx].
      destruct (Z.eqb_spec (p2v c f) 0) as [E|_]; [rewrite Hpc in E; by destruct (fs_nonnull _ _ (vo_inv _ Hs) Hav)|].
      assert (Hpf : p <> f) by (intros ->; by apply (to_used _ _ Hto)).
      destruct (grow_run s c p i f (to_frame _ _ Hto) Hff Hpf Hpc Hi (to_words _ _ Hto) (vo_pages _ Hs f Hav)) as (s' & Hrun & Hg).
      change (Z.lor (Z.lor (Z.land f VMM_PTE_ADDR_MASK) VMM_PTE_PRESENT) VMM_PTE_WRITABLE) with (link f).
      destruct (vmm_zero_page (p2v c f) (set_ctx s c)) as [s1|]; [|done]. cbn [mbind option_bind] in *. rewrite Hrun. cbn [mbind option_bind].
      destruct (grown_ok s c path p i f s' e Hs Hlen Hp He Hpr Hav Hic Hpc Hav' Hg) as (Hs' & Hnew & Hold & Htr).
      destruct Hg as (Hctx & Htlb & _). eexists _, _, s'. split; [done|]. split.
      * split_and!; [done|done|by rewrite Hctx|done|done].
      * left. split; [done|]. exists f. by rewrite Hctx.
Qed.

Lemma walk_next_spec s path p i :
  vok s -> (length path <= 2)%nat -> tbl s root path = Some p -> (i < 512)%nat ->
  walk_next sp (p2v (ctx s) p) i s = Some (match tbl s root (path ++ [i]) with Some q => inr (p2v (ctx s) q) | None => inl VMM_ERR_NOT_FOUND end).
Proof.
  intros Hs Hlen Hp Hi. pose proof (vo_tab _ Hs path p ltac:(lia) Hp) as Hto.
  destruct (table_entry s p i Hto Hi) as [e He]. unfold walk_next. rewrite (tbl_snoc s path p i e) by done. unfold entry in He. rewrite He.
  cbn [mbind option_bind]. destruct (present e) eqn:Hpr, (huge e) eqn:Hh; cbn [negb orb andb]; try done.
  assert (Hq : tbl s root (path ++ [i]) = Some (Z.land e VMM_PTE_ADDR_MASK)) by (rewrite (tbl_snoc s path p i e) by done; by rewrite Hpr, Hh).
  pose proof (vo_tab _ Hs (path ++ [i]) _ ltac:(rewrite length_app; simpl; lia) Hq) as [Hqf Hqp _ _].
  rewrite table_ptr by done. by destruct (Z.eqb_spec (p2v (ctx s) (Z.land e VMM_PTE_ADDR_MASK)) 0).
Qed.

Lemma root_ptr s : vok s -> table_from_phys sp root s = p2v (ctx s) root /\ p2v (ctx s) root <> 0.
Proof. intros Hs. destruct (vo_tab _ Hs [] root ltac:(simpl; lia) eq_refl) as [Hf Hp _ _]. split; [by apply table_ptr|done]. Qed.

Lemma walk_pt_spec s v :
  vok s -> page_addr v ->
  walk_pt sp v s = Some (match tbl s root (pos v) with Some q => inr (p2v (ctx s) q) | None => inl VMM_ERR_NOT_FOUND end).
Proof.
  intros Hs (_ & Hc & Ha). destruct (root_ptr s Hs) as [Er Hr]. destruct (idx_lt v) as (H4 & H3 & H2 & _).
  unfold walk_pt. rewrite Hc, Ha. cbn [negb orb root_paddr sp]. fold sp. rewrite Er. destruct (Z.eqb_spec (p2v (ctx s) root) 0); [done|].
  rewrite (walk_next_spec s [] root _ Hs ltac:(simpl; lia) eq_refl H4). cbn [mbind option_bind app].
  change (pos v) with ([idx_pml4 v] ++ [idx_pdpt v; idx_pd v]). rewrite (tbl_app s root [idx_pml4 v]).
  destruct (tbl s root [idx_pml4 v]) as [q1|] eqn:E1; [|done]. cbn [mbind option_bind].
  rewrite (walk_next_spec s [idx_pml4 v] q1 _ Hs ltac:(simpl; lia) E1 H3). cbn [mbind option_bind app].
  change [idx_pdpt v; idx_pd v] with ([idx_pdpt v] ++ [idx_pd v]). rewrite (tbl_app s q1 [idx_pdpt v]).
  assert (Eq : tbl s root [idx_pml4 v; idx_pdpt v] = tbl s q1 [idx_pdpt v]).
  { change [idx_pml4 v; idx_pdpt v] with ([idx_pml4 v] ++ [idx_pdpt v]). by rewrite tbl_app, E1. }
  rewrite Eq. destruct (tbl s q1 [idx_pdpt v]) as [q2|] eqn:E2; [|done]. cbn [mbind option_bind].
  rewrite (walk_next_spec s [idx_pml4 v; idx_pdpt v] q2 _ Hs ltac:(simpl; lia) Eq H2). cbn [app].
  replace (tbl s root [idx_pml4 v; idx_pdpt v; idx_pd v]) with (tbl s q2 [idx_pd v]); [done|].
  change [idx_pml4 v; idx_pdpt v; idx_pd v] with ([idx_pml4 v; idx_pdpt v] ++ [idx_pd v]). by rewrite tbl_app, Eq.
Qed.

(** The leaf entry of a page whose page table exists. *)
Lemma leaf_entry s v q :
  vok s -> tbl s root (pos v) = Some q -> exists e, entry s q (idx_pt v) = Some e /\
    translate s v = if present e then Some (Z.land e VMM_PTE_ADDR_MASK, Z.land e (u64 (Z.lnot VMM_PTE_ADDR_MASK))) else None.
Proof.
  intros Hs Hq. pose proof (vo_tab _ Hs (pos v) q ltac:(simpl; lia) Hq) as Hto.
  destruct (table_entry s q (idx_pt v) Hto) as [e He]; [apply idx_lt|]. exists e. split; [done|].
  unfold translate. rewrite Hq. cbn [mbind option_bind]. by rewrite He.
Qed.

(** Writing the leaf entry of [v] changes the translation of [v] alone. *)
Lemma leaf_translate s v q e s' :
  vok s -> page_addr v -> tbl s root (pos v) = Some q -> wr (p2v (ctx s) q) (idx_pt v) e s = Some s' ->
  vok s' /\ tlb s' = tlb s /\ ctx s' = ctx s /\
  forall w, page_addr w -> translate s' w =
    if decide (w = v) then (if present e then Some (Z.land e VMM_PTE_ADDR_MASK, Z.land e (u64 (Z.lnot VMM_PTE_ADDR_MASK))) else None)
    else translate s w.
Proof.
  intros Hs Hv Hq Hw. destruct (leaf_write s (pos v) q (idx_pt v) e s' Hs eq_refl Hq Hw) as (Hs' & Hc & Hl & Ht & He).
  split_and!; [done|done|done|]. intros w Hwp. unfold translate. rewrite Ht by (simpl; lia).
  destruct (decide (w = v)) as [->|Hne].
  - rewrite Hq. cbn [mbind option_bind]. rewrite He by apply (vo_tab _ Hs (pos v) q ltac:(simpl; lia) Hq). by rewrite decide_True.
  - destruct (tbl s root (pos w)) as [q'|] eqn:Hq'; [|done]. cbn [mbind option_bind].
    rewrite He by apply (vo_tab _ Hs (pos w) q' ltac:(simpl; lia) Hq'). rewrite decide_False; [done|]. intros [-> Ei].
    pose proof (vo_inj _ Hs (pos w) (pos v) q ltac:(simpl; lia) ltac:(simpl; lia) Hq' Hq) as Ep. injection Ep as E4 E3 E2.
    apply Hne. by apply page_addr_inj.
Qed.

(** What the CPU has cached is not part of the tables. *)
Lemma tbl_tlb s l a : tbl (mk_vm (ctx s) (tabs s) l) root a = tbl s root a.
Proof. by apply tbl_agree. Qed.

Lemma translate_tlb s l v : translate (mk_vm (ctx s) (tabs s) l) v = translate s v.
Proof. unfold translate. by rewrite tbl_tlb. Qed.

Lemma vok_tlb s l : vok s -> vok (mk_vm (ctx s) (tabs s) l).
Proof.
  intros [H1 H2 H3 H4 H5]. constructor; [exact H1|exact H2|..].
  - intros path p Hl. rewrite tbl_tlb. intros Hp. destruct (H3 path p Hl Hp). by constructor.
  - intros a b p. rewrite !tbl_tlb. apply H4.
  - intros a p i e. rewrite tbl_tlb. apply H5.
Qed.

Lemma query_spec s v out :
  vok s -> page_addr v ->
  vmm_query_page (Some sp) v (Some out) s =
    Some (match translate s v with
          | Some (p, fl) => (VMM_MAP_OK, Some (mk_mapping v p fl))
          | None => (VMM_ERR_NOT_FOUND, Some out)
          end).
Proof.
  intros Hs Hv. unfold vmm_query_page. rewrite (walk_pt_spec s v Hs Hv). cbn [mbind option_bind].
  destruct (tbl s root (pos v)) as [q|] eqn:Hq; [|unfold translate; by rewrite Hq].
  destruct (leaf_entry s v q Hs Hq) as (e & He & ->). unfold entry in He. rewrite He. cbn [mbind option_bind].
  by destruct (present e).
Qed.

Lemma unmap_spec s v :
  vok s -> page_addr v ->
  match translate s v with
  | None => vmm_unmap_page (Some sp) v s = Some (VMM_ERR_NOT_FOUND, s)
  | Some _ =>
      exists s', vmm_unmap_page (Some sp) v s = Some (VMM_MAP_OK, s') /\ vok s' /\ tlb s' = delete v (tlb s) /\
        forall w, page_addr w -> translate s' w = if decide (w = v) then None else translate s w
  end.
Proof.
  intros Hs Hv. unfold vmm_unmap_page. rewrite (walk_pt_spec s v Hs Hv). cbn [mbind option_bind].
  destruct (tbl s root (pos v)) as [q|] eqn:Hq; [|unfold translate; by rewrite Hq].
  destruct (leaf_entry s v q Hs Hq) as (e & He & ->). unfold entry in He. rewrite He. cbn [mbind option_bind].
  destruct (present e); cbn [negb]; [|done].
  pose proof (vo_tab _ Hs (pos v) q ltac:(simpl; lia) Hq) as [Hf _ _ (l & Hl & Hll)].
  destruct (entry_wr s q (idx_pt v) 0 l Hf Hl) as [Hw _]; [rewrite Hll; apply idx_lt|]. rewrite Hw. cbn [mbind option_bind].
  destruct (leaf_translate s v q 0 _ Hs Hv Hq Hw) as (Hs' & Hl' & Hc' & Ht). eexists. split; [done|].
  set (s1 := set_tabs s _) in *. split; [by apply (vok_tlb s1)|]. split; [done|]. intros w Hwp. unfold vmm_invalidate_page. rewrite translate_tlb. by apply (Ht w).
Qed.

(** The three levels of [vmm_map_page]. *)
Lemma map_walk s v p fl :
  vok s -> page_addr v -> p mod 4096 = 0 ->
  exists s', extends s s' /\
    ((exists q, tbl s' root (pos v) = Some q /\
        vmm_map_page (Some sp) v p fl s =
          (e ← rd (p2v (ctx s') q) (idx_pt v) s';
           if present e then Some (VMM_ERR_EXISTS, s') else
           s2 ← wr (p2v (ctx s') q) (idx_pt v) (leaf p fl) s'; Some (VMM_MAP_OK, s2))) \/
     (vmm_map_page (Some sp) v p fl s = Some (VMM_ERR_NOMEM, s') /\ translate s v = None /\ forall g, ~ avail (ctx s') g)).
Proof.
  intros Hs (_ & Hc & Ha) Hp. destruct (idx_lt v) as (H4 & H3 & H2 & _). destruct (root_ptr s Hs) as [Er Hr].
  unfold vmm_map_page. rewrite Hc, Ha, (proj2 (aligned_4k p) Hp). cbn [negb orb]. change (root_paddr sp) with root. rewrite Er.
  destruct (Z.eqb_spec (p2v (ctx s) root) 0); [done|].
  assert (Hnone : forall s' a b, extends s s' -> pos v = a ++ b -> tbl s' root a = None -> translate s v = None).
  { intros s' a b (_ & _ & _ & _ & Htr) E Hn. rewrite <- Htr. unfold translate. by rewrite E, tbl_app, Hn. }
  destruct (get_or_alloc_spec s [] root _ Hs ltac:(simpl; lia) eq_refl H4) as (rc1 & out1 & s1 & -> & X1 & C1). cbn [mbind option_bind].
  destruct C1 as [(-> & q1 & Hq1 & ->)|(-> & Hn & Hno)].
  2:{ exists s1. split; [done|]. right. split_and!; [done| |done]. by apply (Hnone s [idx_pml4 v] [idx_pdpt v; idx_pd v] (extends_refl s Hs)). }
  rewrite Z.eqb_refl. cbn [negb]. pose proof X1 as (Hs1 & _).
  destruct (get_or_alloc_spec s1 [idx_pml4 v] q1 _ Hs1 ltac:(simpl; lia) Hq1 H3) as (rc2 & out2 & s2 & -> & X2 & C2). cbn [mbind option_bind].
  assert (X12 : extends s s2) by (by eapply extends_trans).
  destruct C2 as [(-> & q2 & Hq2 & ->)|(-> & Hn & Hno)].
  2:{ exists s2. split; [done|]. right. split_and!; [done| |done]. by apply (Hnone s1 [idx_pml4 v; idx_pdpt v] [idx_pd v] X1). }
  rewrite Z.eqb_refl. cbn [negb]. pose proof X2 as (Hs2 & _).
  destruct (get_or_alloc_spec s2 [idx_pml4 v; idx_pdpt v] q2 _ Hs2 ltac:(simpl; lia) Hq2 H2) as (rc3 & out3 & s3 & -> & X3 & C3). cbn [mbind option_bind].
  assert (X13 : extends s s3) by (by eapply extends_trans).
  exists s3. split; [done|]. destruct C3 as [(-> & q3 & Hq3 & ->)|(-> & Hn & Hno)].
  - left. exists q3. split; [done|]. by rewrite Z.eqb_refl.
  - right. split_and!; [done| |done]. by apply (Hnone s2 (pos v) [] X12).
Qed.

Lemma map_spec s v p fl :
  vok s -> page_addr v -> p mod 4096 = 0 ->
  exists rc s', vmm_map_page (Some sp) v p fl s = Some (rc, s') /\ vok s' /\ tlb s' = tlb s /\
    ((rc = VMM_MAP_OK /\ translate s v = None /\
      forall w, page_addr w -> translate s' w =
        if decide (w = v) then Some (Z.land p VMM_PTE_ADDR_MASK, Z.lor VMM_PTE_PRESENT (Z.land fl allowed)) else translate s w) \/
     (rc = VMM_ERR_EXISTS /\ translate s v <> None /\ forall w, translate s' w = translate s w) \/
     (rc = VMM_ERR_NOMEM /\ translate s v = None /\ (forall g, ~ avail (ctx s') g) /\ forall w, translate s' w = translate s w)).
Proof.
  intros Hs Hv Hp. destruct (map_walk s v p fl Hs Hv Hp) as (s1 & X & Hcase). pose proof X as (Hs1 & Hl1 & _ & _ & Htr).
  destruct Hcase as [(q & Hq & ->)|(-> & Hn & Hno)].
  2:{ exists VMM_ERR_NOMEM, s1. split_and!; [done|done|done|]. right. right. by split_and!. }
  destruct (leaf_entry s1 v q Hs1 Hq) as (e & He & Hte). rewrite Htr in Hte. unfold entry in He. rewrite He. cbn [mbind option_bind].
  destruct (present e) eqn:Hpr.
  { exists VMM_ERR_EXISTS, s1. split_and!; [done|done|done|]. right. left. split_and!; [done|by rewrite Hte|done]. }
  pose proof (vo_tab _ Hs1 (pos v) q ltac:(simpl; lia) Hq) as [Hf _ _ (l & Hl & Hll)].
  destruct (entry_wr s1 q (idx_pt v) (leaf p fl) l Hf Hl) as [Hw _]; [rewrite Hll; apply idx_lt|]. rewrite Hw. cbn [mbind option_bind].
  destruct (leaf_translate s1 v q _ _ Hs1 Hv Hq Hw) as (Hs2 & Hl2 & _ & Ht). eexists _, _. split; [done|].
  split_and!; [done|congruence|]. left. split_and!; [done|done|]. intros w Hwp. rewrite (Ht w Hwp), Htr.
  destruct (leaf_bits p fl) as (-> & -> & ->). done.
Qed.

(** C4. The page tables implement a partial map from pages to frames: from
    every well-formed state, [vmm_query_page] reports exactly the current
    mapping; [vmm_map_page] adds the one mapping asked for, with the frame
    address and the permitted flags, or changes no mapping and returns EXISTS
    when the page is mapped, or NOMEM when the frame allocator is empty;
    [vmm_unmap_page] removes exactly the one mapping, or returns NOT_FOUND and
    changes nothing.  Every call keeps the tables a tree of distinct frames
    that the allocator does not hold. *)
Theorem vmm_refines_map s v p fl out :
  vok s -> page_addr v -> p mod 4096 = 0 ->
  vmm_query_page (Some sp) v (Some out) s =
    Some (match translate s v with
          | Some (q, f) => (VMM_MAP_OK, Some (mk_mapping v q f))
          | None => (VMM_ERR_NOT_FOUND, Some out)
          end) /\
  (exists rc s', vmm_map_page (Some sp) v p fl s = Some (rc, s') /\ vok s' /\
    ((rc = VMM_MAP_OK /\ translate s v = None /\
      forall w, page_addr w -> translate s' w =
        if decide (w = v) then Some (Z.land p VMM_PTE_ADDR_MASK, Z.lor VMM_PTE_PRESENT (Z.land fl allowed)) else translate s w) \/
     (rc = VMM_ERR_EXISTS /\ translate s v <> None /\ forall w, translate s' w = translate s w) \/
     (rc = VMM_ERR_NOMEM /\ translate s v = None /\ (forall g, ~ avail (ctx s') g) /\ forall w, translate s' w = translate s w))) /\
  match translate s v with
  | None => vmm_unmap_page (Some sp) v s = Some (VMM_ERR_NOT_FOUND, s)
  | Some _ =>
      exists s', vmm_unmap_page (Some sp) v s = Some (VMM_MAP_OK, s') /\ vok s' /\
        forall w, page_addr w -> translate s' w = if decide (w = v) then None else translate s w
  end.
Proof.
  intros Hs Hv Hp. split; [by apply query_spec|]. split.
  - destruct (map_spec s v p fl Hs Hv Hp) as (rc & s' & ? & ? & _ & ?). by exists rc, s'.
  - pose proof (unmap_spec s v Hs Hv) as Hu. destruct (translate s v); [|done].
    destruct Hu as (s' & ? & ? & _ & ?). by exists s'.
Qed.

(** ** Cached translations *)

(** The kernel maps and unmaps pages while the CPU walks the tables and keeps
    what it finds until it is invalidated. *)
Inductive vm_step : vm C -> vm C -> Prop :=
| vs_map v p fl s rc s' :
    page_addr v -> p mod 4096 = 0 -> vmm_map_page (Some sp) v p fl s = Some (rc, s') -> vm_step s s'
| vs_unmap v s rc s' : page_addr v -> vmm_unmap_page (Some sp) v s = Some (rc, s') -> vm_step s s'
| vs_cpu v s t : page_addr v -> translate s v = Some t -> vm_step s (mk_vm (ctx s) (tabs s) (<[v := t]> (tlb s))).

Definition coherent (s : vm C) : Prop :=
  forall v t, tlb s !! v = Some t -> page_addr v /\ translate s v = Some t.

Lemma vm_step_coherent s s' : vok s -> coherent s -> vm_step s s' -> vok s' /\ coherent s'.
Proof.
  intros Hs Hco Hst. destruct Hst as [v p fl s rc s' Hv Hp Hrun|v s rc s' Hv Hrun|v s t Hv Ht].
  - destruct (map_spec s v p fl Hs Hv Hp) as (rc1 & s1 & E & Hs1 & Hl & Hcase). rewrite E in Hrun. injection Hrun as <- <-.
    split; [done|]. intros w t Hw. rewrite Hl in Hw. destruct (Hco w t Hw) as [Hwp Hwt]. split; [done|].
    destruct Hcase as [(_ & Hn & Htr)|[(_ & _ & Htr)|(_ & _ & _ & Htr)]]; [|by rewrite Htr..].
    rewrite Htr by done. destruct (decide (w = v)) as [->|]; [congruence|done].
  - pose proof (unmap_spec s v Hs Hv) as Hu. destruct (translate s v) as [t0|].
    + destruct Hu as (s1 & E & Hs1 & Hl & Htr). rewrite E in Hrun. injection Hrun as <- <-. split; [done|].
      intros w t Hw. rewrite Hl in Hw. apply lookup_delete_Some in Hw as [Hne Hw]. destruct (Hco w t Hw) as [Hwp Hwt].
      split; [done|]. rewrite Htr by done. by rewrite decide_False.
    + rewrite Hu in Hrun. by injection Hrun as <- <-.
  - split; [by apply vok_tlb|]. intros w t' Hw. cbn [tlb] in Hw. apply lookup_insert_Some in Hw as [[<- <-]|[_ Hw]]; rewrite translate_tlb; [done|].
    by apply Hco.
Qed.

(** C18. The CPU never uses a stale translation: along every sequence of maps,
    unmaps and table walks that starts with an empty cache, each cached
    translation is the current one. *)
Theorem vmm_tlb_coherent s s' :
  vok s -> tlb s = ∅ -> rtc vm_step s s' -> vok s' /\ coherent s'.
Proof.
  intros Hs Hl Hr. assert (Hco : coherent s) by (intros v t; by rewrite Hl, lookup_empty).
  revert Hs Hco. clear Hl. induction Hr as [s|s a b Hst _ IH]; intros Hs Hco; [done|].
  destruct (vm_step_coherent s a Hs Hco Hst). by apply IH.
Qed.

End tree.
End Vmm.
