(* ===== verification/Kernel.v ===== *)
(** * Bringing up the kernel

    Model of the memory part of [src/kernel.c]: the adapters that give the
    page-table code its frames from the physical memory manager, and the
    initialisation of physical memory, the kernel address space and the kernel
    heap.  What is printed on the serial line is kept as a list of messages. *)
From S2P Require Import Prelude Bitmap Pmm Vmm Memory Kmem.
From stdpp Require Import base gmap list numbers option strings.
From Stdlib Require Import ZArith Lia.

Open Scope Z_scope.

Module Kernel.
Import Pmm.

Definition PMM_MAX_PHYS_BYTES : Z := 64 * 1024 * 1024 * 1024.
Definition PMM_BITMAP_BYTES : Z := PMM_MAX_PHYS_BYTES / PMM_PAGE_SIZE / 8.
Definition M8_BOOT_HEAP_SIZE : Z := 64 * 1024.

(** [serial_write_string] of a string, of a string and a newline, and
    [serial_write_hex64]. *)
Inductive say := Str (s : string) | Line (s : string) | Hex (v : Z).

(** [kernel_pmm], and [hhdm_offset] behind the context pointer. *)
Record kctx := mk_kctx { kernel_pmm : pmm_state; hhdm_offset : Z }.

Record kernel := mk_kernel {
  k_vm : Vmm.vm kctx;
  kernel_pmm_bitmap : list Z;
  kernel_space : Vmm.vmm_space kctx;
  m8_boot_heap : Z;
  k_heap : Kmem.kmem;
  k_out : list say
}.

(** ** Adapters *)

Definition kernel_vmm_alloc (c : kctx) : option (Z * kctx) :=
  r ← pmm_alloc_frame (Some (kernel_pmm c));
  let '(f, p) := r in
  p ← p;
  Some (f, mk_kctx p (hhdm_offset c)).

Definition kernel_vmm_free (c : kctx) (frame_paddr : Z) : option kctx :=
  r ← pmm_free_frame (Some (kernel_pmm c)) frame_paddr;
  p ← snd r;
  Some (mk_kctx p (hhdm_offset c)).

Definition kernel_phys_to_virt (c : kctx) (paddr : Z) : Z := u64 (hhdm_offset c + paddr).

(** ** Initialisation *)

Definition set_pmm (k : kernel) (p : pmm_state) : kernel :=
  let v := k_vm k in
  mk_kernel (Vmm.mk_vm (mk_kctx p (hhdm_offset (Vmm.ctx v))) (Vmm.tabs v) (Vmm.tlb v))
    (kernel_pmm_bitmap k) (kernel_space k) (m8_boot_heap k) (k_heap k) (k_out k).
Definition put (k : kernel) (l : list say) : kernel :=
  mk_kernel (k_vm k) (kernel_pmm_bitmap k) (kernel_space k) (m8_boot_heap k) (k_heap k) (k_out k ++ l).
Definition set_space (k : kernel) (sp : Vmm.vmm_space kctx) : kernel :=
  mk_kernel (k_vm k) (kernel_pmm_bitmap k) sp (m8_boot_heap k) (k_heap k) (k_out k).
Definition set_heap (k : kernel) (h : Kmem.kmem) : kernel :=
  mk_kernel (k_vm k) (kernel_pmm_bitmap k) (kernel_space k) (m8_boot_heap k) h (k_out k).
Definition the_pmm (k : kernel) : pmm_state := kernel_pmm (Vmm.ctx (k_vm k)).

Definition BOOT_MEM_RESERVED : Z := 2.
Definition BOOT_MEM_KERNEL_AND_MODULES : Z := 4.

Definition early_map : list boot_mem_region :=
  [mk_region 0x00000000 0x0009f000 BOOT_MEM_USABLE;
   mk_region 0x0009f000 0x00001000 BOOT_MEM_RESERVED;
   mk_region 0x00100000 0x00300000 BOOT_MEM_USABLE;
   mk_region 0x00400000 0x00100000 BOOT_MEM_KERNEL_AND_MODULES;
   mk_region 0x00500000 0x07b00000 BOOT_MEM_USABLE].

(** A call on [&kernel_pmm]: its result, and the kernel with the new state. *)
Definition on_pmm {A} (k : kernel) (r : option (A * option pmm_state)) : option (A * kernel) :=
  r ← r;
  let '(a, p) := r in
  p ← p;
  Some (a, set_pmm k p).

Definition kernel_memory_init (k : kernel) : option kernel :=
  r ← on_pmm k (pmm_init_from_map (Some (the_pmm k)) (Some early_map) (Z.of_nat (length early_map))
                  (Some (kernel_pmm_bitmap k)) PMM_BITMAP_BYTES PMM_MAX_PHYS_BYTES);
  let '(ok, k) := r in
  if negb ok then Some (put k [Line "[m6] pmm_init_from_map failed"]) else
  let k := put k [Line "M6 PMM initialized"; Hex (pmm_frame_count (Some (the_pmm k))); Line " frames managed";
                  Hex (pmm_free_count (Some (the_pmm k))); Line " frames free"] in
  r ← on_pmm k (pmm_alloc_frame (Some (the_pmm k)));
  let '(f, k) := r in
  if f =? PMM_INVALID_FRAME then Some (put k [Line "[m6] alloc failed"]) else
  let k := put k [Str "[m6] sample frame = "; Hex f; Line ""] in
  r ← on_pmm k (pmm_free_frame (Some (the_pmm k)) f);
  let '(ok, k) := r in
  if negb ok then Some (put k [Line "[m6] free failed"]) else
  Some (put k [Line "[m6] frame freed ok"]).

Definition kernel_vmm_init (k : kernel) : option kernel :=
  r ← on_pmm k (pmm_alloc_frame (Some (the_pmm k)));
  let '(root, k) := r in
  if root =? PMM_INVALID_FRAME then Some (put k [Line "[m7] ERROR: cannot allocate root page table"]) else
  let '(rc, sp) := Vmm.vmm_space_init (Some (kernel_space k)) root
                     (Some kernel_vmm_alloc) (Some kernel_vmm_free) (Some kernel_phys_to_virt) in
  let k := match sp with Some sp => set_space k sp | None => k end in
  if negb (rc =? Vmm.VMM_MAP_OK) then
    let k := put k [Line "[m7] ERROR: vmm_space_init failed"] in
    r ← on_pmm k (pmm_free_frame (Some (the_pmm k)) root);
    Some (snd r)
  else Some (put k [Line "M7 VMM core initialized"]).

Definition kernel_heap_init (k : kernel) : option kernel :=
  r ← Kmem.kmem_init (m8_boot_heap k) M8_BOOT_HEAP_SIZE (k_heap k);
  let '(rc, h) := r in
  let k := set_heap k h in
  if negb (rc =? 0) then Some (put k [Str "[m8] ERROR: kmem_init failed rc="; Hex (wrap 32 rc); Line ""]) else
  r ← Kmem.kmem_alloc 128 (k_heap k);
  let '(probe, h) := r in
  let k := set_heap k h in
  if probe =? 0 then Some (put k [Line "[m8] ERROR: kmem_alloc probe failed"]) else
  r ← Kmem.kmem_free_checked probe (k_heap k);
  let '(rc, h) := r in
  let k := set_heap k h in
  if negb (rc =? 0) then Some (put k [Line "[m8] ERROR: kmem_free_checked probe failed"]) else
  st ← Kmem.kmem_get_stats (k_heap k);
  Some (put k [Str "M8 kmem initialized: total="; Hex (Kmem.total_bytes st); Str " free="; Hex (Kmem.free_bytes st);
               Str " largest="; Hex (Kmem.largest_free st); Line ""]).

(** ** Frames for the page tables *)

Definition frames_inv (c : kctx) : Prop :=
  pmm_inv (kernel_pmm c) /\ initialized (kernel_pmm c) = true /\ (0 ∉ free_set (kernel_pmm c)) /\
  max_phys (kernel_pmm c) <= 2 ^ 52 /\ 0 <= hhdm_offset c <= 2 ^ 64 - 2 ^ 52.

Definition frames_avail (c : kctx) (f : Z) : Prop :=
  f mod 4096 = 0 /\ f / 4096 ∈ free_set (kernel_pmm c).

Lemma free_set_range s f : pmm_inv s -> f ∈ free_set s -> 0 <= f < frame_count s.
Proof.
  intros Hinv Hf. destruct (inv_bm _ Hinv) as (bm & Hbm & _). apply (elem_of_free_set_bm s bm f Hbm) in Hf. apply Hf.
Qed.

(** The physical memory manager provides the interface the page tables use. *)
#[export] Instance kernel_frames :
  Vmm.FrameSource kernel_vmm_alloc kernel_phys_to_virt frames_inv frames_avail.
Proof.
  assert (Hrange : forall c f, frames_inv c -> frames_avail c f -> 0 < f < 2 ^ 52 /\ f mod 4096 = 0).
  { intros c f (Hinv & _ & H0 & Hmax & _) [Hm Hf]. pose proof (free_set_range _ _ Hinv Hf).
    destruct (inv_frames _ Hinv) as (_ & Hmp & _). unfold PMM_PAGE_SIZE in Hmp.
    apply Z.mod_divide in Hm as [q ->]; [|lia]. rewrite Z.div_mul in * by lia.
    assert (q <> 0) by (by intros ->). split; [lia|]. apply Z_mod_mult. }
  split.
  - intros c (Hinv & Hi & H0 & Hmax & Hh). destruct (pmm_alloc_frame_spec _ Hinv Hi) as (a & s' & Ha & Hinv' & (Hg1 & Hg2 & Hg3) & Hsp).
    exists a, (mk_kctx s' (hhdm_offset c)). unfold kernel_vmm_alloc. rewrite Ha. split; [done|].
    destruct Hsp as [(He & -> & HF)|(f & Hf & _ & -> & HF)].
    + split; [|split; [done|]].
      * unfold frames_inv. cbn [kernel_pmm hhdm_offset]. rewrite HF. split_and!; [done|congruence|done|lia|lia|lia].
      * left. unfold frames_avail. cbn [kernel_pmm]. rewrite HF, He. split_and!; [done|set_solver|set_solver].
    + split; [|split; [done|]].
      * unfold frames_inv. cbn [kernel_pmm hhdm_offset]. rewrite HF. split_and!; [done|congruence|set_solver|lia|lia|lia].
      * right. pose proof (free_set_range _ _ Hinv Hf). destruct (inv_frames _ Hinv) as (_ & Hmp & _). unfold PMM_PAGE_SIZE in *.
        split_and!; [unfold Vmm.VMM_INVALID_PHYS; lia| |].
        -- split; [apply Z_mod_mult|by rewrite Z.div_mul by lia].
        -- intros g. unfold frames_avail. cbn [kernel_pmm]. rewrite HF. split.
           ++ intros [Hm [Hg Hne]%elem_of_difference]. split; [done|]. intros ->. apply Hne. rewrite Z.div_mul by lia. set_solver.
           ++ intros [[Hm Hg] Hne]. split; [done|]. apply elem_of_difference. split; [done|].
              intros E%elem_of_singleton. apply Hne. apply Z.mod_divide in Hm as [q ->]; [|lia]. rewrite Z.div_mul in E by lia. lia.
  - intros c f Hc Hf. destruct (Hrange c f Hc Hf). split; [lia|done].
  - intros c f g [Hf _] [Hg _]. unfold kernel_phys_to_virt, wrap. intros E.
    pose proof (Z.div_mod (hhdm_offset c + f) (2 ^ 64) ltac:(lia)). pose proof (Z.div_mod (hhdm_offset c + g) (2 ^ 64) ltac:(lia)).
    rewrite E in *. nia.
  - intros c f Hc Hf. destruct (Hrange c f Hc Hf). destruct Hc as (_ & _ & _ & _ & ?).
    unfold kernel_phys_to_virt. rewrite wrap_small by (unfold in_u; lia). lia.
Qed.

(** ** Boot *)

Definition boot_free (f : Z) : Prop := 1 <= f < 0x9f \/ 0x100 <= f < 0x400 \/ 0x500 <= f < 0x8000.

Lemma early_map_free f :
  boot_free f <->
  0 < f < PMM_MAX_PHYS_BYTES / PMM_PAGE_SIZE /\
  (exists r, r ∈ early_map /\ r_type r = BOOT_MEM_USABLE /\ 0 < r_length r /\ covers (r_base r) (r_length r) f) /\
  (forall r, r ∈ early_map -> r_type r <> BOOT_MEM_USABLE -> ~ touches (r_base r) (r_length r) f).
Proof.
  change (PMM_MAX_PHYS_BYTES / PMM_PAGE_SIZE) with 0x1000000. unfold boot_free, covers, touches, early_map, PMM_PAGE_SIZE. split.
  - intros H. split; [lia|]. split.
    + destruct H as [H|[H|H]].
      * exists (mk_region 0x00000000 0x0009f000 BOOT_MEM_USABLE). split; [set_solver|]. cbn [r_type r_base r_length]. lia.
      * exists (mk_region 0x00100000 0x00300000 BOOT_MEM_USABLE). split; [set_solver|]. cbn [r_type r_base r_length]. lia.
      * exists (mk_region 0x00500000 0x07b00000 BOOT_MEM_USABLE). split; [set_solver|]. cbn [r_type r_base r_length]. lia.
    + intros r Hr Ht. rewrite !elem_of_cons, elem_of_nil in Hr.
      destruct Hr as [-> | [-> | [-> | [-> | [-> | []]]]]]; cbn [r_type r_base r_length] in *; try done; lia.
  - intros (H0 & (r & Hr & Ht & _ & Hc) & Hn). rewrite !elem_of_cons, elem_of_nil in Hr.
    destruct Hr as [-> | [-> | [-> | [-> | [-> | []]]]]]; cbn [r_type r_base r_length] in *; try done; lia.
Qed.

(** Everything but the physical memory manager and the messages. *)
Definition same_machine (k k' : kernel) : Prop :=
  Vmm.tabs (k_vm k') = Vmm.tabs (k_vm k) /\ Vmm.tlb (k_vm k') = Vmm.tlb (k_vm k) /\
  hhdm_offset (Vmm.ctx (k_vm k')) = hhdm_offset (Vmm.ctx (k_vm k)) /\
  m8_boot_heap k' = m8_boot_heap k /\ k_heap k' = k_heap k.

Definition pmm_ready (p : pmm_state) (free : Z -> Prop) : Prop :=
  pmm_inv p /\ initialized p = true /\ frame_count p = 0x1000000 /\ forall f, f ∈ free_set p <-> free f.

Lemma pmm_ready_iff p F G : pmm_ready p F -> (forall f, F f <-> G f) -> pmm_ready p G.
Proof. intros (? & ? & ? & HF) HG. split_and!; [done..|]. intros f. by rewrite HF. Qed.

Lemma on_alloc k F :
  pmm_ready (the_pmm k) F -> F 1 -> (forall f, F f -> 1 <= f) ->
  exists p, on_pmm k (pmm_alloc_frame (Some (the_pmm k))) = Some (4096, set_pmm k p) /\ pmm_ready p (fun f => F f /\ f <> 1).
Proof.
  intros (Hinv & Hi & Hc & HF) H1 Hmin. destruct (pmm_alloc_frame_spec _ Hinv Hi) as (a & p & -> & Hinv' & (Hg1 & Hg2 & Hg3) & Hsp).
  exists p. cbn [on_pmm mbind option_bind]. destruct Hsp as [(E & _ & _)|(f & Hf & Hl & -> & HF')].
  - apply HF in H1. rewrite E in H1. set_solver.
  - assert (f = 1) as ->.
    { apply HF in Hf as Hf'. apply Hmin in Hf'. apply HF, Hl in H1. lia. }
    split; [done|]. split_and!; [done|congruence|congruence|]. intros g. rewrite HF', elem_of_difference, elem_of_singleton, HF. tauto.
Qed.

Lemma on_free k F :
  pmm_ready (the_pmm k) F -> ~ F 1 ->
  exists p, on_pmm k (pmm_free_frame (Some (the_pmm k)) 4096) = Some (true, set_pmm k p) /\ pmm_ready p (fun f => F f \/ f = 1).
Proof.
  intros (Hinv & Hi & Hc & HF) H1. destruct (pmm_free_frame_spec _ 4096 Hinv Hi ltac:(lia)) as (ok & p & -> & Hinv' & (Hg1 & Hg2 & Hg3) & Hsp & _).
  exists p. cbn [on_pmm mbind option_bind]. unfold spec_free in Hsp. rewrite Hc in Hsp. rewrite decide_True in Hsp.
  - destruct Hsp as [-> HF']. split; [done|]. split_and!; [done|congruence|congruence|].
    intros g. rewrite HF', elem_of_union, elem_of_singleton, HF. change (4096 / PMM_PAGE_SIZE) with 1. tauto.
  - unfold PMM_PAGE_SIZE. split_and!; [done|lia|lia|]. by rewrite HF.
Qed.

Lemma early_map_plain : plain_map early_map.
Proof. unfold plain_map, early_map, region_fits, PMM_PAGE_SIZE. repeat constructor; cbn [r_base r_length]; lia. Qed.

Lemma memory_init_spec k :
  bytes_ok (kernel_pmm_bitmap k) -> Z.of_nat (length (kernel_pmm_bitmap k)) = PMM_BITMAP_BYTES ->
  exists k', kernel_memory_init k = Some k' /\ pmm_ready (the_pmm k') boot_free /\ same_machine k k' /\
    kernel_space k' = kernel_space k.
Proof.
  intros Hok Hlen. unfold kernel_memory_init.
  destruct (pmm_init_from_map_spec (the_pmm k) early_map (kernel_pmm_bitmap k) PMM_BITMAP_BYTES PMM_MAX_PHYS_BYTES)
    as (p1 & E1 & Hinv1 & Hi1 & Hc1 & Hf1); [done|simpl; lia| |done|done|done|done|lia|].
  { apply plain_map_u64, early_map_plain. }
  assert (Hr1 : pmm_ready p1 boot_free).
  { split_and!; [done|done|done|]. intros f. rewrite Hf1, plain_map_free by apply early_map_plain. symmetry. apply early_map_free. }
  rewrite E1. cbn [on_pmm mbind option_bind negb].
  match goal with |- context [on_pmm ?k2 (pmm_alloc_frame _)] => destruct (on_alloc k2 boot_free Hr1) as (p2 & E2 & Hr2) end;
    [unfold boot_free; lia|unfold boot_free; lia|].
  rewrite E2. cbn [mbind option_bind]. change (4096 =? PMM_INVALID_FRAME) with false. cbn match.
  match goal with |- context [on_pmm ?k3 (pmm_free_frame _ _)] => destruct (on_free k3 _ Hr2) as (p3 & E3 & Hr3) end; [tauto|].
  rewrite E3. cbn [mbind option_bind negb]. eexists. split; [reflexivity|]. split; [|done].
  eapply pmm_ready_iff; [exact Hr3|]. intros f. unfold boot_free. lia.
Qed.

Lemma vmm_init_spec k :
  pmm_ready (the_pmm k) boot_free ->
  exists k', kernel_vmm_init k = Some k' /\ pmm_ready (the_pmm k') (fun f => boot_free f /\ f <> 1) /\ same_machine k k' /\
    kernel_space k' = Vmm.sp kernel_vmm_alloc (Some kernel_vmm_free) kernel_phys_to_virt 4096.
Proof.
  intros Hr. unfold kernel_vmm_init. destruct (on_alloc k boot_free Hr) as (p & -> & Hr'); [unfold boot_free; lia..|].
  cbn [mbind option_bind]. change (4096 =? PMM_INVALID_FRAME) with false. cbn match.
  eexists. split; [reflexivity|]. split; [exact Hr'|]. done.
Qed.

Lemma heap_init_spec k :
  m8_boot_heap k mod 4096 = 0 -> 0 < m8_boot_heap k -> m8_boot_heap k + M8_BOOT_HEAP_SIZE < 2 ^ 64 -> mapped (Kmem.mem (k_heap k)) (m8_boot_heap k) M8_BOOT_HEAP_SIZE ->
  exists k' bs, kernel_heap_init k = Some k' /\ Kmem.kinv (k_heap k') bs /\ Kmem.live (m8_boot_heap k) bs = [] /\
    k_vm k' = k_vm k /\ kernel_space k' = kernel_space k /\
    k_out k' = k_out k ++ [Str "M8 kmem initialized: total="; Hex 65536; Str " free="; Hex 65488; Str " largest="; Hex 65488; Line ""].
Proof.
  intros Hal Hb Hbe Hm. unfold kernel_heap_init. set (b := m8_boot_heap k) in *.
  unfold M8_BOOT_HEAP_SIZE in Hbe. pose proof (Kmem.init_spec b M8_BOOT_HEAP_SIZE (k_heap k) ltac:(lia) ltac:(unfold M8_BOOT_HEAP_SIZE; lia) ltac:(unfold M8_BOOT_HEAP_SIZE; lia) Hm) as Hi.
  assert (Hr : Kmem.round16 b = b).
  { apply Z.mod_divide in Hal as [q E]; [|lia]. unfold Kmem.round16. rewrite E.
    replace (q * 4096 + 15) with (15 + q * 256 * 16) by lia. rewrite Z.div_add by lia. change (15 / 16) with 0. lia. }
  unfold Kmem.heap_size, Kmem.heap_start in Hi. rewrite Hr, Z.sub_diag in Hi.
  change ((M8_BOOT_HEAP_SIZE - 0) / 16 * 16) with 65536 in Hi. change (Kmem.HDR + Kmem.KMEM_MIN_SPLIT <? 65536) with true in Hi. cbn match in Hi.
  destruct Hi as (h1 & -> & Hk1 & Hb1 & He1). cbn [mbind option_bind]. change (negb (0 =? 0)) with false. cbn match. cbn [set_heap k_heap].
  destruct (Kmem.alloc_spec h1 _ 128 Hk1 ltac:(lia)) as [(m2 & bs2 & l1 & l2 & p & sz & -> & Hk2 & _ & Hp & _ & Hl & Hl2 & _)|[_ Hall]].
  2:{ apply Forall_cons in Hall as [Hall _]. specialize (Hall eq_refl). cbv in Hall. done. }
  cbn [mbind option_bind]. destruct (Z.eqb_spec p 0); [lia|]. cbn [set_heap k_heap].
  symmetry in Hl. apply app_nil in Hl as [-> ->]. cbn [app] in Hl2.
  destruct (Kmem.free_spec (Kmem.set_mem h1 m2) bs2 p sz Hk2) as (m3 & bs3 & l3 & l4 & -> & Hk3 & Hl3 & Hl4 & _).
  { cbn [Kmem.set_mem Kmem.g_heap_base]. rewrite Hl2. by left. }
  cbn [Kmem.set_mem Kmem.g_heap_base] in Hl3, Hl4. rewrite Hl2 in Hl3. cbn [mbind option_bind]. change (negb (0 =? 0)) with false. cbn match.
  assert (Hnil : Kmem.live b bs3 = []).
  { rewrite <- Hb1, Hl4. destruct l3 as [|x l3]; [by injection Hl3 as <-|]. injection Hl3 as _ E. by destruct l3. }
  cbn [set_heap k_heap]. rewrite (Kmem.stats_spec _ bs3) by apply Hk3. cbn [mbind option_bind].
  destruct (Kmem.all_free_single _ _ Hnil (Kmem.ki_coalesced _ _ Hk3) (Kmem.ki_ne _ _ (Kmem.ki_heap _ _ Hk3))) as [z ->].
  pose proof (Kmem.seg_end _ _ _ _ _ _ (Kmem.ki_seg _ _ (Kmem.ki_heap _ _ Hk3))) as Hend.
  pose proof (Kmem.ki_seg _ _ (Kmem.ki_heap _ _ Hk3)) as (Hz & _).
  cbn [Kmem.set_mem Kmem.g_heap_base Kmem.g_heap_end Kmem.span] in *. rewrite He1, Hb1 in *. unfold Kmem.HDR in Hend.
  eexists _, [(z, true)]. split; [reflexivity|]. cbn [k_heap put set_heap k_vm kernel_space k_out].
  split; [done|]. split; [done|]. split; [done|]. split; [done|].
  cbn [Kmem.size_sum Kmem.max_free Kmem.total_bytes Kmem.free_bytes Kmem.largest_free Bool.eqb].
  replace z with 65488 by lia. replace (b + 65536 - b) with 65536 by lia. done.
Qed.

(** The kernel address space is well formed. *)
Abbreviation space_ok := (Vmm.vok kernel_phys_to_virt frames_inv frames_avail 4096).
Abbreviation space_map := (Vmm.translate kernel_phys_to_virt 4096).

(** C22. Booting from the built-in memory map: physical memory, the kernel
    address space and the heap come up without an error; the frames left for
    allocation are exactly the usable ones of the map without frame 0 and the
    root table, which is the frame at 4096; the heap is valid and empty.  The
    root table is used as it is found: no table word is written, so the
    address space starts well formed and empty if that frame happens to hold
    zeros.  The heap may lie anywhere in the 64-bit address space, in
    particular where the linker script puts it. *)
Theorem kernel_boot_correct k :
  bytes_ok (kernel_pmm_bitmap k) -> Z.of_nat (length (kernel_pmm_bitmap k)) = PMM_BITMAP_BYTES ->
  hhdm_offset (Vmm.ctx (k_vm k)) = 0 ->
  m8_boot_heap k mod 4096 = 0 -> 0 < m8_boot_heap k -> m8_boot_heap k + M8_BOOT_HEAP_SIZE < 2 ^ 64 -> mapped (Kmem.mem (k_heap k)) (m8_boot_heap k) M8_BOOT_HEAP_SIZE ->
  exists k1 k2 k3 bs, kernel_memory_init k = Some k1 /\ kernel_vmm_init k1 = Some k2 /\ kernel_heap_init k2 = Some k3 /\
    kernel_space k3 = Vmm.sp kernel_vmm_alloc (Some kernel_vmm_free) kernel_phys_to_virt 4096 /\
    frames_inv (Vmm.ctx (k_vm k3)) /\
    (forall f, frames_avail (Vmm.ctx (k_vm k3)) f <-> f mod 4096 = 0 /\ boot_free (f / 4096) /\ f <> 4096) /\
    Kmem.kinv (k_heap k3) bs /\ Kmem.live (m8_boot_heap k) bs = [] /\
    Vmm.tabs (k_vm k3) = Vmm.tabs (k_vm k) /\
    ((forall f, boot_free f -> exists l, Vmm.tabs (k_vm k) !! (f * 4096) = Some l /\ length l = 512%nat) ->
     Vmm.tabs (k_vm k) !! 4096 = Some (replicate 512 0) ->
     space_ok (k_vm k3) /\ forall v, space_map (k_vm k3) v = None).
Proof.
  intros Hok Hlen Hh Hal Hb Hbe Hm. destruct (memory_init_spec k Hok Hlen) as (k1 & E1 & Hr1 & (T1 & _ & H1 & B1 & P1) & _).
  destruct (vmm_init_spec k1 Hr1) as (k2 & E2 & Hr2 & (T2 & _ & H2 & B2 & P2) & Hsp).
  destruct (heap_init_spec k2) as (k3 & bs & E3 & Hk & Hl & Hv & Hs & _); [congruence|rewrite B2, B1; lia|rewrite B2, B1; lia|by rewrite B2, B1, P2, P1|].
  rewrite B2, B1 in Hl. destruct Hr2 as (Hinv & Hi & Hc & HF).
  assert (Hfi : frames_inv (Vmm.ctx (k_vm k3))).
  { rewrite Hv. destruct (inv_frames _ Hinv) as (_ & Hmp & _). unfold PMM_PAGE_SIZE in Hmp. rewrite Hc in Hmp.
    fold (the_pmm k2). split_and!; [done|done| |fold (the_pmm k2); rewrite Hmp; lia|rewrite H2, H1; lia|rewrite H2, H1; lia].
    intros H0. apply HF in H0. unfold boot_free in H0. lia. }
  assert (Hav : forall f, frames_avail (Vmm.ctx (k_vm k3)) f <-> f mod 4096 = 0 /\ boot_free (f / 4096) /\ f <> 4096).
  { intros f. unfold frames_avail. rewrite Hv. fold (the_pmm k2). rewrite HF. split.
    - intros (Hmod & Hbf & Hne). split_and!; [done|done|]. by intros ->.
    - intros (Hmod & Hbf & Hne). split_and!; [done|done|]. intros E. apply Hne. apply Z.mod_divide in Hmod as [q ->]; [|lia].
      rewrite Z.div_mul in E by lia. lia. }
  exists k1, k2, k3, bs. assert (HT : Vmm.tabs (k_vm k3) = Vmm.tabs (k_vm k)) by (rewrite Hv; congruence).
  split_and!; [done|done|done|congruence|done|done|done|done|done|]. intros Hpg Hz.
  assert (Hp2v : forall f, 0 <= f < 2 ^ 64 -> kernel_phys_to_virt (Vmm.ctx (k_vm k3)) f = f).
  { intros f Hf. unfold kernel_phys_to_virt. rewrite Hv, H2, H1, Hh. apply wrap_small. unfold in_u. lia. }
  apply Vmm.vok_empty; [done| |split; [lia|done]|rewrite Hp2v; lia|rewrite Hav; tauto|].
  - intros f Hf. apply Hav in Hf as (Hmod & Hbf & _). apply Z.mod_divide in Hmod as [q ->]; [|lia].
    rewrite Z.div_mul in Hbf by lia. rewrite Hp2v, HT by (unfold boot_free in Hbf; lia). by apply Hpg.
  - rewrite Hp2v, HT by lia. done.
Qed.

(** ** A machine to boot: the memory of the map, all zero *)

Definition ex_tabs : gmap Z (list Z) :=
  gset_to_gmap (replicate 512 0) (list_to_set ((fun f => f * 4096) <$> seqZ 0 0x8000)).
(** Where the linker script puts the static data of the kernel. *)
Definition ex_heap_addr : Z := 0xFFFFFFFF80020000.
Definition ex_heap_mem : memory := gset_to_gmap 0 (list_to_set (seqZ ex_heap_addr M8_BOOT_HEAP_SIZE)).
Definition ex_kernel : kernel :=
  mk_kernel (Vmm.mk_vm (mk_kctx zero_pmm 0) ex_tabs ∅) (replicate (Z.to_nat PMM_BITMAP_BYTES) 0)
    (Vmm.mk_space 0 None None None) ex_heap_addr (Kmem.mk_kmem 0 0 0 0 ex_heap_mem) [].

Lemma ex_tabs_lookup f : 0 <= f < 0x8000 -> ex_tabs !! (f * 4096) = Some (replicate 512 0).
Proof.
  intros Hf. unfold ex_tabs. apply lookup_gset_to_gmap_Some. split; [|done]. apply elem_of_list_to_set, list_elem_of_fmap.
  exists f. split; [done|]. apply elem_of_seqZ. lia.
Qed.

Lemma ex_heap_mapped : mapped ex_heap_mem ex_heap_addr M8_BOOT_HEAP_SIZE.
Proof.
  intros i Hi. exists 0. split; [|lia]. unfold ex_heap_mem. apply lookup_gset_to_gmap_Some. split; [|done].
  apply elem_of_list_to_set, elem_of_seqZ. lia.
Qed.

Lemma kernel_boot_correct_witness :
  exists k1 k2 k3, kernel_memory_init ex_kernel = Some k1 /\ kernel_vmm_init k1 = Some k2 /\ kernel_heap_init k2 = Some k3 /\
    space_ok (k_vm k3) /\ forall v, space_map (k_vm k3) v = None.
Proof.
  destruct (kernel_boot_correct ex_kernel) as (k1 & k2 & k3 & bs & E1 & E2 & E3 & _ & _ & _ & _ & _ & _ & H).
  - apply Forall_replicate. unfold in_u. lia.
  - cbn [kernel_pmm_bitmap ex_kernel]. rewrite length_replicate. apply Z2Nat.id. by vm_compute.
  - reflexivity.
  - reflexivity.
  - reflexivity.
  - reflexivity.
  - exact ex_heap_mapped.
  - exists k1, k2, k3. split; [exact E1|]. split; [exact E2|]. split; [exact E3|]. apply H.
    + intros f Hf. exists (replicate 512 0). split; [|by rewrite length_replicate].
      apply (ex_tabs_lookup f). unfold boot_free in Hf. lia.
    + exact (ex_tabs_lookup 1 ltac:(lia)).
Defined.

(** ** A small address space: 16 frames, the root table at 4096 *)

Definition ex_pmm : pmm_state := mk_pmm (Some [3; 0]) 2 0x10000 16 14 2 1 0 2 true.
Definition ex_vm : Vmm.vm kctx :=
  Vmm.mk_vm (mk_kctx ex_pmm 0) (list_to_map ((fun f => (f * 4096, replicate 512 0)) <$> seqZ 1 15)) ∅.
Abbreviation ex_sp := (Some (Vmm.sp kernel_vmm_alloc (Some kernel_vmm_free) kernel_phys_to_virt 4096)).

Lemma ex_pmm_free f : f ∈ free_set ex_pmm <-> 2 <= f < 16.
Proof.
  change (free_set ex_pmm) with (list_to_set (C := gset Z) (filter (fun f => is_free ex_pmm f = true) (seqZ 0 16))).
  rewrite elem_of_list_to_set.
  replace (filter (fun f => is_free ex_pmm f = true) (seqZ 0 16)) with (seqZ 2 14) by (by vm_compute).
  rewrite elem_of_seqZ. lia.
Qed.

Lemma ex_frames_inv : frames_inv (Vmm.ctx ex_vm).
Proof.
  split; [|split_and!; [done|rewrite ex_pmm_free; lia|done|done|done]].
  constructor; cbn [Vmm.ctx ex_vm kernel_pmm].
  - exists [3; 0]. split_and!; [done| |by vm_compute]. repeat constructor; lia.
  - by vm_compute.
  - by vm_compute.
  - by vm_compute.
  - by vm_compute.
  - intros f Hf. rewrite ex_pmm_free. cbn in Hf. lia.
Qed.

Lemma ex_vm_ok : space_ok ex_vm /\ forall v, space_map ex_vm v = None.
Proof.
  apply Vmm.vok_empty; [exact ex_frames_inv| |split; [lia|done]|by vm_compute| |by vm_compute].
  - intros f [Hm Hf]. apply ex_pmm_free in Hf. exists (replicate 512 0). split; [|done].
    apply Z.mod_divide in Hm as [q ->]; [|lia]. rewrite Z.div_mul in Hf by lia.
    assert (Hq : q ∈ seqZ 2 14) by (apply elem_of_seqZ; lia). revert Hq. clear. intros Hq. 
    assert (Hall : forallb (fun q => bool_decide (Vmm.tabs ex_vm !! kernel_phys_to_virt (Vmm.ctx ex_vm) (q * 4096) = Some (replicate 512 0))) (seqZ 2 14) = true) by (by vm_compute).
    rewrite forallb_forall in Hall. apply list_elem_of_In in Hq. exact (proj1 (bool_decide_eq_true _) (Hall q Hq)).
  - intros [_ Hf]. apply ex_pmm_free in Hf. change (4096 / 4096) with 1 in Hf. lia.
Qed.

Lemma ex_page : Vmm.page_addr 0xFFFF800000200000.
Proof. split; [lia|by vm_compute]. Qed.

Lemma vmm_refines_map_witness :
  exists rc s', Vmm.vmm_map_page ex_sp 0xFFFF800000200000 0x300000 Vmm.VMM_PTE_WRITABLE ex_vm = Some (rc, s') /\ space_ok s' /\
    space_map ex_vm 0xFFFF800000200000 = None.
Proof.
  destruct (Vmm.vmm_refines_map kernel_vmm_alloc (Some kernel_vmm_free) kernel_phys_to_virt frames_inv frames_avail 4096 ex_vm
    0xFFFF800000200000 0x300000 Vmm.VMM_PTE_WRITABLE (Vmm.mk_mapping 0 0 0)) as (_ & (rc & s' & E & Hs & _) & _);
    [exact (proj1 ex_vm_ok)|exact ex_page|reflexivity|].
  exists rc, s'. split; [exact E|]. split; [exact Hs|]. apply ex_vm_ok.
Defined.

(** Map a page, let the CPU use it, unmap it. *)
Definition ex_step (f : Vmm.vm kctx -> option (Z * Vmm.vm kctx)) (s : Vmm.vm kctx) : Vmm.vm kctx := from_option snd s (f s).
Definition ex_vm1 : Vmm.vm kctx := ex_step (Vmm.vmm_map_page ex_sp 0xFFFF800000200000 0x300000 Vmm.VMM_PTE_WRITABLE) ex_vm.
Definition ex_vm2 : Vmm.vm kctx :=
  Vmm.mk_vm (Vmm.ctx ex_vm1) (Vmm.tabs ex_vm1) (<[0xFFFF800000200000 := (0x300000, 3)]> (Vmm.tlb ex_vm1)).
Definition ex_vm3 : Vmm.vm kctx := ex_step (Vmm.vmm_unmap_page ex_sp 0xFFFF800000200000) ex_vm2.

Lemma vmm_tlb_coherent_witness :
  space_ok ex_vm3 /\ Vmm.coherent kernel_phys_to_virt 4096 ex_vm3.
Proof.
  apply (Vmm.vmm_tlb_coherent kernel_vmm_alloc (Some kernel_vmm_free) kernel_phys_to_virt frames_inv frames_avail 4096 ex_vm ex_vm3);
    [exact (proj1 ex_vm_ok)|reflexivity|].
  apply (rtc_l _ _ ex_vm1); [|apply (rtc_l _ _ ex_vm2); [|apply rtc_once]].
  - apply (Vmm.vs_map _ _ _ _ 0xFFFF800000200000 0x300000 Vmm.VMM_PTE_WRITABLE ex_vm 0 ex_vm1); [exact ex_page|reflexivity|by vm_compute].
  - apply (Vmm.vs_cpu _ _ _ _ 0xFFFF800000200000 ex_vm1 (0x300000, 3)); [exact ex_page|by vm_compute].
  - apply (Vmm.vs_unmap _ _ _ _ 0xFFFF800000200000 ex_vm2 0 ex_vm3); [exact ex_page|by vm_compute].
Defined.

End Kernel.
