(* ===== verification/Ramfs.v ===== *)
(** * The RAM file system ([kernel/vfs/ramfs.c])

    A [char *] is the list of bytes from the pointed-to position to the end of
    its object; reading past the end is undefined ([None]).  A
    [mcs_vnode_t *] is the index of the node in [nodes].  Functions whose
    out-parameter is set only on [MCS_OK] return [inr] of that parameter, and
    [inl rc] for every other return code. *)
From S2P Require Import Prelude Bitmap Bytes.
From stdpp Require Import base gmap list fin_maps numbers option.
From Stdlib Require Import ZArith Lia.

Open Scope Z_scope.

Module Ramfs.

(** ** Data *)

Definition MCS_MAX_NAME : Z := 32.
Definition MCS_MAX_PATH : Z := 128.
Definition MCS_MAX_NODES : Z := 64.
Definition MCS_RAMFS_DATA_BYTES : Z := 8192.

Definition MCS_OK : Z := 0.
Definition MCS_ENOENT : Z := -2.
Definition MCS_EBADF : Z := -9.
Definition MCS_EACCES : Z := -13.
Definition MCS_ENOTDIR : Z := -20.
Definition MCS_EISDIR : Z := -21.
Definition MCS_EINVAL : Z := -22.
Definition MCS_ENFILE : Z := -23.
Definition MCS_ENOSPC : Z := -28.
Definition MCS_ENAMETOOLONG : Z := -36.

Inductive mcs_vnode_type : Set := MCS_VNODE_DIR | MCS_VNODE_FILE.

#[export] Instance mcs_vnode_type_eq_dec : EqDecision mcs_vnode_type.
Proof. solve_decision. Defined.

Record mcs_vnode := mk_node {
  n_used : Z;
  n_id : Z;
  n_parent : Z;
  n_type : mcs_vnode_type;
  n_name : list Z;
  n_size : Z;
  n_data_offset : Z;
  n_data_capacity : Z
}.

Record mcs_ramfs := mk_ramfs {
  nodes : list mcs_vnode;
  node_count : Z;
  data : list Z;
  data_used : Z
}.

Definition set_n_size (v : Z) (nd : mcs_vnode) : mcs_vnode :=
  mk_node (n_used nd) (n_id nd) (n_parent nd) (n_type nd) (n_name nd) v
    (n_data_offset nd) (n_data_capacity nd).

Definition set_node (fs : mcs_ramfs) (i : Z) (nd : mcs_vnode) : option mcs_ramfs :=
  l ← arr_set (nodes fs) i nd; Some (mk_ramfs l (node_count fs) (data fs) (data_used fs)).

Definition set_data (fs : mcs_ramfs) (d : list Z) : mcs_ramfs :=
  mk_ramfs (nodes fs) (node_count fs) d (data_used fs).

Abbreviation cptr := (list Z).
Definition SLASH : Z := 47.
Definition NUL : Z := 0.

(** ** Strings *)

Fixpoint strlen (s : cptr) : option Z :=
  match s with
  | [] => None
  | c :: s => if c =? NUL then Some 0 else n ← strlen s; Some (n + 1)
  end.

Definition mcs_strlen (s : option cptr) : option Z :=
  match s with None => Some 0 | Some s => strlen s end.

Fixpoint mcs_streq_n (a b : cptr) (n : nat) : option bool :=
  match n with
  | O => y ← head b; Some (y =? NUL)
  | S n =>
      x ← head a; y ← head b;
      if x =? y then mcs_streq_n (tail a) (tail b) n else Some false
  end.

(** [mcs_copy_bytes(&dst[off], src, n)]. *)
Definition mcs_copy_bytes (dst : list Z) (off : Z) (src : cptr) (n : Z) : option (list Z) :=
  bs ← slice src 0 n; splice dst off bs.

(** The whole of [dst] is cleared, then at most 31 bytes are copied. *)
Definition mcs_copy_name (src : cptr) (n : Z) : option (list Z) :=
  let k := Z.min n (MCS_MAX_NAME - 1) in
  bs ← slice src 0 k;
  splice (replicate (Z.to_nat MCS_MAX_NAME) NUL) 0 bs.

(** The inner [while ( *next != '/' && *next != NUL) next++;]: the length of
    the segment and the final [next]. *)
Fixpoint seg_scan (seg : cptr) : option (Z * cptr) :=
  match seg with
  | [] => None
  | c :: s =>
      if (c =? SLASH) || (c =? NUL) then Some (0, seg)
      else r ← seg_scan s; Some (fst r + 1, snd r)
  end.

(** ** Lookup *)

Definition child_match (nd : mcs_vnode) (parent : Z) (name : cptr) (len : Z) : option bool :=
  if (n_used nd =? 0) then Some false
  else if n_parent nd =? parent then mcs_streq_n name (n_name nd) (Z.to_nat len)
  else Some false.

(** The [for] loop of [mcs_find_child], [k] iterations from index [i]. *)
Fixpoint find_child_from (fs : mcs_ramfs) (parent : Z) (name : cptr) (len : Z)
    (i : Z) (k : nat) : option (option Z) :=
  match k with
  | O => Some None
  | S k =>
      nd ← arr_get (nodes fs) i;
      b ← child_match nd parent name len;
      if (b : bool) then Some (Some i) else find_child_from fs parent name len (i + 1) k
  end.

Definition bad_name_len (len : Z) : bool := (len =? 0) || (MCS_MAX_NAME <=? len).

Definition mcs_find_child (fs : mcs_ramfs) (parent : Z) (name : cptr) (len : Z) : option (Z + Z) :=
  if bad_name_len len then Some (inl MCS_EINVAL) else
  r ← find_child_from fs parent name len 0 (Z.to_nat (node_count fs));
  match r with Some i => Some (inr i) | None => Some (inl MCS_ENOENT) end.

(** The [while] loop of [mcs_ramfs_lookup]. *)
Fixpoint lookup_loop (fuel : nat) (fs : mcs_ramfs) (cur : Z) (seg : cptr) : option (Z + Z) :=
  match fuel with
  | O => None
  | S fuel =>
      c ← head seg;
      if c =? NUL then Some (inl MCS_EINVAL) else
      '(seg_len, next) ← seg_scan seg;
      if bad_name_len seg_len then Some (inl MCS_EINVAL) else
      nd ← arr_get (nodes fs) cur;
      r ← mcs_find_child fs (n_id nd) seg seg_len;
      match r with
      | inl rc => Some (inl rc)
      | inr cur =>
          e ← head next;
          if e =? NUL then Some (inr cur) else
          nd ← arr_get (nodes fs) cur;
          if negb (bool_decide (n_type nd = MCS_VNODE_DIR)) then Some (inl MCS_ENOTDIR) else
          lookup_loop fuel fs cur (tail next)
      end
  end.

(** [out_node] says whether the out-pointer is not [NULL]. *)
Definition mcs_ramfs_lookup (fs : option mcs_ramfs) (path : option cptr) (out_node : bool)
    : option (Z + Z) :=
  match fs, path with
  | Some fs, Some path =>
      if negb out_node then Some (inl MCS_EINVAL) else
      c0 ← arr_get path 0;
      if negb (c0 =? SLASH) then Some (inl MCS_EINVAL) else
      n ← mcs_strlen (Some path);
      if MCS_MAX_PATH <=? n then Some (inl MCS_ENAMETOOLONG) else
      c1 ← arr_get path 1;
      if c1 =? NUL then Some (inr 0) else
      lookup_loop (length path) fs 0 (tail path)
  | _, _ => Some (inl MCS_EINVAL)
  end.

(** The [for (;;)] of [mcs_split_parent_leaf]: parent, leaf and its length. *)
Fixpoint split_loop (fuel : nat) (fs : mcs_ramfs) (cur : Z) (seg : cptr) : option (Z + Z * cptr * Z) :=
  match fuel with
  | O => None
  | S fuel =>
      '(seg_len, next) ← seg_scan seg;
      if bad_name_len seg_len then Some (inl MCS_EINVAL) else
      e ← head next;
      if e =? NUL then Some (inr (cur, seg, seg_len)) else
      nd ← arr_get (nodes fs) cur;
      r ← mcs_find_child fs (n_id nd) seg seg_len;
      match r with
      | inl rc => Some (inl rc)
      | inr cur =>
          nd ← arr_get (nodes fs) cur;
          if negb (bool_decide (n_type nd = MCS_VNODE_DIR)) then Some (inl MCS_ENOTDIR) else
          split_loop fuel fs cur (tail next)
      end
  end.

Definition mcs_split_parent_leaf (fs : mcs_ramfs) (path : cptr) : option (Z + Z * cptr * Z) :=
  c0 ← arr_get path 0;
  if negb (c0 =? SLASH) then Some (inl MCS_EINVAL) else
  c1 ← arr_get path 1;
  if c1 =? NUL then Some (inl MCS_EINVAL) else
  n ← mcs_strlen (Some path);
  if MCS_MAX_PATH <=? n then Some (inl MCS_ENAMETOOLONG) else
  split_loop (length path) fs 0 (tail path).

(** ** Creation *)

Definition is_file (t : mcs_vnode_type) : bool := bool_decide (t = MCS_VNODE_FILE).

Definition mcs_alloc_node (fs : mcs_ramfs) (parent : Z) (type : mcs_vnode_type)
    (name : cptr) (name_len capacity : Z) : option ((Z + Z) * mcs_ramfs) :=
  if bad_name_len name_len then Some (inl MCS_EINVAL, fs) else
  if MCS_MAX_NODES <=? node_count fs then Some (inl MCS_ENOSPC, fs) else
  if is_file type && (MCS_RAMFS_DATA_BYTES <? u64 (data_used fs + capacity))
  then Some (inl MCS_ENOSPC, fs) else
  nm ← mcs_copy_name name name_len;
  let node := mk_node 1 (u32 (node_count fs)) parent type nm 0
                (if is_file type then data_used fs else 0)
                (if is_file type then capacity else 0) in
  l ← arr_set (nodes fs) (node_count fs) node;
  Some (inr (node_count fs),
        mk_ramfs l (u64 (node_count fs + 1)) (data fs)
          (if is_file type then u64 (data_used fs + capacity) else data_used fs)).

(** [mcs_ramfs_init] clears a node but for [name[1..]]. *)
Definition clear_node (nd : mcs_vnode) : mcs_vnode :=
  mk_node 0 0 0 MCS_VNODE_FILE (<[0%nat := NUL]> (n_name nd)) 0 0 0.

Definition root_node (nd : mcs_vnode) : mcs_vnode :=
  mk_node 1 0 0 MCS_VNODE_DIR (<[1%nat := NUL]> (<[0%nat := SLASH]> (n_name nd)))
    (n_size nd) (n_data_offset nd) (n_data_capacity nd).

(** A null pointer, [None], is left as it is. *)
Definition mcs_ramfs_init (fs : option mcs_ramfs) : option mcs_ramfs :=
  match fs with
  | None => None
  | Some fs =>
      let l := map clear_node (nodes fs) in
      Some (mk_ramfs (alter root_node 0%nat l) 1 (map (fun _ => 0) (data fs)) 0)
  end.

Definition create_new (fs : mcs_ramfs) (path : cptr) : option ((Z + Z) * mcs_ramfs) :=
  r ← mcs_split_parent_leaf fs path;
  match r with
  | inl rc => Some (inl rc, fs)
  | inr (par, leaf, leaf_len) =>
      nd ← arr_get (nodes fs) par;
      if negb (bool_decide (n_type nd = MCS_VNODE_DIR)) then Some (inl MCS_ENOTDIR, fs) else
      mcs_alloc_node fs (n_id nd) MCS_VNODE_FILE leaf leaf_len 256
  end.

Definition mcs_ramfs_create_file (fs : option mcs_ramfs) (path : option cptr) (out_node : bool)
    : option ((Z + Z) * option mcs_ramfs) :=
  match fs, path with
  | Some fs0, Some path =>
      if negb out_node then Some (inl MCS_EINVAL, fs) else
      r ← mcs_ramfs_lookup fs (Some path) true;
      match r with
      | inr existing =>
          nd ← arr_get (nodes fs0) existing;
          if negb (is_file (n_type nd)) then Some (inl MCS_EISDIR, fs) else
          Some (inr existing, fs)
      | inl _ => r ← create_new fs0 path; Some (fst r, Some (snd r))
      end
  | _, _ => Some (inl MCS_EINVAL, fs)
  end.

Definition mcs_ramfs_seed_file (fs : option mcs_ramfs) (path src : option cptr) (len : Z)
    : option (Z * option mcs_ramfs) :=
  match fs, path with
  | Some _, Some _ =>
      if bool_decide (src = None) && negb (len =? 0) then Some (MCS_EINVAL, fs) else
      r ← mcs_ramfs_create_file fs path true;
      match r with
      | (inl rc, fs) => Some (rc, fs)
      | (inr node, fs) =>
          fs0 ← fs;
          nd ← arr_get (nodes fs0) node;
          if n_data_capacity nd <? len then Some (MCS_ENOSPC, fs) else
          d ← mcs_copy_bytes (data fs0) (n_data_offset nd) (default [] src) len;
          fs1 ← set_node (set_data fs0 d) node (set_n_size len nd);
          Some (MCS_OK, Some fs1)
      end
  | _, _ => Some (MCS_EINVAL, fs)
  end.

(** ** Reference definition of path resolution

    Independent of pointers: a path is split at its slashes into components,
    each component names the first node with that name under the node reached
    so far. *)

(** The C string in a buffer. *)
Fixpoint cstr (l : list Z) : list Z :=
  match l with
  | [] => []
  | c :: l => if c =? NUL then [] else c :: cstr l
  end.

Fixpoint split_slash (p : list Z) : list (list Z) :=
  match p with
  | [] => [[]]
  | c :: p =>
      if c =? SLASH then [] :: split_slash p
      else match split_slash p with x :: xs => (c :: x) :: xs | [] => [[c]] end
  end.

Definition is_child (par : Z) (c : list Z) (nd : mcs_vnode) : Prop :=
  n_used nd <> 0 /\ n_parent nd = par /\ cstr (n_name nd) = c.

#[export] Instance is_child_dec par c nd : Decision (is_child par c nd).
Proof. unfold is_child. apply _. Defined.

Definition child (fs : mcs_ramfs) (par : Z) (c : list Z) : option (nat * mcs_vnode) :=
  list_find (is_child par c) (take (Z.to_nat (node_count fs)) (nodes fs)).

Fixpoint resolve (fs : mcs_ramfs) (par : Z) (comps : list (list Z)) : Z + Z :=
  match comps with
  | [] => inl MCS_EINVAL
  | c :: cs =>
      if bad_name_len (Z.of_nat (length c)) then inl MCS_EINVAL else
      match child fs par c with
      | None => inl MCS_ENOENT
      | Some (i, nd) =>
          match cs with
          | [] => inr (Z.of_nat i)
          | _ => if decide (n_type nd = MCS_VNODE_DIR) then resolve fs (n_id nd) cs
                 else inl MCS_ENOTDIR
          end
      end
  end.

Definition lookup_ref (fs : mcs_ramfs) (p : list Z) : Z + Z :=
  match p with
  | c :: p' =>
      if negb (c =? SLASH) then inl MCS_EINVAL
      else if MCS_MAX_PATH <=? Z.of_nat (length p) then inl MCS_ENAMETOOLONG
      else match p' with
           | [] => inr 0
           | _ => resolve fs (default 0 (n_id <$> head (nodes fs))) (split_slash p')
           end
  | [] => inl MCS_EINVAL
  end.

(** The shape of the arrays, in every state of the file system. *)
Record fs_shape (fs : mcs_ramfs) : Prop := {
  sh_nodes : Z.of_nat (length (nodes fs)) = MCS_MAX_NODES;
  sh_count : 1 <= node_count fs <= MCS_MAX_NODES;
  sh_names : Forall (fun nd => Z.of_nat (length (n_name nd)) = MCS_MAX_NAME) (nodes fs);
  sh_data : Z.of_nat (length (data fs)) = MCS_RAMFS_DATA_BYTES
}.

Definition no_nul (p : list Z) : Prop := Forall (fun c => c <> NUL) p.
Definition plain (p : list Z) : Prop := Forall (fun c => c <> NUL /\ c <> SLASH) p.

(** ** Lemmas on strings *)

Lemma strlen_app p rest : no_nul p -> strlen (p ++ NUL :: rest) = Some (Z.of_nat (length p)).
Proof.
  induction 1 as [|c p Hc _ IH]; [done|]. cbn [app strlen length].
  destruct (Z.eqb_spec c NUL); [done|]. rewrite IH. cbn [mbind option_bind]. f_equal. lia.
Qed.

Lemma streq_n_app c rest b :
  no_nul c -> (length c < length b)%nat ->
  mcs_streq_n (c ++ rest) b (length c) = Some (bool_decide (cstr b = c)).
Proof.
  intros Hc. revert b. induction Hc as [|x c Hx _ IH]; intros b Hl.
  - destruct b as [|y b]; [simpl in Hl; lia|]. cbn. destruct (Z.eqb_spec y NUL).
    + by rewrite bool_decide_true.
    + by rewrite bool_decide_false.
  - destruct b as [|y b]; [simpl in Hl; lia|]. cbn [length mcs_streq_n app head tail mbind option_bind hd_error].
    destruct (Z.eqb_spec x y) as [<-|Hne].
    + rewrite IH by (simpl in Hl; lia). cbn [cstr]. destruct (Z.eqb_spec x NUL); [done|].
      f_equal. apply bool_decide_ext. naive_solver.
    + rewrite bool_decide_false; [done|]. cbn [cstr]. destruct (Z.eqb_spec y NUL); naive_solver.
Qed.

Lemma seg_scan_app c x rest :
  plain c -> x = SLASH \/ x = NUL ->
  seg_scan (c ++ x :: rest) = Some (Z.of_nat (length c), x :: rest).
Proof.
  intros Hc Hx. induction Hc as [|y c [Hy1 Hy2] _ IH].
  - cbn [app seg_scan length]. destruct (Z.eqb_spec x SLASH), (Z.eqb_spec x NUL); naive_solver.
  - cbn [app seg_scan length]. destruct (Z.eqb_spec y SLASH), (Z.eqb_spec y NUL); try done.
    cbn [orb]. rewrite IH. cbn. do 2 f_equal. lia.
Qed.

Lemma plain_no_nul c : plain c -> no_nul c.
Proof. apply Forall_impl. naive_solver. Qed.

(** A path is its first component, and the rest after a slash if there is one. *)
Lemma split_slash_cases p :
  no_nul p ->
  (plain p /\ split_slash p = [p]) \/
  (exists c p', plain c /\ no_nul p' /\ p = c ++ SLASH :: p' /\ split_slash p = c :: split_slash p').
Proof.
  induction 1 as [|x p Hx Hp IH]; [left; split; [constructor|done]|]. cbn [split_slash].
  destruct (Z.eqb_spec x SLASH) as [->|Hs].
  - right. exists [], p. split_and!; [constructor|done|done|done].
  - destruct IH as [[Hpl ->]|(c & p' & Hc & Hp' & -> & ->)].
    + left. split; [by constructor|done].
    + right. exists (x :: c), p'. split_and!; [by constructor|done|done|done].
Qed.

Lemma split_slash_nonempty p : split_slash p <> [].
Proof. destruct p as [|c p]; [done|]. cbn. destruct (c =? SLASH); [done|]. by destruct (split_slash p). Qed.

(** ** The code computes the reference *)

Section lookup.
Context (fs : mcs_ramfs) (Hsh : fs_shape fs).

Lemma child_match_spec nd par c rest :
  no_nul c -> (length c < length (n_name nd))%nat ->
  child_match nd par (c ++ rest) (Z.of_nat (length c)) = Some (bool_decide (is_child par c nd)).
Proof.
  intros Hc Hl. unfold child_match. destruct (Z.eqb_spec (n_used nd) 0).
  { rewrite bool_decide_false; [done|]. unfold is_child. naive_solver. }
  destruct (Z.eqb_spec (n_parent nd) par).
  - rewrite Nat2Z.id, streq_n_app by done. f_equal. apply bool_decide_ext. unfold is_child. naive_solver.
  - rewrite bool_decide_false; [done|]. unfold is_child. naive_solver.
Qed.

Lemma find_child_from_spec par c rest l1 l2 :
  no_nul c -> Z.of_nat (length c) < MCS_MAX_NAME ->
  take (Z.to_nat (node_count fs)) (nodes fs) = l1 ++ l2 ->
  find_child_from fs par (c ++ rest) (Z.of_nat (length c)) (Z.of_nat (length l1)) (length l2) =
  Some ((fun r => Z.of_nat (length l1 + fst r)) <$> list_find (is_child par c) l2).
Proof.
  intros Hc Hl. revert l1. induction l2 as [|nd l2 IH]; intros l1 Hn; [done|].
  cbn [find_child_from length list_find].
  assert (Hget : arr_get (nodes fs) (Z.of_nat (length l1)) = Some nd).
  { unfold arr_get. destruct (Z.ltb_spec (Z.of_nat (length l1)) 0); [lia|]. rewrite Nat2Z.id.
    assert (take (Z.to_nat (node_count fs)) (nodes fs) !! length l1 = Some nd) as Ht.
    { rewrite Hn. by apply list_lookup_middle. }
    apply lookup_take_Some in Ht. naive_solver. }
  rewrite Hget. cbn [mbind option_bind].
  assert (Hnm : Z.of_nat (length (n_name nd)) = MCS_MAX_NAME).
  { unfold arr_get in Hget. destruct (Z.of_nat (length l1) <? 0); [done|].
    exact (Forall_lookup_1 _ _ _ _ (sh_names _ Hsh) Hget). }
  rewrite child_match_spec by (done || lia). cbn [mbind option_bind].
  case_bool_decide as Hch; case_decide; try done.
  - cbn. do 2 f_equal. lia.
  - replace (Z.of_nat (length l1) + 1) with (Z.of_nat (length (l1 ++ [nd]))) by (rewrite length_app; simpl; lia).
    rewrite IH by (by rewrite <- app_assoc). f_equal. destruct (list_find _ l2) as [[j x]|]; [|done].
    cbn. f_equal. rewrite length_app. simpl. lia.
Qed.

Lemma find_child_spec par c rest :
  no_nul c ->
  mcs_find_child fs par (c ++ rest) (Z.of_nat (length c)) =
  Some (if bad_name_len (Z.of_nat (length c)) then inl MCS_EINVAL
        else match child fs par c with None => inl MCS_ENOENT | Some (i, _) => inr (Z.of_nat i) end).
Proof.
  intros Hc. unfold mcs_find_child. destruct (bad_name_len _) eqn:Hb; [done|].
  unfold bad_name_len in Hb. apply orb_false_iff in Hb as [_ Hb%Z.leb_gt].
  pose proof (find_child_from_spec par c rest [] (take (Z.to_nat (node_count fs)) (nodes fs)) Hc Hb eq_refl) as H.
  pose proof (sh_nodes _ Hsh). pose proof (sh_count _ Hsh).
  rewrite length_take_le in H by lia. cbn [length] in H. change (Z.of_nat 0) with 0 in H. rewrite H.
  unfold child. by destruct (list_find _ _) as [[i nd]|].
Qed.

Lemma child_get par c i nd :
  child fs par c = Some (i, nd) ->
  arr_get (nodes fs) (Z.of_nat i) = Some nd /\ (i < Z.to_nat (node_count fs))%nat /\ is_child par c nd.
Proof.
  unfold child. intros (Hi & Hc & _)%list_find_Some. apply lookup_take_Some in Hi as [Hi ?].
  split_and!; [|done|done]. unfold arr_get. destruct (Z.ltb_spec (Z.of_nat i) 0); [lia|]. by rewrite Nat2Z.id.
Qed.

Lemma lookup_loop_spec fuel cur nd p rest :
  no_nul p -> (length p < fuel)%nat -> arr_get (nodes fs) cur = Some nd ->
  lookup_loop fuel fs cur (p ++ NUL :: rest) = Some (resolve fs (n_id nd) (split_slash p)).
Proof.
  revert cur nd p. induction fuel as [|fuel IH]; intros cur nd p Hp Hf Hcur; [lia|].
  destruct (split_slash_cases p Hp) as [[Hpl ->]|(c & p' & Hc & Hp' & -> & ->)].
  - destruct p as [|x p]; [done|]. inversion Hp as [|? ? Hx Hp1]; subst. clear Hp1.
    cbn [lookup_loop app head hd_error mbind option_bind]. destruct (Z.eqb_spec x NUL); [done|].
    change (x :: p ++ NUL :: rest) with ((x :: p) ++ NUL :: rest).
    rewrite seg_scan_app by auto. cbn [mbind option_bind resolve].
    destruct (bad_name_len (Z.of_nat (length (x :: p)))) eqn:Hb; [done|].
    rewrite Hcur. cbn [mbind option_bind]. rewrite find_child_spec by done. rewrite Hb. cbn [mbind option_bind].
    destruct (child fs (n_id nd) (x :: p)) as [[i nd']|]; done.
  - cbn [lookup_loop]. rewrite <- app_assoc. cbn [app].
    assert (Hh : exists x, head (c ++ SLASH :: p' ++ NUL :: rest) = Some x /\ x <> NUL).
    { destruct Hc as [|x c [Hx _] _]; [by exists SLASH|by exists x]. }
    destruct Hh as (x & -> & Hx). cbn [mbind option_bind]. destruct (Z.eqb_spec x NUL); [done|].
    rewrite seg_scan_app by auto. cbn [mbind option_bind resolve].
    destruct (bad_name_len (Z.of_nat (length c))) eqn:Hb; [done|].
    rewrite Hcur. cbn [mbind option_bind]. rewrite find_child_spec by (by apply plain_no_nul). rewrite Hb.
    cbn [mbind option_bind]. destruct (child fs (n_id nd) c) as [[i nd']|] eqn:Hch; [|done].
    cbn. destruct (child_get _ _ _ _ Hch) as (Hget & _ & _). rewrite Hget. cbn [mbind option_bind].
    destruct (split_slash p') as [|y ys] eqn:Hsp; [by destruct (split_slash_nonempty p')|].
    destruct (decide (n_type nd' = MCS_VNODE_DIR)) as [Ht|Ht].
    + rewrite bool_decide_true by done. cbn [negb]. rewrite <- Hsp. apply IH; [done| |done].
      rewrite length_app in Hf. simpl in Hf. lia.
    + by rewrite bool_decide_false.
Qed.

Lemma root_get : exists nd, arr_get (nodes fs) 0 = Some nd /\ head (nodes fs) = Some nd.
Proof.
  pose proof (sh_nodes _ Hsh) as Hl. unfold MCS_MAX_NODES in Hl.
  destruct (nodes fs) as [|nd l]; [simpl in Hl; lia|]. by exists nd.
Qed.

Lemma lookup_spec p rest :
  no_nul p ->
  mcs_ramfs_lookup (Some fs) (Some (p ++ NUL :: rest)) true = Some (lookup_ref fs p).
Proof.
  intros Hp. unfold mcs_ramfs_lookup, lookup_ref. cbn [negb]. destruct p as [|c p]; [done|].
  change (arr_get ((c :: p) ++ NUL :: rest) 0) with (Some c). cbn [mbind option_bind].
  destruct (Z.eqb_spec c SLASH); [|done]. cbn [negb mcs_strlen].
  rewrite strlen_app by done.
  cbn [mbind option_bind]. destruct (MCS_MAX_PATH <=? Z.of_nat (length (c :: p))); [done|].
  destruct root_get as (nd & Hr & ->). inversion Hp as [|? ? _ Hp']; subst.
  destruct p as [|x p]; [done|]. inversion Hp' as [|? ? Hx _]; subst.
  change (arr_get ((SLASH :: x :: p) ++ NUL :: rest) 1) with (Some x). cbn [mbind option_bind].
  destruct (Z.eqb_spec x NUL); [done|].
  change (tail ((SLASH :: x :: p) ++ NUL :: rest)) with ((x :: p) ++ NUL :: rest).
  rewrite (lookup_loop_spec _ 0 nd); [done|done| |done]. rewrite length_app. simpl. lia.
Qed.

End lookup.

(** ** Abstract file system

    No operation creates a directory, so the tree has the root and files
    directly under it: a map from names to files.  A file is its size and the
    256 bytes reserved for it. *)

Record afile := mk_afile { a_size : Z; a_store : list Z }.

Definition CAPACITY : Z := 256.

Definition entry (fs : mcs_ramfs) (nd : mcs_vnode) : list Z * afile :=
  (cstr (n_name nd),
   mk_afile (n_size nd) (default [] (slice (data fs) (n_data_offset nd) CAPACITY))).

Definition file_nodes (fs : mcs_ramfs) : list mcs_vnode :=
  drop 1 (take (Z.to_nat (node_count fs)) (nodes fs)).

Definition files (fs : mcs_ramfs) : gmap (list Z) afile :=
  list_to_map (entry fs <$> file_nodes fs).

Definition empty_file : afile := mk_afile 0 (replicate (Z.to_nat CAPACITY) 0).

(** A name has 1 to 31 characters. *)
Definition name_fits (n : nat) : bool := Nat.leb 1 n && Nat.leb n 31.

Lemma name_fits_bad n : name_fits n = negb (bad_name_len (Z.of_nat n)).
Proof.
  unfold name_fits, bad_name_len, MCS_MAX_NAME.
  destruct (Nat.leb_spec 1 n), (Nat.leb_spec n 31), (Z.eqb_spec (Z.of_nat n) 0), (Z.leb_spec 32 (Z.of_nat n));
    done || lia.
Qed.

(** The result of a lookup is an error or the object found; [None] is the
    root directory. *)
Definition flat_lookup (F : gmap (list Z) afile) (p : list Z) : Z + option (list Z) :=
  match p with
  | c :: p' =>
      if negb (c =? SLASH) then inl MCS_EINVAL
      else if MCS_MAX_PATH <=? Z.of_nat (length p) then inl MCS_ENAMETOOLONG
      else match p', split_slash p' with
           | [], _ => inr None
           | _, c :: cs =>
               if negb (name_fits (length c)) then inl MCS_EINVAL
               else match F !! c, cs with
                    | None, _ => inl MCS_ENOENT
                    | Some _, [] => inr (Some c)
                    | Some _, _ => inl MCS_ENOTDIR
                    end
           | _, [] => inl MCS_EINVAL
           end
  | [] => inl MCS_EINVAL
  end.

(** Creating a file: a path with one good component that names nothing yet
    makes an empty file, while there is space for it. *)
Definition flat_create (F : gmap (list Z) afile) (p : list Z)
    : (Z + option (list Z)) * gmap (list Z) afile :=
  match flat_lookup F p with
  | inr (Some c) => (inr (Some c), F)
  | inr None => (inl MCS_EISDIR, F)
  | inl rc =>
      match split_slash (tail p) with
      | [c] =>
          if (rc =? MCS_ENOENT)
          then if 32 <=? Z.of_nat (size F) then (inl MCS_ENOSPC, F)
               else (inr (Some c), <[c := empty_file]> F)
          else (inl rc, F)
      | _ => (inl rc, F)
      end
  end.

(** ** The state invariant *)

Record root_ok (nd : mcs_vnode) : Prop := {
  ro_used : n_used nd = 1;
  ro_id : n_id nd = 0;
  ro_type : n_type nd = MCS_VNODE_DIR;
  ro_name : cstr (n_name nd) = [SLASH];
  ro_size : n_size nd = 0
}.

Record file_ok (i : nat) (nd : mcs_vnode) : Prop := {
  fo_used : n_used nd = 1;
  fo_id : n_id nd = Z.of_nat i;
  fo_parent : n_parent nd = 0;
  fo_type : n_type nd = MCS_VNODE_FILE;
  fo_len : 0 < Z.of_nat (length (cstr (n_name nd))) < MCS_MAX_NAME;
  fo_plain : plain (cstr (n_name nd));
  fo_size : 0 <= n_size nd <= CAPACITY;
  fo_off : n_data_offset nd = CAPACITY * (Z.of_nat i - 1);
  fo_cap : n_data_capacity nd = CAPACITY
}.

Definition is_filenode (fs : mcs_ramfs) (i : nat) (nd : mcs_vnode) : Prop :=
  (0 < i)%nat /\ Z.of_nat i < node_count fs /\ nodes fs !! i = Some nd.

Record fs_ok (fs : mcs_ramfs) : Prop := {
  ok_shape : fs_shape fs;
  ok_used : data_used fs = CAPACITY * (node_count fs - 1);
  ok_max : data_used fs <= MCS_RAMFS_DATA_BYTES;
  ok_root : exists nd, nodes fs !! 0%nat = Some nd /\ root_ok nd;
  ok_file : forall i nd, is_filenode fs i nd -> file_ok i nd;
  ok_names : forall i j x y, is_filenode fs i x -> is_filenode fs j y ->
    cstr (n_name x) = cstr (n_name y) -> i = j;
  ok_zero : forall i, data_used fs <= Z.of_nat i < MCS_RAMFS_DATA_BYTES -> data fs !! i = Some 0
}.

(** What a node index stands for in the abstract file system. *)
Definition node_at (fs : mcs_ramfs) (i : Z) (t : option (list Z)) : Prop :=
  match t with
  | None => i = 0
  | Some nm => exists nd, 0 < i /\ is_filenode fs (Z.to_nat i) nd /\ cstr (n_name nd) = nm
  end.

(** ** The abstraction *)

Lemma file_nodes_lookup fs k nd : file_nodes fs !! k = Some nd <-> is_filenode fs (S k) nd.
Proof.
  unfold file_nodes, is_filenode. rewrite lookup_drop. cbn [Nat.add]. rewrite lookup_take_Some.
  split; [intros [??]|intros (? & ? & ?)]; split_and?; try done; lia.
Qed.

Lemma filenode_pred fs i nd : is_filenode fs i nd -> file_nodes fs !! (i - 1)%nat = Some nd.
Proof. intros H. apply file_nodes_lookup. destruct H as (Hi & ? & ?). by replace (S (i - 1)) with i by lia. Qed.

Section abstraction.
Context (fs : mcs_ramfs) (Hok : fs_ok fs).

Lemma files_nodup : NoDup ((entry fs <$> file_nodes fs).*1).
Proof.
  apply NoDup_alt. intros i j nm Hi Hj.
  apply list_lookup_fmap_Some in Hi as ([a1 b1] & ? & Hi). apply list_lookup_fmap_Some in Hj as ([a2 b2] & ? & Hj).
  apply list_lookup_fmap_Some in Hi as (x & Hx & Hi). apply list_lookup_fmap_Some in Hj as (y & Hy & Hj).
  apply file_nodes_lookup in Hi, Hj. unfold entry in Hx, Hy. simplify_eq/=.
  assert (S i = S j) by (eapply (ok_names _ Hok); eauto). lia.
Qed.

Lemma files_lookup nm f :
  files fs !! nm = Some f <-> exists i nd, is_filenode fs i nd /\ entry fs nd = (nm, f).
Proof.
  unfold files. rewrite <- (elem_of_list_to_map _ _ _ files_nodup), list_elem_of_fmap. split.
  - intros (nd & Heq & [k Hk]%list_elem_of_lookup). apply file_nodes_lookup in Hk. eauto.
  - intros (i & nd & Hi & Heq). exists nd. split; [done|].
    apply list_elem_of_lookup. eauto using filenode_pred.
Qed.

Lemma files_filenode i nd : is_filenode fs i nd -> files fs !! cstr (n_name nd) = Some (snd (entry fs nd)).
Proof. intros H. apply files_lookup. eauto. Qed.

Lemma size_files : Z.of_nat (size (files fs)) = node_count fs - 1.
Proof.
  unfold files. rewrite (map_size_list_to_map _ files_nodup), length_fmap. unfold file_nodes.
  destruct (ok_shape _ Hok) as [Hn Hc _ _]. rewrite length_drop, length_take. lia.
Qed.

Lemma filenode_inj i x y : is_filenode fs i x -> is_filenode fs i y -> x = y.
Proof. unfold is_filenode. naive_solver. Qed.

(** The bytes reserved for a file. *)
Lemma store_slice i nd :
  is_filenode fs i nd ->
  slice (data fs) (n_data_offset nd) CAPACITY = Some (a_store (snd (entry fs nd))) /\
  length (a_store (snd (entry fs nd))) = Z.to_nat CAPACITY /\
  0 <= n_data_offset nd /\ n_data_offset nd + CAPACITY <= Z.of_nat (length (data fs)).
Proof.
  intros Hi. pose proof (fo_off _ _ (ok_file _ Hok _ _ Hi)) as Hoff. destruct Hi as (H0 & Hc & _).
  pose proof (ok_used _ Hok). pose proof (ok_max _ Hok). pose proof (sh_data _ (ok_shape _ Hok)).
  unfold CAPACITY in *.
  assert (Hb : 0 <= n_data_offset nd /\ n_data_offset nd + 256 <= Z.of_nat (length (data fs))) by lia.
  destruct (slice_Some (data fs) (n_data_offset nd) 256) as (bs & Hs & Hl); [lia..|].
  cbn [entry snd a_store]. unfold CAPACITY. rewrite Hs. done.
Qed.

Lemma root_lookup_eq : exists nd, arr_get (nodes fs) 0 = Some nd /\ head (nodes fs) = Some nd /\ root_ok nd.
Proof.
  destruct (ok_root _ Hok) as (nd & Hn & Hr). exists nd. unfold arr_get. cbn. split_and!; [done| |done].
  by destruct (nodes fs).
Qed.

(** Looking a name up in the root directory. *)
Lemma child_files c :
  plain c -> 
  match child fs 0 c with
  | Some (i, nd) => is_filenode fs i nd /\ cstr (n_name nd) = c
  | None => files fs !! c = None
  end.
Proof.
  intros Hc. destruct (child fs 0 c) as [[i nd]|] eqn:Hch.
  - apply child_get in Hch as (Hget & Hi & Hu & _ & Hn). split; [|done].
    unfold arr_get in Hget. destruct (Z.ltb_spec (Z.of_nat i) 0); [lia|]. rewrite Nat2Z.id in Hget.
    split_and!; [|lia|done]. destruct i; [|lia]. exfalso.
    destruct (ok_root _ Hok) as (nd' & Hn' & Hr). simplify_eq. rewrite (ro_name _ Hr) in Hc.
    inversion Hc as [|? ? [_ ?]]; done.
  - apply eq_None_not_Some. intros [f Hf]. apply files_lookup in Hf as (i & nd & Hi & Hentry).
    unfold child in Hch. rewrite list_find_None in Hch.
    pose proof (ok_file _ Hok _ _ Hi) as Hfo. eapply (Forall_lookup_1 _ _ i nd Hch).
    + destruct Hi as (? & ? & Hi). apply lookup_take_Some. split; [done|lia].
    + unfold is_child. rewrite (fo_used _ _ Hfo), (fo_parent _ _ Hfo). unfold entry in Hentry. naive_solver.
Qed.

(** Path resolution in the flat tree. *)
Definition lookup_agree (r : Z + Z) (a : Z + option (list Z)) : Prop :=
  match r, a with
  | inl x, inl y => x = y
  | inr i, inr t => node_at fs i t
  | _, _ => False
  end.

Lemma lookup_flat p : no_nul p -> lookup_agree (lookup_ref fs p) (flat_lookup (files fs) p).
Proof.
  intros Hp. unfold lookup_ref, flat_lookup. destruct p as [|c p]; [done|].
  destruct (negb (c =? SLASH)); [done|]. destruct (MCS_MAX_PATH <=? Z.of_nat (length (c :: p))); [done|].
  inversion Hp as [|? ? _ Hp']; subst. destruct p as [|x p]; [done|]. destruct root_lookup_eq as (rt & _ & -> & Hr).
  cbn [fmap option_fmap option_map from_option id]. rewrite (ro_id _ Hr). cbn [id].
  assert (Hc : exists c cs, split_slash (x :: p) = c :: cs /\ plain c).
  { destruct (split_slash_cases _ Hp') as [[? Hs]|(c' & p' & ? & ? & ? & Hs)]; rewrite Hs; eauto. }
  destruct Hc as (k & cs & -> & Hk). cbn [resolve]. rewrite name_fits_bad, negb_involutive.
  destruct (bad_name_len (Z.of_nat (length k))); [done|]. pose proof (child_files k Hk) as Hch.
  destruct (child fs 0 k) as [[i nd]|].
  - destruct Hch as [Hi Hn]. pose proof (files_filenode _ _ Hi) as Hf. rewrite Hn in Hf. rewrite Hf.
    destruct cs as [|y ys].
    + cbn. exists nd. rewrite Nat2Z.id. split_and!; [destruct Hi; lia|done|done].
    + rewrite (fo_type _ _ (ok_file _ Hok _ _ Hi)). done.
  - by rewrite Hch.
Qed.

End abstraction.

Section change.
Context (fs : mcs_ramfs) (Hok : fs_ok fs).

(** ** Changing one file: its size, and bytes of its own region *)

Definition update_file (i : nat) (nd : mcs_vnode) (sz : Z) (d : list Z) : mcs_ramfs :=
  mk_ramfs (<[i := set_n_size sz nd]> (nodes fs)) (node_count fs) d (data_used fs).

Section update.
Context (i : nat) (nd : mcs_vnode) (sz : Z) (d : list Z).
Context (Hi : is_filenode fs i nd) (Hsz : 0 <= sz <= CAPACITY) (Hd : length d = length (data fs)).
Context (Hsame : forall k, ~ n_data_offset nd <= Z.of_nat k < n_data_offset nd + CAPACITY ->
  d !! k = data fs !! k).

Lemma update_filenode j x :
  is_filenode (update_file i nd sz d) j x <->
  exists y, is_filenode fs j y /\ x = if decide (i = j) then set_n_size sz nd else y.
Proof.
  clear -Hi.
  pose proof Hi as (_ & _ & Hn). unfold is_filenode, update_file. cbn [nodes node_count].
  rewrite (lookup_insert_at _ _ _ _ _ Hn). case_decide as Hij; [subst j|]; naive_solver.
Qed.

Lemma update_node_at j t : node_at fs j t -> node_at (update_file i nd sz d) j t.
Proof.
  clear -Hi.
  destruct t as [nm|]; [|done]. intros (y & Hj & Hy & Hn). eexists. split; [done|]. split.
  - apply update_filenode. eauto.
  - case_decide; [|done]. subst i. by rewrite (filenode_inj _ _ _ _ Hy Hi) in Hn.
Qed.

Lemma update_ok : fs_ok (update_file i nd sz d).
Proof.
  pose proof (ok_file _ Hok _ _ Hi) as Hfo. pose proof Hi as (Hi0 & Hic & Hin). destruct Hok as [[Hs1 Hs2 Hs3 Hs4] Hu Hm Hr Hf Hnm Hz].
  split.
  - split; cbn [update_file nodes node_count data].
    + by rewrite length_insert.
    + done.
    + apply Forall_insert; [done|]. exact (Forall_lookup_1 _ _ _ _ Hs3 Hin).
    + by rewrite Hd.
  - done.
  - done.
  - destruct Hr as (rt & Hrt & Hro). exists rt. split; [|done]. cbn [update_file nodes].
    rewrite list_lookup_insert_ne by lia. done.
  - intros j x (y & Hj & ->)%update_filenode. case_decide as Hij; [|by apply Hf]. subst j.
    destruct Hfo. by split.
  - intros j k x y (x' & Hj & ->)%update_filenode (y' & Hk & ->)%update_filenode He.
    apply (Hnm j k x' y' Hj Hk).
    repeat case_decide; subst; cbn [set_n_size n_name] in He;
      rewrite ?(filenode_inj _ _ _ _ Hj Hi), ?(filenode_inj _ _ _ _ Hk Hi); done.
  - cbn [update_file data_used data]. intros k Hk. rewrite Hsame; [by apply Hz|].
    pose proof (fo_off _ _ Hfo). unfold CAPACITY in *. lia.
Qed.

Lemma update_entry j y :
  is_filenode fs j y -> j <> i -> entry (update_file i nd sz d) y = entry fs y.
Proof.
  intros Hj Hne. unfold entry. cbn [update_file data]. do 3 f_equal. apply slice_ext; [done|].
  intros k Hk. apply Hsame. rewrite (fo_off _ _ (ok_file _ Hok _ _ Hj)) in Hk.
  rewrite (fo_off _ _ (ok_file _ Hok _ _ Hi)). destruct Hj as (? & _). unfold CAPACITY in *. lia.
Qed.

Lemma update_files st :
  slice d (n_data_offset nd) CAPACITY = Some st ->
  files (update_file i nd sz d) = <[cstr (n_name nd) := mk_afile sz st]> (files fs).
Proof.
  intros Hst. apply map_eq. intros nm. apply option_eq. intros f.
  assert (Hent : entry (update_file i nd sz d) (set_n_size sz nd) = (cstr (n_name nd), mk_afile sz st)).
  { unfold entry. cbn [set_n_size n_name n_size n_data_offset update_file data]. by rewrite Hst. }
  pose proof update_ok as Hok'. rewrite lookup_insert_Some. split.
  - intros (j & x & (y & Hj & ->)%update_filenode & He)%(files_lookup _ Hok').
    case_decide as Hij.
    + left. rewrite Hent in He. by simplify_eq.
    + right. rewrite (update_entry _ _ Hj) in He by done. split; [|apply (files_lookup _ Hok); eauto].
      intros Heq. apply Hij, (ok_names _ Hok i j nd y Hi Hj). unfold entry in He. naive_solver.
  - rewrite (files_lookup _ Hok'). intros [[<- <-]|[Hne (j & y & Hj & He)%(files_lookup _ Hok)]].
    + exists i, (set_n_size sz nd). split; [|done]. apply update_filenode. exists nd. by rewrite decide_True.
    + assert (i <> j). { intros <-. rewrite (filenode_inj _ _ _ _ Hj Hi) in He. unfold entry in He. naive_solver. }
      exists j, y. split; [apply update_filenode; exists y; by rewrite decide_False|].
      by rewrite (update_entry _ _ Hj) by done.
Qed.

End update.

End change.

(** ** Creating a file *)

Lemma cstr_pad c n : no_nul c -> cstr (c ++ replicate n NUL) = c.
Proof.
  induction 1 as [|x c Hx _ IH]; [by destruct n|]. cbn [app cstr]. destruct (Z.eqb_spec x NUL); [done|]. by rewrite IH.
Qed.

Lemma copy_name_spec c rest :
  plain c -> Z.of_nat (length c) < MCS_MAX_NAME ->
  exists nm, mcs_copy_name (c ++ rest) (Z.of_nat (length c)) = Some nm /\
    Z.of_nat (length nm) = MCS_MAX_NAME /\ cstr nm = c.
Proof.
  unfold MCS_MAX_NAME. intros Hc Hl. unfold mcs_copy_name, MCS_MAX_NAME.
  rewrite Z.min_l by lia. unfold slice. rewrite (proj2 (in_buf_true _ _ _)) by (rewrite length_app; lia).
  rewrite drop_0, Nat2Z.id, take_app_length. cbn [mbind option_bind].
  rewrite splice_Some by (rewrite ?length_replicate; lia). change (Z.to_nat 0) with 0%nat.
  rewrite take_0, Nat.add_0_l, drop_replicate. cbn [app]. eexists. split_and!; [done| |].
  - rewrite length_app, length_replicate. lia.
  - by apply cstr_pad, plain_no_nul.
Qed.

Definition new_node (fs : mcs_ramfs) (nm : list Z) : mcs_vnode :=
  mk_node 1 (u32 (node_count fs)) 0 MCS_VNODE_FILE nm 0 (data_used fs) CAPACITY.

Definition with_node (fs : mcs_ramfs) (nm : list Z) : mcs_ramfs :=
  mk_ramfs (<[Z.to_nat (node_count fs) := new_node fs nm]> (nodes fs)) (node_count fs + 1) (data fs)
    (data_used fs + CAPACITY).

Section create.
Context (fs : mcs_ramfs) (Hok : fs_ok fs).
Context (c : list Z) (Hc : plain c) (Hlen : 0 < Z.of_nat (length c) < MCS_MAX_NAME).

Lemma count_bound : 1 <= node_count fs <= 33.
Proof.
  pose proof (sh_count _ (ok_shape _ Hok)). pose proof (ok_used _ Hok) as Hu. pose proof (ok_max _ Hok) as Hm.
  unfold CAPACITY, MCS_RAMFS_DATA_BYTES in *. lia.
Qed.

Lemma good_len : bad_name_len (Z.of_nat (length c)) = false.
Proof. unfold bad_name_len. destruct (Z.eqb_spec (Z.of_nat (length c)) 0), (Z.leb_spec MCS_MAX_NAME (Z.of_nat (length c))); try lia; done. Qed.

(** The three guards of [mcs_alloc_node]: only space can run out. *)
Lemma alloc_guards rest :
  mcs_alloc_node fs 0 MCS_VNODE_FILE (c ++ rest) (Z.of_nat (length c)) 256 =
  if 32 <=? Z.of_nat (size (files fs)) then Some (inl MCS_ENOSPC, fs) else
  nm ← mcs_copy_name (c ++ rest) (Z.of_nat (length c));
  Some (inr (node_count fs), with_node fs nm).
Proof.
  pose proof count_bound as Hcb. pose proof (size_files _ Hok) as Hs. pose proof (ok_used _ Hok) as Hu.
  pose proof (sh_nodes _ (ok_shape _ Hok)) as Hn. unfold CAPACITY, MCS_MAX_NODES in *.
  unfold mcs_alloc_node. rewrite good_len. destruct (Z.leb_spec MCS_MAX_NODES (node_count fs)); [unfold MCS_MAX_NODES in *; lia|].
  rewrite (wrap_small 64 (data_used fs + 256)) by (unfold in_u; lia).
  change (is_file MCS_VNODE_FILE) with true. cbn [andb].
  destruct (Z.ltb_spec MCS_RAMFS_DATA_BYTES (data_used fs + 256)) as [Hx|Hx];
    destruct (Z.leb_spec 32 (Z.of_nat (size (files fs)))); unfold MCS_RAMFS_DATA_BYTES in *; try lia; [done|].
  destruct (mcs_copy_name _ _) as [nm|]; [|done]. cbn [mbind option_bind].
  rewrite arr_set_Some by lia. cbn [mbind option_bind]. unfold with_node, new_node, CAPACITY.
  by rewrite (wrap_small 64) by (unfold in_u; lia).
Qed.

Section with_node.
Context (nm : list Z) (Hnm : Z.of_nat (length nm) = MCS_MAX_NAME) (Hcs : cstr nm = c).
Context (Hfree : files fs !! c = None) (Hroom : Z.of_nat (size (files fs)) < 32).

Lemma with_filenode j x :
  is_filenode (with_node fs nm) j x <->
  is_filenode fs j x \/ (j = Z.to_nat (node_count fs) /\ x = new_node fs nm).
Proof.
  pose proof count_bound as Hcb. pose proof (sh_nodes _ (ok_shape _ Hok)) as Hn. unfold MCS_MAX_NODES in Hn.
  unfold is_filenode, with_node. cbn [nodes node_count]. rewrite list_lookup_insert.
  case_decide as Hj; naive_solver lia.
Qed.

Lemma with_node_at j t : node_at fs j t -> node_at (with_node fs nm) j t.
Proof.
  destruct t as [k|]; [|done]. intros (nd & ? & ? & ?). exists nd. rewrite with_filenode. auto.
Qed.

Lemma with_node_new : node_at (with_node fs nm) (node_count fs) (Some c).
Proof.
  pose proof count_bound. exists (new_node fs nm). rewrite with_filenode. split_and!; [lia|auto|done].
Qed.

Lemma with_node_ok : fs_ok (with_node fs nm).
Proof.
  pose proof count_bound as Hcb. pose proof (size_files _ Hok) as Hs.
  destruct (ok_shape _ Hok) as [Hs1 Hs2 Hs3 Hs4]. pose proof (ok_used _ Hok) as Hu. unfold CAPACITY, MCS_MAX_NODES in *.
  split.
  - split; cbn [with_node nodes node_count data]; unfold MCS_MAX_NODES; [by rewrite length_insert|lia| |done].
    by apply Forall_insert.
  - cbn [with_node data_used node_count]. unfold CAPACITY. lia.
  - cbn [with_node data_used]. unfold CAPACITY, MCS_RAMFS_DATA_BYTES. lia.
  - destruct (ok_root _ Hok) as (rt & ? & ?). exists rt. split; [|done]. cbn [with_node nodes].
    rewrite list_lookup_insert_ne by lia. done.
  - intros j x [Hj|[-> ->]]%with_filenode; [by apply (ok_file _ Hok)|].
    split; cbn [new_node n_used n_id n_parent n_type n_name n_size n_data_offset n_data_capacity]; rewrite ?Hcs;
      unfold CAPACITY; try done; try lia.
    rewrite wrap_small by (unfold in_u; lia). lia.
  - intros j k x y [Hj|[-> ->]]%with_filenode [Hk|[-> ->]]%with_filenode He; [by apply (ok_names _ Hok j k x y)| | |done].
    + cbn [new_node n_name] in He. rewrite Hcs in He. apply (files_filenode _ Hok) in Hj. rewrite He in Hj. by rewrite Hj in Hfree.
    + cbn [new_node n_name] in He. rewrite Hcs in He. apply (files_filenode _ Hok) in Hk. rewrite <- He in Hk. by rewrite Hk in Hfree.
  - cbn [with_node data_used data]. intros k Hk. apply (ok_zero _ Hok). unfold CAPACITY in Hk. lia.
Qed.

Lemma new_entry : entry (with_node fs nm) (new_node fs nm) = (c, empty_file).
Proof.
  pose proof count_bound as Hcb. pose proof (size_files _ Hok) as Hs. pose proof (ok_used _ Hok) as Hu.
  pose proof (sh_data _ (ok_shape _ Hok)) as Hd. unfold CAPACITY, MCS_RAMFS_DATA_BYTES in *.
  unfold entry. cbn [new_node n_name n_size n_data_offset with_node data]. rewrite Hcs. unfold empty_file. do 2 f_equal.
  destruct (slice_Some (data fs) (data_used fs) CAPACITY) as (bs & Hbs & Hl); [unfold CAPACITY; lia..|].
  rewrite Hbs. cbn [default from_option id]. apply list_eq. intros k.
  unfold slice in Hbs. rewrite (proj2 (in_buf_true _ _ _)) in Hbs by (unfold CAPACITY; lia). injection Hbs as <-.
  destruct (decide (k < Z.to_nat CAPACITY)%nat) as [Hk|Hk].
  - rewrite lookup_take_lt, lookup_drop by done. rewrite lookup_replicate_2 by done.
    apply (ok_zero _ Hok). unfold CAPACITY, MCS_RAMFS_DATA_BYTES in *. lia.
  - rewrite lookup_take_ge by lia. symmetry. apply lookup_ge_None_2. rewrite length_replicate. lia.
Qed.

Lemma with_node_files : files (with_node fs nm) = <[c := empty_file]> (files fs).
Proof.
  pose proof with_node_ok as Hok'. apply map_eq. intros k. apply option_eq. intros f.
  rewrite lookup_insert_Some, (files_lookup _ Hok'), (files_lookup _ Hok). split.
  - intros (j & x & [Hj|[-> ->]]%with_filenode & He).
    + right. split; [|by eauto]. intros <-. apply (files_filenode _ Hok) in Hj. unfold entry in He. injection He as He _.
      rewrite He in Hj. by rewrite Hj in Hfree.
    + left. rewrite new_entry in He. by simplify_eq.
  - intros [[<- <-]|[_ (j & x & Hj & He)]].
    + exists (Z.to_nat (node_count fs)), (new_node fs nm). rewrite with_filenode. split; [auto|apply new_entry].
    + exists j, x. rewrite with_filenode. auto.
Qed.

End with_node.

End create.

(** Where a missing path would be created. *)
Lemma split_flat fs p rest rc :
  fs_ok fs -> no_nul p -> flat_lookup (files fs) p = inl rc ->
  mcs_split_parent_leaf fs (p ++ NUL :: rest) =
  Some (match split_slash (tail p) with
        | [c] => if rc =? MCS_ENOENT then inr (0, c ++ NUL :: rest, Z.of_nat (length c)) else inl rc
        | _ => inl rc
        end).
Proof.
  intros Hok Hp. unfold flat_lookup, mcs_split_parent_leaf. destruct p as [|x p]; [by intros [= <-]|].
  change (arr_get ((x :: p) ++ NUL :: rest) 0) with (Some x). cbn [mbind option_bind tail].
  inversion Hp as [|? ? _ Hp']; subst.
  destruct (Z.eqb_spec x SLASH) as [->|]; cbn [negb].
  2: { intros [= <-]. by destruct (split_slash p) as [|? [|??]]. }
  change (mcs_strlen (Some ((SLASH :: p) ++ NUL :: rest))) with (strlen ((SLASH :: p) ++ NUL :: rest)).
  rewrite strlen_app by done. destruct p as [|y p]; [by destruct (MCS_MAX_PATH <=? _) eqn:E|].
  change (arr_get ((SLASH :: y :: p) ++ NUL :: rest) 1) with (Some y). cbn [mbind option_bind].
  inversion Hp' as [|? ? Hy _]; subst. destruct (Z.eqb_spec y NUL); [done|].
  destruct (MCS_MAX_PATH <=? Z.of_nat (length (SLASH :: y :: p))).
  { intros [= <-]. by destruct (split_slash (y :: p)) as [|? [|??]]. }
  change (tail ((SLASH :: y :: p) ++ NUL :: rest)) with ((y :: p) ++ NUL :: rest).
  cbn [length app split_loop].
  change (y :: p ++ NUL :: rest) with ((y :: p) ++ NUL :: rest).
  destruct (split_slash_cases _ Hp') as [[Hpl ->]|(c & p' & Hc & Hp1 & Heq & Hsp)].
  - rewrite seg_scan_app by auto. cbn [mbind option_bind].
    rewrite name_fits_bad, negb_involutive. destruct (bad_name_len (Z.of_nat (length (y :: p)))); [by intros [= <-]|].
    destruct (files fs !! (y :: p)); [done|]. by intros [= <-].
  - rewrite Hsp, Heq, <- app_assoc. cbn [app]. rewrite seg_scan_app by auto. cbn [mbind option_bind].
    destruct (split_slash p') as [|z zs] eqn:E; [by destruct (split_slash_nonempty p')|].
    rewrite name_fits_bad, negb_involutive. destruct (bad_name_len (Z.of_nat (length c))) eqn:Hb; [by intros [= <-]|].
    cbn [head hd_error mbind option_bind]. destruct (root_lookup_eq fs Hok) as (rt & -> & _ & Hr). cbn [mbind option_bind].
    rewrite (find_child_spec fs (ok_shape _ Hok)) by (by apply plain_no_nul). rewrite Hb, (ro_id _ Hr).
    cbn [mbind option_bind]. pose proof (child_files fs Hok c Hc) as Hch.
    destruct (child fs 0 c) as [[i nd]|] eqn:Hch'.
    + destruct Hch as [Hi Hn]. pose proof (files_filenode _ Hok _ _ Hi) as Hf. rewrite Hn in Hf. rewrite Hf.
      apply child_get in Hch' as (-> & _ & _). cbn [mbind option_bind].
      rewrite (fo_type _ _ (ok_file _ Hok _ _ Hi)). by intros [= <-].
    + rewrite Hch. by intros [= <-].
Qed.

Lemma lookup_code fs p rest :
  fs_ok fs -> no_nul p ->
  exists r, mcs_ramfs_lookup (Some fs) (Some (p ++ NUL :: rest)) true = Some r /\
    lookup_agree fs r (flat_lookup (files fs) p).
Proof.
  intros Hok Hp. exists (lookup_ref fs p). split; [by apply lookup_spec; [apply ok_shape|]|by apply lookup_flat].
Qed.

Lemma node_at_get fs i t :
  fs_ok fs -> node_at fs i t ->
  exists nd, arr_get (nodes fs) i = Some nd /\
    match t with
    | None => root_ok nd
    | Some nm => is_filenode fs (Z.to_nat i) nd /\ cstr (n_name nd) = nm
    end.
Proof.
  intros Hok. destruct t as [nm|].
  - intros (nd & Hi & Hf & Hn). exists nd. split; [|done]. destruct Hf as (_ & _ & Hf). unfold arr_get.
    destruct (Z.ltb_spec i 0); [lia|done].
  - intros ->. destruct (root_lookup_eq fs Hok) as (nd & ? & _ & ?). eauto.
Qed.

(** What [mcs_ramfs_create_file] does to the abstract file system. *)
Lemma create_spec fs p rest :
  fs_ok fs -> no_nul p ->
  exists r fs', mcs_ramfs_create_file (Some fs) (Some (p ++ NUL :: rest)) true = Some (r, Some fs') /\
    fs_ok fs' /\ files fs' = snd (flat_create (files fs) p) /\
    lookup_agree fs' r (fst (flat_create (files fs) p)) /\
    forall j t, node_at fs j t -> node_at fs' j t.
Proof.
  intros Hok Hp. unfold mcs_ramfs_create_file, flat_create. cbn [negb].
  destruct (lookup_code fs p rest Hok Hp) as (r & -> & Hag). cbn [mbind option_bind].
  destruct r as [rc|i]; cbn [lookup_agree] in Hag; destruct (flat_lookup (files fs) p) as [rc'|t] eqn:Hfl; try done.
  - subst rc'. unfold create_new. rewrite (split_flat fs p rest rc Hok Hp Hfl). cbn [mbind option_bind].
    destruct (split_slash (tail p)) as [|c [|]] eqn:Hsp; [eexists _, _; by split_and!| |eexists _, _; by split_and!].
    destruct (Z.eqb_spec rc MCS_ENOENT) as [->|]; [|eexists _, _; by split_and!].
    destruct (root_lookup_eq fs Hok) as (rt & -> & _ & Hr). cbn [mbind option_bind].
    rewrite (ro_type _ Hr), (ro_id _ Hr). change (negb _) with false. cbn [negb].
    assert (Hc : plain c /\ 0 < Z.of_nat (length c) < MCS_MAX_NAME /\ files fs !! c = None).
    { unfold flat_lookup in Hfl. destruct p as [|x p]; [done|]. destruct (negb _); [done|]. destruct (_ <=? _); [done|].
      destruct p as [|y p]; [done|]. cbn [tail] in Hsp. inversion Hp as [|? ? _ Hp']; subst. rewrite Hsp in Hfl.
      destruct (split_slash_cases _ Hp') as [[Hpl Hs]|(c' & p' & Hc & _ & _ & Hs)]; rewrite Hs in Hsp; simplify_eq.
      - rewrite name_fits_bad, negb_involutive in Hfl. unfold bad_name_len in Hfl. destruct (Z.eqb_spec (Z.of_nat (length (y :: p))) 0); [done|].
        destruct (Z.leb_spec MCS_MAX_NAME (Z.of_nat (length (y :: p)))); [done|]. cbn [orb] in Hfl.
        split_and!; [done|lia|lia|]. by destruct (files fs !! (y :: p)).
      - by destruct (split_slash_nonempty p'). }
    destruct Hc as (Hc & Hl & Hnone). rewrite (alloc_guards fs Hok c Hl).
    destruct (Z.leb_spec 32 (Z.of_nat (size (files fs)))) as [|Hroom]; [eexists _, _; by split_and!|].
    destruct (copy_name_spec c (NUL :: rest) Hc (proj2 Hl)) as (nm & -> & Hnl & Hcs). cbn [mbind option_bind fst snd].
    eexists _, _. split_and!; [done| | | |].
    + by eapply with_node_ok.
    + by eapply with_node_files.
    + by eapply with_node_new.
    + intros j t. by eapply with_node_at.
  - destruct (node_at_get _ _ _ Hok Hag) as (nd & -> & Hnd). cbn [mbind option_bind]. destruct t as [nm|].
    + destruct Hnd as [Hi Hn]. rewrite (fo_type _ _ (ok_file _ Hok _ _ Hi)).
      change (is_file MCS_VNODE_FILE) with true. cbn [negb]. eexists _, _. split_and!; done.
    + rewrite (ro_type _ Hnd). change (is_file MCS_VNODE_DIR) with false. cbn [negb]. eexists _, _. split_and!; done.
Qed.

(** ** Initialisation and seeding *)

Lemma ramfs_init_spec fs :
  Z.of_nat (length (nodes fs)) = MCS_MAX_NODES ->
  Forall (fun nd => Z.of_nat (length (n_name nd)) = MCS_MAX_NAME) (nodes fs) ->
  Z.of_nat (length (data fs)) = MCS_RAMFS_DATA_BYTES ->
  exists fs', mcs_ramfs_init (Some fs) = Some fs' /\ fs_ok fs' /\ files fs' = ∅.
Proof.
  unfold MCS_MAX_NODES, MCS_MAX_NAME, MCS_RAMFS_DATA_BYTES. intros Hn Hnm Hd. eexists. split; [done|].
  assert (Hnone : forall i x,
    ~ is_filenode (mk_ramfs (alter root_node 0%nat (map clear_node (nodes fs))) 1 (map (fun _ => 0) (data fs)) 0) i x).
  { unfold is_filenode. cbn [node_count]. intros i x (? & ? & _). lia. }
  destruct (nodes fs) as [|r l] eqn:Hl; [simpl in Hn; lia|]. inversion Hnm as [|? ? Hr Hl']; subst. split; [split|].
  - split; cbn [nodes node_count data map alter list_alter]; unfold MCS_MAX_NODES, MCS_MAX_NAME, MCS_RAMFS_DATA_BYTES.
    + rewrite <- Hn. simpl. by rewrite length_map.
    + lia.
    + constructor; [cbn; by rewrite !length_insert|]. apply Forall_map. revert Hl'. apply Forall_impl.
      intros nd Hx. cbn. by rewrite length_insert.
    + by rewrite length_map.
  - done.
  - done.
  - eexists. split; [done|]. destruct (n_name r) as [|a [|b nm]] eqn:E; [simpl in Hr; lia..|].
    unfold root_node, clear_node. rewrite E. by split.
  - intros i x Hx. by apply Hnone in Hx.
  - intros i j x y Hx. by apply Hnone in Hx.
  - cbn [data_used data]. unfold MCS_RAMFS_DATA_BYTES. intros i Hi.
    destruct (lookup_lt_is_Some_2 (data fs) i) as [b Hb]; [lia|].
    change (map (fun _ : Z => 0) (data fs)) with ((fun _ : Z => 0) <$> data fs).
    by rewrite list_lookup_fmap, Hb.
  - done.
Qed.

(** Writing inside the region of one file. *)
Lemma write_region fs i nd off bs :
  fs_ok fs -> is_filenode fs i nd -> 0 <= off -> off + Z.of_nat (length bs) <= CAPACITY ->
  exists d st, splice (data fs) (n_data_offset nd + off) bs = Some d /\
    splice (a_store (snd (entry fs nd))) off bs = Some st /\
    slice d (n_data_offset nd) CAPACITY = Some st /\ length d = length (data fs) /\
    forall k, ~ n_data_offset nd <= Z.of_nat k < n_data_offset nd + CAPACITY -> d !! k = data fs !! k.
Proof.
  intros Hok Hi Hoff Hlen. destruct (store_slice fs Hok i nd Hi) as (Hst & Hstl & H0 & Hb).
  set (base := n_data_offset nd) in *. set (stn := a_store (snd (entry fs nd))) in *. clearbody base stn.
  unfold CAPACITY in *.
  destruct (splice (data fs) (base + off) bs) as [d|] eqn:Hd; [|by rewrite splice_Some in Hd by lia].
  destruct (splice stn off bs) as [st|] eqn:Hs; [|by rewrite splice_Some in Hs by lia].
  pose proof (length_splice _ _ _ _ Hd) as Hdl. pose proof (length_splice _ _ _ _ Hs) as Hsl.
  exists d, st. split_and!; [done|done| |done|].
  - destruct (slice_Some d base 256) as (x & Hx & Hxl); [lia..|]. rewrite Hx. f_equal.
    unfold slice in Hx, Hst. rewrite (proj2 (in_buf_true _ _ _)) in Hx by lia. rewrite (proj2 (in_buf_true _ _ _)) in Hst by lia.
    injection Hx as <-. injection Hst as <-. apply list_eq. intros k. rewrite (lookup_splice _ _ _ _ _ Hs).
    destruct (decide (k < 256)%nat).
    + rewrite lookup_take_lt, lookup_drop by lia. rewrite (lookup_splice _ _ _ _ _ Hd).
      rewrite lookup_take_lt, lookup_drop by lia. do 2 case_decide; try lia; [f_equal; lia|done].
    + rewrite !lookup_take_ge by lia. case_decide; [|done]. lia.
  - intros k Hk. rewrite (lookup_splice _ _ _ _ _ Hd). rewrite decide_False; [done|]. lia.
Qed.

Definition flat_seed (F : gmap (list Z) afile) (p bs : list Z) : Z * gmap (list Z) afile :=
  match flat_create F p with
  | (inl rc, F) => (rc, F)
  | (inr None, F) => (MCS_EISDIR, F)
  | (inr (Some c), F) =>
      let len := Z.of_nat (length bs) in
      if CAPACITY <? len then (MCS_ENOSPC, F)
      else (MCS_OK, <[c := mk_afile len (bs ++ drop (length bs) (a_store (default empty_file (F !! c))))]> F)
  end.

Lemma flat_create_not_root F p : fst (flat_create F p) <> inr None.
Proof.
  unfold flat_create. destruct (flat_lookup F p) as [rc|[c|]]; [|done|done].
  destruct (split_slash (tail p)) as [|c [|]]; [done| |done]. destruct (rc =? MCS_ENOENT); [|done].
  by destruct (32 <=? Z.of_nat (size F)).
Qed.

Lemma set_node_filenode fs i nd x :
  fs_ok fs -> is_filenode fs i nd -> set_node fs (Z.of_nat i) x =
  Some (mk_ramfs (<[i := x]> (nodes fs)) (node_count fs) (data fs) (data_used fs)).
Proof.
  intros Hok (_ & _ & Hi). unfold set_node. pose proof (lookup_lt_Some _ _ _ Hi).
  rewrite arr_set_Some by lia. by rewrite Nat2Z.id.
Qed.

Lemma seed_spec fs p rest bs :
  fs_ok fs -> no_nul p ->
  exists fs', mcs_ramfs_seed_file (Some fs) (Some (p ++ NUL :: rest)) (Some bs) (Z.of_nat (length bs)) =
      Some (fst (flat_seed (files fs) p bs), Some fs') /\
    fs_ok fs' /\ files fs' = snd (flat_seed (files fs) p bs) /\ (forall j t, node_at fs j t -> node_at fs' j t).
Proof.
  intros Hok Hp. unfold mcs_ramfs_seed_file, flat_seed. change (bool_decide (Some bs = None)) with false. cbn [andb].
  destruct (create_spec fs p rest Hok Hp) as (r & fs1 & -> & Hok1 & Hf1 & Hag & Hna). cbn [mbind option_bind].
  pose proof (flat_create_not_root (files fs) p) as Hnr.
  destruct (flat_create (files fs) p) as [[rc'|t] F']; cbn [fst snd] in *; destruct r as [rc|i]; cbn [lookup_agree] in Hag; try done.
  - subst. by exists fs1.
  - destruct t as [nm|]; [|done]. pose proof Hag as (nd & Hi & Hfn & Hnm). cbn [mbind option_bind].
    destruct (node_at_get _ _ _ Hok1 Hag) as (nd' & -> & Hfn' & _). rewrite (filenode_inj _ _ _ _ Hfn' Hfn). clear nd' Hfn'.
    cbn [mbind option_bind]. rewrite (fo_cap _ _ (ok_file _ Hok1 _ _ Hfn)).
    destruct (Z.ltb_spec CAPACITY (Z.of_nat (length bs))); [by exists fs1|].
    destruct (write_region fs1 _ nd 0 bs Hok1 Hfn) as (d & st & Hd & Hst & Hsl & Hdl & Hsame); [lia..|].
    unfold mcs_copy_bytes. cbn [default from_option id]. rewrite slice_all by done. cbn [mbind option_bind].
    rewrite Z.add_0_r in Hd. rewrite Hd. cbn [mbind option_bind].
    unfold set_node. destruct (Hfn) as (_ & _ & Hl). pose proof (lookup_lt_Some _ _ _ Hl).
    cbn [set_data nodes node_count data data_used]. rewrite arr_set_Some by lia. cbn [mbind option_bind].
    eexists. split; [done|]. split_and!.
    + apply (update_ok fs1 Hok1 _ _ (Z.of_nat (length bs)) d Hfn); [lia|done|done].
    + etrans; [apply (update_files fs1 Hok1 _ _ (Z.of_nat (length bs)) d Hfn); [lia|done|done|done]|].
      cbn [snd]. rewrite Hf1, Hnm. f_equal. f_equal. rewrite <- Hf1, <- Hnm, (files_filenode _ Hok1 _ _ Hfn).
      apply splice_inv in Hst as (_ & _ & ->). done.
    + intros j t Hj. exact (update_node_at fs1 _ _ (Z.of_nat (length bs)) d Hfn j t (Hna j t Hj)).
Qed.

(** [mcs_ramfs_lookup] on a NUL-terminated path terminates without
    undefined behaviour and returns what resolving the path component by
    component gives: the empty component, the component of 32 bytes or more,
    the path of 128 bytes or more, the missing name and the non-directory in
    the middle each have their own error.  It holds for any tree of nodes,
    directories below the root included, and for any bytes after the NUL. *)
Theorem ramfs_lookup_resolves fs p rest :
  fs_shape fs -> no_nul p ->
  mcs_ramfs_lookup (Some fs) (Some (p ++ NUL :: rest)) true = Some (lookup_ref fs p).
Proof. intros Hs. by apply lookup_spec. Qed.

(** A tree with a directory [/d] and a file [/d/f]. *)
Definition name_buf (nm : list Z) : list Z := nm ++ replicate (32 - length nm) 0.

Definition sample_tree : mcs_ramfs :=
  mk_ramfs
    ([mk_node 1 0 0 MCS_VNODE_DIR (name_buf [47]) 0 0 0;
      mk_node 1 1 0 MCS_VNODE_DIR (name_buf [100]) 0 0 0;
      mk_node 1 2 1 MCS_VNODE_FILE (name_buf [102]) 0 0 256] ++
     replicate 61 (mk_node 0 0 0 MCS_VNODE_FILE (name_buf []) 0 0 0))
    3 (replicate (Z.to_nat MCS_RAMFS_DATA_BYTES) 0) 256.

Lemma ramfs_lookup_resolves_witness :
  mcs_ramfs_lookup (Some sample_tree) (Some ([47; 100; 47; 102] ++ NUL :: [9; 9])) true = Some (inr 2) /\
  mcs_ramfs_lookup (Some sample_tree) (Some ([47; 100; 47; 102; 47] ++ NUL :: [])) true = Some (inl MCS_ENOTDIR).
Proof.
  assert (Hs : fs_shape sample_tree).
  { split; [by vm_compute| |  |by vm_compute].
    - unfold MCS_MAX_NODES. cbn. lia.
    - unfold sample_tree. cbn [nodes]. apply Forall_app. split; [repeat constructor|by apply Forall_replicate]. }
  split; (etrans; [apply (ramfs_lookup_resolves sample_tree); [exact Hs|repeat constructor; done]|by vm_compute]).
Defined.

End Ramfs.
