(* ===== verification/Vfs.v ===== *)
(** * File descriptors and the VFS calls ([kernel/vfs/fd.c])

    The state is the file system and the descriptor table of the process.
    [f_node] is the index of the open node, [f_fs] whether the file-system
    pointer is set (there is one file system).  A boolean argument [table] or
    [proc] says whether that pointer is not [NULL].  Undefined behaviour
    (reading past a buffer, signed overflow in [lseek]) is [None].

    The abstract specification is a map from names to files and a map from
    descriptors to (flags, offset, object); [vfs_refines_files] shows that
    every call behaves as its abstract counterpart, error codes included. *)
From S2P Require Import Prelude Bitmap Bytes Ramfs.
From stdpp Require Import base gmap list numbers option.
From Stdlib Require Import ZArith Lia.

Open Scope Z_scope.

Module Vfs.
Import Ramfs.

(** ** Data *)

Definition MCS_MAX_OPEN_FILES : Z := 16.
Definition MCS_O_RDONLY : Z := 0x0001.
Definition MCS_O_WRONLY : Z := 0x0002.
Definition MCS_O_RDWR : Z := 0x0004.
Definition MCS_O_CREAT : Z := 0x0100.
Definition MCS_O_TRUNC : Z := 0x0200.
Definition MCS_O_APPEND : Z := 0x0400.
Definition MCS_SEEK_SET : Z := 0.
Definition MCS_SEEK_CUR : Z := 1.
Definition MCS_SEEK_END : Z := 2.

Record mcs_file := mk_file {
  f_used : Z;
  f_flags : Z;
  f_offset : Z;
  f_node : option Z;
  f_fs : bool
}.

Abbreviation mcs_fd_table := (list mcs_file).

Record vfs := mk_vfs { v_fs : mcs_ramfs; v_table : mcs_fd_table }.

Definition set_offset (v : Z) (f : mcs_file) : mcs_file :=
  mk_file (f_used f) (f_flags f) v (f_node f) (f_fs f).

Definition set_used (v : Z) (f : mcs_file) : mcs_file :=
  mk_file v (f_flags f) (f_offset f) (f_node f) (f_fs f).

Definition put_file (s : vfs) (fd : Z) (f : mcs_file) : option vfs :=
  t ← arr_set (v_table s) fd f; Some (mk_vfs (v_fs s) t).

Definition put_node (s : vfs) (i : Z) (nd : mcs_vnode) : option vfs :=
  fs ← set_node (v_fs s) i nd; Some (mk_vfs fs (v_table s)).

(** ** Helpers *)

Definition mcs_min_size (a b : Z) : Z := if a <? b then a else b.

(** The two copy loops, between [fs->data] at [off] and the start of a buffer. *)
Definition mcs_copy_to_user (dst : cptr) (src : list Z) (off n : Z) : option cptr :=
  bs ← slice src off n; splice dst 0 bs.

Definition mcs_copy_from_user (dst : list Z) (off : Z) (src : cptr) (n : Z) : option (list Z) :=
  bs ← slice src 0 n; splice dst off bs.

Definition flag (flags bit : Z) : bool := negb (Z.land flags bit =? 0).

Definition mcs_can_read (flags : Z) : bool := flag flags MCS_O_RDONLY || flag flags MCS_O_RDWR.
Definition mcs_can_write (flags : Z) : bool := flag flags MCS_O_WRONLY || flag flags MCS_O_RDWR.

Definition closed_file : mcs_file := mk_file 0 0 0 None false.

Definition mcs_fd_table_init (table : option mcs_fd_table) : option mcs_fd_table :=
  match table with
  | None => None
  | Some t => Some (map (fun _ => closed_file) t)
  end.

(** [Some None] is the null pointer. *)
Definition mcs_fd_get (table : bool) (t : mcs_fd_table) (fd : Z) : option (option mcs_file) :=
  if negb table || (fd <? 0) || (MCS_MAX_OPEN_FILES <=? fd) then Some None else
  f ← arr_get t fd;
  if f_used f =? 0 then Some None else Some (Some f).

Fixpoint fd_alloc_from (t : mcs_fd_table) (i : Z) (k : nat) : option (Z * mcs_fd_table) :=
  match k with
  | O => Some (MCS_ENFILE, t)
  | S k =>
      f ← arr_get t i;
      if f_used f =? 0 then t ← arr_set t i (set_used 1 f); Some (i, t)
      else fd_alloc_from t (i + 1) k
  end.

Definition mcs_fd_alloc (table : bool) (t : mcs_fd_table) : option (Z * mcs_fd_table) :=
  if negb table then Some (MCS_EINVAL, t) else fd_alloc_from t 0 (Z.to_nat MCS_MAX_OPEN_FILES).

(** ** open *)

(** From [fd = mcs_fd_alloc(table)] on. *)
Definition open_node (s : vfs) (node flags : Z) : option (Z * vfs) :=
  nd ← arr_get (nodes (v_fs s)) node;
  if bool_decide (n_type nd = MCS_VNODE_DIR) && mcs_can_write flags then Some (MCS_EISDIR, s) else
  '(fd, t) ← mcs_fd_alloc true (v_table s);
  let s := mk_vfs (v_fs s) t in
  if fd <? 0 then Some (fd, s) else
  f ← arr_get t fd;
  let f := mk_file (f_used f) flags (if flag flags MCS_O_APPEND then n_size nd else 0) (Some node) true in
  if flag flags MCS_O_TRUNC then
    if negb (mcs_can_write flags)
    then s ← put_file s fd (mk_file 0 (f_flags f) (f_offset f) None false); Some (MCS_EACCES, s)
    else
      s ← put_node s node (set_n_size 0 nd);
      s ← put_file s fd (set_offset 0 f);
      Some (fd, s)
  else s ← put_file s fd f; Some (fd, s).

Definition default_flags (flags : Z) : Z :=
  if Z.land flags (Z.lor (Z.lor MCS_O_RDONLY MCS_O_WRONLY) MCS_O_RDWR) =? 0
  then Z.lor flags MCS_O_RDONLY else flags.

Definition mcs_vfs_open (s : vfs) (table fs : bool) (path : option cptr) (flags : Z) : option (Z * vfs) :=
  if negb table || negb fs || bool_decide (path = None) then Some (MCS_EINVAL, s) else
  let flags := default_flags flags in
  r ← mcs_ramfs_lookup (Some (v_fs s)) path true;
  match r with
  | inr node => open_node s node flags
  | inl rc =>
      if negb (flag flags MCS_O_CREAT) then Some (rc, s) else
      '(r, fs) ← mcs_ramfs_create_file (Some (v_fs s)) path true;
      let s := mk_vfs (default (v_fs s) fs) (v_table s) in
      match r with
      | inl rc => Some (rc, s)
      | inr node => open_node s node flags
      end
  end.

(** ** read, write, lseek, close, dup *)

(** The common prologue of read and write: the open file, its node and the
    node's index, or the error to return. *)
Definition open_file (s : vfs) (table : bool) (fd : Z) (can : Z -> bool)
    : option (Z + mcs_file * Z * mcs_vnode) :=
  p ← mcs_fd_get table (v_table s) fd;
  match p with
  | None => Some (inl MCS_EBADF)
  | Some f =>
      if negb (can (f_flags f)) then Some (inl MCS_EACCES) else
      match f_node f with
      | None => Some (inl MCS_EINVAL)
      | Some i =>
          if negb (f_fs f) then Some (inl MCS_EINVAL) else
          nd ← arr_get (nodes (v_fs s)) i;
          if bool_decide (n_type nd = MCS_VNODE_DIR) then Some (inl MCS_EISDIR)
          else Some (inr (f, i, nd))
      end
  end.

Definition bad_buf (buf : option cptr) (len : Z) : bool := bool_decide (buf = None) && negb (len =? 0).

Definition mcs_vfs_read (s : vfs) (table : bool) (fd : Z) (buf : option cptr) (len : Z)
    : option (Z * option cptr * vfs) :=
  if bad_buf buf len then Some (MCS_EINVAL, buf, s) else
  r ← open_file s table fd mcs_can_read;
  match r with
  | inl rc => Some (rc, buf, s)
  | inr (f, _, nd) =>
      if n_size nd <=? f_offset f then Some (0, buf, s) else
      let remain := u64 (n_size nd - f_offset f) in
      let n := mcs_min_size len remain in
      b ← mcs_copy_to_user (default [] buf) (data (v_fs s)) (u64 (n_data_offset nd + f_offset f)) n;
      s ← put_file s fd (set_offset (u64 (f_offset f + n)) f);
      Some (s64 n, (fun _ => b) <$> buf, s)
  end.

(** From [if (file->offset > capacity)] on; the append flag has set the offset. *)
Definition write_at (s : vfs) (fd : Z) (f : mcs_file) (i : Z) (nd : mcs_vnode) (buf : cptr) (len : Z)
    : option (Z * vfs) :=
  if n_data_capacity nd <? f_offset f then s ← put_file s fd f; Some (MCS_EINVAL, s) else
  let n := mcs_min_size len (u64 (n_data_capacity nd - f_offset f)) in
  if n <? len then s ← put_file s fd f; Some (MCS_ENOSPC, s) else
  d ← mcs_copy_from_user (data (v_fs s)) (u64 (n_data_offset nd + f_offset f)) buf n;
  let off := u64 (f_offset f + n) in
  let s := mk_vfs (set_data (v_fs s) d) (v_table s) in
  s ← put_file s fd (set_offset off f);
  if n_size nd <? off then s ← put_node s i (set_n_size off nd); Some (s64 n, s)
  else Some (s64 n, s).

Definition mcs_vfs_write (s : vfs) (table : bool) (fd : Z) (buf : option cptr) (len : Z)
    : option (Z * vfs) :=
  if bad_buf buf len then Some (MCS_EINVAL, s) else
  r ← open_file s table fd mcs_can_write;
  match r with
  | inl rc => Some (rc, s)
  | inr (f, i, nd) =>
      let f := if flag (f_flags f) MCS_O_APPEND then set_offset (n_size nd) f else f in
      write_at s fd f i nd (default [] buf) len
  end.

Definition lseek_base (f : mcs_file) (nd : mcs_vnode) (whence : Z) : option Z :=
  if whence =? MCS_SEEK_SET then Some 0
  else if whence =? MCS_SEEK_CUR then Some (s64 (f_offset f))
  else if whence =? MCS_SEEK_END then Some (s64 (n_size nd))
  else None.

(** Addition of two [long]s; overflow is undefined. *)
Definition long_add (a b : Z) : option Z :=
  let r := a + b in if (- 2 ^ 63 <=? r) && (r <? 2 ^ 63) then Some r else None.

Definition mcs_vfs_lseek (s : vfs) (table : bool) (fd offset whence : Z) : option (Z * vfs) :=
  p ← mcs_fd_get table (v_table s) fd;
  match p with
  | None => Some (MCS_EBADF, s)
  | Some f =>
      match f_node f with
      | None => Some (MCS_EISDIR, s)
      | Some i =>
          nd ← arr_get (nodes (v_fs s)) i;
          if bool_decide (n_type nd = MCS_VNODE_DIR) then Some (MCS_EISDIR, s) else
          match lseek_base f nd whence with
          | None => Some (MCS_EINVAL, s)
          | Some base =>
              next ← long_add base offset;
              if next <? 0 then Some (MCS_EINVAL, s) else
              s ← put_file s fd (set_offset (u64 next) f);
              Some (s32 (u64 next), s)
          end
      end
  end.

Definition mcs_vfs_close (s : vfs) (table : bool) (fd : Z) : option (Z * vfs) :=
  p ← mcs_fd_get table (v_table s) fd;
  match p with
  | None => Some (MCS_EBADF, s)
  | Some _ => s ← put_file s fd closed_file; Some (MCS_OK, s)
  end.

Definition mcs_vfs_dup (s : vfs) (table : bool) (fd : Z) : option (Z * vfs) :=
  p ← mcs_fd_get table (v_table s) fd;
  match p with
  | None => Some (MCS_EBADF, s)
  | Some _ =>
      '(newfd, t) ← mcs_fd_alloc table (v_table s);
      let s := mk_vfs (v_fs s) t in
      if newfd <? 0 then Some (newfd, s) else
      f ← arr_get t fd;
      g ← arr_get t newfd;
      s ← put_file s newfd (mk_file (f_used g) (f_flags f) (f_offset f) (f_node f) (f_fs f));
      Some (newfd, s)
  end.

(** ** The calls on a process *)

Definition mcs_sys_open (s : vfs) (proc fs : bool) (user_path : option cptr) (flags : Z) : option (Z * vfs) :=
  if negb proc || negb fs || bool_decide (user_path = None) then Some (MCS_EINVAL, s)
  else mcs_vfs_open s true fs user_path flags.

Definition mcs_sys_read (s : vfs) (proc : bool) (fd : Z) (user_buf : option cptr) (len : Z)
    : option (Z * option cptr * vfs) :=
  if negb proc || bad_buf user_buf len then Some (MCS_EINVAL, user_buf, s)
  else mcs_vfs_read s true fd user_buf len.

Definition mcs_sys_write (s : vfs) (proc : bool) (fd : Z) (user_buf : option cptr) (len : Z)
    : option (Z * vfs) :=
  if negb proc || bad_buf user_buf len then Some (MCS_EINVAL, s)
  else mcs_vfs_write s true fd user_buf len.

Definition mcs_sys_close (s : vfs) (proc : bool) (fd : Z) : option (Z * vfs) :=
  if negb proc then Some (MCS_EINVAL, s) else mcs_vfs_close s true fd.

Definition mcs_sys_lseek (s : vfs) (proc : bool) (fd offset whence : Z) : option (Z * vfs) :=
  if negb proc then Some (MCS_EINVAL, s) else mcs_vfs_lseek s true fd offset whence.

(** ** Abstract specification *)

(** [d_obj] is the name of the open file, or [None] for the root directory. *)
Record afd := mk_afd { d_flags : Z; d_off : Z; d_obj : option (list Z) }.

Record astate := mk_astate { a_files : gmap (list Z) afile; a_fds : gmap Z afd }.

Definition lowest_free (fds : gmap Z afd) : option Z :=
  head (filter (fun i => fds !! i = None) (seqZ 0 MCS_MAX_OPEN_FILES)).

Definition file_of (a : astate) (nm : list Z) : afile := default empty_file (a_files a !! nm).

Definition obj_size (a : astate) (obj : option (list Z)) : Z :=
  match obj with None => 0 | Some nm => a_size (file_of a nm) end.

Definition put_fd (a : astate) (fd : Z) (d : afd) : astate := mk_astate (a_files a) (<[fd := d]> (a_fds a)).

(** The open flags by their bits: 0 read only, 1 write only, 2 both, 8 create,
    9 truncate, 10 append.  Without an access bit the mode is read only. *)
Definition may_read (flags : Z) : bool := Z.testbit flags 0 || Z.testbit flags 2.
Definition may_write (flags : Z) : bool := Z.testbit flags 1 || Z.testbit flags 2.
Definition with_mode (flags : Z) : Z :=
  if may_read flags || may_write flags then flags else Z.setbit flags 0.

Definition a_open_obj (a : astate) (obj : option (list Z)) (flags : Z) : Z * astate :=
  if bool_decide (obj = None) && may_write flags then (MCS_EISDIR, a) else
  match lowest_free (a_fds a) with
  | None => (MCS_ENFILE, a)
  | Some fd =>
      if Z.testbit flags 9 then
        match obj with
        | Some nm =>
            if negb (may_write flags) then (MCS_EACCES, a) else
            (fd, mk_astate (<[nm := mk_afile 0 (a_store (file_of a nm))]> (a_files a))
                   (<[fd := mk_afd flags 0 obj]> (a_fds a)))
        | None => (MCS_EACCES, a)
        end
      else (fd, put_fd a fd (mk_afd flags (if Z.testbit flags 10 then obj_size a obj else 0) obj))
  end.

Definition a_open (a : astate) (p : list Z) (flags : Z) : Z * astate :=
  let flags := with_mode flags in
  match flat_lookup (a_files a) p with
  | inr obj => a_open_obj a obj flags
  | inl rc =>
      if negb (Z.testbit flags 8) then (rc, a) else
      let a' := mk_astate (snd (flat_create (a_files a) p)) (a_fds a) in
      match fst (flat_create (a_files a) p) with
      | inl rc => (rc, a')
      | inr obj => a_open_obj a' obj flags
      end
  end.

(** The open file a read or write is about. *)
Definition a_open_file (a : astate) (fd : Z) (can : Z -> bool) : Z + afd * list Z :=
  match a_fds a !! fd with
  | None => inl MCS_EBADF
  | Some d =>
      if negb (can (d_flags d)) then inl MCS_EACCES
      else match d_obj d with None => inl MCS_EISDIR | Some nm => inr (d, nm) end
  end.

Definition set_off (v : Z) (d : afd) : afd := mk_afd (d_flags d) v (d_obj d).

(** Reading delivers the bytes of the file from the offset on, at most [len],
    none past the end. *)
Definition a_read (a : astate) (fd : Z) (buf : option cptr) (len : Z) : Z * option cptr * astate :=
  if bad_buf buf len then (MCS_EINVAL, buf, a) else
  match a_open_file a fd may_read with
  | inl rc => (rc, buf, a)
  | inr (d, nm) =>
      let contents := take (Z.to_nat (a_size (file_of a nm))) (a_store (file_of a nm)) in
      let bs := take (Z.to_nat len) (drop (Z.to_nat (d_off d)) contents) in
      (Z.of_nat (length bs), (fun b => bs ++ drop (length bs) b) <$> buf,
       put_fd a fd (set_off (d_off d + Z.of_nat (length bs)) d))
  end.

(** Writing is all or nothing: the bytes replace those at the offset, and the
    size grows to cover them. *)
Definition a_write (a : astate) (fd : Z) (buf : option cptr) (len : Z) : Z * astate :=
  if bad_buf buf len then (MCS_EINVAL, a) else
  match a_open_file a fd may_write with
  | inl rc => (rc, a)
  | inr (d, nm) =>
      let f := file_of a nm in
      let off := if Z.testbit (d_flags d) 10 then a_size f else d_off d in
      let bs := take (Z.to_nat len) (default [] buf) in
      if CAPACITY <? off then (MCS_EINVAL, put_fd a fd (set_off off d))
      else if CAPACITY - off <? len then (MCS_ENOSPC, put_fd a fd (set_off off d))
      else
        (len, mk_astate
           (<[nm := mk_afile (Z.max (a_size f) (off + len))
              (take (Z.to_nat off) (a_store f) ++ bs ++ drop (Z.to_nat (off + len)) (a_store f))]> (a_files a))
           (<[fd := set_off (off + len) d]> (a_fds a)))
  end.

Definition a_base (a : astate) (d : afd) (nm : list Z) (whence : Z) : option Z :=
  if whence =? MCS_SEEK_SET then Some 0
  else if whence =? MCS_SEEK_CUR then Some (d_off d)
  else if whence =? MCS_SEEK_END then Some (a_size (file_of a nm))
  else None.

(** The new offset is reported as an [int]. *)
Definition a_lseek (a : astate) (fd offset whence : Z) : Z * astate :=
  match a_fds a !! fd with
  | None => (MCS_EBADF, a)
  | Some d =>
      match d_obj d with
      | None => (MCS_EISDIR, a)
      | Some nm =>
          match a_base a d nm whence with
          | None => (MCS_EINVAL, a)
          | Some base =>
              if base + offset <? 0 then (MCS_EINVAL, a)
              else (s32 (base + offset), put_fd a fd (set_off (base + offset) d))
          end
      end
  end.

Definition a_close (a : astate) (fd : Z) : Z * astate :=
  match a_fds a !! fd with
  | None => (MCS_EBADF, a)
  | Some _ => (MCS_OK, mk_astate (a_files a) (delete fd (a_fds a)))
  end.

Definition a_dup (a : astate) (fd : Z) : Z * astate :=
  match a_fds a !! fd with
  | None => (MCS_EBADF, a)
  | Some d =>
      match lowest_free (a_fds a) with
      | None => (MCS_ENFILE, a)
      | Some newfd => (newfd, put_fd a newfd d)
      end
  end.

(** ** Calls as data *)

(** Paths are given as the string before the NUL and what follows it. *)
Inductive vop : Type :=
| Open (p rest : list Z) (flags : Z)
| Read (fd : Z) (buf : option cptr) (len : Z)
| Write (fd : Z) (buf : option cptr) (len : Z)
| Lseek (fd offset whence : Z)
| Close (fd : Z)
| Dup (fd : Z)
| Seed (p rest bs : list Z).

Definition no_out {S} (r : Z * S) : Z * option cptr * S := (fst r, None, snd r).

Definition run (s : vfs) (op : vop) : option (Z * option cptr * vfs) :=
  match op with
  | Open p rest flags => no_out <$> mcs_vfs_open s true true (Some (p ++ NUL :: rest)) flags
  | Read fd buf len => mcs_vfs_read s true fd buf len
  | Write fd buf len => no_out <$> mcs_vfs_write s true fd buf len
  | Lseek fd offset whence => no_out <$> mcs_vfs_lseek s true fd offset whence
  | Close fd => no_out <$> mcs_vfs_close s true fd
  | Dup fd => no_out <$> mcs_vfs_dup s true fd
  | Seed p rest bs =>
      '(rc, fs) ← mcs_ramfs_seed_file (Some (v_fs s)) (Some (p ++ NUL :: rest)) (Some bs) (Z.of_nat (length bs));
      Some (rc, None, mk_vfs (default (v_fs s) fs) (v_table s))
  end.

Definition arun (a : astate) (op : vop) : Z * option cptr * astate :=
  match op with
  | Open p _ flags => no_out (a_open a p flags)
  | Read fd buf len => a_read a fd buf len
  | Write fd buf len => no_out (a_write a fd buf len)
  | Lseek fd offset whence => no_out (a_lseek a fd offset whence)
  | Close fd => no_out (a_close a fd)
  | Dup fd => no_out (a_dup a fd)
  | Seed p _ bs => (fst (flat_seed (a_files a) p bs), None,
                    mk_astate (snd (flat_seed (a_files a) p bs)) (a_fds a))
  end.

Definition buf_ok (buf : option cptr) (len : Z) : Prop :=
  0 <= len < 2 ^ 63 /\ forall b, buf = Some b -> len <= Z.of_nat (length b).

(** What a caller must provide: strings without an early NUL, buffers as long
    as it says, an offset that is a [long]. *)
Definition args_ok (op : vop) : Prop :=
  match op with
  | Open p _ _ | Seed p _ _ => no_nul p
  | Read _ buf len | Write _ buf len => buf_ok buf len
  | Lseek _ offset _ => - 2 ^ 63 <= offset < 2 ^ 63
  | Close _ | Dup _ => True
  end.

(** The new offset of a seek is computed as a [long]: it must stay below
    [2^63]. *)
Definition seek_fits (a : astate) (op : vop) : bool :=
  match op with
  | Lseek fd offset whence =>
      match (d ← a_fds a !! fd; nm ← d_obj d; a_base a d nm whence) with
      | Some base => base + offset <? 2 ^ 63
      | None => true
      end
  | _ => true
  end.

Definition op_ok (a : astate) (op : vop) : Prop := args_ok op /\ seek_fits a op = true.

(** The flag tests of the code are those bits. *)
Lemma flag_bit flags k : 0 <= k -> flag flags (2 ^ k) = Z.testbit flags k.
Proof. intros Hk. unfold flag. by rewrite land_pow2_zero, negb_involutive. Qed.

Lemma flag_bits flags :
  mcs_can_read flags = may_read flags /\ mcs_can_write flags = may_write flags /\
  flag flags MCS_O_CREAT = Z.testbit flags 8 /\ flag flags MCS_O_TRUNC = Z.testbit flags 9 /\
  flag flags MCS_O_APPEND = Z.testbit flags 10.
Proof.
  unfold mcs_can_read, mcs_can_write, may_read, may_write.
  change MCS_O_RDONLY with (2 ^ 0). change MCS_O_WRONLY with (2 ^ 1). change MCS_O_RDWR with (2 ^ 2).
  change MCS_O_CREAT with (2 ^ 8). change MCS_O_TRUNC with (2 ^ 9). change MCS_O_APPEND with (2 ^ 10).
  by rewrite !flag_bit by lia.
Qed.

Lemma default_flags_mode flags : default_flags flags = with_mode flags.
Proof.
  unfold default_flags, with_mode. destruct (flag_bits flags) as (<- & <- & _).
  unfold mcs_can_read, mcs_can_write, flag. rewrite !Z.land_lor_distr_r.
  destruct (Z.eqb_spec (Z.land flags MCS_O_RDONLY) 0) as [->|H0], (Z.eqb_spec (Z.land flags MCS_O_WRONLY) 0) as [->|H1],
    (Z.eqb_spec (Z.land flags MCS_O_RDWR) 0) as [->|H2]; cbn [negb orb];
    [done|..]; rewrite (proj2 (Z.eqb_neq _ _)); try done; rewrite !Z.lor_eq_0_iff; tauto.
Qed.

(** ** The refinement relation *)

Record open_rel (fs : mcs_ramfs) (f : mcs_file) (d : afd) : Prop := {
  or_used : f_used f <> 0;
  or_flags : f_flags f = d_flags d;
  or_off : f_offset f = d_off d;
  or_range : 0 <= d_off d < 2 ^ 63;
  or_fs : f_fs f = true;
  or_node : exists i, f_node f = Some i /\ node_at fs i (d_obj d)
}.

Definition fd_rel (fs : mcs_ramfs) (f : option mcs_file) (d : option afd) : Prop :=
  match f, d with
  | Some f, Some d => open_rel fs f d
  | Some f, None => f_used f = 0
  | None, None => True
  | None, Some _ => False
  end.

Record vfs_rel (s : vfs) (a : astate) : Prop := {
  r_fs : fs_ok (v_fs s);
  r_files : a_files a = files (v_fs s);
  r_len : Z.of_nat (length (v_table s)) = MCS_MAX_OPEN_FILES;
  r_fds : forall fd, fd_rel (v_fs s) (arr_get (v_table s) fd) (a_fds a !! fd)
}.

(** ** Descriptor lemmas *)

Lemma open_rel_mono fs fs' f d :
  (forall j t, node_at fs j t -> node_at fs' j t) -> open_rel fs f d -> open_rel fs' f d.
Proof. intros H [? ? ? ? ? (i & ? & ?)]. split; eauto. Qed.

Lemma fd_rel_mono fs fs' f d :
  (forall j t, node_at fs j t -> node_at fs' j t) -> fd_rel fs f d -> fd_rel fs' f d.
Proof. intros H. destruct f, d; cbn; eauto using open_rel_mono. Qed.

(** Replacing the file system by one that keeps every node. *)
Lemma rel_fs s a fs' :
  vfs_rel s a -> fs_ok fs' -> (forall j t, node_at (v_fs s) j t -> node_at fs' j t) ->
  vfs_rel (mk_vfs fs' (v_table s)) (mk_astate (files fs') (a_fds a)).
Proof. intros [H1 H2 H3 H4] Hok Hn. split; cbn; [done|done|done|]. intros fd. eapply fd_rel_mono; [exact Hn|apply H4]. Qed.

(** Setting one descriptor. *)
Lemma rel_put s a fd f od :
  vfs_rel s a -> 0 <= fd < MCS_MAX_OPEN_FILES -> fd_rel (v_fs s) (Some f) od ->
  exists s', put_file s fd f = Some s' /\ v_fs s' = v_fs s /\
    vfs_rel s' (mk_astate (a_files a) (partial_alter (fun _ => od) fd (a_fds a))).
Proof.
  intros [H1 H2 H3 H4] Hfd Hf. unfold put_file. rewrite arr_set_Some by lia. eexists. split; [done|].
  split; [done|]. split; cbn [v_fs v_table a_files a_fds].
  - done.
  - done.
  - by rewrite length_insert.
  - intros j. rewrite arr_get_insert by lia. case_decide as Hj.
    + subst j. by rewrite lookup_partial_alter_eq.
    + by rewrite lookup_partial_alter_ne by done.
Qed.

Lemma fd_range s a fd d : vfs_rel s a -> a_fds a !! fd = Some d ->
  0 <= fd < MCS_MAX_OPEN_FILES /\ exists f, arr_get (v_table s) fd = Some f /\ open_rel (v_fs s) f d.
Proof.
  intros Hrel Hd. pose proof (r_fds _ _ Hrel fd) as Hf. rewrite Hd in Hf.
  destruct (arr_get (v_table s) fd) as [f|] eqn:Hg; [|done]. split; [|by eauto].
  apply arr_get_Some_lt in Hg. rewrite (r_len _ _ Hrel) in Hg. done.
Qed.

Lemma fd_get_rel s a fd :
  vfs_rel s a ->
  match a_fds a !! fd with
  | None => mcs_fd_get true (v_table s) fd = Some None
  | Some d => exists f, mcs_fd_get true (v_table s) fd = Some (Some f) /\ open_rel (v_fs s) f d /\
      arr_get (v_table s) fd = Some f /\ 0 <= fd < MCS_MAX_OPEN_FILES
  end.
Proof.
  intros Hrel. unfold mcs_fd_get. cbn [negb orb]. destruct (a_fds a !! fd) as [d|] eqn:Hd.
  - destruct (fd_range _ _ _ _ Hrel Hd) as (Hr & f & Hg & Ho). exists f.
    destruct (Z.ltb_spec fd 0); [lia|]. destruct (Z.leb_spec MCS_MAX_OPEN_FILES fd); [lia|]. cbn [orb].
    rewrite Hg. cbn [mbind option_bind]. destruct (Z.eqb_spec (f_used f) 0); [by destruct (or_used _ _ _ Ho)|done].
  - destruct (Z.ltb_spec fd 0); [done|]. destruct (Z.leb_spec MCS_MAX_OPEN_FILES fd); [done|]. cbn [orb].
    destruct (arr_get_is_Some (v_table s) fd) as [f Hf]; [rewrite (r_len _ _ Hrel); lia|]. rewrite Hf.
    pose proof (r_fds _ _ Hrel fd) as Hu. rewrite Hf, Hd in Hu. cbn in Hu. cbn [mbind option_bind]. by rewrite Hu.
Qed.

(** The scan finds the lowest free descriptor. *)
Lemma alloc_scan s a i k :
  vfs_rel s a -> 0 <= i -> i + Z.of_nat k = MCS_MAX_OPEN_FILES ->
  match head (filter (fun j => a_fds a !! j = None) (seqZ i (Z.of_nat k))) with
  | None => fd_alloc_from (v_table s) i k = Some (MCS_ENFILE, v_table s)
  | Some fd => exists f, arr_get (v_table s) fd = Some f /\ f_used f = 0 /\ i <= fd < MCS_MAX_OPEN_FILES /\
      fd_alloc_from (v_table s) i k = Some (fd, <[Z.to_nat fd := set_used 1 f]> (v_table s))
  end.
Proof.
  intros Hrel. revert i. induction k as [|k IH]; intros i Hi Hk; [done|].
  rewrite (seqZ_cons i) by lia. replace (Z.pred (Z.of_nat (S k))) with (Z.of_nat k) by lia.
  destruct (arr_get_is_Some (v_table s) i) as [f Hf]; [rewrite (r_len _ _ Hrel); lia|].
  cbn [fd_alloc_from]. rewrite Hf. cbn [mbind option_bind]. pose proof (r_fds _ _ Hrel i) as Hu. rewrite Hf in Hu.
  rewrite filter_cons. case_decide as Hd.
  - rewrite Hd in Hu. cbn in Hu. cbn [head hd_error]. exists f. rewrite Hu. cbn [Z.eqb].
    rewrite arr_set_Some by (rewrite (r_len _ _ Hrel); lia). split_and!; [done|done|lia|lia|done].
  - destruct (a_fds a !! i) as [d|]; [|done]. destruct (Z.eqb_spec (f_used f) 0); [by destruct (or_used _ _ _ Hu)|].
    specialize (IH (i + 1)). replace (Z.succ i) with (i + 1) by lia.
    destruct (head _) as [fd|]; [|apply IH; lia]. destruct IH as (g & ? & ? & ? & ?); [lia|lia|].
    exists g. split_and!; [done|done|lia|lia|done].
Qed.

Lemma fd_alloc_rel s a :
  vfs_rel s a ->
  match lowest_free (a_fds a) with
  | None => mcs_fd_alloc true (v_table s) = Some (MCS_ENFILE, v_table s)
  | Some fd => exists f, arr_get (v_table s) fd = Some f /\ f_used f = 0 /\ 0 <= fd < MCS_MAX_OPEN_FILES /\
      mcs_fd_alloc true (v_table s) = Some (fd, <[Z.to_nat fd := set_used 1 f]> (v_table s))
  end.
Proof. intros Hrel. apply (alloc_scan s a 0 16 Hrel); done. Qed.

(** ** Each call refines its specification *)

Definition sim (res : option (Z * vfs)) (ares : Z * astate) : Prop :=
  exists s', res = Some (fst ares, s') /\ vfs_rel s' (snd ares).

Lemma sim_same s a rc : vfs_rel s a -> sim (Some (rc, s)) (rc, a).
Proof. intros. by exists s. Qed.

Lemma sim_put s a fd f od rc F :
  vfs_rel s a -> 0 <= fd < MCS_MAX_OPEN_FILES -> fd_rel (v_fs s) (Some f) od -> F = a_files a ->
  sim (s ← put_file s fd f; Some (rc, s)) (rc, mk_astate F (partial_alter (fun _ => od) fd (a_fds a))).
Proof.
  intros Hrel Hfd Hf ->. destruct (rel_put _ _ _ _ _ Hrel Hfd Hf) as (s' & -> & _ & Hr). by exists s'.
Qed.

Lemma put_put fs t fd x f :
  put_file (mk_vfs fs (<[Z.to_nat fd := x]> t)) fd f = put_file (mk_vfs fs t) fd f.
Proof.
  unfold put_file, arr_set. cbn [v_table v_fs]. rewrite length_insert.
  destruct (_ && _); [|done]. cbn [mbind option_bind]. by rewrite list_insert_insert_eq.
Qed.

Lemma vfs_eta s : mk_vfs (v_fs s) (v_table s) = s.
Proof. by destruct s. Qed.

(** A node of an open file. *)
Lemma node_of s a i nm :
  vfs_rel s a -> node_at (v_fs s) i (Some nm) ->
  exists nd, 0 <= i /\ is_filenode (v_fs s) (Z.to_nat i) nd /\ cstr (n_name nd) = nm /\
    arr_get (nodes (v_fs s)) i = Some nd /\ file_ok (Z.to_nat i) nd /\
    file_of a nm = snd (entry (v_fs s) nd).
Proof.
  intros Hrel Hn. pose proof (r_fs _ _ Hrel) as Hok. destruct (node_at_get _ _ _ Hok Hn) as (nd & Hg & Hf & Hnm).
  exists nd. pose proof Hn as (_ & ? & _). split_and!; [lia|done|done|done|by apply (ok_file _ Hok)|].
  unfold file_of. rewrite (r_files _ _ Hrel), <- Hnm, (files_filenode _ Hok _ _ Hf). done.
Qed.

Lemma close_rel s a fd : vfs_rel s a -> sim (mcs_vfs_close s true fd) (a_close a fd).
Proof.
  intros Hrel. unfold mcs_vfs_close, a_close. pose proof (fd_get_rel s a fd Hrel) as Hg.
  destruct (a_fds a !! fd) as [d|]; [|rewrite Hg; by apply sim_same].
  destruct Hg as (f & -> & _ & _ & Hfd). cbn [mbind option_bind]. by apply sim_put.
Qed.

Lemma dup_rel s a fd : vfs_rel s a -> sim (mcs_vfs_dup s true fd) (a_dup a fd).
Proof.
  intros Hrel. unfold mcs_vfs_dup, a_dup. pose proof (fd_get_rel s a fd Hrel) as Hg.
  destruct (a_fds a !! fd) as [d|] eqn:Hd; [|rewrite Hg; by apply sim_same].
  destruct Hg as (f & -> & Hf & Hget & Hfd). cbn [mbind option_bind].
  pose proof (fd_alloc_rel s a Hrel) as Ha. destruct (lowest_free (a_fds a)) as [nfd|].
  - destruct Ha as (g & Hgg & Hgu & Hnfd & ->). cbn [mbind option_bind].
    destruct (Z.ltb_spec nfd 0); [lia|]. pose proof (r_len _ _ Hrel).
    rewrite !arr_get_insert by lia. rewrite (decide_True (P := nfd = nfd)) by done. rewrite decide_False.
    2: { intros ->. rewrite Hget in Hgg. injection Hgg as ->. by destruct (or_used _ _ _ Hf). }
    rewrite Hget. cbn [mbind option_bind set_used f_used]. rewrite put_put, vfs_eta.
    apply sim_put; [done|done| |done]. destruct Hf. by split.
  - rewrite Ha. cbn [mbind option_bind]. rewrite vfs_eta. by apply sim_same.
Qed.

Lemma open_node_rel s a node obj flags :
  vfs_rel s a -> node_at (v_fs s) node obj ->
  sim (open_node s node flags) (a_open_obj a obj flags).
Proof.
  intros Hrel Hn. pose proof (r_fs _ _ Hrel) as Hok. unfold open_node, a_open_obj.
  destruct (node_at_get _ _ _ Hok Hn) as (nd & Hg & Hnd). rewrite Hg. cbn [mbind option_bind].
  assert (Hty : bool_decide (n_type nd = MCS_VNODE_DIR) = bool_decide (obj = None)).
  { apply bool_decide_ext. destruct obj; [destruct Hnd as [Hf _]; by rewrite (fo_type _ _ (ok_file _ Hok _ _ Hf))|].
    by rewrite (ro_type _ Hnd). }
  assert (Hsz : n_size nd = obj_size a obj /\ 0 <= obj_size a obj <= CAPACITY).
  { destruct obj as [nm|]; cbn [obj_size]; [|rewrite (ro_size _ Hnd); unfold CAPACITY; lia].
    destruct (node_of _ _ _ _ Hrel Hn) as (nd' & _ & _ & _ & Hg' & Hfo & ->). rewrite Hg in Hg'. injection Hg' as <-.
    split; [done|apply Hfo]. }
  destruct Hsz as [-> Hsz]. destruct (flag_bits flags) as (_ & <- & _ & <- & <-).
  rewrite Hty. destruct (bool_decide (obj = None) && mcs_can_write flags) eqn:Hdir; [by apply sim_same|].
  pose proof (fd_alloc_rel s a Hrel) as Ha. destruct (lowest_free (a_fds a)) as [fd|].
  2: { rewrite Ha. cbn [mbind option_bind]. rewrite vfs_eta. by apply sim_same. }
  destruct Ha as (g & Hgg & Hgu & Hfd & ->). cbn [mbind option_bind]. destruct (Z.ltb_spec fd 0); [lia|].
  pose proof (r_len _ _ Hrel) as Hlen. rewrite arr_get_insert by lia. rewrite decide_True by done. cbn [mbind option_bind set_used f_used].
  destruct (flag flags MCS_O_TRUNC).
  - destruct (mcs_can_write flags); cbn [negb].
    + destruct obj as [nm|]; [|done]. destruct Hnd as [Hf Hnm]. pose proof Hn as (_ & Hpos & _).
      destruct (store_slice _ Hok _ _ Hf) as (Hst & _ & _).
      assert (Hok' : fs_ok (update_file (v_fs s) (Z.to_nat node) nd 0 (data (v_fs s)))).
      { by apply update_ok; [..|unfold CAPACITY; lia|done|done]. }
      assert (Hna : forall j t, node_at (v_fs s) j t ->
        node_at (update_file (v_fs s) (Z.to_nat node) nd 0 (data (v_fs s))) j t).
      { intros. by apply update_node_at. }
      pose proof (rel_fs _ _ _ Hrel Hok' Hna) as Hrel'.
      rewrite (update_files _ Hok _ _ 0 _ Hf) with (st := a_store (snd (entry (v_fs s) nd))) in Hrel';
        [|unfold CAPACITY; lia|done|done|done].
      unfold put_node. cbn [v_fs v_table]. replace node with (Z.of_nat (Z.to_nat node)) at 1 by lia.
      rewrite (set_node_filenode _ _ _ _ Hok Hf). cbn [mbind option_bind]. rewrite put_put.
      unfold file_of. rewrite (r_files _ _ Hrel), <- Hnm, (files_filenode _ Hok _ _ Hf). rewrite <- Hnm in Hn. cbn [default from_option id].
      eapply (sim_put (mk_vfs (update_file (v_fs s) (Z.to_nat node) nd 0 (data (v_fs s))) (v_table s)) _ fd _
        (Some (mk_afd flags 0 (Some (cstr (n_name nd))))) fd _ Hrel'); [done| |done].
      split; cbn [set_offset f_used f_flags f_offset f_fs f_node d_flags d_off d_obj v_fs]; try done.
      exists node. auto.
    + rewrite put_put, vfs_eta. assert (Hnone : a_fds a !! fd = None).
      { pose proof (r_fds _ _ Hrel fd) as Hx. rewrite Hgg in Hx. destruct (a_fds a !! fd); [|done]. by destruct (or_used _ _ _ Hx). }
      assert (Ha : a = mk_astate (a_files a) (partial_alter (fun _ => None) fd (a_fds a))).
      { destruct a as [F D]. cbn in *. f_equal. symmetry. exact (delete_id D fd Hnone). }
      replace (match obj with Some _ => (MCS_EACCES, a) | None => (MCS_EACCES, a) end) with (MCS_EACCES, a) by (by destruct obj).
      cut (sim (s ← put_file s fd (mk_file 0 flags (if flag flags MCS_O_APPEND then obj_size a obj else 0) None false);
        Some (MCS_EACCES, s)) (MCS_EACCES, mk_astate (a_files a) (partial_alter (fun _ => None) fd (a_fds a)))).
      { by rewrite <- Ha. }
      by apply sim_put.
  - rewrite put_put, vfs_eta. apply sim_put; [done|done| |done].
    split; cbn [f_used f_flags f_offset f_fs f_node d_flags d_off d_obj]; try done.
    + destruct (flag flags MCS_O_APPEND); [unfold CAPACITY in Hsz|]; lia.
    + by exists node.
Qed.

Lemma open_rel_sim s a p rest flags :
  vfs_rel s a -> no_nul p ->
  sim (mcs_vfs_open s true true (Some (p ++ NUL :: rest)) flags) (a_open a p flags).
Proof.
  intros Hrel Hp. pose proof (r_fs _ _ Hrel) as Hok. unfold mcs_vfs_open, a_open.
  change (negb true || negb true || bool_decide (Some (p ++ NUL :: rest) = None)) with false. cbv iota.
  destruct (lookup_code (v_fs s) p rest Hok Hp) as (r & -> & Hag). cbn [mbind option_bind].
  rewrite (r_files _ _ Hrel), <- default_flags_mode. destruct (flag_bits (default_flags flags)) as (_ & _ & <- & _).
  destruct r as [rc|i]; destruct (flat_lookup (files (v_fs s)) p) as [rc'|t]; cbn [lookup_agree] in Hag; try done.
  - subst rc'. destruct (flag (default_flags flags) MCS_O_CREAT); cbn [negb]; [|by apply sim_same].
    destruct (create_spec (v_fs s) p rest Hok Hp) as (r & fs' & -> & Hok' & Hf' & Hag & Hna). cbn [mbind option_bind default from_option id].
    pose proof (rel_fs _ _ _ Hrel Hok' Hna) as Hrel'. rewrite Hf' in Hrel'.
    destruct r as [rc'|i]; destruct (fst (flat_create _ p)) as [rc''|t]; cbn [lookup_agree] in Hag; try done.
    + subst. by apply sim_same.
    + by apply open_node_rel.
  - by apply open_node_rel.
Qed.

Record file_view (s : vfs) (a : astate) (fd : Z) (f : mcs_file) (i : Z) (nd : mcs_vnode) (d : afd) (nm : list Z) : Prop := {
  fv_fd : a_fds a !! fd = Some d;
  fv_range : 0 <= fd < MCS_MAX_OPEN_FILES;
  fv_obj : d_obj d = Some nm;
  fv_open : open_rel (v_fs s) f d;
  fv_node : f_node f = Some i;
  fv_at : node_at (v_fs s) i (Some nm);
  fv_get : arr_get (nodes (v_fs s)) i = Some nd;
  fv_filenode : is_filenode (v_fs s) (Z.to_nat i) nd;
  fv_ok : file_ok (Z.to_nat i) nd;
  fv_name : cstr (n_name nd) = nm;
  fv_file : file_of a nm = snd (entry (v_fs s) nd)
}.

(** A descriptor that is open on a file, with its node. *)
Lemma view_of s a fd f d nm :
  vfs_rel s a -> a_fds a !! fd = Some d -> d_obj d = Some nm -> open_rel (v_fs s) f d ->
  0 <= fd < MCS_MAX_OPEN_FILES -> exists i nd, file_view s a fd f i nd d nm.
Proof.
  intros Hrel Hd Hobj Hf Hfd. destruct (or_node _ _ _ Hf) as (i & Hi & Hat). rewrite Hobj in Hat.
  destruct (node_of _ _ _ _ Hrel Hat) as (nd & ? & ? & ? & ? & ? & ?). exists i, nd. by split.
Qed.

Lemma open_file_rel s a fd can may :
  vfs_rel s a -> (forall flags, can flags = may flags) ->
  match a_open_file a fd may with
  | inl rc => open_file s true fd can = Some (inl rc)
  | inr (d, nm) => exists f i nd, open_file s true fd can = Some (inr (f, i, nd)) /\ file_view s a fd f i nd d nm
  end.
Proof.
  intros Hrel Hcan. unfold a_open_file, open_file. pose proof (fd_get_rel s a fd Hrel) as Hg.
  destruct (a_fds a !! fd) as [d|] eqn:Hd; [|by rewrite Hg].
  destruct Hg as (f & -> & Hf & _ & Hfd). cbn [mbind option_bind]. rewrite (or_flags _ _ _ Hf), Hcan.
  destruct (may (d_flags d)); cbn [negb]; [|done]. destruct (d_obj d) as [nm|] eqn:Hobj.
  - destruct (view_of _ _ _ _ _ _ Hrel Hd Hobj Hf Hfd) as (i & nd & Hv). exists f, i, nd.
    rewrite (fv_node _ _ _ _ _ _ _ _ Hv), (or_fs _ _ _ Hf). cbn [negb].
    rewrite (fv_get _ _ _ _ _ _ _ _ Hv). cbn [mbind option_bind].
    rewrite (fo_type _ _ (fv_ok _ _ _ _ _ _ _ _ Hv)). done.
  - destruct (or_node _ _ _ Hf) as (i & -> & Hat). rewrite (or_fs _ _ _ Hf). cbn [negb]. rewrite Hobj in Hat.
    destruct (node_at_get _ _ _ (r_fs _ _ Hrel) Hat) as (nd & -> & Hr). cbn [mbind option_bind].
    by rewrite (ro_type _ Hr).
Qed.

Lemma offset_rel fs f d v : open_rel fs f d -> 0 <= v < 2 ^ 63 -> open_rel fs (set_offset v f) (set_off v d).
Proof. intros [? ? ? ? ? ?] ?. by split. Qed.

Lemma s64_small n : 0 <= n < 2 ^ 63 -> s64 n = n.
Proof.
  intros H. unfold swrap. rewrite wrap_small by (unfold in_u; lia). change (64 - 1) with 63.
  destruct (Z.ltb_spec n (2 ^ 63)); lia.
Qed.

Lemma u64_id n : 0 <= n < 2 ^ 63 -> u64 n = n.
Proof. intros H. apply wrap_small. unfold in_u. lia. Qed.

Lemma region_bounds s a fd f i nd d nm :
  vfs_rel s a -> file_view s a fd f i nd d nm ->
  slice (data (v_fs s)) (n_data_offset nd) CAPACITY = Some (a_store (file_of a nm)) /\
  length (a_store (file_of a nm)) = Z.to_nat CAPACITY /\
  a_size (file_of a nm) = n_size nd /\ 0 <= n_size nd <= CAPACITY /\
  0 <= n_data_offset nd /\ n_data_offset nd + CAPACITY <= Z.of_nat (length (data (v_fs s))) /\
  Z.of_nat (length (data (v_fs s))) = MCS_RAMFS_DATA_BYTES /\ 0 <= d_off d < 2 ^ 63 /\ f_offset f = d_off d.
Proof.
  intros Hrel Hv. rewrite (fv_file _ _ _ _ _ _ _ _ Hv). pose proof (r_fs _ _ Hrel) as Hok.
  destruct (store_slice _ Hok _ _ (fv_filenode _ _ _ _ _ _ _ _ Hv)) as (? & ? & ? & ?).
  destruct (fv_open _ _ _ _ _ _ _ _ Hv). pose proof (fo_size _ _ (fv_ok _ _ _ _ _ _ _ _ Hv)).
  split_and!; try done; try lia. apply (sh_data _ (ok_shape _ Hok)).
Qed.

(** The bytes a read delivers. *)
Lemma slice_region (buf st : list Z) base off n :
  slice buf base CAPACITY = Some st -> 0 <= base -> 0 <= off -> 0 <= n -> off + n <= CAPACITY ->
  slice buf (base + off) n = Some (take (Z.to_nat n) (drop (Z.to_nat off) st)).
Proof.
  unfold slice. intros Hs Hb Ho Hn Hc. destruct (in_buf buf base CAPACITY) eqn:Hi; [|done]. apply in_buf_true in Hi.
  injection Hs as <-. rewrite (proj2 (in_buf_true _ _ _)) by lia. f_equal.
  rewrite skipn_firstn_comm, take_take, drop_drop. f_equal; [lia|]. f_equal. lia.
Qed.

Lemma read_rel s a fd buf len :
  vfs_rel s a -> buf_ok buf len ->
  exists s', mcs_vfs_read s true fd buf len =
      Some (fst (fst (a_read a fd buf len)), snd (fst (a_read a fd buf len)), s') /\
    vfs_rel s' (snd (a_read a fd buf len)).
Proof.
  intros Hrel [Hlen Hbuf]. unfold mcs_vfs_read, a_read. destruct (bad_buf buf len) eqn:Hbad; [by exists s|].
  pose proof (open_file_rel s a fd mcs_can_read may_read Hrel (fun fl => proj1 (flag_bits fl))) as Ho.
  destruct (a_open_file a fd may_read) as [rc|[d nm]]; [rewrite Ho; by exists s|].
  destruct Ho as (f & i & nd & -> & Hv). cbn [mbind option_bind].
  destruct (region_bounds _ _ _ _ _ _ _ _ Hrel Hv) as (Hst & Hsl & Hsz & Hszr & Hb0 & Hb1 & Hdl & Hoff & Hfo).
  rewrite Hsz, Hfo. remember (a_store (file_of a nm)) as store eqn:Hstore. unfold CAPACITY, MCS_RAMFS_DATA_BYTES in *.
  remember (take (Z.to_nat len) (drop (Z.to_nat (d_off d)) (take (Z.to_nat (n_size nd)) store))) as bs eqn:Hbs.
  assert (Hbl : Z.of_nat (length bs) = Z.min len (Z.max 0 (n_size nd - d_off d))).
  { subst bs. rewrite length_take, length_drop, length_take. lia. }
  destruct (Z.leb_spec (n_size nd) (d_off d)) as [Heof|Hmore].
  - assert (bs = []) as -> by (destruct bs; [done|simpl in Hbl; lia]). exists s. cbn [length fst snd]. split.
    + do 2 f_equal. by destruct buf.
    + destruct s as [fs t], a as [F D]. rewrite Z.add_0_r. unfold put_fd. cbn [a_files a_fds].
      assert (<[fd := set_off (d_off d) d]> D = D) as ->; [|done]. apply insert_id.
      pose proof (fv_fd _ _ _ _ _ _ _ _ Hv) as Hx. cbn in Hx. rewrite Hx. by destruct d.
  - rewrite (u64_id (n_size nd - d_off d)) by lia. cbn zeta. unfold mcs_copy_to_user.
    assert (Hn : mcs_min_size len (n_size nd - d_off d) = Z.of_nat (length bs)).
    { rewrite Hbl. unfold mcs_min_size. destruct (Z.ltb_spec len (n_size nd - d_off d)); lia. }
    rewrite Hn, (u64_id (n_data_offset nd + d_off d)) by lia.
    rewrite (slice_region _ store) by (try done; unfold CAPACITY; lia).
    assert (Htk : take (Z.to_nat (Z.of_nat (length bs))) (drop (Z.to_nat (d_off d)) store) = bs).
    { rewrite Nat2Z.id. apply (list_eq_same_length _ _ (length bs)); [done|rewrite length_take, length_drop; lia|].
      intros k x y Hk Hx Hy. rewrite lookup_take_lt, lookup_drop in Hx by done. rewrite Hbs, lookup_take_lt, lookup_drop, lookup_take_lt in Hy by lia.
      congruence. }
    rewrite Htk. cbn [mbind option_bind].
    assert (Hspl : splice (default [] buf) 0 bs = Some (bs ++ drop (length bs) (default [] buf))).
    { rewrite splice_Some; [done|lia|]. destruct buf as [b|]; [specialize (Hbuf b eq_refl); simpl; lia|].
      cbn. unfold bad_buf in Hbad. cbn in Hbad. destruct (Z.eqb_spec len 0); [lia|done]. }
    rewrite Hspl. cbn [mbind option_bind].
    destruct (rel_put s a fd (set_offset (u64 (d_off d + Z.of_nat (length bs))) f)
      (Some (set_off (d_off d + Z.of_nat (length bs)) d)) Hrel (fv_range _ _ _ _ _ _ _ _ Hv)) as (s' & -> & _ & Hr).
    { rewrite u64_id by lia. apply offset_rel; [apply Hv|lia]. }
    cbn [mbind option_bind]. exists s'. split; [|done]. rewrite s64_small by lia. cbn [fst snd]. do 3 f_equal. by destruct buf.
Qed.

(** Writing at an offset, after the append flag has been applied. *)
Lemma write_at_rel s a fd f i nd d nm buf len :
  vfs_rel s a -> file_view s a fd f i nd d nm -> 0 <= len -> len <= Z.of_nat (length buf) \/ len = 0 ->
  let fl := file_of a nm in let off := d_off d in
  sim (write_at s fd f i nd buf len)
   (if CAPACITY <? off then (MCS_EINVAL, put_fd a fd (set_off off d))
    else if CAPACITY - off <? len then (MCS_ENOSPC, put_fd a fd (set_off off d))
    else (len, mk_astate
           (<[nm := mk_afile (Z.max (a_size fl) (off + len))
              (take (Z.to_nat off) (a_store fl) ++ take (Z.to_nat len) buf ++ drop (Z.to_nat (off + len)) (a_store fl))]> (a_files a))
           (<[fd := set_off (off + len) d]> (a_fds a)))).
Proof.
  intros Hrel Hv Hlen Hbuf fl off. subst fl off. pose proof (r_fs _ _ Hrel) as Hok.
  destruct (region_bounds _ _ _ _ _ _ _ _ Hrel Hv) as (Hst & Hsl & Hsz & Hszr & Hb0 & Hb1 & Hdl & Hoff & Hfo).
  pose proof (fv_open _ _ _ _ _ _ _ _ Hv) as Ho. pose proof (fv_range _ _ _ _ _ _ _ _ Hv) as Hfd.
  pose proof (fv_filenode _ _ _ _ _ _ _ _ Hv) as Hfn. pose proof (fv_name _ _ _ _ _ _ _ _ Hv) as Hnm.
  assert (Hsame : set_off (d_off d) d = d) by (by destruct d).
  unfold write_at. rewrite (fo_cap _ _ (fv_ok _ _ _ _ _ _ _ _ Hv)), Hfo, Hsame. unfold CAPACITY, MCS_RAMFS_DATA_BYTES in *.
  destruct (Z.ltb_spec 256 (d_off d)); [by apply sim_put|].
  rewrite (u64_id (256 - d_off d)) by lia. cbn zeta.
  assert (Hn : mcs_min_size len (256 - d_off d) = Z.min len (256 - d_off d)).
  { unfold mcs_min_size. destruct (Z.ltb_spec len (256 - d_off d)); lia. }
  rewrite Hn. destruct (Z.ltb_spec (256 - d_off d) len).
  { destruct (Z.ltb_spec (Z.min len (256 - d_off d)) len); [|lia]. by apply sim_put. }
  rewrite Z.min_l, Z.ltb_irrefl, (u64_id (n_data_offset nd + d_off d)), (u64_id (d_off d + len)) by lia.
  unfold mcs_copy_from_user.
  assert (Hbs : slice buf 0 len = Some (take (Z.to_nat len) buf)).
  { unfold slice. rewrite (proj2 (in_buf_true _ _ _)) by lia. by rewrite drop_0. }
  rewrite Hbs. cbn [mbind option_bind]. remember (take (Z.to_nat len) buf) as bs eqn:Ebs.
  assert (Hbl : Z.of_nat (length bs) = len) by (subst bs; rewrite length_take; lia).
  destruct (write_region (v_fs s) _ nd (d_off d) bs Hok Hfn) as (dt & st & Hdt & Hsp & Hslc & Hdtl & Hkeep);
    [lia|unfold CAPACITY; lia|].
  rewrite Hdt. cbn [mbind option_bind].
  assert (Est : st = take (Z.to_nat (d_off d)) (a_store (file_of a nm)) ++ bs ++
    drop (Z.to_nat (d_off d + len)) (a_store (file_of a nm))).
  { rewrite (fv_file _ _ _ _ _ _ _ _ Hv). apply splice_inv in Hsp as (_ & _ & ->). do 3 f_equal. lia. }
  set (sz := Z.max (n_size nd) (d_off d + len)).
  set (fs' := update_file (v_fs s) (Z.to_nat i) nd sz dt).
  assert (Hok' : fs_ok fs') by (apply update_ok; [done|done|unfold CAPACITY, sz; lia|done|done]).
  assert (Hrel' : vfs_rel (mk_vfs fs' (v_table s)) (mk_astate (<[nm := mk_afile sz st]> (a_files a)) (a_fds a))).
  { rewrite (r_files _ _ Hrel), <- Hnm. rewrite <- (update_files _ Hok _ _ sz dt Hfn) with (st := st);
      [|unfold CAPACITY, sz; lia|done|done|done].
    apply rel_fs; [done|done|]. intros. by apply update_node_at. }
  rewrite Hsz. fold sz. rewrite <- Est, s64_small by lia.
  destruct (rel_put _ _ fd (set_offset (d_off d + len) f) (Some (set_off (d_off d + len) d)) Hrel' Hfd)
    as (s' & Hput & _ & Hr).
  { eapply open_rel_mono; [intros; by apply update_node_at|]. apply offset_rel; [done|lia]. }
  exists s'. split; [|exact Hr]. cbn [fst].
  assert (Hnode : forall z, set_node (set_data (v_fs s) dt) i (set_n_size z nd) = Some (update_file (v_fs s) (Z.to_nat i) nd z dt)).
  { intros z. pose proof Hfn as (_ & _ & Hl). apply lookup_lt_Some in Hl. pose proof (fv_at _ _ _ _ _ _ _ _ Hv) as (_ & ? & _).
    unfold set_node. cbn [set_data nodes node_count data data_used]. by rewrite arr_set_Some by lia. }
  unfold put_file in *. cbn [v_table v_fs] in *. destruct (arr_set (v_table s) fd _) as [t|]; [|done].
  cbn [mbind option_bind] in *. injection Hput as <-.
  destruct (Z.ltb_spec (n_size nd) (d_off d + len)).
  - unfold put_node. cbn [v_fs v_table]. rewrite Hnode. cbn [mbind option_bind].
    unfold fs', sz. by rewrite Z.max_r by lia.
  - do 3 f_equal. unfold fs', sz. rewrite Z.max_l by lia. unfold set_data, update_file. f_equal.
    pose proof Hfn as (_ & _ & Hl). symmetry. apply list_insert_id. rewrite Hl. by destruct nd.
Qed.

Lemma write_rel s a fd buf len :
  vfs_rel s a -> buf_ok buf len -> sim (mcs_vfs_write s true fd buf len) (a_write a fd buf len).
Proof.
  intros Hrel [Hlen Hbuf]. unfold mcs_vfs_write, a_write. destruct (bad_buf buf len) eqn:Hbad; [by apply sim_same|].
  pose proof (open_file_rel s a fd mcs_can_write may_write Hrel (fun fl => proj1 (proj2 (flag_bits fl)))) as Ho.
  destruct (a_open_file a fd may_write) as [rc|[d nm]]; [rewrite Ho; by apply sim_same|].
  destruct Ho as (f & i & nd & -> & Hv). cbn [mbind option_bind].
  destruct (region_bounds _ _ _ _ _ _ _ _ Hrel Hv) as (_ & _ & Hsz & Hszr & _). unfold CAPACITY in Hszr.
  assert (Hb : len <= Z.of_nat (length (default [] buf)) \/ len = 0).
  { destruct buf as [b|]; [left; by apply Hbuf|]. right. unfold bad_buf in Hbad. cbn in Hbad. by destruct (Z.eqb_spec len 0). }
  rewrite (or_flags _ _ _ (fv_open _ _ _ _ _ _ _ _ Hv)).
  destruct (flag_bits (d_flags d)) as (_ & _ & _ & _ & Hap). rewrite Hap. destruct (Z.testbit (d_flags d) 10); cbn zeta.
  - rewrite Hsz. set (d1 := set_off (n_size nd) d). set (a1 := put_fd a fd d1). set (f1 := set_offset (n_size nd) f).
    assert (Ho1 : open_rel (v_fs s) f1 d1) by (apply offset_rel; [apply Hv|lia]).
    destruct (rel_put s a fd f1 (Some d1) Hrel (fv_range _ _ _ _ _ _ _ _ Hv) Ho1) as (s1 & Hp1 & Hfs1 & Hrel1).
    change (mk_astate (a_files a) (partial_alter (fun _ => Some d1) fd (a_fds a))) with a1 in Hrel1.
    assert (Hv1 : file_view s1 a1 fd f1 i nd d1 nm).
    { destruct Hv. split; rewrite ?Hfs1; try done. cbn. by rewrite lookup_insert_eq. }
    pose proof (write_at_rel s1 a1 fd f1 i nd d1 nm (default [] buf) len Hrel1 Hv1 (proj1 Hlen) Hb) as Hw.
    assert (Heq : write_at s1 fd f1 i nd (default [] buf) len = write_at s fd f1 i nd (default [] buf) len).
    { unfold write_at. unfold put_file in Hp1. destruct (arr_set (v_table s) fd f1) as [t|] eqn:Ht; [|done].
      cbn in Hp1. injection Hp1 as <-. apply arr_set_inv in Ht as (Hr & ->).
      cbn [v_fs v_table] in *. destruct (n_data_capacity nd <? f_offset f1); [by rewrite put_put, vfs_eta|]. cbn zeta.
      destruct (mcs_min_size len _ <? len); [by rewrite put_put, vfs_eta|].
      destruct (mcs_copy_from_user _ _ _ _); [|done]. cbn [mbind option_bind]. by rewrite put_put. }
    rewrite Heq in Hw. unfold a1, put_fd, file_of in Hw. cbn [a_files a_fds d1 set_off d_off d_flags d_obj] in Hw.
    rewrite !insert_insert_eq in Hw. unfold file_of in Hsz. rewrite Hsz in Hw. exact Hw.
  - exact (write_at_rel s a fd f i nd d nm (default [] buf) len Hrel Hv (proj1 Hlen) Hb).
Qed.

(** A seek behaves as the abstract one, or the sum overflows. *)
Lemma lseek_rel s a fd offset whence :
  vfs_rel s a -> args_ok (Lseek fd offset whence) ->
  if seek_fits a (Lseek fd offset whence)
  then sim (mcs_vfs_lseek s true fd offset whence) (a_lseek a fd offset whence)
  else mcs_vfs_lseek s true fd offset whence = None.
Proof.
  intros Hrel Hoff. cbn [args_ok seek_fits] in *. unfold mcs_vfs_lseek, a_lseek. pose proof (fd_get_rel s a fd Hrel) as Hg.
  destruct (a_fds a !! fd) as [d|] eqn:Hd; cbn [mbind option_bind]; [|rewrite Hg; by apply sim_same].
  destruct Hg as (f & -> & Hf & _ & Hfd). cbn [mbind option_bind]. destruct (d_obj d) as [nm|] eqn:Hobj.
  2: { destruct (or_node _ _ _ Hf) as (i & -> & Hat). rewrite Hobj in Hat.
       destruct (node_at_get _ _ _ (r_fs _ _ Hrel) Hat) as (nd & -> & Hr). cbn [mbind option_bind].
       rewrite (ro_type _ Hr). by apply sim_same. }
  destruct (view_of _ _ _ _ _ _ Hrel Hd Hobj Hf Hfd) as (i & nd & Hv).
  rewrite (fv_node _ _ _ _ _ _ _ _ Hv), (fv_get _ _ _ _ _ _ _ _ Hv). cbn [mbind option_bind].
  rewrite (fo_type _ _ (fv_ok _ _ _ _ _ _ _ _ Hv)). change (bool_decide (MCS_VNODE_FILE = MCS_VNODE_DIR)) with false. cbv iota.
  destruct (region_bounds _ _ _ _ _ _ _ _ Hrel Hv) as (_ & _ & Hsz & Hszr & _ & _ & _ & Hor & Hfo). unfold CAPACITY in Hszr.
  assert (Hb : lseek_base f nd whence = a_base a d nm whence).
  { unfold lseek_base, a_base. by rewrite Hfo, Hsz, !s64_small by lia. }
  rewrite Hb. destruct (a_base a d nm whence) as [base|] eqn:Hbase; [|by apply sim_same].
  assert (Hb0 : 0 <= base).
  { unfold a_base in Hbase. rewrite Hsz in Hbase. destruct (whence =? _); [simplify_eq; lia|].
    destruct (whence =? _); [simplify_eq; lia|]. destruct (whence =? _); simplify_eq; lia. }
  unfold long_add. destruct (Z.leb_spec (- 2 ^ 63) (base + offset)); [|lia].
  destruct (Z.ltb_spec (base + offset) (2 ^ 63)); [|done]. cbn [andb mbind option_bind].
  destruct (Z.ltb_spec (base + offset) 0); [by apply sim_same|].
  rewrite u64_id by lia. apply sim_put; [done|done| |done]. apply offset_rel; [done|lia].
Qed.

Lemma seed_rel s a p rest bs :
  vfs_rel s a -> no_nul p ->
  exists s', run s (Seed p rest bs) = Some (fst (arun a (Seed p rest bs)), s') /\ vfs_rel s' (snd (arun a (Seed p rest bs))).
Proof.
  intros Hrel Hp. cbn [run arun fst snd]. rewrite (r_files _ _ Hrel).
  destruct (seed_spec (v_fs s) p rest bs (r_fs _ _ Hrel) Hp) as (fs' & -> & Hok' & Hf' & Hna).
  cbn [mbind option_bind default from_option id]. eexists. split; [done|]. rewrite <- Hf'. by apply rel_fs.
Qed.

Lemma run_rel s a op :
  vfs_rel s a -> op_ok a op ->
  exists s', run s op = Some (fst (arun a op), s') /\ vfs_rel s' (snd (arun a op)).
Proof.
  assert (Hsim : forall res ares, sim res ares ->
    exists s', no_out <$> res = Some (fst (no_out ares), s') /\ vfs_rel s' (snd (no_out ares))).
  { intros res [rc a'] (s' & -> & Hr). by exists s'. }
  intros Hrel. destruct op as [p rest flags|fd buf len|fd buf len|fd off wh|fd|fd|p rest bs]; intros [Hop Hfit].
  - apply Hsim. by apply open_rel_sim.
  - destruct (read_rel s a fd buf len Hrel Hop) as (s' & Hs & Hr). exists s'. split; [|done].
    cbn [run arun]. rewrite Hs. by destruct (a_read a fd buf len) as [[? ?] ?].
  - apply Hsim. by apply write_rel.
  - apply Hsim. pose proof (lseek_rel s a fd off wh Hrel Hop) as Hl. by rewrite Hfit in Hl.
  - apply Hsim. by apply close_rel.
  - apply Hsim. by apply dup_rel.
  - by apply seed_rel.
Qed.

(** The only undefined behaviour the calls have. *)
Lemma run_overflow s a op : vfs_rel s a -> args_ok op -> seek_fits a op = false -> run s op = None.
Proof.
  intros Hrel Hop Hfit. destruct op as [| | |fd off wh| | |]; try done.
  pose proof (lseek_rel s a fd off wh Hrel Hop) as Hl. rewrite Hfit in Hl. cbn [run]. by rewrite Hl.
Qed.

(** ** Sequences of calls *)

Fixpoint runs (s : vfs) (ops : list vop) : option (list (Z * option cptr) * vfs) :=
  match ops with
  | [] => Some ([], s)
  | op :: ops => '(r, s) ← run s op; '(rs, s) ← runs s ops; Some (r :: rs, s)
  end.

Fixpoint aruns (a : astate) (ops : list vop) : list (Z * option cptr) * astate :=
  match ops with
  | [] => ([], a)
  | op :: ops =>
      let '(r, a) := arun a op in let '(rs, a) := aruns a ops in (r :: rs, a)
  end.

Fixpoint ops_ok (a : astate) (ops : list vop) : Prop :=
  match ops with
  | [] => True
  | op :: ops => op_ok a op /\ ops_ok (snd (arun a op)) ops
  end.

Lemma runs_rel s a ops :
  vfs_rel s a -> ops_ok a ops ->
  exists s', runs s ops = Some (fst (aruns a ops), s') /\ vfs_rel s' (snd (aruns a ops)).
Proof.
  revert s a. induction ops as [|op ops IH]; intros s a Hrel Hops; [by exists s|].
  destruct Hops as [Hop Hops]. destruct (run_rel s a op Hrel Hop) as (s1 & Hr & Hrel1). cbn [runs aruns].
  rewrite Hr. cbn [mbind option_bind]. destruct (arun a op) as [r a1]. cbn [fst snd] in *.
  destruct (IH s1 a1 Hrel1 Hops) as (s2 & -> & Hrel2). exists s2. cbn [mbind option_bind].
  by destruct (aruns a1 ops).
Qed.

(** No seek of the sequence overflows. *)
Fixpoint seeks_fit (a : astate) (ops : list vop) : bool :=
  match ops with
  | [] => true
  | op :: ops => seek_fits a op && seeks_fit (snd (arun a op)) ops
  end.

Lemma ops_ok_seeks a ops : Forall args_ok ops -> seeks_fit a ops = true -> ops_ok a ops.
Proof.
  revert a. induction ops as [|op ops IH]; intros a; [done|]. intros [Hop Hops]%Forall_cons_iff.
  cbn [seeks_fit ops_ok]. intros [Hf Hfs]%andb_true_iff. by split; [split|apply IH].
Qed.

Lemma runs_overflow s a ops :
  vfs_rel s a -> Forall args_ok ops -> seeks_fit a ops = false -> runs s ops = None.
Proof.
  revert s a. induction ops as [|op ops IH]; intros s a Hrel; [done|]. intros [Hop Hops]%Forall_cons_iff.
  cbn [seeks_fit runs]. destruct (seek_fits a op) eqn:Hf; intros Hfs; [|by rewrite (run_overflow s a op)].
  destruct (run_rel s a op Hrel (conj Hop Hf)) as (s1 & -> & Hrel1). cbn [mbind option_bind].
  destruct (arun a op) as [r a1]. cbn [fst snd andb] in *. by rewrite (IH s1 a1).
Qed.

(** The state after [mcs_ramfs_init] and [mcs_fd_table_init], from memory
    with any contents. *)
Record raw_ok (s : vfs) : Prop := {
  raw_nodes : Z.of_nat (length (nodes (v_fs s))) = MCS_MAX_NODES;
  raw_names : Forall (fun nd => Z.of_nat (length (n_name nd)) = MCS_MAX_NAME) (nodes (v_fs s));
  raw_data : Z.of_nat (length (data (v_fs s))) = MCS_RAMFS_DATA_BYTES;
  raw_table : Z.of_nat (length (v_table s)) = MCS_MAX_OPEN_FILES
}.

Definition vfs_init (s : vfs) : option vfs :=
  fs ← mcs_ramfs_init (Some (v_fs s));
  t ← mcs_fd_table_init (Some (v_table s));
  Some (mk_vfs fs t).

Lemma init_rel s : raw_ok s -> exists s', vfs_init s = Some s' /\ vfs_rel s' (mk_astate ∅ ∅).
Proof.
  intros [H1 H2 H3 H4]. unfold vfs_init. destruct (ramfs_init_spec (v_fs s) H1 H2 H3) as (fs' & -> & Hok & Hf).
  cbn [mbind option_bind]. eexists. split; [done|]. split; cbn [v_fs v_table a_files a_fds].
  - done.
  - done.
  - by rewrite length_map.
  - intros fd. rewrite lookup_empty. unfold arr_get. destruct (fd <? 0); [done|].
    change (map (fun _ : mcs_file => closed_file) (v_table s)) with ((fun _ => closed_file) <$> v_table s).
    rewrite list_lookup_fmap. by destruct (v_table s !! Z.to_nat fd).
Qed.

Lemma aruns_app a ops1 ops2 :
  aruns a (ops1 ++ ops2) =
  (fst (aruns a ops1) ++ fst (aruns (snd (aruns a ops1)) ops2), snd (aruns (snd (aruns a ops1)) ops2)).
Proof.
  revert a. induction ops1 as [|op ops1 IH]; intros a; cbn [app aruns fst snd]; [by destruct (aruns a ops2)|].
  destruct (arun a op) as [r a1]. rewrite IH. by destruct (aruns a1 ops1).
Qed.

Lemma ops_ok_app a ops1 ops2 :
  ops_ok a (ops1 ++ ops2) <-> ops_ok a ops1 /\ ops_ok (snd (aruns a ops1)) ops2.
Proof.
  revert a. induction ops1 as [|op ops1 IH]; intros a; cbn [app ops_ok aruns snd]; [tauto|].
  rewrite IH. destruct (arun a op) as [r a1]. cbn [snd]. destruct (aruns a1 ops1); cbn [snd]. tauto.
Qed.

Definition a_init : astate := mk_astate ∅ ∅.

(** C7. From any initial memory contents, after initialisation, take any
    sequence of open, read, write, lseek, close, dup and seed calls with
    NUL-terminated paths and buffers as long as the caller says.  If no seek
    of it adds up to an offset of [2^63] or more, the sequence runs without
    undefined behaviour, returns call by call the codes and bytes of the
    abstract file system (a map from names to files, a map from descriptors
    to flags, offset and file), errors included, and ends in a state that
    represents the abstract one: regions of different files are disjoint,
    sizes are at most the capacity, names are distinct.  If a seek does, the
    signed addition in [mcs_vfs_lseek] overflows and the sequence is
    undefined. *)
Theorem vfs_refines_files s ops :
  raw_ok s -> Forall args_ok ops ->
  exists s0, vfs_init s = Some s0 /\
    (seeks_fit a_init ops = true ->
       exists s', runs s0 ops = Some (fst (aruns a_init ops), s') /\ vfs_rel s' (snd (aruns a_init ops))) /\
    (seeks_fit a_init ops = false -> runs s0 ops = None).
Proof.
  intros Hraw Hops. destruct (init_rel s Hraw) as (s0 & Hs0 & Hrel). exists s0. split; [done|]. split.
  - intros Hfit. apply runs_rel; [done|by apply ops_ok_seeks].
  - by apply runs_overflow.
Qed.

(** Writing at the offset, seeking back and reading, in the specification. *)
Definition write_seek_read (fd off : Z) (bs buf : list Z) : list vop :=
  [Write fd (Some bs) (Z.of_nat (length bs)); Lseek fd off MCS_SEEK_SET;
   Read fd (Some buf) (Z.of_nat (length bs))].

Record rw_ready (a : astate) (fd : Z) (d : afd) (nm : list Z) (bs : list Z) : Prop := {
  rw_fd : a_fds a !! fd = Some d;
  rw_obj : d_obj d = Some nm;
  rw_read : may_read (d_flags d) = true;
  rw_write : may_write (d_flags d) = true;
  rw_append : Z.testbit (d_flags d) 10 = false;
  rw_off : 0 <= d_off d;
  rw_room : d_off d + Z.of_nat (length bs) <= CAPACITY;
  rw_store : Z.of_nat (length (a_store (file_of a nm))) = CAPACITY
}.

Lemma take_written {A} (st bs rest : list A) (o m : nat) :
  (o <= length st)%nat -> (o + length bs <= m)%nat ->
  take (length bs) (drop o (take m (take o st ++ bs ++ rest))) = bs.
Proof.
  intros Ho Hm. rewrite take_app_ge by (rewrite length_take; lia). rewrite drop_app_ge by (rewrite length_take; lia).
  rewrite length_take, Nat.min_l, Nat.sub_diag, drop_0, take_take, Nat.min_l by lia. by rewrite take_app_length.
Qed.

Definition written (a : astate) (fd : Z) (d : afd) (nm bs : list Z) : astate :=
  let f := file_of a nm in
  mk_astate
    (<[nm := mk_afile (Z.max (a_size f) (d_off d + Z.of_nat (length bs)))
       (take (Z.to_nat (d_off d)) (a_store f) ++ bs ++
        drop (Z.to_nat (d_off d + Z.of_nat (length bs))) (a_store f))]> (a_files a))
    (<[fd := set_off (d_off d + Z.of_nat (length bs)) d]> (a_fds a)).

Lemma file_of_insert F D nm f : file_of (mk_astate (<[nm := f]> F) D) nm = f.
Proof. unfold file_of. cbn [a_files]. by rewrite lookup_insert_eq. Qed.

Section write_read.
Context (a : astate) (fd : Z) (d : afd) (nm bs : list Z) (Hready : rw_ready a fd d nm bs).

Lemma a_write_ok : a_write a fd (Some bs) (Z.of_nat (length bs)) = (Z.of_nat (length bs), written a fd d nm bs).
Proof.
  destruct Hready as [Hfd Hobj Hr Hw Hap Ho Hroom Hst]. unfold a_write.
  change (bad_buf (Some bs) (Z.of_nat (length bs))) with false. unfold a_open_file. rewrite Hfd, Hw, Hobj. cbn [negb].
  rewrite Hap. cbn zeta. unfold CAPACITY in *.
  destruct (Z.ltb_spec 256 (d_off d)); [lia|]. destruct (Z.ltb_spec (256 - d_off d) (Z.of_nat (length bs))); [lia|].
  cbn [default from_option id]. rewrite Nat2Z.id, firstn_all. done.
Qed.

Lemma a_lseek_back : a_lseek (written a fd d nm bs) fd (d_off d) MCS_SEEK_SET =
  (d_off d, put_fd (written a fd d nm bs) fd d).
Proof.
  destruct Hready as [Hfd Hobj Hr Hw Hap Ho Hroom Hst]. unfold a_lseek, written. cbn [a_fds]. rewrite lookup_insert_eq.
  cbn [set_off d_obj]. rewrite Hobj. change (a_base _ _ _ MCS_SEEK_SET) with (Some 0). cbv iota beta. rewrite Z.add_0_l.
  destruct (Z.ltb_spec (d_off d) 0); [lia|]. unfold CAPACITY in *. f_equal.
  - unfold swrap. rewrite wrap_small by (unfold in_u; lia). change (32 - 1) with 31. destruct (Z.ltb_spec (d_off d) (2 ^ 31)); lia.
  - unfold put_fd, set_off. cbn [d_flags d_obj]. by destruct d.
Qed.

Lemma a_read_back buf : length buf = length bs ->
  fst (a_read (put_fd (written a fd d nm bs) fd d) fd (Some buf) (Z.of_nat (length bs))) =
    (Z.of_nat (length bs), Some bs) /\
  a_files (snd (a_read (put_fd (written a fd d nm bs) fd d) fd (Some buf) (Z.of_nat (length bs)))) =
    a_files (written a fd d nm bs).
Proof.
  intros Hbuf. destruct Hready as [Hfd Hobj Hr Hw Hap Ho Hroom Hst]. unfold a_read.
  change (bad_buf (Some buf) (Z.of_nat (length bs))) with false. unfold a_open_file, put_fd, written.
  cbn [a_fds a_files]. rewrite lookup_insert_eq. rewrite Hr, Hobj. cbn [negb]. rewrite !file_of_insert. cbn [a_size a_store]. unfold CAPACITY in *.
  remember (a_store (file_of a nm)) as st eqn:Est. remember (length bs) as n eqn:En.
  assert (Hdata : take (Z.to_nat (Z.of_nat n)) (drop (Z.to_nat (d_off d))
     (take (Z.to_nat (Z.max (a_size (file_of a nm)) (d_off d + Z.of_nat n)))
        (take (Z.to_nat (d_off d)) st ++ bs ++ drop (Z.to_nat (d_off d + Z.of_nat n)) st))) = bs).
  { rewrite Nat2Z.id. subst n. apply take_written; lia. }
  rewrite Hdata. cbn [fst snd]. split; [|done]. rewrite <- En. do 2 f_equal. cbn.
  rewrite drop_ge by lia. by rewrite app_nil_r.
Qed.

Lemma a_write_seek_read buf : length buf = length bs ->
  fst (aruns a (write_seek_read fd (d_off d) bs buf)) =
    [(Z.of_nat (length bs), None); (d_off d, None); (Z.of_nat (length bs), Some bs)] /\
  a_files (snd (aruns a (write_seek_read fd (d_off d) bs buf))) = a_files (written a fd d nm bs).
Proof.
  intros Hbuf. unfold write_seek_read. cbn [aruns arun]. rewrite a_write_ok. cbn [no_out fst snd].
  rewrite a_lseek_back. cbn [no_out fst snd]. destruct (a_read_back buf Hbuf) as [H1 H2].
  destruct (a_read _ fd (Some buf) _) as [r a']. cbn [fst snd] in *. by subst r.
Qed.

Lemma ops_ok_write_seek_read buf : length buf = length bs -> ops_ok a (write_seek_read fd (d_off d) bs buf).
Proof.
  intros Hbuf. destruct Hready as [Hfd Hobj Hr Hw Hap Ho Hroom Hst]. unfold CAPACITY in *.
  unfold write_seek_read. cbn [ops_ok]. unfold op_ok. cbn [args_ok]. assert (Hb : forall b, length b = length bs -> buf_ok (Some b) (Z.of_nat (length bs))).
  { intros b Hl. split; [lia|]. intros b' [= <-]. lia. }
  split; [by split; [apply Hb|]|]. split; [|by split; [split; [apply Hb|]|]]. split; [lia|].
  cbn [seek_fits]. destruct (a_fds (snd _) !! fd) as [d1|]; [|done]. cbn [mbind option_bind].
  destruct (d_obj d1); [|done]. cbn [mbind option_bind a_base Z.eqb MCS_SEEK_SET]. apply Z.ltb_lt. lia.
Qed.

End write_read.

(** In every state the calls reach, a descriptor open for reading and
    writing reads back exactly the bytes written through it: after a write of
    bytes that fit, seeking back to the old offset and reading that many bytes
    delivers them, and every other file keeps its size and its bytes. *)
Theorem vfs_write_read s ops fd d nm bs buf :
  raw_ok s -> ops_ok a_init ops ->
  let a := snd (aruns a_init ops) in
  rw_ready a fd d nm bs -> length buf = length bs ->
  exists s0 s1 s' rs, vfs_init s = Some s0 /\ runs s0 ops = Some (rs, s1) /\
    runs s0 (ops ++ write_seek_read fd (d_off d) bs buf) =
      Some (rs ++ [(Z.of_nat (length bs), None); (d_off d, None); (Z.of_nat (length bs), Some bs)], s') /\
    forall nm', nm' <> nm -> files (v_fs s') !! nm' = files (v_fs s1) !! nm'.
Proof.
  intros Hraw Hops a Hready Hbuf. destruct (init_rel s Hraw) as (s0 & Hs0 & Hrel). exists s0.
  destruct (runs_rel s0 a_init ops Hrel Hops) as (s1 & Hr1 & Hrel1). exists s1.
  assert (Hops2 : ops_ok a_init (ops ++ write_seek_read fd (d_off d) bs buf)).
  { apply ops_ok_app. split; [done|]. by eapply ops_ok_write_seek_read. }
  destruct (runs_rel s0 a_init _ Hrel Hops2) as (s2 & Hr2 & Hrel2). exists s2, (fst (aruns a_init ops)).
  destruct (a_write_seek_read a fd d nm bs Hready buf Hbuf) as [Hres Hfiles].
  rewrite aruns_app in Hr2, Hrel2. cbn [fst snd] in Hr2, Hrel2. fold a in Hr2, Hrel2. rewrite Hres in Hr2.
  split_and!; [done|done|done|]. intros nm' Hne.
  rewrite <- (r_files _ _ Hrel2), <- (r_files _ _ Hrel1). fold a. rewrite Hfiles. cbn [written a_files].
  by rewrite lookup_insert_ne.
Qed.

(** ** Concrete runs *)

(** Memory before initialisation, with arbitrary contents. *)
Definition raw_vfs : vfs :=
  mk_vfs
    (mk_ramfs (replicate 64 (mk_node 7 7 7 MCS_VNODE_DIR (replicate 32 7) 7 7 7)) 7
      (replicate (Z.to_nat MCS_RAMFS_DATA_BYTES) 7) 7)
    (replicate 16 (mk_file 7 7 7 None true)).

Lemma raw_vfs_ok : raw_ok raw_vfs.
Proof. split; [done|by apply Forall_replicate|by vm_compute|done]. Qed.

Definition path_a : list Z := [47; 97].
Definition RW_CREAT : Z := Z.lor MCS_O_RDWR MCS_O_CREAT.

(** The side conditions of concrete calls. *)
Ltac ops_solve :=
  cbn [ops_ok];
  repeat match goal with
  | |- Forall _ _ => constructor
  | |- op_ok _ _ => split; [cbn [args_ok]|by vm_compute]
  | |- args_ok _ => cbn [args_ok]
  | |- _ /\ _ => split
  | |- True => exact I
  | |- no_nul ?p => unfold no_nul, p; repeat constructor; done
  | |- buf_ok _ _ => split; [lia|intros ? [= <-]; cbn; lia]
  end.

Lemma vfs_refines_files_witness :
  exists s0 s', vfs_init raw_vfs = Some s0 /\
    runs s0 [Open path_a [] RW_CREAT; Write 0 (Some [1; 2; 3]) 3; Dup 0; Close 0; Read 1 (Some [9; 9]) 2] =
      Some ([(0, None); (3, None); (1, None); (0, None); (0, Some [9; 9])], s').
Proof.
  destruct (vfs_refines_files raw_vfs
    [Open path_a [] RW_CREAT; Write 0 (Some [1; 2; 3]) 3; Dup 0; Close 0; Read 1 (Some [9; 9]) 2] raw_vfs_ok)
    as (s0 & Hi & Hr & _).
  - ops_solve.
  - destruct Hr as (s' & Hr & _); [by vm_compute|]. exists s0, s'. split; [exact Hi|]. rewrite Hr. by vm_compute.
Defined.

Lemma vfs_write_read_witness :
  exists s0 s', vfs_init raw_vfs = Some s0 /\
    runs s0 ([Open path_a [] RW_CREAT] ++ write_seek_read 0 0 [1; 2; 3] [0; 0; 0]) =
      Some ([(0, None); (3, None); (0, None); (3, Some [1; 2; 3])], s').
Proof.
  destruct (vfs_write_read raw_vfs [Open path_a [] RW_CREAT] 0 (mk_afd RW_CREAT 0 (Some [97])) [97]
    [1; 2; 3] [0; 0; 0] raw_vfs_ok) as (s0 & s1 & s' & rs & Hi & Hr & Hw & _).
  - ops_solve.
  - split; try (by vm_compute); cbn; unfold CAPACITY; lia.
  - done.
  - exists s0, s'. split; [exact Hi|]. cbn [d_off] in Hw. rewrite Hw. do 2 f_equal.
    cut (rs = [(0, None)]); [by intros ->|].
    destruct (init_rel raw_vfs raw_vfs_ok) as (s2 & Hi2 & Hrel2).
    destruct (runs_rel s2 a_init [Open path_a [] RW_CREAT] Hrel2) as (s3 & Hr2 & _).
    { ops_solve. }
    rewrite Hi in Hi2. injection Hi2 as <-. rewrite Hr in Hr2. injection Hr2 as -> _. by vm_compute.
Defined.

Definition results (ops : list vop) : option (list (Z * option cptr)) :=
  s ← vfs_init raw_vfs; fst <$> runs s ops.

(** Truncation resets the size but not the bytes: a write past the new end
    makes the old bytes readable again. *)
Example truncate_keeps_old_bytes :
  results [Open path_a [] RW_CREAT; Write 0 (Some [1; 2; 3; 4]) 4;
           Open path_a [] (Z.lor MCS_O_RDWR MCS_O_TRUNC); Lseek 1 3 MCS_SEEK_SET; Write 1 (Some [9]) 1;
           Lseek 1 0 MCS_SEEK_SET; Read 1 (Some [0; 0; 0; 0]) 4] =
  Some [(0, None); (4, None); (1, None); (3, None); (1, None); (0, None); (4, Some [1; 2; 3; 9])].
Proof. by vm_compute. Qed.

(** A seek to an offset of 2 GiB succeeds but reports a negative number. *)
Example lseek_reports_negative :
  results [Open path_a [] RW_CREAT; Lseek 0 (2 ^ 31) MCS_SEEK_SET; Lseek 0 (- 2 ^ 31) MCS_SEEK_CUR] =
  Some [(0, None); (- 2 ^ 31, None); (0, None)].
Proof. by vm_compute. Qed.

(** A seek of the largest [long] from offset 1 overflows. *)
Example lseek_overflow_undefined :
  results [Open path_a [] RW_CREAT; Lseek 0 1 MCS_SEEK_SET; Lseek 0 (2 ^ 63 - 1) MCS_SEEK_CUR] = None.
Proof. by vm_compute. Qed.

(** An open that fails with [MCS_EACCES] has created the file all the same. *)
Example failed_open_creates :
  results [Open path_a [] (Z.lor MCS_O_CREAT MCS_O_TRUNC); Open path_a [] MCS_O_RDONLY] =
  Some [(MCS_EACCES, None); (0, None)].
Proof. by vm_compute. Qed.

End Vfs.
