(* ===== verification/Syscall.v ===== *)
(** * System calls ([kernel/syscall/syscall.c])

    The state is the callback table, the user region, the kernel's file
    system with the descriptors of the main process, and user memory: one
    object of bytes that starts at [u_base].  A user pointer is an address; the
    bytes it reaches are those from that address to the end of user memory.
    The callbacks are code of the caller: they act on a state [W] of its own,
    and [None] means that a callback does not return. *)
From S2P Require Import Prelude Bitmap Bytes Ramfs Vfs.
From stdpp Require Import base gmap list numbers option.
From Stdlib Require Import ZArith Lia.

Open Scope Z_scope.

Module Syscall.
Import Ramfs Vfs.

Definition MCSOS_SYS_MAX : Z := 10.
Definition MCSOS_OK : Z := 0.
Definition MCSOS_EFAULT : Z := -14.
Definition MCSOS_EBUSY : Z := -16.
Definition MCSOS_EINVAL : Z := -22.
Definition MCSOS_ENOSYS : Z := -38.

Record mcsos_user_region := mk_region { base : Z; limit : Z }.

Section callbacks.
Context {W : Type}.

Record mcsos_syscall_ops := mk_ops {
  get_ticks : option (W -> option (Z * W));
  yield_current : option (W -> option W);
  exit_current : option (Z -> W -> option W);
  write_serial : option (cptr -> Z -> W -> option (Z * W))
}.

Record sys := mk_sys {
  g_ops : mcsos_syscall_ops;
  g_user_region : mcsos_user_region;
  g_vfs_initialized : Z;
  g_vfs : vfs;
  u_base : Z;
  u_bytes : list Z;
  world : W
}.

Definition set_vfs (s : sys) (init : Z) (v : vfs) : sys :=
  mk_sys (g_ops s) (g_user_region s) init v (u_base s) (u_bytes s) (world s).

Definition set_bytes (s : sys) (bs : list Z) : sys :=
  mk_sys (g_ops s) (g_user_region s) (g_vfs_initialized s) (g_vfs s) (u_base s) bs (world s).

Definition set_world (s : sys) (w : W) : sys :=
  mk_sys (g_ops s) (g_user_region s) (g_vfs_initialized s) (g_vfs s) (u_base s) (u_bytes s) w.

(** ** User memory *)

(** The bytes from an address on; none outside user memory. *)
Definition u_at (s : sys) (p : Z) : cptr :=
  if (u_base s <=? p) && (p <=? u_base s + Z.of_nat (length (u_bytes s)))
  then drop (Z.to_nat (p - u_base s)) (u_bytes s) else [].

Definition u_ptr (s : sys) (p : Z) : option cptr := if p =? 0 then None else Some (u_at s p).

(** User memory after the bytes from an address on were replaced. *)
Definition u_put (s : sys) (p : Z) (b : option cptr) : sys :=
  match b with
  | Some b =>
      if (u_base s <=? p) && (p <=? u_base s + Z.of_nat (length (u_bytes s)))
      then set_bytes s (take (Z.to_nat (p - u_base s)) (u_bytes s) ++ b) else s
  | None => s
  end.

(** ** Initialisation *)

Definition mcs_vfs_init_once (s : sys) : option sys :=
  if g_vfs_initialized s =? 0 then
    fs ← mcs_ramfs_init (Some (v_fs (g_vfs s)));
    t ← mcs_fd_table_init (Some (v_table (g_vfs s)));
    Some (set_vfs s 1 (mk_vfs fs t))
  else Some s.

Definition default_write_serial (buf : cptr) (len : Z) (w : W) : option (Z * W) := Some (s64 len, w).

Definition or_else {A} (x y : option A) : option A := match x with Some _ => x | None => y end.

Definition mcsos_syscall_init (ops : option mcsos_syscall_ops) (s : sys) : sys :=
  let o := match ops with
           | None => mk_ops None None None (Some default_write_serial)
           | Some ops => mk_ops (or_else (get_ticks ops) None) (or_else (yield_current ops) None)
                          (or_else (exit_current ops) None)
                          (or_else (write_serial ops) (Some default_write_serial))
           end in
  mk_sys o (g_user_region s) (g_vfs_initialized s) (g_vfs s) (u_base s) (u_bytes s) (world s).

Definition mcsos_syscall_set_user_region (region : mcsos_user_region) (s : sys) : sys :=
  mk_sys (g_ops s) region (g_vfs_initialized s) (g_vfs s) (u_base s) (u_bytes s) (world s).

(** ** Checking and copying *)

Definition mcsos_user_check_range (r : mcsos_user_region) (addr len : Z) : bool :=
  if len =? 0 then true else
  if (base r =? 0) || (limit r <=? base r) then false else
  if addr <? base r then false else
  if limit r <? addr then false else
  let last := u64 (u64 (addr + len) - 1) in
  if last <? addr then false else
  if limit r <=? last then false else true.

Definition mcsos_copy_from_user (s : sys) (dst : option (list Z)) (src len : Z) : option (Z * option (list Z)) :=
  if len =? 0 then Some (MCSOS_OK, dst) else
  match dst with
  | None => Some (MCSOS_EINVAL, dst)
  | Some d =>
      if src =? 0 then Some (MCSOS_EINVAL, dst) else
      if negb (mcsos_user_check_range (g_user_region s) src len) then Some (MCSOS_EFAULT, dst) else
      bs ← slice (u_at s src) 0 len;
      d' ← splice d 0 bs;
      Some (MCSOS_OK, Some d')
  end.

(** ** The calls *)

Definition syscall_fn : Type := Z -> Z -> Z -> sys -> option (Z * sys).

Definition sys_ping : syscall_fn := fun _ _ _ s => Some (0x2605020A, s).

Definition sys_get_ticks : syscall_fn := fun _ _ _ s =>
  match get_ticks (g_ops s) with
  | None => Some (MCSOS_EBUSY, s)
  | Some f => '(t, w) ← f (world s); Some (s64 t, set_world s w)
  end.

(** Calling a null [write_serial] is undefined. *)
Definition sys_write_serial : syscall_fn := fun ptr len _ s =>
  if ptr =? 0 then Some (MCSOS_EINVAL, s) else
  if 4096 <? len then Some (MCSOS_EINVAL, s) else
  if negb (mcsos_user_check_range (g_user_region s) ptr len) then Some (MCSOS_EFAULT, s) else
  f ← write_serial (g_ops s);
  '(r, w) ← f (u_at s ptr) len (world s);
  Some (r, set_world s w).

Definition sys_yield : syscall_fn := fun _ _ _ s =>
  match yield_current (g_ops s) with
  | None => Some (MCSOS_EBUSY, s)
  | Some f => w ← f (world s); Some (MCSOS_OK, set_world s w)
  end.

Definition sys_exit_thread : syscall_fn := fun code _ _ s =>
  match exit_current (g_ops s) with
  | None => Some (MCSOS_EBUSY, s)
  | Some f => w ← f (s32 code) (world s); Some (MCSOS_OK, set_world s w)
  end.

Definition with_vfs (s : sys) (r : option (Z * vfs)) : option (Z * sys) :=
  '(rc, v) ← r; Some (rc, set_vfs s (g_vfs_initialized s) v).

Definition sys_open : syscall_fn := fun path_ptr flags _ s =>
  if path_ptr =? 0 then Some (MCSOS_EINVAL, s) else
  let flags := if flags =? 0 then MCS_O_RDONLY else flags in
  if negb (mcsos_user_check_range (g_user_region s) path_ptr MCS_MAX_PATH) then Some (MCSOS_EFAULT, s) else
  s ← mcs_vfs_init_once s;
  with_vfs s (mcs_sys_open (g_vfs s) true true (u_ptr s path_ptr) (u32 flags)).

Definition sys_read : syscall_fn := fun fd buf_ptr len s =>
  if (buf_ptr =? 0) && negb (len =? 0) then Some (MCSOS_EINVAL, s) else
  if (0 <? len) && negb (mcsos_user_check_range (g_user_region s) buf_ptr len) then Some (MCSOS_EFAULT, s) else
  s ← mcs_vfs_init_once s;
  '(rc, b, v) ← mcs_sys_read (g_vfs s) true (s32 fd) (u_ptr s buf_ptr) len;
  Some (rc, u_put (set_vfs s (g_vfs_initialized s) v) buf_ptr b).

Definition sys_write : syscall_fn := fun fd buf_ptr len s =>
  if (buf_ptr =? 0) && negb (len =? 0) then Some (MCSOS_EINVAL, s) else
  if (0 <? len) && negb (mcsos_user_check_range (g_user_region s) buf_ptr len) then Some (MCSOS_EFAULT, s) else
  s ← mcs_vfs_init_once s;
  with_vfs s (mcs_sys_write (g_vfs s) true (s32 fd) (u_ptr s buf_ptr) len).

Definition sys_close : syscall_fn := fun fd _ _ s =>
  s ← mcs_vfs_init_once s;
  with_vfs s (mcs_sys_close (g_vfs s) true (s32 fd)).

Definition sys_lseek : syscall_fn := fun fd offset whence s =>
  s ← mcs_vfs_init_once s;
  with_vfs s (mcs_sys_lseek (g_vfs s) true (s32 fd) (s64 offset) (s32 whence)).

(** ** Dispatch; no call uses the last three arguments *)

Definition g_table : list syscall_fn :=
  [sys_ping; sys_get_ticks; sys_write_serial; sys_yield; sys_exit_thread;
   sys_open; sys_read; sys_write; sys_close; sys_lseek].

Definition mcsos_syscall_dispatch (nr arg0 arg1 arg2 arg3 arg4 arg5 : Z) (s : sys) : option (Z * sys) :=
  if MCSOS_SYS_MAX <=? nr then Some (MCSOS_ENOSYS, s) else
  fn ← arr_get g_table nr;
  fn arg0 arg1 arg2 s.

Record mcsos_syscall_frame := mk_frame {
  nr : Z; arg0 : Z; arg1 : Z; arg2 : Z; arg3 : Z; arg4 : Z; arg5 : Z; ret : Z
}.

Definition mcsos_syscall_dispatch_frame (frame : option mcsos_syscall_frame) (s : sys)
    : option (option mcsos_syscall_frame * sys) :=
  match frame with
  | None => Some (None, s)
  | Some f =>
      '(r, s) ← mcsos_syscall_dispatch (nr f) (arg0 f) (arg1 f) (arg2 f) (arg3 f) (arg4 f) (arg5 f) s;
      Some (Some (mk_frame (nr f) (arg0 f) (arg1 f) (arg2 f) (arg3 f) (arg4 f) (arg5 f) r), s)
  end.

(** ** The range check *)

(** The check accepts exactly the ranges that lie in the region, computed
    without wrap-around. *)
Lemma check_range_spec r addr len :
  in_u 64 addr -> in_u 64 len -> in_u 64 (base r) -> in_u 64 (limit r) ->
  mcsos_user_check_range r addr len = true <->
  len = 0 \/ (base r <> 0 /\ base r <= addr /\ addr + len <= limit r).
Proof.
  unfold in_u. intros Ha Hl Hb Hr. unfold mcsos_user_check_range. cbn zeta.
  destruct (Z.eqb_spec len 0); [tauto|].
  destruct (Z.eqb_spec (base r) 0); cbn [orb]; [split; [done|lia]|].
  destruct (Z.leb_spec (limit r) (base r)); [split; [done|lia]|].
  destruct (Z.ltb_spec addr (base r)); [split; [done|lia]|].
  destruct (Z.ltb_spec (limit r) addr); [split; [done|lia]|].
  assert (Hlast : u64 (u64 (addr + len) - 1) = if decide (addr + len <= 2 ^ 64) then addr + len - 1 else addr + len - 1 - 2 ^ 64).
  { unfold wrap. rewrite Zminus_mod_idemp_l. case_decide; [apply Z.mod_small; lia|].
    symmetry. apply (Z.mod_unique _ _ 1); lia. }
  rewrite Hlast. case_decide.
  - destruct (Z.ltb_spec (addr + len - 1) addr); [lia|].
    destruct (Z.leb_spec (limit r) (addr + len - 1)); [split; [done|lia]|]. split; [lia|done].
  - destruct (Z.ltb_spec (addr + len - 1 - 2 ^ 64) addr); [|lia]. split; [done|lia].
Qed.

(** ** The state of the file system behind the calls *)

Record sys_rel (s : sys) (a : astate) : Prop := {
  y_base : 0 <= u_base s <= base (g_user_region s);
  y_limit : limit (g_user_region s) <= u_base s + Z.of_nat (length (u_bytes s));
  y_range : 0 <= limit (g_user_region s) < 2 ^ 63 /\ base (g_user_region s) < 2 ^ 64;
  y_vfs : if decide (g_vfs_initialized s = 0) then raw_ok (g_vfs s) /\ a = a_init else vfs_rel (g_vfs s) a
}.

Lemma init_once_rel s a :
  sys_rel s a ->
  exists i v, mcs_vfs_init_once s = Some (set_vfs s i v) /\ i <> 0 /\ vfs_rel v a.
Proof.
  intros [_ _ _ Hv]. unfold mcs_vfs_init_once. destruct (Z.eqb_spec (g_vfs_initialized s) 0); case_decide; try done.
  - destruct Hv as [Hraw ->]. destruct (init_rel (g_vfs s) Hraw) as (v & Hi & Hrel). unfold vfs_init in Hi.
    destruct (mcs_ramfs_init _) as [fs|]; [|done]. cbn [mbind option_bind] in *.
    destruct (mcs_fd_table_init _) as [t|]; [|done]. cbn [mbind option_bind] in *. injection Hi as <-.
    exists 1, (mk_vfs fs t). done.
  - exists (g_vfs_initialized s), (g_vfs s). split_and!; [|done|done]. by destruct s.
Qed.

Lemma sys_rel_vfs s a a' i v : sys_rel s a -> i <> 0 -> vfs_rel v a' -> sys_rel (set_vfs s i v) a'.
Proof. intros [H1 H2 H3 _] Hi Hv. split; cbn; try done. by rewrite decide_False. Qed.

Lemma set_vfs_twice s i v j w : set_vfs (set_vfs s i v) j w = set_vfs s j w.
Proof. done. Qed.

(** ** User pointers *)

Lemma u_at_length s p :
  u_base s <= p <= u_base s + Z.of_nat (length (u_bytes s)) ->
  Z.of_nat (length (u_at s p)) = u_base s + Z.of_nat (length (u_bytes s)) - p.
Proof.
  intros Hp. unfold u_at. destruct (Z.leb_spec (u_base s) p); [|lia].
  destruct (Z.leb_spec p (u_base s + Z.of_nat (length (u_bytes s)))); [|lia]. cbn [andb]. rewrite length_drop. lia.
Qed.

Lemma checked_buf s a p len :
  sys_rel s a -> in_u 64 p -> in_u 64 len ->
  (0 <? len) && negb (mcsos_user_check_range (g_user_region s) p len) = false ->
  buf_ok (u_ptr s p) len /\ (0 < len -> base (g_user_region s) <= p /\ p + len <= limit (g_user_region s)).
Proof.
  intros [Hb Hl Hr _] Hp Hlen Hc. destruct (Z.ltb_spec 0 len); cbn [andb] in Hc.
  - apply negb_false_iff in Hc. apply check_range_spec in Hc; [|done|done|unfold in_u; lia|unfold in_u; lia].
    destruct Hc as [->|(? & ? & ?)]; [lia|]. split; [|lia]. split; [lia|].
    intros b Hbuf. unfold u_ptr in Hbuf. destruct (p =? 0); [done|]. injection Hbuf as <-. rewrite u_at_length by lia. lia.
  - unfold in_u in Hlen. assert (len = 0) as -> by lia. split; [|lia]. split; [lia|]. lia.
Qed.

(** ** File calls as abstract operations *)

(** What a file call asks for, once its pointers are checked. *)
Definition file_call (s : sys) (nr a0 a1 a2 : Z) : Z + vop :=
  let r := g_user_region s in
  if nr =? 5 then
    if a0 =? 0 then inl MCSOS_EINVAL
    else if negb (mcsos_user_check_range r a0 MCS_MAX_PATH) then inl MCSOS_EFAULT
    else let p := cstr (u_at s a0) in
         inr (Open p (drop (S (length p)) (u_at s a0)) (u32 (if a1 =? 0 then MCS_O_RDONLY else a1)))
  else if nr =? 6 then
    if (a1 =? 0) && negb (a2 =? 0) then inl MCSOS_EINVAL
    else if (0 <? a2) && negb (mcsos_user_check_range r a1 a2) then inl MCSOS_EFAULT
    else inr (Read (s32 a0) (u_ptr s a1) a2)
  else if nr =? 7 then
    if (a1 =? 0) && negb (a2 =? 0) then inl MCSOS_EINVAL
    else if (0 <? a2) && negb (mcsos_user_check_range r a1 a2) then inl MCSOS_EFAULT
    else inr (Write (s32 a0) (u_ptr s a1) a2)
  else if nr =? 8 then inr (Close (s32 a0))
  else inr (Lseek (s32 a0) (s64 a1) (s32 a2)).

(** What the kernel takes on trust from the caller: a path that passes the
    range check ends somewhere in user memory, and the new offset of a seek
    fits a [long]. *)
Definition call_trust (s : sys) (a : astate) (nr a0 a1 a2 : Z) : Prop :=
  (nr = 5 -> a0 <> 0 -> mcsos_user_check_range (g_user_region s) a0 MCS_MAX_PATH = true -> NUL ∈ u_at s a0) /\
  (nr = 9 -> seek_fits a (Lseek (s32 a0) (s64 a1) (s32 a2)) = true).

Lemma s64_long x : - 2 ^ 63 <= s64 x < 2 ^ 63.
Proof.
  unfold swrap. pose proof (wrap_range 64 x ltac:(lia)) as H. unfold in_u in H. change (64 - 1) with 63.
  destruct (Z.ltb_spec (u64 x) (2 ^ 63)); lia.
Qed.

Lemma cstr_split (l : list Z) :
  NUL ∈ l -> no_nul (cstr l) /\ l = cstr l ++ NUL :: drop (S (length (cstr l))) l.
Proof.
  induction l as [|c l IH]; intros Hin; [by apply not_elem_of_nil in Hin|]. cbn [cstr].
  destruct (Z.eqb_spec c NUL) as [->|Hc]; [split; [constructor|]; cbn [length drop app]; by rewrite drop_0|].
  apply elem_of_cons in Hin as [?|Hin]; [congruence|]. destruct (IH Hin) as [H1 H2]. split; [by constructor|].
  cbn [app length drop]. f_equal. exact H2.
Qed.

Lemma file_call_ok s a nr a0 a1 a2 op :
  sys_rel s a -> 5 <= nr < 10 -> in_u 64 a1 -> in_u 64 a2 -> call_trust s a nr a0 a1 a2 ->
  file_call s nr a0 a1 a2 = inr op -> op_ok a op.
Proof.
  intros Hrel Hnr H1 H2 [Ht1 Ht2] Hop. unfold file_call in Hop. cbn zeta in Hop. destruct (Z.eqb_spec nr 5).
  { destruct (Z.eqb_spec a0 0); [done|]. destruct (mcsos_user_check_range _ a0 _) eqn:Hc; [|done].
    injection Hop as <-. split; [|done]. apply cstr_split. by apply Ht1. }
  destruct (Z.eqb_spec nr 6).
  { destruct (_ && _); [done|]. destruct ((0 <? a2) && _) eqn:Hc; [done|]. injection Hop as <-.
    split; [|done]. by eapply checked_buf. }
  destruct (Z.eqb_spec nr 7).
  { destruct (_ && _); [done|]. destruct ((0 <? a2) && _) eqn:Hc; [done|]. injection Hop as <-.
    split; [|done]. by eapply checked_buf. }
  destruct (Z.eqb_spec nr 8); injection Hop as <-; [by split|]. split; [apply s64_long|apply Ht2; lia].
Qed.

Lemma bad_buf_ptr s p len : bad_buf (u_ptr s p) len = (p =? 0) && negb (len =? 0).
Proof. unfold bad_buf, u_ptr. by destruct (p =? 0). Qed.

Lemma run_no_out v op (r : option (Z * vfs)) rc out v' :
  run v op = Some (rc, out, v') -> run v op = no_out <$> r -> r = Some (rc, v') /\ out = None.
Proof. intros -> H. destruct r as [[rc' v1]|]; [|done]. cbn in H. by injection H as <- -> <-. Qed.

(** A call that only returns a code. *)
Lemma with_vfs_run s i v op (r : option (Z * vfs)) a a1 :
  vfs_rel v a -> op_ok a op -> i <> 0 -> run v op = no_out <$> r ->
  exists v', with_vfs (set_vfs s i v) r =
      Some (fst (fst (arun a op)), u_put (set_vfs s i v') a1 (snd (fst (arun a op)))) /\
    vfs_rel v' (snd (arun a op)).
Proof.
  intros Hrel Hop Hi Hr. destruct (run_rel v a op Hrel Hop) as (v' & Hrun & Hrel').
  destruct (arun a op) as [[rc out] a']. cbn [fst snd] in *. destruct (run_no_out _ _ _ _ _ _ Hrun Hr) as [-> ->].
  exists v'. by split.
Qed.

Lemma dispatch_file s a nr a0 a1 a2 a3 a4 a5 :
  sys_rel s a -> 5 <= nr < 10 -> in_u 64 a1 -> in_u 64 a2 -> call_trust s a nr a0 a1 a2 ->
  match file_call s nr a0 a1 a2 with
  | inl rc => mcsos_syscall_dispatch nr a0 a1 a2 a3 a4 a5 s = Some (rc, s)
  | inr op => exists i v', i <> 0 /\
      mcsos_syscall_dispatch nr a0 a1 a2 a3 a4 a5 s =
        Some (fst (fst (arun a op)), u_put (set_vfs s i v') a1 (snd (fst (arun a op)))) /\
      vfs_rel v' (snd (arun a op))
  end.
Proof.
  intros Hrel Hnr H1 H2 Ht. pose proof (file_call_ok s a nr a0 a1 a2) as Hok.
  unfold mcsos_syscall_dispatch. destruct (Z.leb_spec MCSOS_SYS_MAX nr); [unfold MCSOS_SYS_MAX in *; lia|].
  destruct (init_once_rel s a Hrel) as (i & v & Hinit & Hi & Hv).
  assert (Hcases : nr = 5 \/ nr = 6 \/ nr = 7 \/ nr = 8 \/ nr = 9) by lia.
  destruct Hcases as [->|[->|[->|[->| ->]]]]; unfold file_call in *; cbn [Z.eqb Pos.eqb] in *.
  - change (arr_get g_table 5) with (Some sys_open). cbn [mbind option_bind]. unfold sys_open.
    destruct (Z.eqb_spec a0 0) as [|Ha0]; [done|].
    destruct (mcsos_user_check_range _ a0 _) eqn:Hc; cbn [negb] in *; [|done]. rewrite Hinit. cbn [mbind option_bind].
    exists i. destruct (cstr_split (u_at s a0)) as [Hn Hs]; [by apply Ht|].
    edestruct (with_vfs_run s i v) as (v' & Hw & Hrel'); [exact Hv|by apply Hok|exact Hi|cbn [run]; reflexivity|].
    exists v'. split_and!; [done| |done]. rewrite <- Hw. unfold mcs_sys_open.
    change (u_ptr (set_vfs s i v) a0) with (u_ptr s a0). unfold u_ptr. destruct (Z.eqb_spec a0 0); [done|].
    rewrite <- Hs. done.
  - change (arr_get g_table 6) with (Some sys_read). cbn [mbind option_bind]. unfold sys_read.
    destruct ((a1 =? 0) && negb (a2 =? 0)) eqn:Hb; [done|]. destruct ((0 <? a2) && _); [done|].
    rewrite Hinit. cbn [mbind option_bind]. exists i.
    destruct (run_rel v a (Read (s32 a0) (u_ptr s a1) a2) Hv) as (v' & Hrun & Hrel'); [by apply Hok|].
    exists v'. split_and!; [done| |done]. unfold mcs_sys_read. change (u_ptr (set_vfs s i v) a1) with (u_ptr s a1).
    rewrite bad_buf_ptr, Hb. cbn [negb orb set_vfs g_vfs]. cbn [run] in Hrun. rewrite Hrun.
    by destruct (arun a (Read (s32 a0) (u_ptr s a1) a2)) as [[? ?] ?].
  - change (arr_get g_table 7) with (Some sys_write). cbn [mbind option_bind]. unfold sys_write.
    destruct ((a1 =? 0) && negb (a2 =? 0)) eqn:Hb; [done|]. destruct ((0 <? a2) && _); [done|].
    rewrite Hinit. cbn [mbind option_bind]. exists i.
    edestruct (with_vfs_run s i v) as (v' & Hw & Hrel'); [exact Hv|by apply Hok|exact Hi|cbn [run]; reflexivity|].
    exists v'. split_and!; [done| |done]. rewrite <- Hw. unfold mcs_sys_write.
    change (u_ptr (set_vfs s i v) a1) with (u_ptr s a1). by rewrite bad_buf_ptr, Hb.
  - change (arr_get g_table 8) with (Some sys_close). cbn [mbind option_bind]. unfold sys_close.
    rewrite Hinit. cbn [mbind option_bind]. exists i.
    edestruct (with_vfs_run s i v) as (v' & Hw & Hrel'); [exact Hv|by apply Hok|exact Hi|cbn [run]; reflexivity|].
    exists v'. split_and!; [done|exact Hw|done].
  - change (arr_get g_table 9) with (Some sys_lseek). cbn [mbind option_bind]. unfold sys_lseek.
    rewrite Hinit. cbn [mbind option_bind]. exists i.
    edestruct (with_vfs_run s i v) as (v' & Hw & Hrel'); [exact Hv|by apply Hok|exact Hi|cbn [run]; reflexivity|].
    exists v'. split_and!; [done|exact Hw|done].
Qed.

(** ** Calls that break the trust *)

Lemma strlen_unterminated (l : list Z) : NUL ∉ l -> strlen l = None.
Proof.
  induction l as [|c l IH]; [done|]. intros Hn. apply not_elem_of_cons in Hn as [Hc Hn]. cbn [strlen].
  destruct (Z.eqb_spec c NUL); [congruence|]. by rewrite IH.
Qed.

Lemma dispatch_seek_overflow s a a0 a1 a2 a3 a4 a5 :
  sys_rel s a -> seek_fits a (Lseek (s32 a0) (s64 a1) (s32 a2)) = false ->
  mcsos_syscall_dispatch 9 a0 a1 a2 a3 a4 a5 s = None.
Proof.
  intros Hrel Hfit. unfold mcsos_syscall_dispatch. change (MCSOS_SYS_MAX <=? 9) with false. cbv iota.
  change (arr_get g_table 9) with (Some sys_lseek). cbn [mbind option_bind]. unfold sys_lseek.
  destruct (init_once_rel s a Hrel) as (i & v & -> & _ & Hv). cbn [mbind option_bind set_vfs g_vfs].
  pose proof (run_overflow v a (Lseek (s32 a0) (s64 a1) (s32 a2)) Hv (s64_long a1) Hfit) as Hr. cbn [run] in Hr. unfold mcs_sys_lseek. cbn [negb].
  destruct (mcs_vfs_lseek v true (s32 a0) (s64 a1) (s32 a2)); [done|]. done.
Qed.

Lemma dispatch_open_unterminated s a a0 a1 a2 a3 a4 a5 :
  sys_rel s a -> a0 <> 0 -> mcsos_user_check_range (g_user_region s) a0 MCS_MAX_PATH = true ->
  head (u_at s a0) = Some SLASH -> NUL ∉ u_at s a0 ->
  mcsos_syscall_dispatch 5 a0 a1 a2 a3 a4 a5 s = None.
Proof.
  intros Hrel Ha0 Hc Hh Hn. unfold mcsos_syscall_dispatch. change (MCSOS_SYS_MAX <=? 5) with false. cbv iota.
  change (arr_get g_table 5) with (Some sys_open). cbn [mbind option_bind]. unfold sys_open.
  destruct (Z.eqb_spec a0 0); [done|]. rewrite Hc. cbn [negb].
  destruct (init_once_rel s a Hrel) as (i & v & -> & _ & Hv). cbn [mbind option_bind set_vfs g_vfs].
  change (u_ptr (set_vfs s i v) a0) with (u_ptr s a0). unfold u_ptr. destruct (Z.eqb_spec a0 0); [done|].
  unfold mcs_sys_open, mcs_vfs_open. cbn [negb orb]. rewrite bool_decide_false by done. unfold mcs_ramfs_lookup. cbn [negb].
  pose proof (strlen_unterminated _ Hn) as Hs. destruct (u_at s a0) as [|x l]; [done|]. cbn in Hh. injection Hh as ->.
  change (arr_get (SLASH :: l) 0) with (Some SLASH). cbn [mbind option_bind mcs_strlen]. by rewrite Hs.
Qed.

(** ** Which user bytes a call can change *)

Definition u_byte (s : sys) (x : Z) : option Z :=
  if x <? u_base s then None else u_bytes s !! Z.to_nat (x - u_base s).

Lemma a_read_buf a fd buf len :
  0 <= len ->
  exists bs, Z.of_nat (length bs) <= len /\
    snd (fst (a_read a fd buf len)) = (fun b => bs ++ drop (length bs) b) <$> buf.
Proof.
  intros Hlen. assert (Hid : exists bs : list Z, Z.of_nat (length bs) <= len /\ buf = (fun b => bs ++ drop (length bs) b) <$> buf).
  { exists []. split; [done|]. by destruct buf. }
  unfold a_read. destruct (bad_buf buf len); [done|]. destruct (a_open_file a fd may_read) as [rc|[d nm]]; [done|].
  cbn [fst snd]. eexists. split; [|done]. rewrite length_take. lia.
Qed.

Lemma u_put_same s p b :
  g_ops (u_put s p b) = g_ops s /\ g_user_region (u_put s p b) = g_user_region s /\
  g_vfs (u_put s p b) = g_vfs s /\ g_vfs_initialized (u_put s p b) = g_vfs_initialized s.
Proof. unfold u_put. destruct b; [|done]. by destruct ((u_base s <=? p) && (p <=? u_base s + Z.of_nat (length (u_bytes s)))). Qed.

(** Replacing the first bytes at an address. *)
Lemma u_put_front s p bs :
  Z.of_nat (length bs) <= Z.of_nat (length (u_at s p)) ->
  let s' := u_put s p ((fun b => bs ++ drop (length bs) b) <$> u_ptr s p) in
  length (u_bytes s') = length (u_bytes s) /\ u_base s' = u_base s /\
  forall x, ~ p <= x < p + Z.of_nat (length bs) -> u_byte s' x = u_byte s x.
Proof.
  intros Hl. cbn zeta. unfold u_ptr. destruct (p =? 0); [done|]. cbn [fmap option_fmap option_map u_put]. unfold u_at in *.
  destruct (Z.leb_spec (u_base s) p); cbn [andb] in *; [|done].
  destruct (Z.leb_spec p (u_base s + Z.of_nat (length (u_bytes s)))); [|done]. unfold u_byte. cbn [set_bytes u_bytes u_base].
  rewrite length_drop in Hl. split_and!; [|done|].
  - rewrite !length_app, length_take, !length_drop. lia.
  - intros x Hx. destruct (Z.ltb_spec x (u_base s)); [done|].
    destruct (decide (x < p)).
    + rewrite lookup_app_l by (rewrite length_take; lia). by rewrite lookup_take_lt by lia.
    + rewrite lookup_app_r by (rewrite length_take; lia). rewrite lookup_app_r by (rewrite length_take; lia).
      rewrite !lookup_drop, length_take. f_equal. lia.
Qed.

(** After any accepted file call the state is again related, and only the
    buffer of a read has changed. *)
Lemma file_call_effect s a nr a0 a1 a2 op i v :
  sys_rel s a -> 5 <= nr < 10 -> in_u 64 a1 -> in_u 64 a2 ->
  file_call s nr a0 a1 a2 = inr op -> i <> 0 -> vfs_rel v (snd (arun a op)) ->
  let s' := u_put (set_vfs s i v) a1 (snd (fst (arun a op))) in
  sys_rel s' (snd (arun a op)) /\ g_ops s' = g_ops s /\ g_user_region s' = g_user_region s /\
  forall x, u_byte s' x <> u_byte s x ->
    nr = 6 /\ a1 <= x < a1 + a2 /\ base (g_user_region s) <= x < limit (g_user_region s).
Proof.
  intros Hrel Hnr H1 H2 Hop Hi Hv. cbn zeta.
  assert (Hnone : snd (fst (arun a op)) = None -> let s' := u_put (set_vfs s i v) a1 (snd (fst (arun a op))) in
    sys_rel s' (snd (arun a op)) /\ g_ops s' = g_ops s /\ g_user_region s' = g_user_region s /\
    forall x, u_byte s' x <> u_byte s x ->
      nr = 6 /\ a1 <= x < a1 + a2 /\ base (g_user_region s) <= x < limit (g_user_region s)).
  { intros ->. cbn [u_put]. split_and!; try done. by eapply sys_rel_vfs. }
  destruct (Z.eqb_spec nr 6) as [->|Hne].
  2: { apply Hnone. unfold file_call in Hop. cbn zeta in Hop. destruct (Z.eqb_spec nr 6); [done|].
       repeat match goal with H : (if ?b then _ else _) = _ |- _ => destruct b end; try done; by injection Hop as <-. }
  unfold file_call in Hop. cbn [Z.eqb Pos.eqb] in Hop. destruct ((a1 =? 0) && negb (a2 =? 0)) eqn:Hz; [done|].
  destruct ((0 <? a2) && negb (mcsos_user_check_range (g_user_region s) a1 a2)) eqn:Hc; [done|]. injection Hop as <-.
  destruct (checked_buf s a a1 a2 Hrel H1 H2 Hc) as [[Hlen Hbuf] Hin]. cbn [arun] in *.
  destruct (a_read_buf a (s32 a0) (u_ptr s a1) a2) as (bs & Hbs & Heq); [lia|]. rewrite Heq in *.
  assert (Hbl : a1 <> 0 -> Z.of_nat (length bs) <= Z.of_nat (length (u_at s a1))).
  { intros Ha1. specialize (Hbuf (u_at s a1)). unfold u_ptr in Hbuf. destruct (Z.eqb_spec a1 0); [done|]. specialize (Hbuf eq_refl). lia. }
  destruct (Z.eqb_spec a1 0) as [->|Ha1]; [by apply Hnone|]. specialize (Hbl Ha1).
  destruct (u_put_front (set_vfs s i v) a1 bs Hbl) as (Hl & Hb & Hout).
  change (u_ptr (set_vfs s i v) a1) with (u_ptr s a1) in Hl, Hb, Hout.
  set (s' := u_put (set_vfs s i v) a1 _) in *.
  assert (Hsame : g_ops s' = g_ops s /\ g_user_region s' = g_user_region s /\ g_vfs s' = v /\ g_vfs_initialized s' = i).
  { unfold s'. destruct (u_put_same (set_vfs s i v) a1 ((fun b => bs ++ drop (length bs) b) <$> u_ptr s a1)) as (-> & -> & -> & ->). done. }
  destruct Hsame as (Ho & Hr & Hvs & His). destruct Hrel as [R1 R2 R3 _]. split_and!; [|done|done|].
  - split; rewrite ?Hr, ?Hb, ?Hl, ?Hvs, ?His; cbn [set_vfs u_base u_bytes]; try done. by rewrite decide_False.
  - intros x Hx. split; [done|]. assert (a1 <= x < a1 + Z.of_nat (length bs)) as Hin'.
    { destruct (decide (a1 <= x < a1 + Z.of_nat (length bs))); [done|]. by destruct Hx; apply Hout. }
    lia.
Qed.

(** ** Callbacks *)

(** The callback that a call uses is there when it must be, and returns. *)
Definition callback_returns (s : sys) (nr a0 a1 : Z) : Prop :=
  (nr = 1 -> forall f, get_ticks (g_ops s) = Some f -> is_Some (f (world s))) /\
  (nr = 2 -> exists f, write_serial (g_ops s) = Some f /\ is_Some (f (u_at s a0) a1 (world s))) /\
  (nr = 3 -> forall f, yield_current (g_ops s) = Some f -> is_Some (f (world s))) /\
  (nr = 4 -> forall f, exit_current (g_ops s) = Some f -> is_Some (f (s32 a0) (world s))).

Lemma dispatch_callback s nr a0 a1 a2 a3 a4 a5 :
  0 <= nr < 5 -> callback_returns s nr a0 a1 ->
  exists r w, mcsos_syscall_dispatch nr a0 a1 a2 a3 a4 a5 s = Some (r, set_world s w).
Proof.
  intros Hnr (C1 & C2 & C3 & C4). unfold mcsos_syscall_dispatch. destruct (Z.leb_spec MCSOS_SYS_MAX nr); [unfold MCSOS_SYS_MAX in *; lia|].
  assert (Hself : s = set_world s (world s)) by (by destruct s).
  assert (Hcases : nr = 0 \/ nr = 1 \/ nr = 2 \/ nr = 3 \/ nr = 4) by lia. destruct Hcases as [->|[->|[->|[->| ->]]]].
  - exists 0x2605020A, (world s). by rewrite <- Hself.
  - change (arr_get g_table 1) with (Some sys_get_ticks). cbn [mbind option_bind]. unfold sys_get_ticks.
    destruct (get_ticks (g_ops s)) as [f|]; [|exists MCSOS_EBUSY, (world s); by rewrite <- Hself].
    destruct (C1 eq_refl f eq_refl) as [[t w] ->]. cbn. eauto.
  - change (arr_get g_table 2) with (Some sys_write_serial). cbn [mbind option_bind]. unfold sys_write_serial.
    destruct (a0 =? 0); [exists MCSOS_EINVAL, (world s); by rewrite <- Hself|].
    destruct (4096 <? a1); [exists MCSOS_EINVAL, (world s); by rewrite <- Hself|].
    destruct (negb _); [exists MCSOS_EFAULT, (world s); by rewrite <- Hself|].
    destruct (C2 eq_refl) as (f & -> & [[r w] Hf]). cbn [mbind option_bind]. rewrite Hf. cbn. eauto.
  - change (arr_get g_table 3) with (Some sys_yield). cbn [mbind option_bind]. unfold sys_yield.
    destruct (yield_current (g_ops s)) as [f|]; [|exists MCSOS_EBUSY, (world s); by rewrite <- Hself].
    destruct (C3 eq_refl f eq_refl) as [w ->]. cbn. eauto.
  - change (arr_get g_table 4) with (Some sys_exit_thread). cbn [mbind option_bind]. unfold sys_exit_thread.
    destruct (exit_current (g_ops s)) as [f|]; [|exists MCSOS_EBUSY, (world s); by rewrite <- Hself].
    destruct (C4 eq_refl f eq_refl) as [w ->]. cbn. eauto.
Qed.

Lemma copy_from_user_spec s a d src len :
  sys_rel s a -> in_u 64 src -> in_u 64 len -> len <= Z.of_nat (length d) ->
  let inside := src <> 0 /\ base (g_user_region s) <> 0 /\ base (g_user_region s) <= src /\ src + len <= limit (g_user_region s) in
  exists rc d', mcsos_copy_from_user s (Some d) src len = Some (rc, Some d') /\
    (rc = MCSOS_OK <-> len = 0 \/ inside) /\
    (rc = MCSOS_OK -> d' = take (Z.to_nat len) (u_at s src) ++ drop (Z.to_nat len) d) /\
    (rc <> MCSOS_OK -> d' = d).
Proof.
  intros Hrel Hs Hl Hd. pose proof Hrel as [Hb Hlim Hr _]. cbn zeta. unfold mcsos_copy_from_user.
  destruct (Z.eqb_spec len 0) as [->|Hne]; [exists MCSOS_OK, d; split_and!; try done; split; [by left|done]|].
  destruct (Z.eqb_spec src 0) as [->|Hs0]; [exists MCSOS_EINVAL, d; split_and!; try done; naive_solver|].
  pose proof (check_range_spec (g_user_region s) src len Hs Hl) as Hc.
  destruct (mcsos_user_check_range (g_user_region s) src len); cbn [negb].
  - destruct Hc as [Hc _]; [unfold in_u; lia|unfold in_u; lia|]. destruct (Hc eq_refl) as [?|(Hb0 & Hlo & Hhi)]; [done|].
    unfold in_u in Hl. pose proof (u_at_length s src ltac:(lia)) as Hul.
    unfold slice. rewrite (proj2 (in_buf_true _ _ _)) by lia. rewrite drop_0. cbn [mbind option_bind].
    rewrite splice_Some by (rewrite ?length_take; lia). cbn [mbind option_bind]. eexists _, _. split_and!; [done| | |done].
    + split; [|done]. intros _. right. done.
    + intros _. change (Z.to_nat 0) with 0%nat. rewrite take_0, Nat.add_0_l, length_take. cbn [app]. do 2 f_equal. lia.
  - exists MCSOS_EFAULT, d. split_and!; try done. split; [done|]. intros [?|(_ & Hi)]; [done|].
    destruct Hc as [_ Hc]; [unfold in_u; lia|unfold in_u; lia|]. discriminate (Hc (or_intror Hi)).
Qed.

End callbacks.

Arguments mcsos_syscall_ops : clear implicits.
Arguments sys : clear implicits.

(** C29. The range check is exact: it accepts a non-empty range if and only if
    the whole range lies in the user region, computed without wrap-around, so
    no length, however large, gets past it; and [mcsos_copy_from_user]
    succeeds on exactly those ranges, copies exactly the user's bytes, and
    otherwise leaves the destination alone. *)
Theorem user_access_exact {W} (s : sys W) a d src len :
  sys_rel s a -> in_u 64 src -> in_u 64 len -> len <= Z.of_nat (length d) ->
  let r := g_user_region s in
  (mcsos_user_check_range r src len = true <-> len = 0 \/ (base r <> 0 /\ base r <= src /\ src + len <= limit r)) /\
  exists rc d', mcsos_copy_from_user s (Some d) src len = Some (rc, Some d') /\
    (rc = MCSOS_OK <-> len = 0 \/ (src <> 0 /\ base r <> 0 /\ base r <= src /\ src + len <= limit r)) /\
    (rc = MCSOS_OK -> d' = take (Z.to_nat len) (u_at s src) ++ drop (Z.to_nat len) d) /\
    (rc <> MCSOS_OK -> d' = d).
Proof.
  intros Hrel Hs Hl Hd. pose proof Hrel as [Hb Hlim Hr _]. split.
  - apply check_range_spec; [done|done|unfold in_u; lia|unfold in_u; lia].
  - by eapply copy_from_user_spec.
Qed.

(** C8. The file system calls implement the abstract file system on user
    memory: a call whose pointers fail the check returns its error and changes
    nothing; every other call returns what the abstract operation returns and
    leaves the kernel in a state that represents the abstract result, with the
    bytes of a read stored at the user's address.  The file system is set up
    by whichever call comes first.  The kernel trusts two things about the
    caller, and this is exact: a seek whose new offset does not fit a [long]
    overflows, and an absolute path that passes the range check but has no NUL
    byte up to the end of user memory is read past that end; both are
    undefined behaviour. *)
Theorem syscall_files_refine {W} (s : sys W) a nr a0 a1 a2 a3 a4 a5 :
  sys_rel s a -> 5 <= nr < MCSOS_SYS_MAX -> in_u 64 a1 -> in_u 64 a2 ->
  (call_trust s a nr a0 a1 a2 ->
   match file_call s nr a0 a1 a2 with
   | inl rc => mcsos_syscall_dispatch nr a0 a1 a2 a3 a4 a5 s = Some (rc, s)
   | inr op => exists s', mcsos_syscall_dispatch nr a0 a1 a2 a3 a4 a5 s = Some (fst (fst (arun a op)), s') /\
       sys_rel s' (snd (arun a op)) /\ u_bytes s' = u_bytes (u_put s a1 (snd (fst (arun a op))))
   end) /\
  (nr = 9 -> seek_fits a (Lseek (s32 a0) (s64 a1) (s32 a2)) = false ->
   mcsos_syscall_dispatch nr a0 a1 a2 a3 a4 a5 s = None) /\
  (nr = 5 -> a0 <> 0 -> mcsos_user_check_range (g_user_region s) a0 MCS_MAX_PATH = true ->
   head (u_at s a0) = Some SLASH -> NUL ∉ u_at s a0 ->
   mcsos_syscall_dispatch nr a0 a1 a2 a3 a4 a5 s = None).
Proof.
  intros Hrel Hnr H1 H2. split; [|split; intros ->; intros; by eapply dispatch_seek_overflow || by eapply dispatch_open_unterminated].
  intros Ht. pose proof (dispatch_file s a nr a0 a1 a2 a3 a4 a5 Hrel Hnr H1 H2 Ht) as Hd.
  destruct (file_call s nr a0 a1 a2) as [rc|op] eqn:Hop; [done|]. destruct Hd as (i & v & Hi & -> & Hv).
  eexists. split; [done|]. split; [by eapply file_call_effect|]. unfold u_put.
  destruct (snd (fst (arun a op))); [|done]. cbn [set_vfs u_base u_bytes].
  by destruct ((u_base s <=? a1) && (a1 <=? u_base s + Z.of_nat (length (u_bytes s)))).
Qed.

(** C23. No system call, whatever its number and arguments, runs into
    undefined behaviour or breaks the state, as long as a path is terminated,
    a seek does not overflow and the callback in use returns; the callback
    table and the region stay as they are, user memory changes only inside
    the buffer of a read, which lies in the user region, and an unknown number
    gets [ENOSYS] and changes nothing. *)
Theorem syscall_dispatch_safe {W} (s : sys W) a nr a0 a1 a2 a3 a4 a5 :
  sys_rel s a -> in_u 64 nr -> in_u 64 a1 -> in_u 64 a2 ->
  call_trust s a nr a0 a1 a2 -> callback_returns s nr a0 a1 ->
  exists r s' a', mcsos_syscall_dispatch nr a0 a1 a2 a3 a4 a5 s = Some (r, s') /\ sys_rel s' a' /\
    g_ops s' = g_ops s /\ g_user_region s' = g_user_region s /\
    (forall x, u_byte s' x <> u_byte s x ->
       nr = 6 /\ a1 <= x < a1 + a2 /\ base (g_user_region s) <= x < limit (g_user_region s)) /\
    (MCSOS_SYS_MAX <= nr -> r = MCSOS_ENOSYS /\ s' = s).
Proof.
  intros Hrel Hnr H1 H2 Ht Hcb. unfold in_u in Hnr. assert (Hcases : 10 <= nr \/ nr < 5 \/ 5 <= nr < 10) by lia.
  destruct Hcases as [Hbig|[Hsmall|Hfile]].
  - exists MCSOS_ENOSYS, s, a. split_and!; try done. unfold mcsos_syscall_dispatch, MCSOS_SYS_MAX.
    destruct (Z.leb_spec 10 nr); [done|lia].
  - destruct (dispatch_callback s nr a0 a1 a2 a3 a4 a5 ltac:(lia) Hcb) as (r & w & ->). exists r, (set_world s w), a.
    destruct Hrel as [? ? ? ?]. split_and!; try done. unfold MCSOS_SYS_MAX. lia.
  - pose proof (dispatch_file s a nr a0 a1 a2 a3 a4 a5 Hrel Hfile H1 H2 Ht) as Hd.
    destruct (file_call s nr a0 a1 a2) as [rc|op] eqn:Hop.
    + exists rc, s, a. split_and!; try done. unfold MCSOS_SYS_MAX. lia.
    + destruct Hd as (i & v & Hi & -> & Hv). eexists _, _, (snd (arun a op)). split; [done|].
      destruct (file_call_effect s a nr a0 a1 a2 op i v Hrel Hfile H1 H2 Hop Hi Hv) as (? & ? & ? & ?).
      split_and!; try done. unfold MCSOS_SYS_MAX. lia.
Qed.

(** ** Concrete state: 256 bytes of user memory at 4096 that start with a path *)

Definition ex_sys : sys unit :=
  mk_sys (mk_ops None None None (Some default_write_serial)) (mk_region 4096 4352) 0 raw_vfs 4096
    ([47; 97; 0] ++ replicate 253 7) tt.

Lemma ex_sys_rel : sys_rel ex_sys a_init.
Proof.
  split; [cbn; lia|cbn; lia|cbn; lia|]. cbn [ex_sys g_vfs_initialized]. rewrite decide_True by done.
  split; [apply raw_vfs_ok|done].
Qed.

Lemma ex_sys_trust : call_trust ex_sys a_init 5 4096 RW_CREAT 0.
Proof. split; [|done]. intros _ _ _. apply list_elem_of_lookup. by exists 2%nat. Qed.

Lemma user_access_exact_witness :
  mcsos_user_check_range (g_user_region ex_sys) 4096 3 = true /\
  exists rc d', mcsos_copy_from_user ex_sys (Some [9; 9; 9; 9]) 4096 3 = Some (rc, Some d') /\ d' = [47; 97; 0; 9].
Proof.
  destruct (user_access_exact ex_sys a_init [9; 9; 9; 9] 4096 3 ex_sys_rel) as [[_ Hc] (rc & d' & H & Hok & Hd & _)];
    [by vm_compute|by vm_compute|by vm_compute|].
  split; [apply Hc; right; cbn; lia|]. exists rc, d'. split; [exact H|].
  rewrite Hd; [by vm_compute|]. apply Hok. right. cbn. lia.
Defined.

Lemma syscall_files_refine_witness :
  exists s', mcsos_syscall_dispatch 5 4096 RW_CREAT 0 0 0 0 ex_sys = Some (0, s') /\ u_bytes s' = u_bytes ex_sys.
Proof.
  pose proof (syscall_files_refine ex_sys a_init 5 4096 RW_CREAT 0 0 0 0 ex_sys_rel) as H.
  destruct H as [H _]; [by vm_compute|by vm_compute|by vm_compute|].
  destruct (H ex_sys_trust) as (s' & Hd & _ & Hb).
  exists s'. split; [exact Hd|exact Hb].
Defined.

Lemma syscall_dispatch_safe_witness :
  exists r s', mcsos_syscall_dispatch 5 4096 RW_CREAT 0 0 0 0 ex_sys = Some (r, s') /\
    g_user_region s' = g_user_region ex_sys.
Proof.
  destruct (syscall_dispatch_safe ex_sys a_init 5 4096 RW_CREAT 0 0 0 0 ex_sys_rel) as (r & s' & a' & Hd & _ & _ & Hr & _);
    [by vm_compute|by vm_compute|by vm_compute|apply ex_sys_trust|by split_and!|].
  exists r, s'. split; [exact Hd|exact Hr].
Defined.

(** The path check asks for 128 readable bytes, so a short path near the end
    of the region is refused; and only those bytes are checked, so the kernel
    reads past the region when a path has no terminator. *)
Example open_short_path_refused :
  fst <$> mcsos_syscall_dispatch 5 4300 0 0 0 0 0 ex_sys = Some MCSOS_EFAULT.
Proof. by vm_compute. Qed.

Definition ex_unterminated : sys unit :=
  mk_sys (g_ops ex_sys) (mk_region 4096 4352) 0 raw_vfs 4096 (replicate 256 47) tt.

Example open_reads_past_region :
  fst <$> mcsos_syscall_dispatch 5 4096 0 0 0 0 0 ex_unterminated = None.
Proof. by vm_compute. Qed.

End Syscall.
