(* ===== verification/Mcsfs.v ===== *)
(** * The file system MCSFS1 ([fs/mcsfs1/mcsfs1.c])

    The device is a table of driver callbacks over a driver state [D], given
    by the caller; the functions of the file system are computations in the
    error-code monad of [Errm.v] over that state.  A 512-byte buffer is a list
    of bytes; the super block and directory are read and written through their
    byte offsets, an inode is converted between its 60 bytes and a record.
    A [char *] is the list of bytes from the pointed-to position to the end of
    its object. *)
From S2P Require Import Prelude Bitmap Bytes Errm.
From stdpp Require Import base gmap list numbers option.
From Stdlib Require Import ZArith Lia.

Open Scope Z_scope.

Module Mcsfs.
Open Scope em_scope.

Definition MCSFS1_SB_LBA : Z := 0.
Definition MCSFS1_INODE_BMAP_LBA : Z := 1.
Definition MCSFS1_BLOCK_BMAP_LBA : Z := 2.
Definition MCSFS1_INODE_TABLE_LBA : Z := 3.
Definition MCSFS1_INODE_TABLE_BLOCKS : Z := 4.
Definition MCSFS1_ROOT_DIR_LBA : Z := 7.
Definition MCSFS1_DATA_START_LBA : Z := 8.
Definition MCSFS1_MIN_BLOCKS : Z := 16.
Definition MCSFS1_DIRENT_COUNT : Z := 16.

Definition MCSFS1_BLOCK_SIZE : Z := 512.
Definition MCSFS1_MAGIC : Z := 0x31465343.
Definition MCSFS1_VERSION : Z := 1.
Definition MCSFS1_MAX_INODES : Z := 32.
Definition MCSFS1_DIRECT_BLOCKS : Z := 8.
Definition MCSFS1_MAX_NAME : Z := 27.
Definition MCSFS1_ROOT_INO : Z := 1.
Definition MCSFS1_MODE_FILE : Z := 1.
Definition MCSFS1_MODE_DIR : Z := 2.

Definition MCSFS1_ERR_INVAL : Z := -1.
Definition MCSFS1_ERR_IO : Z := -2.
Definition MCSFS1_ERR_NOSPC : Z := -3.
Definition MCSFS1_ERR_EXIST : Z := -4.
Definition MCSFS1_ERR_NOENT : Z := -5.
Definition MCSFS1_ERR_NAMETOOLONG : Z := -6.
Definition MCSFS1_ERR_CORRUPT : Z := -7.
Definition MCSFS1_ERR_ISDIR : Z := -8.
Definition MCSFS1_ERR_RANGE : Z := -9.

Definition zero_block : list Z := replicate 512 0.
Definition SLASH : Z := 47.

(** ** Structures *)

Record mcsfs1_inode_disk := mk_inode {
  i_mode : Z;
  i_links : Z;
  i_size : Z;
  i_direct : list Z;
  i_reserved : list Z
}.

Definition INODE_SIZE : Z := 60.
Definition DIRENT_SIZE : Z := 32.

Fixpoint le_words (ws : list Z) : list Z :=
  match ws with [] => [] | w :: ws => le_bytes 4 w ++ le_words ws end.

Fixpoint ld_words (n : nat) (buf : list Z) (off : Z) : option (list Z) :=
  match n with
  | O => Some []
  | S n => w ← ld 4 buf off; ws ← ld_words n buf (off + 4); Some (w :: ws)
  end.

Definition inode_bytes (nd : mcsfs1_inode_disk) : list Z :=
  le_bytes 2 (i_mode nd) ++ le_bytes 2 (i_links nd) ++ le_bytes 4 (i_size nd) ++
  le_words (i_direct nd) ++ le_words (i_reserved nd).

Definition inode_of_bytes (raw : list Z) : option mcsfs1_inode_disk :=
  mode ← ld 2 raw 0; links ← ld 2 raw 2; size ← ld 4 raw 4;
  direct ← ld_words 8 raw 8; reserved ← ld_words 5 raw 40;
  Some (mk_inode mode links size direct reserved).

Definition zero_inode : mcsfs1_inode_disk := mk_inode 0 0 0 (replicate 8 0) (replicate 5 0).

(** ** Strings *)

Fixpoint strlen_bound (s : list Z) (max : nat) : option Z :=
  match max with
  | O => Some 0
  | S max =>
      c ← head s;
      if c =? 0 then Some 0 else n ← strlen_bound (tail s) max; Some (n + 1)
  end.

Definition mcsfs_strlen_bound (s : option (list Z)) (max_plus_one : Z) : option Z :=
  match s with
  | None => Some max_plus_one
  | Some s => strlen_bound s (Z.to_nat max_plus_one)
  end.

Fixpoint mcsfs_memcmp (a b : list Z) (n : nat) : option Z :=
  match n with
  | O => Some 0
  | S n =>
      x ← head a; y ← head b;
      if x =? y then mcsfs_memcmp (tail a) (tail b) n else Some (x - y)
  end.

(** ** Bitmaps *)

Definition bit_set (b : list Z) (bit : Z) : option (list Z) :=
  x ← arr_get b (bit / 8); arr_set b (bit / 8) (byte_set x (bit mod 8)).

Definition bit_clear (b : list Z) (bit : Z) : option (list Z) :=
  x ← arr_get b (bit / 8); arr_set b (bit / 8) (byte_clear x (bit mod 8)).

Definition bit_test (b : list Z) (bit : Z) : option bool :=
  x ← arr_get b (bit / 8); Some (byte_test x (bit mod 8)).

(** The scans for a clear bit among [n] bits from [i]; 0 when there is none. *)
Fixpoint find_clear_bit (n : nat) (i : Z) (b : list Z) : option Z :=
  match n with
  | O => Some 0
  | S n => t ← bit_test b i; if (t : bool) then find_clear_bit n (i + 1) b else Some i
  end.

Fixpoint bits_all_set (n : nat) (i : Z) (b : list Z) : option bool :=
  match n with
  | O => Some true
  | S n => t ← bit_test b i; if (t : bool) then bits_all_set n (i + 1) b else Some false
  end.

Fixpoint bits_set (n : nat) (i : Z) (b : list Z) : option (list Z) :=
  match n with O => Some b | S n => b ← bit_set b i; bits_set n (i + 1) b end.

Section driver.
Context {D : Type}.

(** The callbacks: return code, for a read also the contents of the buffer. *)
Record mcsfs1_blkdev := mk_blkdev {
  block_count : Z;
  dread : option (Z -> D -> option (Z * list Z * D));
  dwrite : option (Z -> list Z -> D -> option (Z * D));
  dflush : option (D -> option (Z * D))
}.

Record mcsfs1_mount_t := mk_mount { m_dev : option mcsfs1_blkdev; m_block_count : Z; m_data_start : Z }.

Definition io (A : Type) : Type := em D A.

(** The result of a call whose code the caller looks at itself. *)
Definition em_catch {A} (m : io A) : io (Z + A) := fun s => r ← m s; Some (inr (fst r), snd r).

Definition valid_name (name : option (list Z)) : io Z :=
  n <~ em_lift (mcsfs_strlen_bound name (MCSFS1_MAX_NAME + 1)) ;;
  if n =? 0 then em_err MCSFS1_ERR_INVAL else
  if MCSFS1_MAX_NAME <? n then em_err MCSFS1_ERR_NAMETOOLONG else
  if existsb (fun c => c =? SLASH) (take (Z.to_nat n) (default [] name)) then em_err MCSFS1_ERR_INVAL
  else em_ret n.

Definition dev_read (dev : option mcsfs1_blkdev) (lba : Z) : io (list Z) :=
  match dev with
  | None => em_err MCSFS1_ERR_INVAL
  | Some v =>
      match dread v with
      | None => em_err MCSFS1_ERR_INVAL
      | Some f =>
          if block_count v <=? lba then em_err MCSFS1_ERR_INVAL else
          fun d => '(rc, buf, d) ← f lba d; Some (if rc =? 0 then inr buf else inl MCSFS1_ERR_IO, d)
      end
  end.

Definition dev_write (dev : option mcsfs1_blkdev) (lba : Z) (buf : list Z) : io unit :=
  match dev with
  | None => em_err MCSFS1_ERR_INVAL
  | Some v =>
      match dwrite v with
      | None => em_err MCSFS1_ERR_INVAL
      | Some f =>
          if block_count v <=? lba then em_err MCSFS1_ERR_INVAL else
          fun d => '(rc, d) ← f lba buf d; Some (if rc =? 0 then inr tt else inl MCSFS1_ERR_IO, d)
      end
  end.

Definition dev_flush (dev : option mcsfs1_blkdev) : io unit :=
  match dev with
  | None => em_err MCSFS1_ERR_INVAL
  | Some v =>
      match dflush v with
      | None => em_err MCSFS1_ERR_INVAL
      | Some f => fun d => '(rc, d) ← f d; Some (if rc =? 0 then inr tt else inl MCSFS1_ERR_IO, d)
      end
  end.

(** [dev->block_count] of a device that has been used, hence is not null. *)
Definition dev_count (dev : option mcsfs1_blkdev) : io Z := em_lift (block_count <$> dev).

(** ** Metadata *)

Definition super_fields_ok (sb : list Z) (count : Z) : option bool :=
  magic ← ld 4 sb 0; version ← ld 4 sb 4; bsize ← ld 4 sb 8;
  if negb (magic =? MCSFS1_MAGIC) || negb (version =? MCSFS1_VERSION) || negb (bsize =? MCSFS1_BLOCK_SIZE)
  then Some false else
  bcount ← ld 4 sb 12; icount ← ld 4 sb 16;
  if negb (bcount =? count) || negb (icount =? MCSFS1_MAX_INODES) then Some false else
  ibmap ← ld 4 sb 20; bbmap ← ld 4 sb 24; itable ← ld 4 sb 28;
  if negb (ibmap =? MCSFS1_INODE_BMAP_LBA) || negb (bbmap =? MCSFS1_BLOCK_BMAP_LBA) ||
     negb (itable =? MCSFS1_INODE_TABLE_LBA) then Some false else
  root ← ld 4 sb 36; rootdir ← ld 4 sb 40; dstart ← ld 4 sb 44;
  if negb (root =? MCSFS1_ROOT_INO) || negb (rootdir =? MCSFS1_ROOT_DIR_LBA) ||
     negb (dstart =? MCSFS1_DATA_START_LBA) then Some false else
  Some (negb (bcount <=? dstart)).

Definition load_super (dev : option mcsfs1_blkdev) : io (list Z) :=
  sb <~ dev_read dev MCSFS1_SB_LBA ;;
  count <~ dev_count dev ;;
  ok <~ em_lift (super_fields_ok sb count) ;;
  if (ok : bool) then em_ret sb else em_err MCSFS1_ERR_CORRUPT.

Definition per_block : Z := MCSFS1_BLOCK_SIZE / INODE_SIZE.
Definition inode_lba (ino : Z) : Z := MCSFS1_INODE_TABLE_LBA + (ino - 1) / per_block.
Definition inode_off (ino : Z) : Z := ((ino - 1) mod per_block) * INODE_SIZE.

Definition bad_ino (ino : Z) : bool := (ino =? 0) || (MCSFS1_MAX_INODES <? ino).

Definition read_inode (dev : option mcsfs1_blkdev) (ino : Z) : io mcsfs1_inode_disk :=
  if bad_ino ino then em_err MCSFS1_ERR_INVAL else
  if MCSFS1_DATA_START_LBA <=? inode_lba ino then em_err MCSFS1_ERR_CORRUPT else
  block <~ dev_read dev (inode_lba ino) ;;
  raw <~ em_lift (slice block (inode_off ino) INODE_SIZE) ;;
  em_lift (inode_of_bytes raw).

Definition write_inode (dev : option mcsfs1_blkdev) (ino : Z) (nd : mcsfs1_inode_disk) : io unit :=
  if bad_ino ino then em_err MCSFS1_ERR_INVAL else
  if MCSFS1_DATA_START_LBA <=? inode_lba ino then em_err MCSFS1_ERR_CORRUPT else
  block <~ dev_read dev (inode_lba ino) ;;
  block <~ em_lift (splice block (inode_off ino) (inode_bytes nd)) ;;
  dev_write dev (inode_lba ino) block.

Definition load_bmaps (dev : option mcsfs1_blkdev) : io (list Z * list Z) :=
  ib <~ dev_read dev MCSFS1_INODE_BMAP_LBA ;;
  bb <~ dev_read dev MCSFS1_BLOCK_BMAP_LBA ;;
  em_ret (ib, bb).

Definition store_bmaps (dev : option mcsfs1_blkdev) (ib bb : list Z) : io unit :=
  dev_write dev MCSFS1_INODE_BMAP_LBA ib ;;;
  dev_write dev MCSFS1_BLOCK_BMAP_LBA bb.

(** ** The root directory *)

Definition de_ino (dir : list Z) (i : Z) : option Z := ld 4 dir (DIRENT_SIZE * i).
Definition de_type (dir : list Z) (i : Z) : option Z := ld 1 dir (DIRENT_SIZE * i + 4).
(** [de[i].name] as a pointer into the block: the code scans it with a bound
    of 28 although the field has 27 bytes, so the scan can run into the next
    entry. *)
Definition de_name (dir : list Z) (i : Z) : list Z := drop (Z.to_nat (DIRENT_SIZE * i + 5)) dir.

Definition dirent_is (dir name : list Z) (name_len i : Z) : option bool :=
  ino ← de_ino dir i;
  if ino =? 0 then Some false else
  n ← mcsfs_strlen_bound (Some (de_name dir i)) (MCSFS1_MAX_NAME + 1);
  if negb (n =? name_len) then Some false else
  c ← mcsfs_memcmp (de_name dir i) name (Z.to_nat name_len);
  Some (c =? 0).

Fixpoint find_dirent_from (n : nat) (i : Z) (dir name : list Z) (name_len : Z) : option (option (Z * Z)) :=
  match n with
  | O => Some None
  | S n =>
      b ← dirent_is dir name name_len i;
      if (b : bool) then ino ← de_ino dir i; Some (Some (i, ino))
      else find_dirent_from n (i + 1) dir name name_len
  end.

(** Slot and inode number. *)
Definition find_dirent (dev : option mcsfs1_blkdev) (name : option (list Z)) : io (Z * Z) :=
  name_len <~ valid_name name ;;
  dir <~ dev_read dev MCSFS1_ROOT_DIR_LBA ;;
  r <~ em_lift (find_dirent_from (Z.to_nat MCSFS1_DIRENT_COUNT) 0 dir (default [] name) name_len) ;;
  match r with Some p => em_ret p | None => em_err MCSFS1_ERR_NOENT end.

Fixpoint find_free_slot (n : nat) (i : Z) (dir : list Z) : option Z :=
  match n with
  | O => Some MCSFS1_DIRENT_COUNT
  | S n => ino ← de_ino dir i; if ino =? 0 then Some i else find_free_slot n (i + 1) dir
  end.

(** ** Allocation *)

Definition alloc_inode_block (dev : option mcsfs1_blkdev) : io (Z * Z) :=
  bm <~ load_bmaps dev ;;
  let '(ib, bb) := bm in
  ino <~ em_lift (find_clear_bit (Z.to_nat (MCSFS1_MAX_INODES - 1)) 2 ib) ;;
  if ino =? 0 then em_err MCSFS1_ERR_NOSPC else
  count <~ dev_count dev ;;
  lba <~ em_lift (find_clear_bit (Z.to_nat (count - MCSFS1_DATA_START_LBA)) MCSFS1_DATA_START_LBA bb) ;;
  if lba =? 0 then em_err MCSFS1_ERR_NOSPC else
  ib <~ em_lift (bit_set ib ino) ;;
  bb <~ em_lift (bit_set bb lba) ;;
  store_bmaps dev ib bb ;;;
  em_ret (ino, lba).

Definition alloc_data_block (dev : option mcsfs1_blkdev) : io Z :=
  bm <~ load_bmaps dev ;;
  let '(ib, bb) := bm in
  count <~ dev_count dev ;;
  b <~ em_lift (find_clear_bit (Z.to_nat (count - MCSFS1_DATA_START_LBA)) MCSFS1_DATA_START_LBA bb) ;;
  if b =? 0 then em_err MCSFS1_ERR_NOSPC else
  bb <~ em_lift (bit_set bb b) ;;
  store_bmaps dev ib bb ;;;
  em_ret b.

Fixpoint clear_blocks (direct : list Z) (count : Z) (bb : list Z) : option (list Z) :=
  match direct with
  | [] => Some bb
  | b :: direct =>
      bb ← (if negb (b =? 0) && (b <? count) then bit_clear bb b else Some bb);
      clear_blocks direct count bb
  end.

Definition free_inode_and_blocks (dev : option mcsfs1_blkdev) (ino : Z) (nd : mcsfs1_inode_disk) : io unit :=
  bm <~ load_bmaps dev ;;
  let '(ib, bb) := bm in
  ib <~ em_lift (bit_clear ib ino) ;;
  count <~ dev_count dev ;;
  bb <~ em_lift (clear_blocks (i_direct nd) count bb) ;;
  store_bmaps dev ib bb.

(** ** Format and mount *)

Fixpoint write_zeros (dev : option mcsfs1_blkdev) (n : nat) (lba : Z) : io unit :=
  match n with
  | O => em_ret tt
  | S n => dev_write dev lba zero_block ;;; write_zeros dev n (lba + 1)
  end.

Definition super_block (count : Z) : option (list Z) :=
  b ← st 4 zero_block 0 MCSFS1_MAGIC;
  b ← st 4 b 4 MCSFS1_VERSION;
  b ← st 4 b 8 MCSFS1_BLOCK_SIZE;
  b ← st 4 b 12 count;
  b ← st 4 b 16 MCSFS1_MAX_INODES;
  b ← st 4 b 20 MCSFS1_INODE_BMAP_LBA;
  b ← st 4 b 24 MCSFS1_BLOCK_BMAP_LBA;
  b ← st 4 b 28 MCSFS1_INODE_TABLE_LBA;
  b ← st 4 b 32 MCSFS1_INODE_TABLE_BLOCKS;
  b ← st 4 b 36 MCSFS1_ROOT_INO;
  b ← st 4 b 40 MCSFS1_ROOT_DIR_LBA;
  b ← st 4 b 44 MCSFS1_DATA_START_LBA;
  st 4 b 48 1.

Definition root_inode : mcsfs1_inode_disk :=
  mk_inode MCSFS1_MODE_DIR 1 MCSFS1_BLOCK_SIZE (MCSFS1_ROOT_DIR_LBA :: replicate 7 0) (replicate 5 0).

Definition format_ibmap : option (list Z) :=
  ib ← bit_set zero_block 0; bit_set ib MCSFS1_ROOT_INO.

Definition format_bbmap : option (list Z) :=
  bb ← bits_set (Z.to_nat MCSFS1_DATA_START_LBA) 0 zero_block; bit_set bb MCSFS1_ROOT_DIR_LBA.

Definition mcsfs1_format (dev : option mcsfs1_blkdev) : io unit :=
  match dev with
  | None => em_err MCSFS1_ERR_INVAL
  | Some v =>
      if (block_count v <? MCSFS1_MIN_BLOCKS) || (MCSFS1_BLOCK_SIZE * 8 <? block_count v)
      then em_err MCSFS1_ERR_INVAL else
      write_zeros dev (Z.to_nat (block_count v)) 0 ;;;
      sb <~ em_lift (super_block (block_count v)) ;;
      dev_write dev MCSFS1_SB_LBA sb ;;;
      ib <~ em_lift format_ibmap ;;
      bb <~ em_lift format_bbmap ;;
      store_bmaps dev ib bb ;;;
      write_inode dev MCSFS1_ROOT_INO root_inode ;;;
      dev_flush dev
  end.

Definition bad_root (root : mcsfs1_inode_disk) : option bool :=
  if negb (i_mode root =? MCSFS1_MODE_DIR) then Some true else
  b ← arr_get (i_direct root) 0; Some (negb (b =? MCSFS1_ROOT_DIR_LBA)).

(** [mnt] says whether the out-pointer is not null. *)
Definition mcsfs1_mount (mnt : bool) (dev : option mcsfs1_blkdev) : io mcsfs1_mount_t :=
  if negb mnt || match dev with None => true | Some _ => false end then em_err MCSFS1_ERR_INVAL else
  sb <~ load_super dev ;;
  root <~ read_inode dev MCSFS1_ROOT_INO ;;
  bad <~ em_lift (bad_root root) ;;
  if (bad : bool) then em_err MCSFS1_ERR_CORRUPT else
  count <~ em_lift (ld 4 sb 12) ;;
  dstart <~ em_lift (ld 4 sb 44) ;;
  em_ret (mk_mount dev count dstart).

(** ** Files *)

(** [mnt == 0 || mnt->dev == 0]. *)
Definition with_mount {A} (mnt : option mcsfs1_mount_t) (k : mcsfs1_mount_t -> io A) : io A :=
  match mnt with
  | None => em_err MCSFS1_ERR_INVAL
  | Some mn => match m_dev mn with None => em_err MCSFS1_ERR_INVAL | Some _ => k mn end
  end.

Definition new_file_inode (first_data : Z) : mcsfs1_inode_disk :=
  mk_inode MCSFS1_MODE_FILE 1 0 (first_data :: replicate 7 0) (replicate 5 0).

(** The entry of a new file, written into the directory block. *)
Definition put_dirent (dir : list Z) (slot ino : Z) (name : list Z) (name_len : Z) : option (list Z) :=
  dir ← st 4 dir (DIRENT_SIZE * slot) ino;
  dir ← st 1 dir (DIRENT_SIZE * slot + 4) MCSFS1_MODE_FILE;
  dir ← splice dir (DIRENT_SIZE * slot + 5) (replicate (Z.to_nat MCSFS1_MAX_NAME) 0);
  nm ← slice name 0 name_len;
  splice dir (DIRENT_SIZE * slot + 5) nm.

Definition mcsfs1_create (mnt : option mcsfs1_mount_t) (name : option (list Z)) : io unit :=
  with_mount mnt (fun mn =>
    let dev := m_dev mn in
    name_len <~ valid_name name ;;
    found <~ em_catch (find_dirent dev name) ;;
    match found with
    | inr _ => em_err MCSFS1_ERR_EXIST
    | inl _ =>
        dir <~ dev_read dev MCSFS1_ROOT_DIR_LBA ;;
        slot <~ em_lift (find_free_slot (Z.to_nat MCSFS1_DIRENT_COUNT) 0 dir) ;;
        if slot =? MCSFS1_DIRENT_COUNT then em_err MCSFS1_ERR_NOSPC else
        r <~ alloc_inode_block dev ;;
        let '(ino, first_data) := r in
        write_inode dev ino (new_file_inode first_data) ;;;
        dir <~ em_lift (put_dirent dir slot ino (default [] name) name_len) ;;
        dev_write dev MCSFS1_ROOT_DIR_LBA dir ;;;
        dev_flush dev
    end).

(** The first loop of [mcsfs1_write]: every needed block gets a number. *)
Fixpoint alloc_needed (dev : option mcsfs1_blkdev) (n : nat) (i : Z) (direct : list Z) : io (list Z) :=
  match n with
  | O => em_ret direct
  | S n =>
      b <~ em_lift (arr_get direct i) ;;
      if b =? 0 then
        b <~ alloc_data_block dev ;;
        direct <~ em_lift (arr_set direct i b) ;;
        alloc_needed dev n (i + 1) direct
      else alloc_needed dev n (i + 1) direct
  end.

(** One block of file data: [chunk] bytes of the buffer, the rest zero. *)
Definition data_block (buf : list Z) (written chunk : Z) : option (list Z) :=
  if negb (chunk =? 0)
  then bs ← slice buf written chunk; splice zero_block 0 bs
  else Some zero_block.

Definition chunk_of (remain : Z) : Z := if MCSFS1_BLOCK_SIZE <? remain then MCSFS1_BLOCK_SIZE else remain.

(** The second loop of [mcsfs1_write]. *)
Fixpoint write_blocks (dev : option mcsfs1_blkdev) (n : nat) (i : Z) (direct buf : list Z) (len written : Z) : io unit :=
  match n with
  | O => em_ret tt
  | S n =>
      let chunk := chunk_of (u32 (len - written)) in
      block <~ em_lift (data_block buf written chunk) ;;
      b <~ em_lift (arr_get direct i) ;;
      dev_write dev b block ;;;
      write_blocks dev n (i + 1) direct buf len (u32 (written + chunk))
  end.

Definition blocks_of (size : Z) : Z := u32 (u32 (size + MCSFS1_BLOCK_SIZE) - 1) / MCSFS1_BLOCK_SIZE.

Definition mcsfs1_write (mnt : option mcsfs1_mount_t) (name buf : option (list Z)) (len : Z) : io unit :=
  with_mount mnt (fun mn =>
    let dev := m_dev mn in
    if bool_decide (buf = None) && negb (len =? 0) then em_err MCSFS1_ERR_INVAL else
    if MCSFS1_DIRECT_BLOCKS * MCSFS1_BLOCK_SIZE <? len then em_err MCSFS1_ERR_RANGE else
    r <~ find_dirent dev name ;;
    let ino := snd r in
    nd <~ read_inode dev ino ;;
    if negb (i_mode nd =? MCSFS1_MODE_FILE) then em_err MCSFS1_ERR_ISDIR else
    let needed := if blocks_of len =? 0 then 1 else blocks_of len in
    direct <~ alloc_needed dev (Z.to_nat needed) 0 (i_direct nd) ;;
    write_blocks dev (Z.to_nat needed) 0 direct (default [] buf) len 0 ;;;
    write_inode dev ino (mk_inode (i_mode nd) (i_links nd) len direct (i_reserved nd)) ;;;
    dev_flush dev).

(** The loop of [mcsfs1_read]. *)
Fixpoint read_blocks (dev : option mcsfs1_blkdev) (count : Z) (n : nat) (i : Z) (nd : mcsfs1_inode_disk)
    (buf : list Z) (copied : Z) : io (list Z) :=
  match n with
  | O => em_ret buf
  | S n =>
      b <~ em_lift (arr_get (i_direct nd) i) ;;
      if (b =? 0) || (count <=? b) then em_err MCSFS1_ERR_CORRUPT else
      block <~ dev_read dev b ;;
      let chunk := chunk_of (u32 (i_size nd - copied)) in
      bs <~ em_lift (slice block 0 chunk) ;;
      buf <~ em_lift (splice buf copied bs) ;;
      read_blocks dev count n (i + 1) nd buf (u32 (copied + chunk))
  end.

(** The buffer and [*out_len] of a successful read; [out_len] says whether that
    pointer is set.  What a failed read left in the buffer is not kept. *)
Definition mcsfs1_read (mnt : option mcsfs1_mount_t) (name buf : option (list Z)) (cap : Z) (out_len : bool)
    : io (list Z * Z) :=
  with_mount mnt (fun mn =>
    let dev := m_dev mn in
    match buf with
    | None => em_err MCSFS1_ERR_INVAL
    | Some buf =>
        if negb out_len then em_err MCSFS1_ERR_INVAL else
        r <~ find_dirent dev name ;;
        nd <~ read_inode dev (snd r) ;;
        if negb (i_mode nd =? MCSFS1_MODE_FILE) then em_err MCSFS1_ERR_ISDIR else
        if cap <? i_size nd then em_err MCSFS1_ERR_RANGE else
        buf <~ read_blocks dev (m_block_count mn) (Z.to_nat (blocks_of (i_size nd))) 0 nd buf 0 ;;
        em_ret (buf, i_size nd)
    end).

Definition mcsfs1_unlink (mnt : option mcsfs1_mount_t) (name : option (list Z)) : io unit :=
  with_mount mnt (fun mn =>
    let dev := m_dev mn in
    r <~ find_dirent dev name ;;
    let '(slot, ino) := r in
    nd <~ read_inode dev ino ;;
    if negb (i_mode nd =? MCSFS1_MODE_FILE) then em_err MCSFS1_ERR_ISDIR else
    dir <~ dev_read dev MCSFS1_ROOT_DIR_LBA ;;
    dir <~ em_lift (splice dir (DIRENT_SIZE * slot) (replicate (Z.to_nat DIRENT_SIZE) 0)) ;;
    dev_write dev MCSFS1_ROOT_DIR_LBA dir ;;;
    free_inode_and_blocks dev ino nd ;;;
    write_inode dev ino zero_inode ;;;
    dev_flush dev).

(** ** Checking *)

Fixpoint fsck_blocks (n : nat) (j : Z) (direct : list Z) (count : Z) (bb : list Z) : option bool :=
  match n with
  | O => Some true
  | S n =>
      lba ← arr_get direct j;
      if (lba <? MCSFS1_DATA_START_LBA) || (count <=? lba) then Some false else
      t ← bit_test bb lba;
      if (t : bool) then fsck_blocks n (j + 1) direct count bb else Some false
  end.

Definition fsck_entry (dev : option mcsfs1_blkdev) (ib bb dir : list Z) (i : Z) : io unit :=
  ino <~ em_lift (de_ino dir i) ;;
  if ino =? 0 then em_ret tt else
  if MCSFS1_MAX_INODES <? ino then em_err MCSFS1_ERR_CORRUPT else
  ty <~ em_lift (de_type dir i) ;;
  if negb (ty =? MCSFS1_MODE_FILE) then em_err MCSFS1_ERR_CORRUPT else
  t <~ em_lift (bit_test ib ino) ;;
  if negb t then em_err MCSFS1_ERR_CORRUPT else
  nd <~ read_inode dev ino ;;
  if negb (i_mode nd =? MCSFS1_MODE_FILE) || (MCSFS1_DIRECT_BLOCKS * MCSFS1_BLOCK_SIZE <? i_size nd)
  then em_err MCSFS1_ERR_CORRUPT else
  let needed := if blocks_of (i_size nd) =? 0 then 1 else blocks_of (i_size nd) in
  count <~ dev_count dev ;;
  ok <~ em_lift (fsck_blocks (Z.to_nat needed) 0 (i_direct nd) count bb) ;;
  if (ok : bool) then em_ret tt else em_err MCSFS1_ERR_CORRUPT.

Fixpoint fsck_entries (dev : option mcsfs1_blkdev) (n : nat) (i : Z) (ib bb dir : list Z) : io unit :=
  match n with
  | O => em_ret tt
  | S n => fsck_entry dev ib bb dir i ;;; fsck_entries dev n (i + 1) ib bb dir
  end.

Definition mcsfs1_fsck (dev : option mcsfs1_blkdev) : io unit :=
  match dev with
  | None => em_err MCSFS1_ERR_INVAL
  | Some _ =>
      load_super dev ;;;
      bm <~ load_bmaps dev ;;
      let '(ib, bb) := bm in
      t1 <~ em_lift (bit_test ib MCSFS1_ROOT_INO) ;;
      t2 <~ em_lift (bit_test bb MCSFS1_ROOT_DIR_LBA) ;;
      if negb t1 || negb t2 then em_err MCSFS1_ERR_CORRUPT else
      t3 <~ em_lift (bits_all_set (Z.to_nat MCSFS1_DATA_START_LBA) 0 bb) ;;
      if negb t3 then em_err MCSFS1_ERR_CORRUPT else
      root <~ read_inode dev MCSFS1_ROOT_INO ;;
      bad <~ em_lift (bad_root root) ;;
      if (bad : bool) then em_err MCSFS1_ERR_CORRUPT else
      dir <~ dev_read dev MCSFS1_ROOT_DIR_LBA ;;
      fsck_entries dev (Z.to_nat MCSFS1_DIRENT_COUNT) 0 ib bb dir
  end.

End driver.

Arguments mcsfs1_blkdev : clear implicits.
Arguments mcsfs1_mount_t : clear implicits.

End Mcsfs.
