(* ===== verification/McsfsProofs.v ===== *)
(** * MCSFS1: proofs

    On a disk that stores blocks the file system of [Mcsfs.v] is a map from
    names to contents.  The class [Disk] states what the file system needs of
    its driver.  [holds] reads a computation as a relation between the block
    contents before and after; the rest works on block contents only. *)
From S2P Require Import Prelude Bitmap Bytes Errm Mcsfs.
From stdpp Require Import base gmap list numbers option.
From Stdlib Require Import ZArith Lia.

Open Scope Z_scope.

Module McsfsProofs.
Import Mcsfs.
Open Scope em_scope.

Definition block_ok (b : list Z) : Prop := length b = 512%nat /\ bytes_ok b.

(** A driver that stores blocks: a read returns the last block written, a
    write changes one block, a flush none. *)
Class Disk {D} (dev : mcsfs1_blkdev D) (ok : D -> Prop) (view : D -> list (list Z)) : Prop := {
  dk_len : forall d, ok d -> Z.of_nat (length (view d)) = block_count dev;
  dk_blocks : forall d, ok d -> Forall block_ok (view d);
  dk_read : forall d lba b, ok d -> 0 <= lba -> view d !! Z.to_nat lba = Some b ->
    exists f, dread dev = Some f /\ f lba d = Some (0, b, d);
  dk_write : forall d lba b, ok d -> 0 <= lba < block_count dev -> block_ok b ->
    exists f d', dwrite dev = Some f /\ f lba b d = Some (0, d') /\ ok d' /\
      view d' = <[Z.to_nat lba := b]> (view d);
  dk_flush : forall d, ok d ->
    exists f d', dflush dev = Some f /\ f d = Some (0, d') /\ ok d' /\ view d' = view d
}.

(** ** Computations as relations on block contents *)

Section holds.
Context {D : Type} (dev : mcsfs1_blkdev D) (ok : D -> Prop) (view : D -> list (list Z)).
Context `{Hdisk : !Disk dev ok view}.

Definition holds {A} (m : em D A) (V : list (list Z)) (r : Z + A) (V' : list (list Z)) : Prop :=
  forall d, ok d -> view d = V -> exists d', m d = Some (r, d') /\ ok d' /\ view d' = V'.

Lemma holds_ret {A} (a : A) V : holds (em_ret a) V (inr a) V.
Proof. intros d Hd Hv. by exists d. Qed.

Lemma holds_err {A} rc V : holds (A := A) (em_err rc) V (inl rc) V.
Proof. intros d Hd Hv. by exists d. Qed.

Lemma holds_lift {A} (o : option A) a V : o = Some a -> holds (em_lift o) V (inr a) V.
Proof. intros -> d Hd Hv. by exists d. Qed.

Lemma holds_bind {A B} (m : em D A) (k : A -> em D B) V a V1 r V2 :
  holds m V (inr a) V1 -> holds (k a) V1 r V2 -> holds (em_bind m k) V r V2.
Proof.
  intros Hm Hk d Hd Hv. destruct (Hm d Hd Hv) as (d1 & H1 & Hd1 & Hv1). rewrite (em_bind_ok _ _ _ _ _ H1). by apply Hk.
Qed.

Lemma holds_bind_err {A B} (m : em D A) (k : A -> em D B) V rc V1 :
  holds m V (inl rc) V1 -> holds (em_bind m k) V (inl rc) V1.
Proof.
  intros Hm d Hd Hv. destruct (Hm d Hd Hv) as (d1 & H1 & Hd1 & Hv1). exists d1. by rewrite (em_bind_err _ _ _ _ _ H1).
Qed.

Lemma holds_catch {A} (m : em D A) V r V1 : holds m V r V1 -> holds (em_catch m) V (inr r) V1.
Proof.
  intros Hm d Hd Hv. destruct (Hm d Hd Hv) as (d1 & H1 & Hd1 & Hv1). exists d1. unfold em_catch. by rewrite H1.
Qed.

Lemma holds_bind_lift {A B} (o : option A) (k : A -> em D B) a V r V2 :
  o = Some a -> holds (k a) V r V2 -> holds (em_bind (em_lift o) k) V r V2.
Proof. intros Ho. eapply holds_bind. by apply holds_lift. Qed.

Lemma holds_read V lba b :
  0 <= lba < block_count dev -> V !! Z.to_nat lba = Some b -> holds (dev_read (Some dev) lba) V (inr b) V.
Proof.
  intros Hl Hb d Hd <-. destruct (dk_read d lba b Hd (proj1 Hl) Hb) as (f & Hf & Hr). exists d.
  unfold dev_read. rewrite Hf. destruct (Z.leb_spec (block_count dev) lba); [lia|]. rewrite Hr. done.
Qed.

Lemma holds_write V lba b :
  0 <= lba < block_count dev -> block_ok b ->
  holds (dev_write (Some dev) lba b) V (inr tt) (<[Z.to_nat lba := b]> V).
Proof.
  intros Hl Hb d Hd <-. destruct (dk_write d lba b Hd Hl Hb) as (f & d' & Hf & Hw & Hd' & Hv). exists d'.
  unfold dev_write. rewrite Hf. destruct (Z.leb_spec (block_count dev) lba); [lia|]. rewrite Hw. done.
Qed.

Lemma holds_flush V : holds (dev_flush (Some dev)) V (inr tt) V.
Proof.
  intros d Hd <-. destruct (dk_flush d Hd) as (f & d' & Hf & Hw & Hd' & Hv). exists d'.
  unfold dev_flush. rewrite Hf, Hw. done.
Qed.

Lemma holds_count {B} (k : Z -> em D B) V r V2 :
  holds (k (block_count dev)) V r V2 -> holds (em_bind (dev_count (Some dev)) k) V r V2.
Proof. by apply holds_bind_lift. Qed.

(** The block contents of a disk. *)
Definition vol (V : list (list Z)) : Prop := Z.of_nat (length V) = block_count dev /\ Forall block_ok V.

Lemma vol_write V (i : nat) b : vol V -> block_ok b -> vol (<[i := b]> V).
Proof. intros [Hl Hb] Hok. split; [by rewrite length_insert|by apply Forall_insert]. Qed.

Lemma vol_get V lba : vol V -> 0 <= lba < block_count dev -> exists b, V !! Z.to_nat lba = Some b /\ block_ok b.
Proof.
  intros [Hl Hb] Hr. destruct (lookup_lt_is_Some_2 V (Z.to_nat lba)) as [b Hx]; [lia|].
  exists b. split; [done|]. exact (Forall_lookup_1 _ _ _ _ Hb Hx).
Qed.

End holds.

(** ** Inodes *)

Record wf_inode (nd : mcsfs1_inode_disk) : Prop := {
  wi_mode : in_u 16 (i_mode nd);
  wi_links : in_u 16 (i_links nd);
  wi_size : in_u 32 (i_size nd);
  wi_direct : length (i_direct nd) = 8%nat /\ Forall (in_u 32) (i_direct nd);
  wi_reserved : length (i_reserved nd) = 5%nat /\ Forall (in_u 32) (i_reserved nd)
}.

Lemma length_le_words ws : length (le_words ws) = (4 * length ws)%nat.
Proof. induction ws as [|w ws IH]; [done|]. cbn [le_words length]. rewrite length_app, length_le_bytes, IH. lia. Qed.

Lemma bytes_ok_le_words ws : bytes_ok (le_words ws).
Proof. induction ws as [|w ws IH]; [constructor|]. apply bytes_ok_app; [apply bytes_ok_le_bytes|done]. Qed.

Lemma length_inode_bytes nd : wf_inode nd -> length (inode_bytes nd) = 60%nat.
Proof.
  intros [_ _ _ [Hd _] [Hr _]]. unfold inode_bytes. rewrite !length_app, !length_le_bytes, !length_le_words, Hd, Hr. done.
Qed.

Lemma bytes_ok_inode nd : bytes_ok (inode_bytes nd).
Proof. unfold inode_bytes. repeat apply bytes_ok_app; apply bytes_ok_le_bytes || apply bytes_ok_le_words. Qed.

(** Reading a field in the middle of a buffer. *)
Lemma ld_words_app ws (l1 l2 : list Z) :
  Forall (in_u 32) ws -> ld_words (length ws) (l1 ++ le_words ws ++ l2) (Z.of_nat (length l1)) = Some ws.
Proof.
  intros Hws. revert l1. induction Hws as [|w ws Hw _ IH]; intros l1; [done|]. cbn [length ld_words le_words].
  rewrite <- app_assoc, (ld_app 4) by done. cbn [mbind option_bind].
  specialize (IH (l1 ++ le_bytes 4 w)). rewrite <- app_assoc, length_app, length_le_bytes in IH.
  replace (Z.of_nat (length l1) + 4) with (Z.of_nat (length l1 + 4)) by lia. by rewrite IH.
Qed.

Lemma inode_roundtrip nd : wf_inode nd -> inode_of_bytes (inode_bytes nd) = Some nd.
Proof.
  intros [Hm Hl Hs [Hd Hdf] [Hr Hrf]]. unfold inode_of_bytes, inode_bytes.
  pose proof (ld_app 2 [] (le_bytes 2 (i_links nd) ++ le_bytes 4 (i_size nd) ++ le_words (i_direct nd) ++ le_words (i_reserved nd)) _ Hm) as E1.
  cbn [app length] in E1. change (Z.of_nat 0) with 0 in E1. rewrite E1. clear E1. cbn [mbind option_bind].
  pose proof (ld_app 2 (le_bytes 2 (i_mode nd)) (le_bytes 4 (i_size nd) ++ le_words (i_direct nd) ++ le_words (i_reserved nd)) _ Hl) as E2.
  rewrite length_le_bytes in E2. change (Z.of_nat 2) with 2 in E2. rewrite E2. clear E2. cbn [mbind option_bind].
  pose proof (ld_app 4 (le_bytes 2 (i_mode nd) ++ le_bytes 2 (i_links nd)) (le_words (i_direct nd) ++ le_words (i_reserved nd)) _ Hs) as E3.
  rewrite length_app, !length_le_bytes, <- app_assoc in E3. change (Z.of_nat (2 + 2)) with 4 in E3. rewrite E3. clear E3. cbn [mbind option_bind].
  pose proof (ld_words_app (i_direct nd) (le_bytes 2 (i_mode nd) ++ le_bytes 2 (i_links nd) ++ le_bytes 4 (i_size nd)) (le_words (i_reserved nd)) Hdf) as E4.
  rewrite !length_app, !length_le_bytes, Hd, <- !app_assoc in E4. change (Z.of_nat (2 + (2 + 4))) with 8 in E4. rewrite E4. clear E4. cbn [mbind option_bind].
  pose proof (ld_words_app (i_reserved nd) (le_bytes 2 (i_mode nd) ++ le_bytes 2 (i_links nd) ++ le_bytes 4 (i_size nd) ++ le_words (i_direct nd)) [] Hrf) as E5.
  rewrite !length_app, !length_le_bytes, length_le_words, Hd, Hr, <- !app_assoc, app_nil_r in E5.
  change (Z.of_nat (2 + (2 + (4 + 4 * 8)))) with 40 in E5. rewrite E5. by destruct nd.
Qed.

Lemma ld_words_Some n buf off :
  bytes_ok buf -> 0 <= off -> off + 4 * Z.of_nat n <= Z.of_nat (length buf) ->
  exists ws, ld_words n buf off = Some ws /\ length ws = n /\ Forall (in_u 32) ws.
Proof.
  intros Hok. revert off. induction n as [|n IH]; intros off Ho Hl; [by exists []|]. cbn [ld_words].
  destruct (ld_Some 4 buf off) as (w & -> & Hw); [done|lia|lia|]. cbn [mbind option_bind].
  destruct (IH (off + 4)) as (ws & -> & Hlen & Hf); [lia|lia|]. cbn [mbind option_bind].
  exists (w :: ws). split_and!; [done|simpl; lia|by constructor].
Qed.

Lemma inode_of_Some raw : length raw = 60%nat -> bytes_ok raw -> exists nd, inode_of_bytes raw = Some nd /\ wf_inode nd.
Proof.
  intros Hl Hb. unfold inode_of_bytes.
  destruct (ld_Some 2 raw 0) as (m & -> & Hm); [done|lia|lia|].
  destruct (ld_Some 2 raw 2) as (k & -> & Hk); [done|lia|lia|].
  destruct (ld_Some 4 raw 4) as (z & -> & Hz); [done|lia|lia|].
  destruct (ld_words_Some 8 raw 8) as (ds & -> & Hdl & Hdf); [done|lia|lia|].
  destruct (ld_words_Some 5 raw 40) as (rs & -> & Hrl & Hrf); [done|lia|lia|]. cbn. eexists. split; [done|]. by split.
Qed.

(** ** Bitmaps *)

Lemma bit_test_spec (b : list Z) i : block_ok b -> 0 <= i < 4096 -> bit_test b i = Some (bm_test b i).
Proof.
  intros [Hl _] Hi. unfold bit_test, bm_test. destruct (bm_get_is_Some b i) as [x Hx]; [lia|]. rewrite Hx. cbn.
  f_equal. apply byte_test_testbit. apply Z.mod_pos_bound. lia.
Qed.

Lemma bit_set_spec (b : list Z) i : block_ok b -> 0 <= i < 4096 ->
  exists b', bit_set b i = Some b' /\ block_ok b' /\ forall j, 0 <= j -> bm_test b' j = bool_decide (i = j) || bm_test b j.
Proof.
  intros [Hl Hb] Hi. unfold bit_set. destruct (bm_get_is_Some b i) as [x Hx]; [lia|]. rewrite Hx. cbn [mbind option_bind].
  rewrite arr_set_Some by (by eapply arr_get_Some_lt). eexists. split; [done|]. split.
  - split; [by rewrite length_insert|]. apply bytes_ok_insert; [done|apply u8_in_u8].
  - intros j Hj. apply bm_test_set; [done|lia|done].
Qed.

Lemma bit_clear_spec (b : list Z) i : block_ok b -> 0 <= i < 4096 ->
  exists b', bit_clear b i = Some b' /\ block_ok b' /\
    forall j, 0 <= j -> bm_test b' j = negb (bool_decide (i = j)) && bm_test b j.
Proof.
  intros [Hl Hb] Hi. unfold bit_clear. destruct (bm_get_is_Some b i) as [x Hx]; [lia|]. rewrite Hx. cbn [mbind option_bind].
  rewrite arr_set_Some by (by eapply arr_get_Some_lt). eexists. split; [done|]. split.
  - split; [by rewrite length_insert|]. apply bytes_ok_insert; [done|apply u8_in_u8].
  - intros j Hj. apply bm_test_clear; [done|lia|done].
Qed.

Lemma find_clear_bit_spec n i (b : list Z) :
  block_ok b -> 0 < i -> i + Z.of_nat n <= 4096 ->
  (find_clear_bit n i b = Some 0 /\ forall j, i <= j < i + Z.of_nat n -> bm_test b j = true) \/
  exists j, find_clear_bit n i b = Some j /\ i <= j < i + Z.of_nat n /\ bm_test b j = false.
Proof.
  intros Hb. revert i. induction n as [|n IH]; intros i Hi Hn; [left; split; [done|lia]|]. cbn [find_clear_bit].
  rewrite bit_test_spec by (done || lia). cbn [mbind option_bind]. destruct (bm_test b i) eqn:E.
  - destruct (IH (i + 1)) as [[H Hall]|(j & H & ? & ?)]; [lia|lia|left|right].
    + split; [done|]. intros j Hj. destruct (decide (j = i)) as [->|]; [done|]. apply Hall. lia.
    + exists j. split_and!; [done|lia|lia|done].
  - right. exists i. split_and!; [done|lia|lia|done].
Qed.

Lemma bits_all_set_spec n i (b : list Z) :
  block_ok b -> 0 <= i -> i + Z.of_nat n <= 4096 ->
  (forall j, i <= j < i + Z.of_nat n -> bm_test b j = true) -> bits_all_set n i b = Some true.
Proof.
  intros Hb. revert i. induction n as [|n IH]; intros i Hi Hn Hall; [done|]. cbn [bits_all_set].
  rewrite bit_test_spec by (done || lia). cbn [mbind option_bind]. rewrite Hall by lia. apply IH; [lia|lia|].
  intros j Hj. apply Hall. lia.
Qed.

Lemma clear_blocks_spec direct count (bb : list Z) :
  block_ok bb -> count <= 4096 -> Forall (in_u 32) direct ->
  exists bb', clear_blocks direct count bb = Some bb' /\ block_ok bb' /\
    forall j, 0 <= j -> bm_test bb' j = negb (bool_decide (j <> 0 /\ j ∈ direct /\ j < count)) && bm_test bb j.
Proof.
  intros Hb Hc Hd. revert bb Hb. induction Hd as [|x direct Hx _ IH]; intros bb Hb.
  - exists bb. split_and!; [done|done|]. intros j Hj.
    rewrite bool_decide_false; [done|]. by intros (_ & ?%not_elem_of_nil & _).
  - cbn [clear_blocks]. unfold in_u in Hx. destruct (negb (x =? 0) && (x <? count)) eqn:E.
    + apply andb_true_iff in E as [E1%negb_true_iff E2%Z.ltb_lt]. apply Z.eqb_neq in E1.
      destruct (bit_clear_spec bb x Hb) as (b1 & -> & Hb1 & Ht1); [lia|]. cbn [mbind option_bind].
      destruct (IH b1 Hb1) as (b2 & -> & Hb2 & Ht2). exists b2. split_and!; [done|done|].
      intros j Hj. rewrite Ht2, Ht1 by lia. rewrite andb_assoc. f_equal. rewrite <- negb_orb. f_equal.
      rewrite <- bool_decide_or. apply bool_decide_ext. rewrite elem_of_cons. naive_solver.
    + cbn [mbind option_bind]. destruct (IH bb Hb) as (b2 & -> & Hb2 & Ht2). exists b2.
      split_and!; [done|done|]. intros j Hj. rewrite Ht2 by lia. f_equal. f_equal. apply bool_decide_ext.
      rewrite elem_of_cons. apply andb_false_iff in E. rewrite negb_false_iff, Z.eqb_eq, Z.ltb_ge in E. naive_solver lia.
Qed.

(** ** The inode table *)

Definition get_inode (V : list (list Z)) (ino : Z) : option mcsfs1_inode_disk :=
  b ← V !! Z.to_nat (inode_lba ino); raw ← slice b (inode_off ino) INODE_SIZE; inode_of_bytes raw.

Lemma inode_pos ino : 1 <= ino <= 32 ->
  3 <= inode_lba ino < 7 /\ 0 <= inode_off ino /\ inode_off ino + 60 <= 512.
Proof.
  intros Hi. unfold inode_lba, inode_off, per_block, MCSFS1_INODE_TABLE_LBA, MCSFS1_BLOCK_SIZE, INODE_SIZE.
  change (512 / 60) with 8. pose proof (Z.mod_pos_bound (ino - 1) 8). zdm.
Qed.

Lemma inode_pos_inj i j : 1 <= i <= 32 -> 1 <= j <= 32 -> i <> j -> inode_lba i = inode_lba j ->
  inode_off i + 60 <= inode_off j \/ inode_off j + 60 <= inode_off i.
Proof.
  unfold inode_lba, inode_off, per_block, MCSFS1_INODE_TABLE_LBA, MCSFS1_BLOCK_SIZE, INODE_SIZE.
  change (512 / 60) with 8. intros. zdm.
Qed.

Section inode_io.
Context {D : Type} (dev : mcsfs1_blkdev D) (ok : D -> Prop) (view : D -> list (list Z)).
Context `{Hdisk : !Disk dev ok view} (Hcount : 16 <= block_count dev <= 4096).
Local Abbreviation holds := (holds ok view).
Local Abbreviation vol := (vol dev).

Lemma get_inode_Some V ino : vol V -> 1 <= ino <= 32 ->
  exists b raw nd, V !! Z.to_nat (inode_lba ino) = Some b /\ block_ok b /\
    slice b (inode_off ino) INODE_SIZE = Some raw /\ inode_of_bytes raw = Some nd /\ wf_inode nd.
Proof.
  intros HV Hi. destruct (inode_pos ino Hi) as (Hl & Ho & Ho2).
  destruct (vol_get dev V (inode_lba ino) HV) as (b & Hb & Hok); [lia|]. pose proof Hok as [Hbl Hbb].
  destruct (slice_Some b (inode_off ino) INODE_SIZE) as (raw & Hr & Hrl); [unfold INODE_SIZE; lia..|].
  destruct (inode_of_Some raw) as (nd & Hn & Hwf); [unfold INODE_SIZE in Hrl; lia|by eapply bytes_ok_slice|].
  exists b, raw, nd. done.
Qed.

Lemma good_ino ino : 1 <= ino <= 32 -> bad_ino ino = false /\ (MCSFS1_DATA_START_LBA <=? inode_lba ino) = false.
Proof.
  intros Hi. destruct (inode_pos ino Hi) as (Hl & _). unfold bad_ino, MCSFS1_MAX_INODES, MCSFS1_DATA_START_LBA.
  destruct (Z.eqb_spec ino 0), (Z.ltb_spec 32 ino), (Z.leb_spec 8 (inode_lba ino)); try lia; done.
Qed.

Lemma holds_read_inode V ino nd :
  vol V -> 1 <= ino <= 32 -> get_inode V ino = Some nd ->
  holds (read_inode (Some dev) ino) V (inr nd) V.
Proof.
  intros HV Hi Hg. destruct (get_inode_Some V ino HV Hi) as (b & raw & nd' & Hb & _ & Hr & Hn & _).
  unfold get_inode in Hg. rewrite Hb in Hg. cbn in Hg. rewrite Hr in Hg. cbn in Hg. rewrite Hn in Hg. injection Hg as <-.
  destruct (good_ino ino Hi) as [E1 E2]. destruct (inode_pos ino Hi) as (Hl & _). unfold read_inode. rewrite E1, E2.
  eapply holds_bind; [apply (holds_read dev ok view); [lia|exact Hb]|]. eapply holds_bind_lift; [exact Hr|]. by apply holds_lift.
Qed.

Lemma holds_write_inode V ino nd :
  vol V -> 1 <= ino <= 32 -> wf_inode nd ->
  exists V', holds (write_inode (Some dev) ino nd) V (inr tt) V' /\ vol V' /\
    (forall j, 1 <= j <= 32 -> get_inode V' j = if decide (j = ino) then Some nd else get_inode V j) /\
    (forall l, (l < 3 \/ 7 <= l)%nat -> V' !! l = V !! l).
Proof.
  intros HV Hi Hnd. destruct (get_inode_Some V ino HV Hi) as (b & raw & nd0 & Hb & Hbok & Hr & _ & _).
  pose proof Hbok as [Hbl Hbb]. destruct (inode_pos ino Hi) as (Hl & Ho & Ho2). pose proof (length_inode_bytes nd Hnd) as Hln.
  destruct (splice b (inode_off ino) (inode_bytes nd)) as [b'|] eqn:Hs; [|by rewrite splice_Some in Hs by lia].
  assert (Hb' : block_ok b').
  { split; [by rewrite (length_splice _ _ _ _ Hs)|]. eapply bytes_ok_splice; [exact Hbb|apply bytes_ok_inode|exact Hs]. }
  assert (Hlt : (Z.to_nat (inode_lba ino) < length V)%nat) by (by eapply lookup_lt_Some).
  exists (<[Z.to_nat (inode_lba ino) := b']> V). split_and!.
  - destruct (good_ino ino Hi) as [E1 E2]. unfold write_inode. rewrite E1, E2.
    eapply holds_bind; [apply (holds_read dev ok view); [lia|exact Hb]|]. eapply holds_bind_lift; [exact Hs|]. apply (holds_write dev ok view); [lia|done].
  - by apply vol_write.
  - intros j Hj. destruct (inode_pos j Hj) as (Hjl & Hjo & Hjo2). unfold get_inode. case_decide as Hji; [subst j|].
    + rewrite list_lookup_insert_eq by done. cbn [mbind option_bind]. unfold INODE_SIZE.
      replace 60 with (Z.of_nat (length (inode_bytes nd))) by lia. rewrite (slice_splice_same _ _ _ _ Hs).
      cbn [mbind option_bind]. by apply inode_roundtrip.
    + destruct (decide (inode_lba j = inode_lba ino)) as [E|E].
      * rewrite E, list_lookup_insert_eq, Hb by done. cbn [mbind option_bind]. unfold INODE_SIZE.
        pose proof (inode_pos_inj j ino Hj Hi Hji E).
        rewrite (slice_splice_disjoint _ _ _ _ _ _ Hs) by lia. done.
      * rewrite list_lookup_insert_ne by lia. done.
  - intros l Hll. rewrite list_lookup_insert_ne by lia. done.
Qed.

End inode_io.

(** ** The directory *)

Fixpoint cname (l : list Z) : list Z :=
  match l with [] => [] | c :: l => if c =? 0 then [] else c :: cname l end.

(** A used entry is its inode number and name. *)
Definition dent (dir : list Z) (i : Z) : option (Z * list Z) :=
  ino ← de_ino dir i;
  if ino =? 0 then None else
  nm ← slice dir (DIRENT_SIZE * i + 5) MCSFS1_MAX_NAME; Some (ino, cname nm).

(** A file name the calls take: 1 to 26 bytes, none of them NUL or a slash. *)
Record good_name (nm : list Z) : Prop := {
  gn_len : 1 <= Z.of_nat (length nm) <= 26;
  gn_chars : Forall (fun c => c <> 0 /\ c <> SLASH) nm;
  gn_bytes : bytes_ok nm
}.

Lemma gn_nonzero nm : good_name nm -> Forall (fun c => c <> 0) nm.
Proof. intros H. pose proof (gn_chars _ H) as Hc. revert Hc. apply Forall_impl. naive_solver. Qed.

Lemma cname_nonzero l : Forall (fun c => c <> 0) (cname l).
Proof. induction l as [|c l IH]; [constructor|]. cbn. destruct (Z.eqb_spec c 0); [constructor|]. by constructor. Qed.

Lemma cname_split l : (length (cname l) < length l)%nat -> exists r, l = cname l ++ 0 :: r.
Proof.
  induction l as [|c l IH]; cbn [cname length]; [lia|]. destruct (Z.eqb_spec c 0) as [->|]; [by exists l|].
  cbn [length]. intros Hl. destruct IH as [r Hr]; [lia|]. exists r. cbn [app]. by rewrite <- Hr.
Qed.

Lemma cname_app nm r : Forall (fun c => c <> 0) nm -> cname (nm ++ 0 :: r) = nm.
Proof. induction 1 as [|c nm Hc _ IH]; [done|]. cbn. destruct (Z.eqb_spec c 0); [done|]. by rewrite IH. Qed.

Lemma strlen_bound_app nm r max :
  Forall (fun c => c <> 0) nm -> (length nm < max)%nat -> strlen_bound (nm ++ 0 :: r) max = Some (Z.of_nat (length nm)).
Proof.
  intros H. revert max. induction H as [|c nm Hc _ IH]; intros max Hm; (destruct max as [|max]; [simpl in Hm; lia|]); [done|].
  cbn [app strlen_bound head hd_error mbind option_bind tail length]. destruct (Z.eqb_spec c 0); [done|].
  rewrite IH by (simpl in Hm; lia). cbn. f_equal. lia.
Qed.

Lemma memcmp_app x y r1 r2 : length x = length y ->
  exists c, mcsfs_memcmp (x ++ r1) (y ++ r2) (length y) = Some c /\ (c = 0 <-> x = y).
Proof.
  revert y. induction x as [|a x IH]; intros [|b y] Hl; try done; [by exists 0|].
  cbn [app length mcsfs_memcmp head hd_error mbind option_bind tail]. destruct (Z.eqb_spec a b) as [->|Hne].
  - destruct (IH y) as (c & -> & Hc); [simpl in Hl; lia|]. exists c. split; [done|]. rewrite Hc. naive_solver.
  - exists (a - b). split; [done|]. split; [lia|]. intros [= -> _]. lia.
Qed.

Definition ok_entry (dir : list Z) (i : Z) : Prop := forall ino nm, dent dir i = Some (ino, nm) -> Z.of_nat (length nm) <= 26.

Lemma de_ino_Some dir i : block_ok dir -> 0 <= i < 16 -> exists ino, de_ino dir i = Some ino /\ in_u 32 ino.
Proof. intros [Hl Hb] Hi. unfold de_ino, DIRENT_SIZE. apply (ld_Some 4); [done|lia|lia]. Qed.

Lemma dent_split dir i ino nm :
  block_ok dir -> 0 <= i < 16 -> dent dir i = Some (ino, nm) -> Z.of_nat (length nm) <= 26 ->
  de_ino dir i = Some ino /\ ino <> 0 /\ Forall (fun c => c <> 0) nm /\ exists r, de_name dir i = nm ++ 0 :: r.
Proof.
  intros [Hl Hb] Hi Hd Hn. unfold dent in Hd. destruct (de_ino dir i) as [n|]; [|done]. cbn [mbind option_bind] in Hd.
  destruct (Z.eqb_spec n 0); [done|]. unfold de_name, slice, DIRENT_SIZE, MCSFS1_MAX_NAME in *.
  rewrite (proj2 (in_buf_true _ _ _)) in Hd by lia. cbn [mbind option_bind] in Hd. injection Hd as <- <-.
  split_and!; [done|done|apply cname_nonzero|].
  set (l := drop (Z.to_nat (32 * i + 5)) dir) in *. change (Z.to_nat 27) with 27%nat in *.
  assert (Hll : (27 <= length l)%nat) by (unfold l; rewrite length_drop; lia).
  destruct (cname_split (take 27 l)) as [r Hr]; [rewrite length_take; lia|].
  exists (r ++ drop 27 l). rewrite <- (take_drop 27 l) at 1. rewrite Hr at 1. by rewrite <- app_assoc.
Qed.

Section find.
Context (dir nm rest : list Z) (Hdir : block_ok dir) (Hnm : good_name nm).
Context (Hents : forall i, 0 <= i < 16 -> ok_entry dir i).

Lemma dirent_is_spec i : 0 <= i < 16 ->
  dirent_is dir (nm ++ 0 :: rest) (Z.of_nat (length nm)) i = Some (bool_decide (snd <$> dent dir i = Some nm)).
Proof.
  intros Hi. unfold dirent_is. destruct (de_ino_Some dir i Hdir Hi) as (ino & Hino & _).
  destruct (dent dir i) as [[ino' x]|] eqn:Hd.
  - pose proof (Hents i Hi ino' x Hd) as Hx. destruct (dent_split dir i ino' x Hdir Hi Hd Hx) as (Hino' & Hnz & Hxz & r & Hr).
    rewrite Hino'. cbn [mbind option_bind]. destruct (Z.eqb_spec ino' 0); [done|]. rewrite Hr. cbn [mcsfs_strlen_bound].
    rewrite strlen_bound_app by (done || (unfold MCSFS1_MAX_NAME; lia)). cbn [mbind option_bind fmap option_fmap option_map snd].
    destruct (Z.eqb_spec (Z.of_nat (length x)) (Z.of_nat (length nm))) as [E|E]; cbn [negb].
    + rewrite Nat2Z.id. destruct (memcmp_app x nm (0 :: r) (0 :: rest)) as (c & -> & Hc); [lia|]. cbn. f_equal.
      destruct (Z.eqb_spec c 0); case_bool_decide; naive_solver.
    + rewrite bool_decide_false; [done|]. intros [= ->]. done.
  - rewrite Hino. cbn [mbind option_bind]. unfold dent in Hd. rewrite Hino in Hd. cbn [mbind option_bind] in Hd.
    destruct (Z.eqb_spec ino 0); [by rewrite bool_decide_false|]. destruct Hdir as [Hl _].
    unfold slice, DIRENT_SIZE, MCSFS1_MAX_NAME in Hd. by rewrite (proj2 (in_buf_true _ _ _)) in Hd by lia.
Qed.

Lemma dirent_scan_spec n i : 0 <= i -> i + Z.of_nat n <= 16 ->
  (find_dirent_from n i dir (nm ++ 0 :: rest) (Z.of_nat (length nm)) = Some None /\
     forall j, i <= j < i + Z.of_nat n -> snd <$> dent dir j <> Some nm) \/
  exists k ino, find_dirent_from n i dir (nm ++ 0 :: rest) (Z.of_nat (length nm)) = Some (Some (k, ino)) /\
    i <= k < i + Z.of_nat n /\ dent dir k = Some (ino, nm).
Proof.
  revert i. induction n as [|n IH]; intros i Hi Hn; [left; split; [done|lia]|]. cbn [find_dirent_from].
  rewrite dirent_is_spec by lia. cbn [mbind option_bind]. case_bool_decide as Hd.
  - right. destruct (dent dir i) as [[ino x]|] eqn:Hde; [|done]. cbn in Hd. injection Hd as ->. exists i, ino.
    destruct (dent_split dir i ino nm Hdir) as (-> & _); [lia|done|destruct Hnm; lia|]. split_and!; [done|lia|lia|done].
  - destruct (IH (i + 1)) as [[H Hall]|(k & ino & H & ? & ?)]; [lia|lia|left|right].
    + split; [done|]. intros j Hj. destruct (decide (j = i)) as [->|]; [done|]. apply Hall. lia.
    + exists k, ino. split_and!; [done|lia|lia|done].
Qed.

End find.

Lemma find_free_slot_spec dir n i : block_ok dir -> 0 <= i -> i + Z.of_nat n = 16 ->
  (find_free_slot n i dir = Some 16 /\ forall j, i <= j < 16 -> dent dir j <> None) \/
  exists k, find_free_slot n i dir = Some k /\ i <= k < 16 /\ dent dir k = None.
Proof.
  intros Hdir. revert i. induction n as [|n IH]; intros i Hi Hn; [left; split; [done|lia]|]. cbn [find_free_slot].
  destruct (de_ino_Some dir i Hdir) as (ino & Hino & _); [lia|]. rewrite Hino. cbn [mbind option_bind].
  destruct (Z.eqb_spec ino 0) as [->|Hne].
  - right. exists i. split_and!; [done|lia|lia|]. unfold dent. by rewrite Hino.
  - destruct (IH (i + 1)) as [[H Hall]|(k & H & ? & ?)]; [lia|lia|left|right].
    + split; [done|]. intros j Hj. destruct (decide (j = i)) as [->|]; [|apply Hall; lia].
      unfold dent. rewrite Hino. cbn [mbind option_bind]. destruct (Z.eqb_spec ino 0); [done|].
      destruct Hdir as [Hl _]. unfold slice, DIRENT_SIZE, MCSFS1_MAX_NAME. by rewrite (proj2 (in_buf_true _ _ _)) by lia.
    + exists k. split_and!; [done|lia|lia|done].
Qed.

(** Changing one entry leaves the others alone. *)
Definition same_outside (dir dir' : list Z) (slot : Z) : Prop :=
  forall off len, 0 <= off -> 0 <= len -> off + len <= 32 * slot \/ 32 * slot + 32 <= off ->
    slice dir' off len = slice dir off len.

Lemma same_outside_entry dir dir' slot j : same_outside dir dir' slot -> 0 <= j -> j <> slot ->
  de_ino dir' j = de_ino dir j /\ de_type dir' j = de_type dir j /\ dent dir' j = dent dir j.
Proof.
  intros H Hj Hne. unfold dent, de_ino, de_type, ld, DIRENT_SIZE, MCSFS1_MAX_NAME.
  rewrite !H by lia. split_and!; done.
Qed.

Lemma same_outside_splice dir off bs dir' slot :
  splice dir off bs = Some dir' -> 32 * slot <= off -> off + Z.of_nat (length bs) <= 32 * slot + 32 ->
  same_outside dir dir' slot.
Proof. intros Hs H1 H2 o l ? ? Hd. apply (slice_splice_disjoint _ _ _ _ _ _ Hs); lia. Qed.

Lemma same_outside_trans a b c slot : same_outside a b slot -> same_outside b c slot -> same_outside a c slot.
Proof. intros H1 H2 o l ? ? Hd. by rewrite H2, H1. Qed.

Lemma splice_ok b off bs : block_ok b -> bytes_ok bs -> 0 <= off -> off + Z.of_nat (length bs) <= 512 ->
  exists b', splice b off bs = Some b' /\ block_ok b'.
Proof.
  intros [Hl Hb] Hbs ??. destruct (splice b off bs) as [b'|] eqn:Hs; [|by rewrite splice_Some in Hs by lia].
  exists b'. split; [done|]. split; [by rewrite (length_splice _ _ _ _ Hs)|]. exact (bytes_ok_splice _ _ _ _ Hb Hbs Hs).
Qed.

Lemma put_dirent_spec dir slot ino nm rest :
  block_ok dir -> 0 <= slot < 16 -> in_u 32 ino -> ino <> 0 -> good_name nm ->
  exists dir', put_dirent dir slot ino (nm ++ 0 :: rest) (Z.of_nat (length nm)) = Some dir' /\ block_ok dir' /\
    dent dir' slot = Some (ino, nm) /\ de_type dir' slot = Some MCSFS1_MODE_FILE /\ same_outside dir dir' slot.
Proof.
  intros Hdir Hs Hino Hnz Hnm. pose proof (gn_len _ Hnm) as Hl. unfold put_dirent, DIRENT_SIZE, MCSFS1_MAX_NAME.
  unfold st. destruct (splice_ok dir (32 * slot) (le_bytes 4 ino)) as (d1 & E1 & Hd1);
    [done|apply bytes_ok_le_bytes|lia|rewrite length_le_bytes; lia|]. rewrite E1. cbn [mbind option_bind].
  destruct (splice_ok d1 (32 * slot + 4) (le_bytes 1 MCSFS1_MODE_FILE)) as (d2 & E2 & Hd2);
    [done|apply bytes_ok_le_bytes|lia|rewrite length_le_bytes; lia|]. rewrite E2. cbn [mbind option_bind].
  destruct (splice_ok d2 (32 * slot + 5) (replicate (Z.to_nat 27) 0)) as (d3 & E3 & Hd3);
    [done|apply bytes_ok_replicate; unfold in_u; lia|lia|rewrite length_replicate; lia|]. rewrite E3. cbn [mbind option_bind].
  unfold slice at 1. rewrite (proj2 (in_buf_true _ _ _)) by (rewrite length_app; simpl; lia).
  change (Z.to_nat 0) with 0%nat. rewrite drop_0, Nat2Z.id, take_app_length. cbn [mbind option_bind].
  destruct (splice_ok d3 (32 * slot + 5) nm) as (d4 & E4 & Hd4); [done|apply Hnm|lia|lia|]. exists d4.
  assert (H5 : slice d4 (32 * slot) 4 = slice d1 (32 * slot) 4).
  { rewrite (slice_splice_disjoint _ _ _ _ _ _ E4), (slice_splice_disjoint _ _ _ _ _ _ E3),
      (slice_splice_disjoint _ _ _ _ _ _ E2) by lia. done. }
  assert (H6 : slice d4 (32 * slot + 4) 1 = slice d2 (32 * slot + 4) 1).
  { rewrite (slice_splice_disjoint _ _ _ _ _ _ E4), (slice_splice_disjoint _ _ _ _ _ _ E3) by lia. done. }
  assert (H7 : slice d4 (32 * slot + 5) 27 = Some (nm ++ replicate (27 - length nm) 0)).
  { destruct Hd4 as [Hl4 _]. destruct (slice_Some d4 (32 * slot + 5) 27) as (x & Hx & Hxl); [lia..|]. rewrite Hx. f_equal.
    unfold slice in Hx. rewrite (proj2 (in_buf_true _ _ _)) in Hx by lia. injection Hx as <-. apply list_eq. intros k.
    destruct (decide (k < 27)%nat).
    - rewrite lookup_take_lt, lookup_drop by lia. rewrite (lookup_splice _ _ _ _ _ E4). case_decide.
      + rewrite lookup_app_l by lia. f_equal. lia.
      + rewrite lookup_app_r by lia. rewrite (lookup_splice _ _ _ _ _ E3), length_replicate, decide_True by lia.
        rewrite !lookup_replicate_2 by lia. done.
    - rewrite lookup_take_ge by lia. symmetry. apply lookup_ge_None_2. rewrite length_app, length_replicate. lia. }
  split_and!; [done|done| | |].
  - unfold dent, de_ino, ld, DIRENT_SIZE, MCSFS1_MAX_NAME. change (Z.of_nat 4) with 4. rewrite H5.
    pose proof (slice_splice_same _ _ _ _ E1) as E. rewrite length_le_bytes in E. change (Z.of_nat 4) with 4 in E. rewrite E.
    cbn [mbind option_bind]. rewrite le_value_le_bytes by done. destruct (Z.eqb_spec ino 0); [done|]. rewrite H7. cbn [mbind option_bind].
    replace (27 - length nm)%nat with (S (26 - length nm)) by lia. cbn [replicate]. by rewrite cname_app by (by apply gn_nonzero).
  - unfold de_type, ld, DIRENT_SIZE. change (Z.of_nat 1) with 1. rewrite H6.
    pose proof (slice_splice_same _ _ _ _ E2) as E. rewrite length_le_bytes in E. change (Z.of_nat 1) with 1 in E. by rewrite E.
  - eapply same_outside_trans; [eapply (same_outside_splice _ _ _ _ _ E1); rewrite ?length_le_bytes; lia|].
    eapply same_outside_trans; [eapply (same_outside_splice _ _ _ _ _ E2); rewrite ?length_le_bytes; lia|].
    eapply same_outside_trans; [eapply (same_outside_splice _ _ _ _ _ E3); rewrite ?length_replicate; lia|].
    eapply (same_outside_splice _ _ _ _ _ E4); lia.
Qed.

Lemma clear_dirent_spec dir slot :
  block_ok dir -> 0 <= slot < 16 ->
  exists dir', splice dir (DIRENT_SIZE * slot) (replicate (Z.to_nat DIRENT_SIZE) 0) = Some dir' /\ block_ok dir' /\
    dent dir' slot = None /\ same_outside dir dir' slot.
Proof.
  intros Hdir Hs. unfold DIRENT_SIZE. destruct (splice_ok dir (32 * slot) (replicate (Z.to_nat 32) 0)) as (d1 & E1 & Hd1);
    [done|apply bytes_ok_replicate; unfold in_u; lia|lia|rewrite length_replicate; lia|]. exists d1. split_and!; [done|done| |].
  - pose proof Hd1 as [Hl1 _].
    assert (Hsl : slice d1 (32 * slot) (Z.of_nat 4) = Some (take (Z.to_nat (Z.of_nat 4)) (drop (Z.to_nat (32 * slot)) d1))).
    { unfold slice. by rewrite (proj2 (in_buf_true _ _ _)) by lia. }
    unfold dent, de_ino, ld, DIRENT_SIZE. rewrite Hsl. cbn [mbind option_bind].
    assert (Hz : take (Z.to_nat (Z.of_nat 4)) (drop (Z.to_nat (32 * slot)) d1) = replicate 4 0).
    { apply list_eq. intros k. destruct (decide (k < 4)%nat).
      - rewrite lookup_take_lt, lookup_drop, (lookup_splice _ _ _ _ _ E1), length_replicate, decide_True by lia.
        rewrite !lookup_replicate_2 by lia. done.
      - rewrite lookup_take_ge by lia. symmetry. apply lookup_ge_None_2. rewrite length_replicate. lia. }
    by rewrite Hz.
  - eapply (same_outside_splice _ _ _ _ _ E1); rewrite ?length_replicate; lia.
Qed.

(** ** The volume as metadata and data *)

Record fsst := mk_fs {
  f_sb : list Z; f_ib : list Z; f_bb : list Z; f_dir : list Z;
  f_node : Z -> mcsfs1_inode_disk;
  f_dat : Z -> list Z
}.

Definition set_bm (st : fsst) (ib bb : list Z) : fsst := mk_fs (f_sb st) ib bb (f_dir st) (f_node st) (f_dat st).
Definition set_dir (st : fsst) (dir : list Z) : fsst := mk_fs (f_sb st) (f_ib st) (f_bb st) dir (f_node st) (f_dat st).
Definition set_node (st : fsst) (ino : Z) (nd : mcsfs1_inode_disk) : fsst :=
  mk_fs (f_sb st) (f_ib st) (f_bb st) (f_dir st) (fun j => if decide (j = ino) then nd else f_node st j) (f_dat st).
Definition set_dat (st : fsst) (b : Z) (blk : list Z) : fsst :=
  mk_fs (f_sb st) (f_ib st) (f_bb st) (f_dir st) (f_node st) (fun j => if decide (j = b) then blk else f_dat st j).

Section rep.
Context {D : Type} (dev : mcsfs1_blkdev D) (ok : D -> Prop) (view : D -> list (list Z)).
Context `{Hdisk : !Disk dev ok view} (Hcount : 16 <= block_count dev <= 4096).
Local Abbreviation holds := (holds ok view).
Local Abbreviation vol := (vol dev).

Record rep (V : list (list Z)) (st : fsst) : Prop := {
  p_vol : vol V;
  p_sb : V !! 0%nat = Some (f_sb st);
  p_ib : V !! 1%nat = Some (f_ib st);
  p_bb : V !! 2%nat = Some (f_bb st);
  p_dir : V !! 7%nat = Some (f_dir st);
  p_node : forall ino, 1 <= ino <= 32 -> get_inode V ino = Some (f_node st ino);
  p_dat : forall b, 8 <= b < block_count dev -> V !! Z.to_nat b = Some (f_dat st b)
}.

Lemma rep_block V st (l : nat) b : rep V st -> V !! l = Some b -> block_ok b.
Proof. intros H Hl. destruct (p_vol _ _ H) as [_ Hb]. exact (Forall_lookup_1 _ _ _ _ Hb Hl). Qed.

Lemma rep_node_wf V st ino : rep V st -> 1 <= ino <= 32 -> wf_inode (f_node st ino).
Proof.
  intros H Hi. destruct (get_inode_Some dev Hcount V ino (p_vol _ _ H) Hi) as (b & raw & nd & Hb & _ & Hr & Hn & Hwf).
  pose proof (p_node _ _ H ino Hi) as Hg. unfold get_inode in Hg. rewrite Hb in Hg. cbn in Hg. rewrite Hr in Hg. cbn in Hg.
  rewrite Hn in Hg. by injection Hg as <-.
Qed.

Lemma rep_exists V : vol V -> exists st, rep V st.
Proof.
  intros HV. destruct (vol_get dev V 0 HV) as (b0 & H0 & _); [lia|]. destruct (vol_get dev V 1 HV) as (b1 & H1 & _); [lia|].
  destruct (vol_get dev V 2 HV) as (b2 & H2 & _); [lia|]. destruct (vol_get dev V 7 HV) as (b7 & H7 & _); [lia|].
  exists (mk_fs b0 b1 b2 b7 (fun ino => default zero_inode (get_inode V ino)) (fun b => default [] (V !! Z.to_nat b))).
  split; try done.
  - intros ino Hi. destruct (get_inode_Some dev Hcount V ino HV Hi) as (b & raw & nd & Hb & _ & Hr & Hn & _).
    cbn [f_node]. unfold get_inode. rewrite Hb. cbn [mbind option_bind]. rewrite Hr. cbn [mbind option_bind]. by rewrite Hn.
  - intros b Hb. destruct (vol_get dev V b HV) as (x & Hx & _); [lia|]. cbn [f_dat]. by rewrite Hx.
Qed.

(** Writing a block outside the inode table. *)
Lemma get_inode_other V (l : nat) b ino : (l < 3 \/ 7 <= l)%nat -> 1 <= ino <= 32 -> get_inode (<[l := b]> V) ino = get_inode V ino.
Proof. intros Hl Hi. destruct (inode_pos ino Hi). unfold get_inode. by rewrite list_lookup_insert_ne by lia. Qed.

Lemma rep_len V st : rep V st -> (8 < length V)%nat.
Proof. intros H. destruct (p_vol _ _ H) as [Hl _]. lia. Qed.

Lemma holds_load_bmaps V st : rep V st -> holds (load_bmaps (Some dev)) V (inr (f_ib st, f_bb st)) V.
Proof.
  intros H. unfold load_bmaps. eapply holds_bind; [apply (holds_read dev ok view); [unfold MCSFS1_INODE_BMAP_LBA; lia|apply (p_ib _ _ H)]|].
  eapply holds_bind; [apply (holds_read dev ok view); [unfold MCSFS1_BLOCK_BMAP_LBA; lia|apply (p_bb _ _ H)]|]. apply holds_ret.
Qed.

Lemma holds_store_bmaps V st ib bb : rep V st -> block_ok ib -> block_ok bb ->
  exists V', holds (store_bmaps (Some dev) ib bb) V (inr tt) V' /\ rep V' (set_bm st ib bb).
Proof.
  intros H Hib Hbb. eexists. split.
  - unfold store_bmaps. eapply holds_bind; [apply (holds_write dev ok view); [unfold MCSFS1_INODE_BMAP_LBA; lia|done]|].
    apply (holds_write dev ok view); [unfold MCSFS1_BLOCK_BMAP_LBA; lia|done].
  - pose proof (rep_len _ _ H). change (Z.to_nat MCSFS1_INODE_BMAP_LBA) with 1%nat. change (Z.to_nat MCSFS1_BLOCK_BMAP_LBA) with 2%nat.
    destruct H. split; cbn [set_bm f_sb f_ib f_bb f_dir f_node f_dat].
    + by repeat apply vol_write.
    + by rewrite !list_lookup_insert_ne by lia.
    + rewrite list_lookup_insert_ne by lia. by rewrite list_lookup_insert_eq by lia.
    + rewrite list_lookup_insert_eq; [done|]. rewrite length_insert. lia.
    + by rewrite !list_lookup_insert_ne by lia.
    + intros ino Hi. rewrite !get_inode_other by lia. auto.
    + intros b Hb. rewrite !list_lookup_insert_ne by lia. auto.
Qed.

Lemma holds_read_dir V st : rep V st -> holds (dev_read (Some dev) MCSFS1_ROOT_DIR_LBA) V (inr (f_dir st)) V.
Proof. intros H. apply (holds_read dev ok view); [unfold MCSFS1_ROOT_DIR_LBA; lia|apply (p_dir _ _ H)]. Qed.

Lemma holds_write_dir V st dir : rep V st -> block_ok dir ->
  exists V', holds (dev_write (Some dev) MCSFS1_ROOT_DIR_LBA dir) V (inr tt) V' /\ rep V' (set_dir st dir).
Proof.
  intros H Hd. eexists. split; [apply (holds_write dev ok view); [unfold MCSFS1_ROOT_DIR_LBA; lia|done]|].
  change (Z.to_nat MCSFS1_ROOT_DIR_LBA) with 7%nat. pose proof (rep_len _ _ H). destruct H.
  split; cbn [set_dir f_sb f_ib f_bb f_dir f_node f_dat].
  - by apply vol_write.
  - by rewrite !list_lookup_insert_ne by lia.
  - by rewrite !list_lookup_insert_ne by lia.
  - by rewrite !list_lookup_insert_ne by lia.
  - by rewrite list_lookup_insert_eq by lia.
  - intros ino Hi. rewrite !get_inode_other by lia. auto.
  - intros b Hb. rewrite !list_lookup_insert_ne by lia. auto.
Qed.

Lemma holds_get_node V st ino : rep V st -> 1 <= ino <= 32 -> holds (read_inode (Some dev) ino) V (inr (f_node st ino)) V.
Proof. intros H Hi. eapply holds_read_inode; [done|done|apply (p_vol _ _ H)|done|by apply (p_node _ _ H)]. Qed.

Lemma holds_put_node V st ino nd : rep V st -> 1 <= ino <= 32 -> wf_inode nd ->
  exists V', holds (write_inode (Some dev) ino nd) V (inr tt) V' /\ rep V' (set_node st ino nd).
Proof.
  intros H Hi Hnd. destruct (holds_write_inode dev ok view Hcount V ino nd (p_vol _ _ H) Hi Hnd) as (V' & Hw & HV' & Hg & Ho).
  exists V'. split; [done|]. destruct H. split; cbn [set_node f_sb f_ib f_bb f_dir f_node f_dat]; try (rewrite ?Ho by lia; done).
  - intros j Hj. rewrite Hg by done. case_decide; [done|]. auto.
  - intros b Hb. rewrite Ho by lia. auto.
Qed.

Lemma holds_get_dat V st b : rep V st -> 8 <= b < block_count dev -> holds (dev_read (Some dev) b) V (inr (f_dat st b)) V.
Proof. intros H Hb. apply (holds_read dev ok view); [lia|by apply (p_dat _ _ H)]. Qed.

Lemma holds_put_dat V st b blk : rep V st -> 8 <= b < block_count dev -> block_ok blk ->
  exists V', holds (dev_write (Some dev) b blk) V (inr tt) V' /\ rep V' (set_dat st b blk).
Proof.
  intros H Hb Hok. eexists. split; [apply (holds_write dev ok view); [lia|done]|]. destruct (p_vol _ _ H) as [Hl _]. destruct H.
  split; cbn [set_dat f_sb f_ib f_bb f_dir f_node f_dat].
  - by apply vol_write.
  - by rewrite !list_lookup_insert_ne by lia.
  - by rewrite !list_lookup_insert_ne by lia.
  - by rewrite !list_lookup_insert_ne by lia.
  - by rewrite !list_lookup_insert_ne by lia.
  - intros ino Hi. rewrite !get_inode_other by lia. auto.
  - intros b' Hb'. case_decide; [subst; by rewrite list_lookup_insert_eq by lia|]. rewrite list_lookup_insert_ne by lia. auto.
Qed.

End rep.

(** ** Well-formed volumes *)

Definition has (st : fsst) (i ino : Z) (nm : list Z) : Prop :=
  0 <= i < 16 /\ dent (f_dir st) i = Some (ino, nm).

(** Blocks in use by a file of a given size. *)
Definition nblocks (size : Z) : Z := if size =? 0 then 1 else (size + 511) / 512.

Record node_ok (count : Z) (bb : list Z) (nd : mcsfs1_inode_disk) : Prop := {
  no_wf : wf_inode nd;
  no_mode : i_mode nd = MCSFS1_MODE_FILE;
  no_size : i_size nd <= 4096;
  no_block : forall (j : nat) b, i_direct nd !! j = Some b -> b <> 0 -> 8 <= b < count /\ bm_test bb b = true;
  no_used : forall (j : nat), Z.of_nat j < nblocks (i_size nd) -> i_direct nd !! j <> Some 0
}.

Record ent_ok (count : Z) (st : fsst) (i ino : Z) (nm : list Z) : Prop := {
  eo_ino : 2 <= ino <= 32;
  eo_name : good_name nm;
  eo_type : de_type (f_dir st) i = Some MCSFS1_MODE_FILE;
  eo_bit : bm_test (f_ib st) ino = true;
  eo_node : node_ok count (f_bb st) (f_node st ino)
}.

Record inv (count : Z) (st : fsst) : Prop := {
  in_super : super_fields_ok (f_sb st) count = Some true;
  in_root : bad_root (f_node st 1) = Some false;
  in_ib : bm_test (f_ib st) 1 = true;
  in_bb : forall j, 0 <= j < 8 -> bm_test (f_bb st) j = true;
  in_ent : forall i ino nm, has st i ino nm -> ent_ok count st i ino nm;
  in_name : forall i j ino ino' nm, has st i ino nm -> has st j ino' nm -> i = j;
  in_ino : forall i j ino nm nm', has st i ino nm -> has st j ino nm' -> i = j;
  in_own : forall i i' ino ino' nm nm' (j j' : nat) b, has st i ino nm -> has st i' ino' nm' ->
    i_direct (f_node st ino) !! j = Some b -> i_direct (f_node st ino') !! j' = Some b -> b <> 0 ->
    ino = ino' /\ j = j'
}.

(** The bytes of a file. *)
Definition contents (st : fsst) (nd : mcsfs1_inode_disk) : list Z :=
  take (Z.to_nat (i_size nd)) (concat (map (f_dat st) (take (Z.to_nat (nblocks (i_size nd))) (i_direct nd)))).

Definition files_rel (st : fsst) (F : gmap (list Z) (list Z)) : Prop :=
  forall nm c, F !! nm = Some c <-> exists i ino, has st i ino nm /\ c = contents st (f_node st ino).

Lemma files_none st F nm : files_rel st F -> F !! nm = None <-> forall i ino, ~ has st i ino nm.
Proof.
  intros H. split.
  - intros Hn i ino Hh. assert (F !! nm = Some (contents st (f_node st ino))) as Hs by (apply H; eauto). congruence.
  - intros Hn. apply eq_None_not_Some. intros [c Hc]. apply H in Hc as (i & ino & Hh & _). by eapply Hn.
Qed.

Lemma files_some st F i ino nm count : inv count st -> files_rel st F -> has st i ino nm ->
  F !! nm = Some (contents st (f_node st ino)).
Proof. intros Hi H Hh. apply H. eauto. Qed.

(** ** Names *)

(** The error a name gets before anything else happens. *)
Definition name_err (nm : list Z) : option Z :=
  if Z.of_nat (length nm) =? 0 then Some MCSFS1_ERR_INVAL
  else if 27 <? Z.of_nat (length nm) then Some MCSFS1_ERR_NAMETOOLONG
  else if existsb (fun c => c =? SLASH) nm then Some MCSFS1_ERR_INVAL else None.

(** A string a caller may pass: bytes, none of them NUL, and not exactly as
    long as the name field of an entry. *)
Record str_ok (nm : list Z) : Prop := {
  so_chars : Forall (fun c => c <> 0) nm;
  so_bytes : bytes_ok nm;
  so_len : length nm <> 27%nat
}.

Lemma name_good nm : str_ok nm -> name_err nm = None -> good_name nm.
Proof.
  intros [Hc Hb Hl]. unfold name_err. destruct (Z.eqb_spec (Z.of_nat (length nm)) 0); [done|].
  destruct (Z.ltb_spec 27 (Z.of_nat (length nm))); [done|]. destruct (existsb _ nm) eqn:E; [done|]. intros _. split; [lia| |done].
  clear -Hc E. induction Hc as [|c nm Hc _ IH]; [constructor|]. cbn in E. apply orb_false_iff in E as [E1%Z.eqb_neq E2].
  constructor; auto.
Qed.

Lemma strlen_bound_long nm r max : Forall (fun c => c <> 0) nm -> (max <= length nm)%nat -> strlen_bound (nm ++ r) max = Some (Z.of_nat max).
Proof.
  intros H. revert max. induction H as [|c nm Hc _ IH]; intros max Hm; (destruct max as [|max]; [done|]); [simpl in Hm; lia|].
  cbn [app strlen_bound head hd_error mbind option_bind tail]. destruct (Z.eqb_spec c 0); [done|].
  rewrite IH by (simpl in Hm; lia). cbn. f_equal. lia.
Qed.

Section names.
Context {D : Type} (ok : D -> Prop) (view : D -> list (list Z)).

Lemma holds_valid_name V nm rest : str_ok nm ->
  holds ok view (valid_name (Some (nm ++ 0 :: rest))) V
    (match name_err nm with Some e => inl e | None => inr (Z.of_nat (length nm)) end) V.
Proof.
  intros [Hc Hb Hl]. unfold valid_name, name_err. cbn [mcsfs_strlen_bound]. change (Z.to_nat (MCSFS1_MAX_NAME + 1)) with 28%nat.
  destruct (decide (length nm < 28)%nat) as [Hs|Hs].
  - eapply holds_bind_lift; [by apply strlen_bound_app|].
    destruct (Z.eqb_spec (Z.of_nat (length nm)) 0); [apply holds_err|]. unfold MCSFS1_MAX_NAME.
    destruct (Z.ltb_spec 27 (Z.of_nat (length nm))); [lia|]. cbn [default from_option id]. rewrite Nat2Z.id, take_app_length.
    destruct (existsb _ nm); [apply holds_err|apply holds_ret].
  - eapply holds_bind_lift; [apply strlen_bound_long; [done|lia]|].
    destruct (Z.eqb_spec (Z.of_nat (length nm)) 0); [lia|]. unfold MCSFS1_MAX_NAME.
    destruct (Z.ltb_spec 27 (Z.of_nat (length nm))); [|lia]. apply holds_err.
Qed.

End names.

(** ** A new file, on the level of the metadata *)

Section new_file.
Context (count : Z) (st : fsst) (F : gmap (list Z) (list Z)) (Hinv : inv count st) (HF : files_rel st F).
Context (slot ino lba : Z) (nm ib bb dir : list Z).
Context (Hslot : 0 <= slot < 16) (Hfree : dent (f_dir st) slot = None) (Hnm : good_name nm).
Context (Hnew : forall i n, ~ has st i n nm).
Context (Hino : 2 <= ino <= 32) (Hib : bm_test (f_ib st) ino = false).
Context (Hlba : 8 <= lba < count) (Hlba32 : lba < 2 ^ 32) (Hbb : bm_test (f_bb st) lba = false).
Context (Tib : forall j, 0 <= j -> bm_test ib j = bool_decide (ino = j) || bm_test (f_ib st) j).
Context (Tbb : forall j, 0 <= j -> bm_test bb j = bool_decide (lba = j) || bm_test (f_bb st) j).
Context (Hde : dent dir slot = Some (ino, nm)) (Hty : de_type dir slot = Some MCSFS1_MODE_FILE).
Context (Hout : same_outside (f_dir st) dir slot).

Let nd := new_file_inode lba.
Let st' := set_dir (set_node (set_bm st ib bb) ino nd) dir.

Lemma new_has j n x : has st' j n x <-> (j = slot /\ n = ino /\ x = nm) \/ (j <> slot /\ has st j n x).
Proof.
  unfold has, st'. cbn [set_dir f_dir]. destruct (decide (j = slot)) as [->|Hne].
  - rewrite Hde. naive_solver.
  - split.
    + intros [Hj Hd]. destruct (same_outside_entry _ _ _ j Hout) as (_ & _ & E); [lia|done|]. rewrite E in Hd. auto.
    + intros [(? & _)|(_ & Hj & Hd)]; [done|]. split; [done|].
      destruct (same_outside_entry _ _ _ j Hout) as (_ & _ & ->); [lia|done|done].
Qed.

Lemma old_ino j n x : has st j n x -> n <> ino.
Proof. intros H ->. pose proof (eo_bit _ _ _ _ _ (in_ent _ _ Hinv _ _ _ H)). congruence. Qed.

Lemma old_node j n x : has st j n x -> f_node st' n = f_node st n.
Proof. intros H. unfold st'. cbn. by rewrite decide_False by (by eapply old_ino). Qed.

Lemma new_node_eq : f_node st' ino = nd.
Proof. unfold st'. cbn. by rewrite decide_True. Qed.

Lemma new_direct (j : nat) b : i_direct nd !! j = Some b -> b <> 0 -> j = 0%nat /\ b = lba.
Proof. unfold nd. cbn. intros Hj Hb. do 8 (destruct j as [|j]; [cbn in Hj; naive_solver|]). done. Qed.

Lemma old_block i n x (j : nat) b : has st i n x -> i_direct (f_node st n) !! j = Some b -> b <> 0 -> b <> lba.
Proof.
  intros H Hj Hb ->. destruct (no_block _ _ _ (eo_node _ _ _ _ _ (in_ent _ _ Hinv _ _ _ H)) _ _ Hj Hb). congruence.
Qed.

Lemma new_inv : inv count st'.
Proof.
  split.
  - apply Hinv.
  - unfold st'. cbn [set_dir set_node f_node]. rewrite decide_False by lia. apply Hinv.
  - change (f_ib st') with ib. rewrite Tib by lia. rewrite (in_ib _ _ Hinv). by rewrite orb_true_r.
  - intros j Hj. change (f_bb st') with bb. rewrite Tbb by lia. rewrite (in_bb _ _ Hinv) by done. by rewrite orb_true_r.
  - intros i n x [(-> & -> & ->)|[Hne H]]%new_has.
    + split; [done|done|done| |].
      * change (f_ib st') with ib. rewrite Tib by lia. by rewrite bool_decide_true.
      * rewrite new_node_eq. change (f_bb st') with bb. split.
        -- unfold nd, new_file_inode. split; cbn; try (unfold in_u, MCSFS1_MODE_FILE; lia).
           ++ split; [done|]. repeat (constructor; [unfold in_u; lia|]). constructor.
           ++ split; [done|]. repeat (constructor; [unfold in_u; lia|]). constructor.
        -- done.
        -- cbn. lia.
        -- intros j b Hj Hb. destruct (new_direct j b Hj Hb) as [_ ->]. split; [done|]. rewrite Tbb by lia. by rewrite bool_decide_true.
        -- intros j Hj. change (nblocks (i_size nd)) with 1 in Hj. assert (j = 0%nat) as -> by lia. cbn. intros [= E]. lia.
    + destruct (in_ent _ _ Hinv _ _ _ H) as [E1 E2 E3 E4 [N1 N2 N3 N4 N5]]. split; [done|done| | |].
      * unfold st'. cbn [set_dir f_dir]. destruct H as [Hi _]. destruct (same_outside_entry _ _ _ i Hout) as (_ & -> & _); [lia|done|done].
      * change (f_ib st') with ib. rewrite Tib, E4 by lia. by rewrite orb_true_r.
      * rewrite (old_node _ _ _ H). change (f_bb st') with bb. split; try done.
        intros j b Hj Hb. destruct (N4 j b Hj Hb) as [? Ht]. split; [done|]. rewrite Tbb, Ht by lia. by rewrite orb_true_r.
  - intros i j n n' x [(-> & -> & ->)|[Hne H]]%new_has [(-> & -> & E)|[Hne' H']]%new_has; [done|by destruct (Hnew _ _ H')| |].
    + subst x. by destruct (Hnew _ _ H).
    + by apply (in_name _ _ Hinv i j n n' x).
  - intros i j n x x' [(-> & -> & ->)|[Hne H]]%new_has [(-> & E & E')|[Hne' H']]%new_has; [done|by destruct (old_ino _ _ _ H')| |].
    + subst n. by destruct (old_ino _ _ _ H).
    + by apply (in_ino _ _ Hinv i j n x x').
  - intros i i' n n' x x' j j' b [(-> & -> & ->)|[Hne H]]%new_has [(-> & -> & ->)|[Hne' H']]%new_has Hj Hj' Hb.
    + split; [done|]. rewrite new_node_eq in Hj, Hj'. destruct (new_direct _ _ Hj Hb), (new_direct _ _ Hj' Hb). congruence.
    + rewrite new_node_eq in Hj. rewrite (old_node _ _ _ H') in Hj'. destruct (new_direct _ _ Hj Hb) as [_ ->]. by destruct (old_block _ _ _ _ _ H' Hj' Hb).
    + rewrite new_node_eq in Hj'. rewrite (old_node _ _ _ H) in Hj. destruct (new_direct _ _ Hj' Hb) as [_ ->]. by destruct (old_block _ _ _ _ _ H Hj Hb).
    + rewrite (old_node _ _ _ H) in Hj. rewrite (old_node _ _ _ H') in Hj'. by apply (in_own _ _ Hinv i i' n n' x x' j j' b).
Qed.

Lemma new_files : files_rel st' (<[nm := []]> F).
Proof.
  intros x c. rewrite lookup_insert_Some. split.
  - intros [[<- <-]|[Hne (i & n & H & ->)%HF]].
    + exists slot, ino. split; [apply new_has; auto|]. by rewrite new_node_eq.
    + exists i, n. split; [|by rewrite (old_node _ _ _ H)]. apply new_has. right. split; [|done].
      intros ->. destruct H as [_ H]. congruence.
  - intros (i & n & [(-> & -> & ->)|[Hne H]]%new_has & ->).
    + left. by rewrite new_node_eq.
    + right. split; [intros ->; by destruct (Hnew _ _ H)|]. apply HF. exists i, n. by rewrite (old_node _ _ _ H).
Qed.

End new_file.

(** ** Removing a file *)

(** No directory slot, inode or data block is left. *)
Definition full (count : Z) (st : fsst) : Prop :=
  (forall i, 0 <= i < 16 -> dent (f_dir st) i <> None) \/
  (forall ino, 2 <= ino <= 32 -> bm_test (f_ib st) ino = true) \/
  (forall b, 8 <= b < count -> bm_test (f_bb st) b = true).

Section remove_file.
Context (count : Z) (st : fsst) (F : gmap (list Z) (list Z)) (Hinv : inv count st) (HF : files_rel st F).
Context (slot ino : Z) (nm ib bb dir : list Z) (Hhas : has st slot ino nm).
Context (Tib : forall j, 0 <= j -> bm_test ib j = negb (bool_decide (ino = j)) && bm_test (f_ib st) j).
Context (Tbb : forall j, 0 <= j ->
  bm_test bb j = negb (bool_decide (j <> 0 /\ j ∈ i_direct (f_node st ino) /\ j < count)) && bm_test (f_bb st) j).
Context (Hde : dent dir slot = None) (Hout : same_outside (f_dir st) dir slot).

Let st' := set_node (set_bm (set_dir st dir) ib bb) ino zero_inode.

Lemma rem_has j n x : has st' j n x <-> j <> slot /\ has st j n x.
Proof.
  unfold has, st'. cbn [set_node set_bm set_dir f_dir]. destruct (decide (j = slot)) as [->|Hne].
  - rewrite Hde. naive_solver.
  - split.
    + intros [Hj Hd]. destruct (same_outside_entry _ _ _ j Hout) as (_ & _ & E); [lia|done|]. rewrite E in Hd. auto.
    + intros (_ & Hj & Hd). split; [done|]. destruct (same_outside_entry _ _ _ j Hout) as (_ & _ & ->); [lia|done|done].
Qed.

Lemma rem_ino j n x : j <> slot -> has st j n x -> n <> ino.
Proof. intros Hne H ->. by apply Hne, (in_ino _ _ Hinv j slot ino x nm). Qed.

Lemma rem_node j n x : j <> slot -> has st j n x -> f_node st' n = f_node st n.
Proof. intros Hne H. unfold st'. cbn. by rewrite decide_False by (by eapply rem_ino). Qed.

Lemma rem_inv : inv count st'.
Proof.
  pose proof (in_ent _ _ Hinv _ _ _ Hhas) as Heo. pose proof (eo_ino _ _ _ _ _ Heo) as Hi.
  split.
  - apply Hinv.
  - unfold st'. cbn [set_node f_node set_bm set_dir]. rewrite decide_False by lia. apply Hinv.
  - change (f_ib st') with ib. rewrite Tib, (in_ib _ _ Hinv) by lia. by rewrite bool_decide_false by lia.
  - intros j Hj. change (f_bb st') with bb. rewrite Tbb, (in_bb _ _ Hinv) by lia.
    rewrite bool_decide_false; [done|]. intros (Hj0 & [k Hk]%list_elem_of_lookup & _).
    destruct (no_block _ _ _ (eo_node _ _ _ _ _ Heo) _ _ Hk Hj0). lia.
  - intros i n x [Hne H]%rem_has. destruct (in_ent _ _ Hinv _ _ _ H) as [E1 E2 E3 E4 [N1 N2 N3 N4 N5]]. split; [done|done| | |].
    + unfold st'. cbn [set_node set_bm set_dir f_dir]. pose proof H as [Hir _].
      destruct (same_outside_entry _ _ _ i Hout) as (_ & -> & _); [lia|done|done].
    + change (f_ib st') with ib. rewrite Tib, E4 by lia. rewrite bool_decide_false; [done|]. intros <-. by eapply rem_ino.
    + rewrite (rem_node _ _ _ Hne H). change (f_bb st') with bb. split; try done.
      intros j b Hj Hb. destruct (N4 j b Hj Hb) as [? Ht]. split; [done|]. rewrite Tbb, Ht by lia.
      rewrite bool_decide_false; [done|]. intros (_ & [k Hk]%list_elem_of_lookup & _).
      destruct (in_own _ _ Hinv _ _ _ _ _ _ _ _ _ H Hhas Hj Hk Hb) as [-> _]. by eapply rem_ino.
  - intros i j n n' x [_ H]%rem_has [_ H']%rem_has. by apply (in_name _ _ Hinv i j n n' x).
  - intros i j n x x' [_ H]%rem_has [_ H']%rem_has. by apply (in_ino _ _ Hinv i j n x x').
  - intros i i' n n' x x' j j' b [Hn1 H]%rem_has [Hn2 H']%rem_has Hj Hj' Hb.
    rewrite (rem_node _ _ _ Hn1 H) in Hj. rewrite (rem_node _ _ _ Hn2 H') in Hj'. by apply (in_own _ _ Hinv i i' n n' x x' j j' b).
Qed.

Lemma rem_files : files_rel st' (delete nm F).
Proof.
  intros x c. rewrite lookup_delete_Some. split.
  - intros [Hne (i & n & H & ->)%HF]. assert (i <> slot).
    { intros ->. destruct H as [_ H], Hhas as [_ H2]. naive_solver. }
    exists i, n. split; [by apply rem_has|]. by rewrite (rem_node i n x).
  - intros (i & n & [Hne H]%rem_has & ->). split.
    + intros <-. by apply Hne, (in_name _ _ Hinv i slot n ino nm).
    + apply HF. exists i, n. by rewrite (rem_node i n x).
Qed.

(** The slot, the inode and the first data block are free afterwards. *)
Lemma rem_room : ~ full count st'.
Proof.
  pose proof (in_ent _ _ Hinv _ _ _ Hhas) as Heo. pose proof (eo_ino _ _ _ _ _ Heo) as Hi. pose proof Hhas as [Hs _].
  pose proof (eo_node _ _ _ _ _ Heo) as Hno. destruct (wi_direct _ (no_wf _ _ _ Hno)) as [Hl _].
  destruct (lookup_lt_is_Some_2 (i_direct (f_node st ino)) 0) as [b Hb]; [lia|].
  assert (Hb0 : b <> 0).
  { intros ->. apply (no_used _ _ _ Hno 0%nat); [|done]. destruct (wi_size _ (no_wf _ _ _ Hno)) as [H0 _].
    unfold nblocks. destruct (Z.eqb_spec (i_size (f_node st ino)) 0); zdm. }
  destruct (no_block _ _ _ Hno _ _ Hb Hb0) as [Hr _]. intros [Hf|[Hf|Hf]].
  - by apply (Hf slot Hs).
  - specialize (Hf ino Hi). change (f_ib st') with ib in Hf. rewrite Tib, bool_decide_true in Hf by (done || lia). done.
  - specialize (Hf b Hr). change (f_bb st') with bb in Hf. rewrite Tbb in Hf by lia.
    rewrite bool_decide_true in Hf; [done|]. split_and!; [done|by eapply list_elem_of_lookup_2|lia].
Qed.

End remove_file.

(** ** Rewriting a file *)

Section rewrite_file.
Context (count : Z) (st : fsst) (F : gmap (list Z) (list Z)) (Hinv : inv count st) (HF : files_rel st F).
Context (slot ino : Z) (nm : list Z) (Hhas : has st slot ino nm).
Context (bb direct bs : list Z) (dat : Z -> list Z).
Let old := f_node st ino.
Let nd := mk_inode (i_mode old) (i_links old) (Z.of_nat (length bs)) direct (i_reserved old).
Let st' := mk_fs (f_sb st) (f_ib st) bb (f_dir st) (fun j => if decide (j = ino) then nd else f_node st j) dat.

Context (Hlen : Z.of_nat (length bs) <= 4096).
Context (Hdl : length direct = 8%nat) (Hd32 : Forall (in_u 32) direct).
Context (Hfrom : forall (j : nat) b, direct !! j = Some b -> b <> 0 ->
  i_direct old !! j = Some b \/ (8 <= b < count /\ bm_test (f_bb st) b = false)).
Context (Hset : forall (j : nat) b, direct !! j = Some b -> b <> 0 -> bm_test bb b = true).
Context (Hmono : forall x, 0 <= x -> bm_test (f_bb st) x = true -> bm_test bb x = true).
Context (Hinj : forall (j j' : nat) b, direct !! j = Some b -> direct !! j' = Some b -> b <> 0 -> j = j').
Context (Hall : forall (j : nat), Z.of_nat j < nblocks (Z.of_nat (length bs)) -> direct !! j <> Some 0).
Context (Hdat : forall b, b <> 0 -> b ∉ direct -> dat b = f_dat st b).
Context (Hbs : take (length bs) (concat (map dat (take (Z.to_nat (nblocks (Z.of_nat (length bs)))) direct))) = bs).

Lemma rw_has j n x : has st' j n x <-> has st j n x.
Proof. done. Qed.

Lemma rw_node j n x : has st j n x -> j <> slot -> f_node st' n = f_node st n /\ n <> ino.
Proof.
  intros H Hne. assert (n <> ino) by (intros ->; by apply Hne, (in_ino _ _ Hinv j slot ino x nm)).
  split; [|done]. unfold st'. cbn. by rewrite decide_False.
Qed.

Lemma rw_new : f_node st' ino = nd.
Proof. unfold st'. cbn. by rewrite decide_True. Qed.

(** No block of another file is a block of this one. *)
Lemma rw_other i n x (j : nat) b : has st i n x -> i <> slot -> i_direct (f_node st n) !! j = Some b -> b <> 0 -> b ∉ direct.
Proof.
  intros H Hne Hj Hb [k Hk]%list_elem_of_lookup. destruct (Hfrom k b Hk Hb) as [Ho|[_ Hf]].
  - destruct (in_own _ _ Hinv _ _ _ _ _ _ _ _ _ H Hhas Hj Ho Hb) as [-> _]. by destruct (rw_node _ _ _ H Hne).
  - destruct (no_block _ _ _ (eo_node _ _ _ _ _ (in_ent _ _ Hinv _ _ _ H)) _ _ Hj Hb). congruence.
Qed.

Lemma rw_inv : inv count st'.
Proof.
  pose proof (in_ent _ _ Hinv _ _ _ Hhas) as Heo. pose proof (eo_ino _ _ _ _ _ Heo) as Hi. destruct (eo_node _ _ _ _ _ Heo) as [O1 O2 O3 O4 O5].
  split.
  - apply Hinv.
  - unfold st'. cbn [f_node]. rewrite decide_False by lia. apply Hinv.
  - apply Hinv.
  - intros j Hj. apply Hmono; [lia|by apply (in_bb _ _ Hinv)].
  - intros i n x H. pose proof (in_ent _ _ Hinv _ _ _ H) as [E1 E2 E3 E4 [N1 N2 N3 N4 N5]]. split; try done.
    change (f_bb st') with bb. destruct (decide (i = slot)) as [->|Hne].
    + assert (n = ino) as -> by (destruct H as [_ H], Hhas as [_ H']; naive_solver). rewrite rw_new. split; cbn [nd i_mode i_size i_direct]; try done.
      * destruct O1. split; cbn; try done. unfold in_u. lia.
      * intros j b Hj Hb. split; [|by eapply Hset]. destruct (Hfrom j b Hj Hb) as [Ho|[? _]]; [by apply (O4 j b)|done].
    + destruct (rw_node _ _ _ H Hne) as [-> _]. split; try done. intros j b Hj Hb. destruct (N4 j b Hj Hb). split; [done|]. apply Hmono; [lia|done].
  - apply (in_name _ _ Hinv).
  - apply (in_ino _ _ Hinv).
  - intros i i' n n' x x' j j' b H H' Hj Hj' Hb. destruct (decide (i = slot)) as [->|Hne], (decide (i' = slot)) as [->|Hne'].
    + assert (n = ino) as -> by (destruct H as [_ H], Hhas as [_ H2]; naive_solver).
      assert (n' = ino) as -> by (destruct H' as [_ H'], Hhas as [_ H2]; naive_solver). rewrite rw_new in Hj, Hj'.
      split; [done|]. by apply (Hinj j j' b).
    + assert (n = ino) as -> by (destruct H as [_ H], Hhas as [_ H2]; naive_solver). rewrite rw_new in Hj.
      destruct (rw_node _ _ _ H' Hne') as [E _]. rewrite E in Hj'. destruct (rw_other _ _ _ _ _ H' Hne' Hj' Hb).
      apply list_elem_of_lookup. by exists j.
    + assert (n' = ino) as -> by (destruct H' as [_ H'], Hhas as [_ H2]; naive_solver). rewrite rw_new in Hj'.
      destruct (rw_node _ _ _ H Hne) as [E _]. rewrite E in Hj. destruct (rw_other _ _ _ _ _ H Hne Hj Hb).
      apply list_elem_of_lookup. by exists j'.
    + destruct (rw_node _ _ _ H Hne) as [E _], (rw_node _ _ _ H' Hne') as [E' _]. rewrite E in Hj. rewrite E' in Hj'.
      by apply (in_own _ _ Hinv i i' n n' x x' j j' b).
Qed.

Lemma rw_contents i n x : has st i n x -> i <> slot -> contents st' (f_node st' n) = contents st (f_node st n).
Proof.
  intros H Hne. destruct (rw_node _ _ _ H Hne) as [-> _]. pose proof (in_ent _ _ Hinv _ _ _ H) as Heo.
  unfold contents. do 2 f_equal. apply map_ext_in. intros b [k Hk]%list_elem_of_In%list_elem_of_lookup.
  apply lookup_take_Some in Hk as [Hk Hlt]. change (f_dat st') with dat.
  assert (Hb : b <> 0). { intros ->. eapply (no_used _ _ _ (eo_node _ _ _ _ _ Heo)); [|exact Hk]. lia. }
  apply Hdat; [done|]. by eapply rw_other.
Qed.

Lemma rw_files : files_rel st' (<[nm := bs]> F).
Proof.
  intros x c. rewrite lookup_insert_Some. split.
  - intros [[<- <-]|[Hne (i & n & H & ->)%HF]].
    + exists slot, ino. split; [done|]. rewrite rw_new. unfold contents. cbn [nd i_size i_direct]. rewrite Nat2Z.id. symmetry. exact Hbs.
    + exists i, n. split; [done|]. symmetry. apply (rw_contents i n x H). intros ->. destruct H as [_ H], Hhas as [_ H']. naive_solver.
  - intros (i & n & H & ->). apply rw_has in H. destruct (decide (i = slot)) as [->|Hne].
    + left. assert (x = nm /\ n = ino) as [-> ->] by (destruct H as [_ H], Hhas as [_ H']; naive_solver). split; [done|].
      rewrite rw_new. unfold contents. cbn [nd i_size i_direct]. rewrite Nat2Z.id. symmetry. exact Hbs.
    + right. split; [intros <-; by apply Hne, (in_name _ _ Hinv i slot n ino nm)|]. apply HF. exists i, n. split; [done|]. by apply (rw_contents i n x).
Qed.

End rewrite_file.

(** ** The calls *)

Section calls.
Context {D : Type} (dev : mcsfs1_blkdev D) (ok : D -> Prop) (view : D -> list (list Z)).
Context `{Hdisk : !Disk dev ok view} (Hcount : 16 <= block_count dev <= 4096).
Local Abbreviation holds := (holds ok view).
Local Abbreviation rep := (rep dev).
Local Abbreviation inv := (inv (block_count dev)).

Definition mnt_of (dstart : Z) : mcsfs1_mount_t D := mk_mount (Some dev) (block_count dev) dstart.

Lemma st_entries st : inv st -> forall i, 0 <= i < 16 -> ok_entry (f_dir st) i.
Proof.
  intros H i Hi ino nm Hd. assert (Hh : has st i ino nm) by done.
  pose proof (gn_len _ (eo_name _ _ _ _ _ (in_ent _ _ H _ _ _ Hh))). lia.
Qed.

Lemma find_spec V st nm rest :
  rep V st -> inv st -> str_ok nm -> name_err nm = None ->
  ((forall i ino, ~ has st i ino nm) /\ holds (find_dirent (Some dev) (Some (nm ++ 0 :: rest))) V (inl MCSFS1_ERR_NOENT) V) \/
  exists i ino, has st i ino nm /\ holds (find_dirent (Some dev) (Some (nm ++ 0 :: rest))) V (inr (i, ino)) V.
Proof.
  intros Hrep Hinv Hstr Hne. pose proof (name_good nm Hstr Hne) as Hgood.
  pose proof (holds_valid_name ok view V nm rest Hstr) as Hv. rewrite Hne in Hv.
  assert (Hdir : block_ok (f_dir st)) by (eapply rep_block; [exact Hrep|apply (p_dir _ _ _ Hrep)]).
  destruct (dirent_scan_spec (f_dir st) nm rest Hdir Hgood (st_entries st Hinv) 16 0) as [[Hf Hall]|(k & ino & Hf & Hk & Hd)];
    [lia|lia| |].
  - left. split.
    + intros i ino [Hi Hd]. apply (Hall i); [lia|]. by rewrite Hd.
    + unfold find_dirent. eapply holds_bind; [exact Hv|]. eapply holds_bind; [by eapply holds_read_dir|].
      eapply holds_bind_lift; [exact Hf|]. apply holds_err.
  - right. exists k, ino. split; [split; [lia|done]|]. unfold find_dirent. eapply holds_bind; [exact Hv|].
    eapply holds_bind; [by eapply holds_read_dir|]. eapply holds_bind_lift; [exact Hf|]. apply holds_ret.
Qed.

(** A bad name is refused first. *)
Lemma find_bad_name V nm rest e : str_ok nm -> name_err nm = Some e ->
  holds (find_dirent (Some dev) (Some (nm ++ 0 :: rest))) V (inl e) V.
Proof.
  intros Hstr He. unfold find_dirent. apply holds_bind_err. pose proof (holds_valid_name ok view V nm rest Hstr) as Hv. by rewrite He in Hv.
Qed.

Lemma alloc_inode_block_spec V st : rep V st ->
  (full (block_count dev) st /\ holds (alloc_inode_block (Some dev)) V (inl MCSFS1_ERR_NOSPC) V) \/
  exists ino lba ib bb V', holds (alloc_inode_block (Some dev)) V (inr (ino, lba)) V' /\ rep V' (set_bm st ib bb) /\
    2 <= ino <= 32 /\ bm_test (f_ib st) ino = false /\ 8 <= lba < block_count dev /\ bm_test (f_bb st) lba = false /\
    (forall j, 0 <= j -> bm_test ib j = bool_decide (ino = j) || bm_test (f_ib st) j) /\
    (forall j, 0 <= j -> bm_test bb j = bool_decide (lba = j) || bm_test (f_bb st) j).
Proof.
  intros Hrep. assert (Hib : block_ok (f_ib st)) by (eapply rep_block; [exact Hrep|apply (p_ib _ _ _ Hrep)]).
  assert (Hbb : block_ok (f_bb st)) by (eapply rep_block; [exact Hrep|apply (p_bb _ _ _ Hrep)]).
  pose proof (holds_load_bmaps dev ok view Hcount V st Hrep) as Hload. unfold alloc_inode_block.
  destruct (find_clear_bit_spec (Z.to_nat (MCSFS1_MAX_INODES - 1)) 2 (f_ib st) Hib) as [[Hf Hall]|(ino & Hf & Hino & Hit)];
    [lia|unfold MCSFS1_MAX_INODES; lia| |].
  { left. split; [right; left; intros i Hi; apply Hall; unfold MCSFS1_MAX_INODES; lia|].
    eapply holds_bind; [exact Hload|]. eapply holds_bind_lift; [exact Hf|]. apply holds_err. }
  unfold MCSFS1_MAX_INODES in Hino.
  destruct (find_clear_bit_spec (Z.to_nat (block_count dev - MCSFS1_DATA_START_LBA)) MCSFS1_DATA_START_LBA (f_bb st) Hbb)
    as [[Hg Hall]|(lba & Hg & Hlba & Hbt)]; [unfold MCSFS1_DATA_START_LBA; lia|unfold MCSFS1_DATA_START_LBA; lia| |].
  { left. split; [right; right; intros i Hi; apply Hall; unfold MCSFS1_DATA_START_LBA; lia|].
    eapply holds_bind; [exact Hload|]. eapply holds_bind_lift; [exact Hf|]. destruct (Z.eqb_spec ino 0); [lia|].
    apply holds_count. eapply holds_bind_lift; [exact Hg|]. apply holds_err. }
  right. unfold MCSFS1_DATA_START_LBA in Hlba.
  destruct (bit_set_spec (f_ib st) ino Hib) as (ib & Eib & Hibok & Tib); [lia|].
  destruct (bit_set_spec (f_bb st) lba Hbb) as (bb & Ebb & Hbbok & Tbb); [lia|].
  destruct (holds_store_bmaps dev ok view Hcount V st ib bb Hrep Hibok Hbbok) as (V' & Hs & Hrep').
  exists ino, lba, ib, bb, V'. split_and!; try done; try lia.
  eapply holds_bind; [exact Hload|]. eapply holds_bind_lift; [exact Hf|]. destruct (Z.eqb_spec ino 0); [lia|].
  apply holds_count. eapply holds_bind_lift; [exact Hg|]. destruct (Z.eqb_spec lba 0); [lia|].
  eapply holds_bind_lift; [exact Eib|]. eapply holds_bind_lift; [exact Ebb|]. eapply holds_bind; [exact Hs|]. apply holds_ret.
Qed.

(** What a call does: it leaves a well-formed volume that represents [F']. *)
Definition leads {A} (m : em D A) (V : list (list Z)) (r : Z + A) (F' : gmap (list Z) (list Z)) : Prop :=
  exists V' st', holds m V r V' /\ rep V' st' /\ inv st' /\ files_rel st' F'.

(** Running out of space: nothing is lost, and the volume is full. *)
Definition leads_full {A} (m : em D A) (V : list (list Z)) (F : gmap (list Z) (list Z)) : Prop :=
  exists V' st', holds m V (inl MCSFS1_ERR_NOSPC) V' /\ rep V' st' /\ inv st' /\ files_rel st' F /\ full (block_count dev) st'.

(** The call succeeds and leaves a slot, an inode and a data block free. *)
Definition leads_room {A} (m : em D A) (V : list (list Z)) (r : Z + A) (F' : gmap (list Z) (list Z)) : Prop :=
  exists V' st', holds m V r V' /\ rep V' st' /\ inv st' /\ files_rel st' F' /\ ~ full (block_count dev) st'.

Lemma leads_room_leads {A} (m : em D A) V r F' : leads_room m V r F' -> leads m V r F'.
Proof. intros (V' & st' & ? & ? & ? & ? & _). by exists V', st'. Qed.

Lemma leads_same {A} (m : em D A) V st F r :
  rep V st -> inv st -> files_rel st F -> holds m V r V -> leads m V r F.
Proof. intros. exists V, st. done. Qed.

Lemma leads_full_same {A} (m : em D A) V st F :
  rep V st -> inv st -> files_rel st F -> full (block_count dev) st -> holds m V (inl MCSFS1_ERR_NOSPC) V -> leads_full m V F.
Proof. intros. exists V, st. done. Qed.

Lemma holds_with_mount {A} (k : mcsfs1_mount_t D -> em D A) ds V r V' :
  holds (k (mnt_of ds)) V r V' -> holds (with_mount (Some (mnt_of ds)) k) V r V'.
Proof. done. Qed.

Lemma create_rel ds V st F nm rest :
  rep V st -> inv st -> files_rel st F -> str_ok nm ->
  let m := mcsfs1_create (Some (mnt_of ds)) (Some (nm ++ 0 :: rest)) in
  match name_err nm with
  | Some e => leads m V (inl e) F
  | None =>
      match F !! nm with
      | Some _ => leads m V (inl MCSFS1_ERR_EXIST) F
      | None => (full (block_count dev) st /\ holds m V (inl MCSFS1_ERR_NOSPC) V) \/ leads m V (inr tt) (<[nm := []]> F)
      end
  end.
Proof.
  intros Hrep Hinv HF Hstr m. subst m. pose proof (holds_valid_name ok view V nm rest Hstr) as Hv.
  destruct (name_err nm) as [e|] eqn:He.
  { eapply leads_same; [done..|]. apply holds_with_mount. by apply holds_bind_err. }
  pose proof (name_good nm Hstr He) as Hgood.
  assert (Hdir : block_ok (f_dir st)) by (eapply rep_block; [exact Hrep|apply (p_dir _ _ _ Hrep)]).
  destruct (find_spec V st nm rest Hrep Hinv Hstr He) as [[Hno Hfind]|(i & ino & Hh & Hfind)].
  2: { rewrite (files_some st F i ino nm _ Hinv HF Hh). eapply leads_same; [done..|]. apply holds_with_mount.
       eapply holds_bind; [exact Hv|]. eapply holds_bind; [by apply holds_catch|]. apply holds_err. }
  rewrite (proj2 (files_none st F nm HF) Hno).
  assert (Hrd : holds (dev_read (Some dev) MCSFS1_ROOT_DIR_LBA) V (inr (f_dir st)) V) by (by eapply holds_read_dir).
  destruct (find_free_slot_spec (f_dir st) 16 0 Hdir) as [[Hs Hall]|(slot & Hs & Hslot & Hfree)]; [lia|lia| |].
  { left. split; [left; intros j Hj; apply Hall; lia|]. apply holds_with_mount.
    eapply holds_bind; [exact Hv|]. eapply holds_bind; [by apply holds_catch|]. eapply holds_bind; [exact Hrd|].
    eapply holds_bind_lift; [exact Hs|]. apply holds_err. }
  destruct (alloc_inode_block_spec V st Hrep) as [[Hfull Ha]|(ino & lba & ib & bb & V1 & Ha & Hrep1 & Hino & Hib & Hlba & Hbb & Tib & Tbb)].
  { left. split; [done|]. apply holds_with_mount.
    eapply holds_bind; [exact Hv|]. eapply holds_bind; [by apply holds_catch|]. eapply holds_bind; [exact Hrd|].
    eapply holds_bind_lift; [exact Hs|]. destruct (Z.eqb_spec slot MCSFS1_DIRENT_COUNT); [unfold MCSFS1_DIRENT_COUNT in *; lia|].
    by apply holds_bind_err. }
  right.
  destruct (put_dirent_spec (f_dir st) slot ino nm rest Hdir) as (dir & Hput & Hdok & Hde & Hty & Hout);
    [lia|unfold in_u; lia|lia|done|].
  assert (Hni : inv (set_dir (set_node (set_bm st ib bb) ino (new_file_inode lba)) dir)) by (eapply (new_inv _ st Hinv slot ino lba nm ib bb dir); try done; lia).
  assert (Hwf : wf_inode (new_file_inode lba)).
  { pose proof (in_ent _ _ Hni slot ino nm) as Hx. pose proof (no_wf _ _ _ (eo_node _ _ _ _ _ (Hx (conj (conj (proj1 Hslot) (proj2 Hslot)) Hde)))) as Hw.
    cbn in Hw. by rewrite decide_True in Hw. }
  destruct (holds_put_node dev ok view Hcount V1 (set_bm st ib bb) ino (new_file_inode lba) Hrep1) as (V2 & Hw2 & Hrep2); [lia|done|].
  destruct (holds_write_dir dev ok view Hcount V2 _ dir Hrep2 Hdok) as (V3 & Hw3 & Hrep3).
  exists V3, (set_dir (set_node (set_bm st ib bb) ino (new_file_inode lba)) dir). split_and!; [|done|done|].
  - apply holds_with_mount. eapply holds_bind; [exact Hv|]. eapply holds_bind; [by apply holds_catch|]. eapply holds_bind; [exact Hrd|].
    eapply holds_bind_lift; [exact Hs|]. destruct (Z.eqb_spec slot MCSFS1_DIRENT_COUNT); [unfold MCSFS1_DIRENT_COUNT in *; lia|].
    eapply holds_bind; [exact Ha|]. eapply holds_bind; [exact Hw2|]. cbn [default from_option id].
    eapply holds_bind_lift; [exact Hput|]. eapply holds_bind; [exact Hw3|]. by apply (holds_flush dev ok view).
  - eapply (new_files _ st F Hinv HF slot ino lba nm ib bb dir); done || lia.
Qed.

(** The first steps of write, read and unlink: the name, then the inode. *)
Lemma find_file V st F nm rest :
  rep V st -> inv st -> files_rel st F -> str_ok nm ->
  let find := find_dirent (Some dev) (Some (nm ++ 0 :: rest)) in
  match name_err nm with
  | Some e => holds find V (inl e) V
  | None =>
      match F !! nm with
      | None => holds find V (inl MCSFS1_ERR_NOENT) V
      | Some c => exists i ino, has st i ino nm /\ c = contents st (f_node st ino) /\ holds find V (inr (i, ino)) V /\
          ent_ok (block_count dev) st i ino nm /\ holds (read_inode (Some dev) ino) V (inr (f_node st ino)) V
      end
  end.
Proof.
  intros Hrep Hinv HF Hstr find. subst find. destruct (name_err nm) as [e|] eqn:He; [by apply find_bad_name|].
  destruct (find_spec V st nm rest Hrep Hinv Hstr He) as [[Hno Hfind]|(i & ino & Hh & Hfind)].
  - by rewrite (proj2 (files_none st F nm HF) Hno).
  - rewrite (files_some st F i ino nm _ Hinv HF Hh). exists i, ino. pose proof (in_ent _ _ Hinv _ _ _ Hh) as Heo.
    split_and!; [done|done|done|done|]. apply (holds_get_node dev ok view Hcount); [done|]. destruct Heo. lia.
Qed.

Lemma unlink_rel ds V st F nm rest :
  rep V st -> inv st -> files_rel st F -> str_ok nm ->
  let m := mcsfs1_unlink (Some (mnt_of ds)) (Some (nm ++ 0 :: rest)) in
  match name_err nm with
  | Some e => leads m V (inl e) F
  | None =>
      match F !! nm with
      | None => leads m V (inl MCSFS1_ERR_NOENT) F
      | Some _ => leads_room m V (inr tt) (delete nm F)
      end
  end.
Proof.
  intros Hrep Hinv HF Hstr m. subst m. pose proof (find_file V st F nm rest Hrep Hinv HF Hstr) as Hf. cbn zeta in Hf.
  destruct (name_err nm) as [e|]; [eapply leads_same; [done..|]; apply holds_with_mount; by apply holds_bind_err|].
  destruct (F !! nm) as [c|]; [|eapply leads_same; [done..|]; apply holds_with_mount; by apply holds_bind_err].
  destruct Hf as (slot & ino & Hh & _ & Hfind & Heo & Hnode). pose proof Heo as [Hino _ _ _ Hno]. pose proof Hh as [Hslot _].
  assert (Hdir : block_ok (f_dir st)) by (eapply rep_block; [exact Hrep|apply (p_dir _ _ _ Hrep)]).
  destruct (clear_dirent_spec (f_dir st) slot Hdir Hslot) as (dir & Hcl & Hdok & Hde & Hout).
  destruct (holds_write_dir dev ok view Hcount V st dir Hrep Hdok) as (V1 & Hw1 & Hrep1).
  assert (Hib : block_ok (f_ib st)) by (eapply rep_block; [exact Hrep|apply (p_ib _ _ _ Hrep)]).
  assert (Hbb : block_ok (f_bb st)) by (eapply rep_block; [exact Hrep|apply (p_bb _ _ _ Hrep)]).
  destruct (bit_clear_spec (f_ib st) ino Hib) as (ib & Eib & Hibok & Tib); [lia|].
  destruct (clear_blocks_spec (i_direct (f_node st ino)) (block_count dev) (f_bb st) Hbb) as (bb & Ebb & Hbbok & Tbb);
    [lia|apply (wi_direct _ (no_wf _ _ _ Hno))|].
  destruct (holds_store_bmaps dev ok view Hcount V1 (set_dir st dir) ib bb Hrep1 Hibok Hbbok) as (V2 & Hw2 & Hrep2).
  assert (Hz : wf_inode zero_inode).
  { split; cbn; try (unfold in_u; lia); (split; [done|]); repeat (constructor; [unfold in_u; lia|]); constructor. }
  destruct (holds_put_node dev ok view Hcount V2 _ ino zero_inode Hrep2) as (V3 & Hw3 & Hrep3); [lia|done|].
  exists V3, (set_node (set_bm (set_dir st dir) ib bb) ino zero_inode). split_and!; [|done| | |].
  - apply holds_with_mount. eapply holds_bind; [exact Hfind|]. cbn [fst snd]. eapply holds_bind; [exact Hnode|].
    rewrite (no_mode _ _ _ Hno). cbn [negb Z.eqb MCSFS1_MODE_FILE Pos.eqb]. eapply holds_bind; [by eapply holds_read_dir|].
    eapply holds_bind_lift; [exact Hcl|]. eapply holds_bind; [exact Hw1|]. eapply holds_bind; [|eapply holds_bind; [exact Hw3|by apply (holds_flush dev ok view)]].
    unfold free_inode_and_blocks. eapply holds_bind; [by eapply (holds_load_bmaps dev ok view Hcount V1)|].
    eapply holds_bind_lift; [exact Eib|]. apply holds_count. eapply holds_bind_lift; [exact Ebb|]. exact Hw2.
  - by eapply (rem_inv _ st Hinv slot ino nm ib bb dir).
  - by eapply (rem_files _ st F Hinv HF slot ino nm ib bb dir).
  - by eapply (rem_room _ st Hinv slot ino nm ib bb dir).
Qed.

(** ** The checker *)

Lemma fsck_blocks_spec st nd n j :
  node_ok (block_count dev) (f_bb st) nd -> block_ok (f_bb st) -> 0 <= j -> j + Z.of_nat n <= nblocks (i_size nd) -> nblocks (i_size nd) <= 8 ->
  fsck_blocks n j (i_direct nd) (block_count dev) (f_bb st) = Some true.
Proof.
  intros Hno Hbb. revert j. induction n as [|n IH]; intros j Hj Hn H8; [done|]. cbn [fsck_blocks].
  destruct (wi_direct _ (no_wf _ _ _ Hno)) as [Hl _].
  destruct (arr_get_is_Some (i_direct nd) j) as [b Hb]; [lia|]. rewrite Hb. cbn [mbind option_bind].
  unfold arr_get in Hb. destruct (Z.ltb_spec j 0); [lia|].
  assert (Hb0 : b <> 0). { intros ->. eapply (no_used _ _ _ Hno); [|exact Hb]. lia. }
  destruct (no_block _ _ _ Hno _ _ Hb Hb0) as [Hr Ht]. unfold MCSFS1_DATA_START_LBA.
  destruct (Z.ltb_spec b 8); [lia|]. destruct (Z.leb_spec (block_count dev) b); [lia|]. cbn [orb].
  rewrite bit_test_spec, Ht by (done || lia). cbn [mbind option_bind]. apply IH; lia.
Qed.

Lemma nblocks_code size : 0 <= size <= 4096 ->
  (if blocks_of size =? 0 then 1 else blocks_of size) = nblocks size /\ 1 <= nblocks size <= 8 /\
  (size <> 0 -> blocks_of size = nblocks size) /\ blocks_of 0 = 0 /\ size <= 512 * nblocks size.
Proof.
  intros Hs. assert (H0 : blocks_of 0 = 0) by done. rewrite H0. unfold blocks_of, nblocks, MCSFS1_BLOCK_SIZE.
  rewrite (wrap_small 32 (size + 512)), (wrap_small 32 (size + 512 - 1)) by (unfold in_u; lia).
  assert (Hd : (size + 512 - 1) / 512 = (size + 511) / 512) by (f_equal; lia). rewrite Hd.
  destruct (Z.eqb_spec size 0) as [->|Hne].
  - split_and!; try done; lia.
  - destruct (Z.eqb_spec ((size + 511) / 512) 0); split_and!; try done; zdm.
Qed.

Lemma fsck_ok V st : rep V st -> inv st -> holds (mcsfs1_fsck (Some dev)) V (inr tt) V.
Proof.
  intros Hrep Hinv. assert (Hdir : block_ok (f_dir st)) by (eapply rep_block; [exact Hrep|apply (p_dir _ _ _ Hrep)]).
  assert (Hib : block_ok (f_ib st)) by (eapply rep_block; [exact Hrep|apply (p_ib _ _ _ Hrep)]).
  assert (Hbb : block_ok (f_bb st)) by (eapply rep_block; [exact Hrep|apply (p_bb _ _ _ Hrep)]).
  assert (Hents : forall n i, 0 <= i -> i + Z.of_nat n <= 16 -> holds (fsck_entries (Some dev) n i (f_ib st) (f_bb st) (f_dir st)) V (inr tt) V).
  { induction n as [|n IH]; intros i Hi Hn; [apply holds_ret|]. cbn [fsck_entries]. eapply holds_bind; [|apply IH; lia].
    unfold fsck_entry. destruct (de_ino_Some (f_dir st) i Hdir) as (ino & Ei & _); [lia|]. eapply holds_bind_lift; [exact Ei|].
    destruct (Z.eqb_spec ino 0) as [|Hnz]; [apply holds_ret|].
    assert (Hh : exists nm, has st i ino nm).
    { unfold has, dent. rewrite Ei. cbn [mbind option_bind]. destruct (Z.eqb_spec ino 0); [done|]. destruct Hdir as [Hl _].
      unfold slice, DIRENT_SIZE, MCSFS1_MAX_NAME. rewrite (proj2 (in_buf_true _ _ _)) by lia. eexists. split; [lia|done]. }
    destruct Hh as [nm Hh]. destruct (in_ent _ _ Hinv _ _ _ Hh) as [Hino _ Hty Hbit Hno]. unfold MCSFS1_MAX_INODES.
    destruct (Z.ltb_spec 32 ino); [lia|]. eapply holds_bind_lift; [exact Hty|]. cbn [negb Z.eqb MCSFS1_MODE_FILE Pos.eqb].
    eapply holds_bind_lift; [by apply bit_test_spec; [|lia]|]. rewrite Hbit. cbn [negb].
    eapply holds_bind; [apply (holds_get_node dev ok view Hcount); [done|lia]|]. rewrite (no_mode _ _ _ Hno). cbn [negb Z.eqb MCSFS1_MODE_FILE Pos.eqb orb].
    pose proof (no_size _ _ _ Hno) as Hsz. destruct (wi_size _ (no_wf _ _ _ Hno)) as [Hsz0 _].
    unfold MCSFS1_DIRECT_BLOCKS, MCSFS1_BLOCK_SIZE. destruct (Z.ltb_spec (8 * 512) (i_size (f_node st ino))); [lia|].
    destruct (nblocks_code (i_size (f_node st ino))) as (-> & Hr & _); [lia|]. apply holds_count.
    eapply holds_bind_lift; [by apply fsck_blocks_spec; [| |lia|lia|lia]|]. apply holds_ret. }
  unfold mcsfs1_fsck. eapply holds_bind.
  { unfold load_super. eapply holds_bind; [apply (holds_read dev ok view); [unfold MCSFS1_SB_LBA; lia|apply (p_sb _ _ _ Hrep)]|].
    apply holds_count. eapply holds_bind_lift; [apply (in_super _ _ Hinv)|]. apply holds_ret. }
  eapply holds_bind; [by eapply holds_load_bmaps|]. unfold MCSFS1_ROOT_INO, MCSFS1_ROOT_DIR_LBA.
  eapply holds_bind_lift; [by apply bit_test_spec; [|lia]|]. eapply holds_bind_lift; [by apply bit_test_spec; [|lia]|].
  rewrite (in_ib _ _ Hinv), (in_bb _ _ Hinv) by lia. cbn [negb orb].
  eapply holds_bind_lift; [apply bits_all_set_spec; [done|lia|unfold MCSFS1_DATA_START_LBA; lia|intros j Hj; apply (in_bb _ _ Hinv); unfold MCSFS1_DATA_START_LBA in Hj; lia]|].
  cbn [negb]. eapply holds_bind; [apply (holds_get_node dev ok view Hcount); [done|lia]|].
  eapply holds_bind_lift; [apply (in_root _ _ Hinv)|]. eapply holds_bind; [by eapply holds_read_dir|].
  apply Hents; [lia|unfold MCSFS1_DIRENT_COUNT; lia].
Qed.

(** ** Allocating the blocks of a file *)

Record alloc_ok (st : fsst) (od direct bb : list Z) : Prop := {
  al_len : length direct = 8%nat;
  al_u32 : Forall (in_u 32) direct;
  al_from : forall (j : nat) b, direct !! j = Some b -> b <> 0 ->
    od !! j = Some b \/ (8 <= b < block_count dev /\ bm_test (f_bb st) b = false);
  al_set : forall (j : nat) b, direct !! j = Some b -> b <> 0 -> bm_test bb b = true;
  al_mono : forall x, 0 <= x -> bm_test (f_bb st) x = true -> bm_test bb x = true;
  al_inj : forall (j j' : nat) b, direct !! j = Some b -> direct !! j' = Some b -> b <> 0 -> j = j'
}.

Lemma alloc_data_block_spec V st : rep V st ->
  ((forall b, 8 <= b < block_count dev -> bm_test (f_bb st) b = true) /\
     holds (alloc_data_block (Some dev)) V (inl MCSFS1_ERR_NOSPC) V) \/
  exists b bb V', holds (alloc_data_block (Some dev)) V (inr b) V' /\ rep V' (set_bm st (f_ib st) bb) /\
    8 <= b < block_count dev /\ bm_test (f_bb st) b = false /\
    forall j, 0 <= j -> bm_test bb j = bool_decide (b = j) || bm_test (f_bb st) j.
Proof.
  intros Hrep. assert (Hib : block_ok (f_ib st)) by (eapply rep_block; [exact Hrep|apply (p_ib _ _ _ Hrep)]).
  assert (Hbb : block_ok (f_bb st)) by (eapply rep_block; [exact Hrep|apply (p_bb _ _ _ Hrep)]).
  pose proof (holds_load_bmaps dev ok view Hcount V st Hrep) as Hload. unfold alloc_data_block.
  destruct (find_clear_bit_spec (Z.to_nat (block_count dev - MCSFS1_DATA_START_LBA)) MCSFS1_DATA_START_LBA (f_bb st) Hbb)
    as [[Hg Hall]|(b & Hg & Hb & Hbt)]; [unfold MCSFS1_DATA_START_LBA; lia|unfold MCSFS1_DATA_START_LBA; lia| |].
  { left. split; [intros i Hi; apply Hall; unfold MCSFS1_DATA_START_LBA; lia|].
    eapply holds_bind; [exact Hload|]. apply holds_count. eapply holds_bind_lift; [exact Hg|]. apply holds_err. }
  right. unfold MCSFS1_DATA_START_LBA in Hb.
  destruct (bit_set_spec (f_bb st) b Hbb) as (bb & Ebb & Hbbok & Tbb); [lia|].
  destruct (holds_store_bmaps dev ok view Hcount V st (f_ib st) bb Hrep Hib Hbbok) as (V' & Hs & Hrep').
  exists b, bb, V'. split_and!; try done; try lia.
  eapply holds_bind; [exact Hload|]. apply holds_count. eapply holds_bind_lift; [exact Hg|]. destruct (Z.eqb_spec b 0); [lia|].
  eapply holds_bind_lift; [exact Ebb|]. eapply holds_bind; [exact Hs|]. apply holds_ret.
Qed.

Lemma alloc_ok_set st od direct bb (i : nat) b bb' :
  alloc_ok st od direct bb -> (i < 8)%nat -> 8 <= b < block_count dev -> bm_test bb b = false ->
  (forall j, 0 <= j -> bm_test bb' j = bool_decide (b = j) || bm_test bb j) ->
  alloc_ok st od (<[i := b]> direct) bb'.
Proof.
  intros [L U Fr Se Mo In] Hi Hb Hf T.
  assert (Hget : forall j x, <[i := b]> direct !! j = Some x -> x <> 0 -> (j = i /\ x = b) \/ (j <> i /\ direct !! j = Some x /\ x <> b)).
  { intros j x Hj Hx. destruct (decide (j = i)) as [->|Hne].
    - rewrite list_lookup_insert_eq in Hj by lia. left. naive_solver.
    - rewrite list_lookup_insert_ne in Hj by done. right. split_and!; [done|done|]. intros ->. rewrite (Se _ _ Hj Hx) in Hf. done. }
  split.
  - by rewrite length_insert.
  - apply Forall_insert; [done|]. unfold in_u. lia.
  - intros j x Hj Hx. destruct (Hget j x Hj Hx) as [[-> ->]|(_ & Hj' & _)]; [|by apply Fr].
    right. split; [done|]. destruct (bm_test (f_bb st) b) eqn:E; [|done]. rewrite (Mo b) in Hf by (done || lia). done.
  - intros j x Hj Hx. destruct (Hget j x Hj Hx) as [[-> ->]|(_ & Hj' & _)].
    + rewrite T by lia. by rewrite bool_decide_true.
    + assert (0 <= x) by (pose proof (Forall_lookup_1 _ _ _ _ U Hj') as Hu; unfold in_u in Hu; lia).
      rewrite T, (Se _ _ Hj' Hx) by done. by rewrite orb_true_r.
  - intros x Hx Ht. rewrite T, (Mo x) by done. by rewrite orb_true_r.
  - intros j j' x Hj Hj' Hx. destruct (Hget j x Hj Hx) as [[-> ->]|(_ & H1 & Hn)], (Hget j' _ Hj' Hx) as [[-> E]|(_ & H2 & Hn')]; try congruence.
    by apply (In j j' x).
Qed.

Lemma alloc_needed_spec st od n i direct bb V :
  rep V (set_bm st (f_ib st) bb) -> alloc_ok st od direct bb -> 0 <= i -> i + Z.of_nat n <= 8 ->
  (forall j : nat, Z.of_nat j < i -> direct !! j <> Some 0) ->
  exists bb' direct' V', rep V' (set_bm st (f_ib st) bb') /\ alloc_ok st od direct' bb' /\
    ((holds (alloc_needed (Some dev) n i direct) V (inr direct') V' /\
        forall j : nat, Z.of_nat j < i + Z.of_nat n -> direct' !! j <> Some 0) \/
     (holds (alloc_needed (Some dev) n i direct) V (inl MCSFS1_ERR_NOSPC) V' /\
        forall b, 8 <= b < block_count dev -> bm_test bb' b = true)).
Proof.
  revert i direct bb V. induction n as [|n IH]; intros i direct bb V Hrep Hal Hi Hn Hnz.
  { exists bb, direct, V. split; [done|]. split; [done|]. left. split; [apply holds_ret|]. intros j Hj. apply Hnz. lia. }
  cbn [alloc_needed]. pose proof (al_len _ _ _ _ Hal) as Hl.
  destruct (arr_get_is_Some direct i) as [b Hb]; [lia|]. pose proof Hb as Hb'. unfold arr_get in Hb'. destruct (Z.ltb_spec i 0); [lia|].
  destruct (Z.eqb_spec b 0) as [->|Hb0].
  - destruct (alloc_data_block_spec V _ Hrep) as [[Hall Ha]|(x & bb1 & V1 & Ha & Hrep1 & Hx & Hxf & T)].
    + exists bb, direct, V. split; [done|]. split; [done|]. right. split; [|done].
      eapply holds_bind_lift; [exact Hb|]. cbn [Z.eqb]. by apply holds_bind_err.
    + cbn [set_bm f_bb f_ib] in *.
      assert (Hal1 : alloc_ok st od (<[Z.to_nat i := x]> direct) bb1) by (eapply alloc_ok_set; [done|lia|done|done|done]).
      destruct (IH (i + 1) (<[Z.to_nat i := x]> direct) bb1 V1) as (bb' & direct' & V' & Hrep' & Hal' & Hres); [done|done|lia|lia| |].
      { intros j Hj. destruct (decide (j = Z.to_nat i)) as [->|]; [rewrite list_lookup_insert_eq by lia; intros [= E]; lia|].
        rewrite list_lookup_insert_ne by done. apply Hnz. lia. }
      exists bb', direct', V'. split; [done|]. split; [done|].
      assert (Hstep : forall r, holds (alloc_needed (Some dev) n (i + 1) (<[Z.to_nat i := x]> direct)) V1 r V' ->
        holds (alloc_needed (Some dev) (S n) i direct) V r V').
      { intros r Hr. cbn [alloc_needed]. eapply holds_bind_lift; [exact Hb|]. cbn [Z.eqb]. eapply holds_bind; [exact Ha|].
        eapply holds_bind_lift; [apply arr_set_Some; lia|]. exact Hr. }
      destruct Hres as [[Hr Hnz']|[Hr Hall]]; [left|right]; (split; [by apply Hstep|]); [|done].
      intros j Hj. apply Hnz'. lia.
  - destruct (IH (i + 1) direct bb V) as (bb' & direct' & V' & Hrep' & Hal' & Hres); [done|done|lia|lia| |].
    { intros j Hj. destruct (decide (j = Z.to_nat i)) as [->|]; [congruence|]. apply Hnz. lia. }
    exists bb', direct', V'. split; [done|]. split; [done|].
    assert (Hstep : forall r, holds (alloc_needed (Some dev) n (i + 1) direct) V r V' ->
      holds (alloc_needed (Some dev) (S n) i direct) V r V').
    { intros r Hr. cbn [alloc_needed]. eapply holds_bind_lift; [exact Hb|]. by destruct (Z.eqb_spec b 0). }
    destruct Hres as [[Hr Hnz']|[Hr Hall]]; [left|right]; (split; [by apply Hstep|]); [|done].
    intros j Hj. apply Hnz'. lia.
Qed.

(** ** Blocks of data *)

(** Block [j] of a file with the bytes [bs]: padded with zeros. *)
Definition blk (bs : list Z) (j : nat) : list Z :=
  let c := take 512 (drop (512 * j) bs) in c ++ replicate (512 - length c) 0.

Lemma length_blk bs j : length (blk bs j) = 512%nat.
Proof. unfold blk. rewrite length_app, length_replicate, length_take. lia. Qed.

Lemma blk_ok bs j : bytes_ok bs -> block_ok (blk bs j).
Proof.
  intros Hb. split; [apply length_blk|]. unfold blk. apply bytes_ok_app; [by apply bytes_ok_take, bytes_ok_drop|].
  apply bytes_ok_replicate; unfold in_u; lia.
Qed.

Lemma chunk_block_spec bs (j : nat) :
  512 * Z.of_nat j <= Z.of_nat (length bs) -> Z.of_nat (length bs) <= 4096 ->
  let len := Z.of_nat (length bs) in
  let written := 512 * Z.of_nat j in
  let chunk := chunk_of (u32 (len - written)) in
  data_block bs written chunk = Some (blk bs j) /\ chunk = Z.min 512 (len - written) /\
  u32 (written + chunk) = Z.min len (512 * (Z.of_nat j + 1)).
Proof.
  intros Hj Hl len written chunk.
  assert (Hc : chunk = Z.min 512 (len - written)).
  { unfold chunk, chunk_of, MCSFS1_BLOCK_SIZE. rewrite wrap_small by (unfold in_u, len, written; lia).
    destruct (Z.ltb_spec 512 (len - written)); lia. }
  split; [|split; [done|rewrite wrap_small; [lia|unfold in_u; lia]]].
  unfold data_block. unfold blk. assert (Hcl : Z.of_nat (length (take 512 (drop (512 * j) bs))) = chunk).
  { rewrite length_take, length_drop. lia. }
  destruct (Z.eqb_spec chunk 0) as [E|E]; cbn [negb].
  - assert (Hnil : take 512 (drop (512 * j) bs) = []) by (apply length_zero_iff_nil; lia). rewrite Hnil. done.
  - unfold slice. rewrite (proj2 (in_buf_true _ _ _)) by lia. cbn [mbind option_bind].
    replace (take (Z.to_nat chunk) (drop (Z.to_nat written) bs)) with (take 512 (drop (512 * j) bs)).
    + rewrite splice_Some by (unfold zero_block; rewrite ?length_replicate; lia). change (Z.to_nat 0) with 0%nat.
      rewrite take_0, Nat.add_0_l. cbn [app]. unfold zero_block. rewrite drop_replicate. done.
    + replace (Z.to_nat written) with (512 * j)%nat by lia. destruct (decide (512 <= len - written)).
      * f_equal. lia.
      * rewrite !take_ge; [done| |]; rewrite length_drop; lia.
Qed.

Lemma write_blocks_spec direct bs n i V st :
  rep V st -> bytes_ok bs -> Z.of_nat (length bs) <= 4096 -> length direct = 8%nat ->
  (i + n <= Z.to_nat (nblocks (Z.of_nat (length bs))))%nat ->
  (forall j b, (j < i + n)%nat -> direct !! j = Some b -> 8 <= b < block_count dev) ->
  (forall (j j' : nat) b, direct !! j = Some b -> direct !! j' = Some b -> b <> 0 -> j = j') ->
  exists dat V', holds (write_blocks (Some dev) n (Z.of_nat i) direct bs (Z.of_nat (length bs))
      (Z.min (Z.of_nat (length bs)) (512 * Z.of_nat i))) V (inr tt) V' /\
    rep V' (mk_fs (f_sb st) (f_ib st) (f_bb st) (f_dir st) (f_node st) dat) /\
    (forall j b, (i <= j < i + n)%nat -> direct !! j = Some b -> dat b = blk bs j) /\
    (forall b, (forall j, (i <= j < i + n)%nat -> direct !! j <> Some b) -> dat b = f_dat st b).
Proof.
  intros Hrep Hbs Hlen Hdl Hn Hrange Hinj. revert i V st Hrep Hn Hrange.
  destruct (nblocks_code (Z.of_nat (length bs))) as (_ & Hnb & _ & _ & Hcov); [lia|].
  induction n as [|n IH]; intros i V st Hrep Hn Hrange.
  { exists (f_dat st), V. split; [apply holds_ret|]. split; [by destruct st|]. split; [lia|done]. }
  assert (Hil : 512 * Z.of_nat i <= Z.of_nat (length bs)).
  { unfold nblocks in *. destruct (Z.eqb_spec (Z.of_nat (length bs)) 0); [lia|]. zdm. }
  destruct (chunk_block_spec bs i Hil Hlen) as (Hblk & Hchunk & Hnext). cbn zeta in *.
  destruct (lookup_lt_is_Some_2 direct i) as [b Hb]; [lia|].
  assert (Hbr : 8 <= b < block_count dev) by (apply (Hrange i); [lia|done]).
  destruct (holds_put_dat dev ok view V st b (blk bs i) Hrep Hbr (blk_ok bs i Hbs)) as (V1 & Hw & Hrep1).
  destruct (IH (S i) V1 _ Hrep1) as (dat & V' & Hrec & Hrep' & Hin & Hout); [lia|intros j x Hj; apply Hrange; lia|].
  exists dat, V'. split_and!.
  - cbn [write_blocks]. rewrite (Z.min_r _ (512 * Z.of_nat i)) by lia. eapply holds_bind_lift; [exact Hblk|].
    eapply holds_bind_lift; [unfold arr_get; destruct (Z.ltb_spec (Z.of_nat i) 0); [lia|]; rewrite Nat2Z.id; exact Hb|].
    eapply holds_bind; [exact Hw|]. rewrite Hnext. replace (Z.of_nat i + 1) with (Z.of_nat (S i)) by lia. exact Hrec.
  - exact Hrep'.
  - intros j x Hj Hx. destruct (decide (j = i)) as [->|Hne]; [|apply Hin; [lia|done]].
    assert (x = b) as -> by congruence. rewrite Hout.
    + cbn [set_dat f_dat]. by rewrite decide_True.
    + intros k Hk Hkb. assert (k = i) by (apply (Hinj k i b); [done|done|lia]). lia.
  - intros x Hx. rewrite Hout by (intros k Hk; apply Hx; lia). cbn [set_dat f_dat].
    rewrite decide_False; [done|]. intros ->. by apply (Hx i); [lia|].
Qed.

Lemma concat_blks bs n off : Z.of_nat (length bs) <= 512 * Z.of_nat (off + n) ->
  take (length bs - 512 * off) (concat (map (blk bs) (seq off n))) = drop (512 * off) bs.
Proof.
  revert off. induction n as [|n IH]; intros off Hl.
  - cbn. rewrite take_nil. symmetry. apply drop_ge. lia.
  - cbn [seq map concat]. specialize (IH (S off)). destruct (decide (length bs <= 512 * S off)%nat) as [Hlast|Hmore].
    + rewrite take_app_le by (rewrite length_blk; lia). unfold blk. rewrite take_app_le by (rewrite length_take, length_drop; lia).
      rewrite take_take, Nat.min_l by lia. rewrite take_ge; [done|]. rewrite length_drop. lia.
    + rewrite take_app_ge by (rewrite length_blk; lia). rewrite length_blk.
      replace (length bs - 512 * off - 512)%nat with (length bs - 512 * S off)%nat by lia. rewrite IH by lia.
      unfold blk. rewrite length_take, length_drop, Nat.min_l by lia. cbn [replicate Nat.sub]. rewrite app_nil_r.
      replace (512 * S off)%nat with (512 * off + 512)%nat by lia. rewrite <- drop_drop, take_drop. done.
Qed.

(** Marking more blocks changes no file. *)
Lemma grow_inv st bb : inv st -> (forall x, 0 <= x -> bm_test (f_bb st) x = true -> bm_test bb x = true) -> inv (set_bm st (f_ib st) bb).
Proof.
  intros [I1 I2 I3 I4 I5 I6 I7 I8] Hm. split; try done.
  - intros j Hj. apply Hm; [lia|by apply I4].
  - intros i ino nm Hh. destruct (I5 i ino nm Hh) as [E1 E2 E3 E4 [N1 N2 N3 N4 N5]]. split; try done. split; try done.
    intros j b Hj Hb. destruct (N4 j b Hj Hb). split; [done|]. apply Hm; [lia|done].
Qed.

Lemma map_dat_blks (dat : Z -> list Z) bs direct n : (n <= length direct)%nat ->
  (forall j b, (j < n)%nat -> direct !! j = Some b -> dat b = blk bs j) -> map dat (take n direct) = map (blk bs) (seq 0 n).
Proof.
  intros Hn H. apply list_eq. intros j. change (map dat (take n direct)) with (dat <$> take n direct). change (map (blk bs) (seq 0 n)) with (blk bs <$> seq 0 n).
  rewrite !list_lookup_fmap. destruct (decide (j < n)%nat).
  - rewrite lookup_take_lt by done. destruct (lookup_lt_is_Some_2 direct j) as [b Hb]; [lia|].
    rewrite Hb, lookup_seq_lt by done. cbn. f_equal. by apply H.
  - rewrite lookup_take_ge by lia. rewrite lookup_seq_ge by lia. done.
Qed.

Lemma fs_write_rel ds V st F nm rest bs :
  rep V st -> inv st -> files_rel st F -> str_ok nm -> bytes_ok bs ->
  let m := mcsfs1_write (Some (mnt_of ds)) (Some (nm ++ 0 :: rest)) (Some bs) (Z.of_nat (length bs)) in
  if 4096 <? Z.of_nat (length bs) then leads m V (inl MCSFS1_ERR_RANGE) F else
  match name_err nm with
  | Some e => leads m V (inl e) F
  | None =>
      match F !! nm with
      | None => leads m V (inl MCSFS1_ERR_NOENT) F
      | Some _ => leads_full m V F \/ leads m V (inr tt) (<[nm := bs]> F)
      end
  end.
Proof.
  intros Hrep Hinv HF Hstr Hbs m. subst m. pose proof (find_file V st F nm rest Hrep Hinv HF Hstr) as Hf. cbn zeta in Hf.
  unfold mcsfs1_write. change (bool_decide (Some bs = None)) with false. cbn [andb].
  unfold MCSFS1_DIRECT_BLOCKS, MCSFS1_BLOCK_SIZE. change (8 * 512) with 4096.
  destruct (Z.ltb_spec 4096 (Z.of_nat (length bs))) as [|Hlen]; [eapply leads_same; [done..|]; apply holds_with_mount; apply holds_err|].
  destruct (name_err nm) as [e|]; [eapply leads_same; [done..|]; apply holds_with_mount; by apply holds_bind_err|].
  destruct (F !! nm) as [c|]; [|eapply leads_same; [done..|]; apply holds_with_mount; by apply holds_bind_err].
  destruct Hf as (slot & ino & Hh & _ & Hfind & Heo & Hnode). pose proof Heo as [Hino _ _ _ Hno].
  destruct (nblocks_code (Z.of_nat (length bs))) as (Hneed & Hnb & _ & _ & Hcov); [lia|].
  destruct (wi_direct _ (no_wf _ _ _ Hno)) as [Hdl Hd32].
  assert (Hal : alloc_ok st (i_direct (f_node st ino)) (i_direct (f_node st ino)) (f_bb st)).
  { split; try done.
    - intros j b Hj Hb. by left.
    - intros j b Hj Hb. by apply (no_block _ _ _ Hno j b).
    - intros j j' b Hj Hj' Hb. by destruct (in_own _ _ Hinv _ _ _ _ _ _ _ _ _ Hh Hh Hj Hj' Hb). }
  assert (Hrep0 : rep V (set_bm st (f_ib st) (f_bb st))) by (by destruct st).
  destruct (alloc_needed_spec st _ (Z.to_nat (nblocks (Z.of_nat (length bs)))) 0 _ _ V Hrep0 Hal)
    as (bb & direct & V1 & Hrep1 & Hal1 & [[Ha Hnz]|[Ha Hall]]); [lia|lia|lia| |].
  2: { left. exists V1, (set_bm st (f_ib st) bb). split_and!; [|done| |done|].
       - apply holds_with_mount. eapply holds_bind; [exact Hfind|]. cbn [snd]. eapply holds_bind; [exact Hnode|].
         rewrite (no_mode _ _ _ Hno). cbn [negb Z.eqb MCSFS1_MODE_FILE Pos.eqb]. cbn zeta. rewrite Hneed. by apply holds_bind_err.
       - apply grow_inv; [done|apply Hal1].
       - right. right. done. }
  right. destruct Hal1 as [L U Fr Se Mo In].
  assert (Hdr : forall j b, (j < 0 + Z.to_nat (nblocks (Z.of_nat (length bs))))%nat -> direct !! j = Some b -> 8 <= b < block_count dev).
  { intros j b Hj Hb. assert (b <> 0) by (intros ->; eapply Hnz; [|exact Hb]; lia).
    destruct (Fr j b Hb) as [Ho|[? _]]; [done| |done]. by apply (no_block _ _ _ Hno j b). }
  destruct (write_blocks_spec direct bs (Z.to_nat (nblocks (Z.of_nat (length bs)))) 0 V1 _ Hrep1 Hbs Hlen L) as (dat & V2 & Hw & Hrep2 & Hin & Hout);
    [lia|exact Hdr|exact In|]. cbn [set_bm f_sb f_ib f_bb f_dir f_node f_dat] in *.
  rewrite Z.min_r in Hw by lia. change (Z.of_nat 0) with 0 in Hw. change (512 * 0) with 0 in Hw.
  set (nd := mk_inode (i_mode (f_node st ino)) (i_links (f_node st ino)) (Z.of_nat (length bs)) direct (i_reserved (f_node st ino))).
  assert (Hwf : wf_inode nd).
  { destruct (no_wf _ _ _ Hno). split; try done. cbn. unfold in_u. lia. }
  destruct (holds_put_node dev ok view Hcount V2 _ ino nd Hrep2) as (V3 & Hw3 & Hrep3); [lia|done|].
  assert (Hdat : forall b, b <> 0 -> b ∉ direct -> dat b = f_dat st b).
  { intros b _ Hb. apply Hout. intros j _ Hj. apply Hb, list_elem_of_lookup. eauto. }
  assert (Hcont : take (length bs) (concat (map dat (take (Z.to_nat (nblocks (Z.of_nat (length bs)))) direct))) = bs).
  { rewrite (map_dat_blks dat bs) by (lia || (intros j b Hj; apply Hin; lia)).
    pose proof (concat_blks bs (Z.to_nat (nblocks (Z.of_nat (length bs)))) 0) as Hc.
    rewrite Nat.mul_0_r, Nat.sub_0_r, drop_0 in Hc. apply Hc. lia. }
  assert (Hall : forall j : nat, Z.of_nat j < nblocks (Z.of_nat (length bs)) -> direct !! j <> Some 0) by (intros j Hj; apply Hnz; lia).
  eexists V3, _. split_and!; [|exact Hrep3| |].
  - apply holds_with_mount. eapply holds_bind; [exact Hfind|]. cbn [snd]. eapply holds_bind; [exact Hnode|].
    rewrite (no_mode _ _ _ Hno). cbn [negb Z.eqb MCSFS1_MODE_FILE Pos.eqb]. cbn zeta. rewrite Hneed. eapply holds_bind; [exact Ha|].
    eapply holds_bind; [exact Hw|]. rewrite <- (no_mode _ _ _ Hno). eapply holds_bind; [exact Hw3|]. by apply (holds_flush dev ok view).
  - by apply (rw_inv _ st Hinv slot ino nm Hh bb direct bs dat).
  - by apply (rw_files _ st F Hinv HF slot ino nm Hh bb direct bs dat).
Qed.

(** ** Reading *)

Lemma concat_get (bl : list (list Z)) (i : nat) b :
  Forall (fun x => length x = 512%nat) bl -> bl !! i = Some b -> take 512 (drop (512 * i) (concat bl)) = b.
Proof.
  intros Hf. revert i. induction Hf as [|x bl Hx _ IH]; intros [|i] Hi; try done; cbn [concat].
  - cbn in Hi. injection Hi as ->. rewrite Nat.mul_0_r, drop_0. rewrite <- Hx. apply take_app_length.
  - replace (512 * S i)%nat with (length x + 512 * i)%nat by lia. rewrite <- drop_drop, drop_app_length. by apply IH.
Qed.

Lemma length_concat_512 (bl : list (list Z)) : Forall (fun x => length x = 512%nat) bl -> length (concat bl) = (512 * length bl)%nat.
Proof. induction 1 as [|x bl Hx _ IH]; [done|]. cbn [concat length]. rewrite length_app, Hx, IH. lia. Qed.

Section read.
Context (V : list (list Z)) (st : fsst) (nd : mcsfs1_inode_disk) (Hrep : rep V st).
Context (Hno : node_ok (block_count dev) (f_bb st) nd).
Let C := contents st nd.
Let nb := Z.to_nat (nblocks (i_size nd)).

Lemma size_range : 0 <= i_size nd <= 4096.
Proof. pose proof (no_size _ _ _ Hno). destruct (wi_size _ (no_wf _ _ _ Hno)). lia. Qed.

Lemma used_block (j : nat) : (j < nb)%nat -> exists b, i_direct nd !! j = Some b /\ 8 <= b < block_count dev.
Proof.
  intros Hj. destruct (nblocks_code (i_size nd) size_range) as (_ & Hnb & _). destruct (wi_direct _ (no_wf _ _ _ Hno)) as [Hl _].
  destruct (lookup_lt_is_Some_2 (i_direct nd) j) as [b Hb]; [unfold nb in Hj; lia|]. exists b. split; [done|].
  assert (b <> 0). { intros ->. eapply (no_used _ _ _ Hno); [|exact Hb]. unfold nb in Hj. lia. }
  by apply (no_block _ _ _ Hno j b).
Qed.

Lemma used_blocks : Forall (fun x => length x = 512%nat) (map (f_dat st) (take nb (i_direct nd))).
Proof.
  apply Forall_map, Forall_lookup_2. intros j b Hb. apply lookup_take_Some in Hb as [Hb Hj].
  destruct (used_block j Hj) as (b' & Hb' & Hr). assert (b' = b) as -> by congruence.
  apply (rep_block dev V st (Z.to_nat b) (f_dat st b) Hrep). by apply (p_dat _ _ _ Hrep).
Qed.

Lemma length_contents : Z.of_nat (length C) = i_size nd.
Proof.
  destruct (nblocks_code (i_size nd) size_range) as (_ & Hnb & _ & _ & Hcov). destruct (wi_direct _ (no_wf _ _ _ Hno)) as [Hl _].
  pose proof size_range. unfold C, contents. fold nb. rewrite length_take, (length_concat_512 _ used_blocks), length_map, length_take.
  unfold nb. lia.
Qed.

(** The part of the contents that block [j] holds. *)
Lemma contents_block (j : nat) b k : (j < nb)%nat -> i_direct nd !! j = Some b -> (k <= 512)%nat ->
  512 * Z.of_nat j + Z.of_nat k <= i_size nd -> take k (f_dat st b) = take k (drop (512 * j) C).
Proof.
  intros Hj Hb Hk Hsz. unfold C, contents. fold nb.
  rewrite skipn_firstn_comm, take_take, Nat.min_l by lia.
  assert (Hg : map (f_dat st) (take nb (i_direct nd)) !! j = Some (f_dat st b)).
  { change (map (f_dat st) (take nb (i_direct nd))) with (f_dat st <$> take nb (i_direct nd)).
    rewrite list_lookup_fmap, lookup_take_lt, Hb by done. done. }
  rewrite <- (concat_get _ _ _ used_blocks Hg), take_take, Nat.min_l by lia. done.
Qed.

Lemma read_blocks_spec buf0 n (i : nat) :
  i_size nd <= Z.of_nat (length buf0) -> (i + n = nb)%nat -> i_size nd <> 0 ->
  let copied := Z.to_nat (Z.min (i_size nd) (512 * Z.of_nat i)) in
  holds (read_blocks (Some dev) (block_count dev) n (Z.of_nat i) nd (take copied C ++ drop copied buf0)
    (Z.min (i_size nd) (512 * Z.of_nat i))) V (inr (C ++ drop (length C) buf0)) V.
Proof.
  intros Hbuf. revert i. pose proof size_range as Hsr. pose proof length_contents as HlC.
  destruct (nblocks_code (i_size nd) Hsr) as (_ & Hnb & _ & _ & Hcov).
  induction n as [|n IH]; intros i Hi Hne copied.
  - cbn [read_blocks]. assert (Hc : copied = length C) by (unfold copied, nb in *; lia). rewrite Hc, firstn_all. apply holds_ret.
  - cbn [read_blocks]. destruct (used_block i) as (b & Hb & Hbr); [lia|].
    assert (Hil : 512 * Z.of_nat i < i_size nd).
    { unfold nb, nblocks in *. destruct (Z.eqb_spec (i_size nd) 0); [lia|]. zdm. }
    assert (Hc : copied = (512 * i)%nat) by (unfold copied; lia).
    rewrite (Z.min_r (i_size nd) (512 * Z.of_nat i)) by lia.
    eapply holds_bind_lift; [unfold arr_get; destruct (Z.ltb_spec (Z.of_nat i) 0); [lia|]; rewrite Nat2Z.id; exact Hb|].
    destruct (Z.eqb_spec b 0); [lia|]. destruct (Z.leb_spec (block_count dev) b); [lia|]. cbn [orb].
    eapply holds_bind; [apply (holds_get_dat dev ok view); [exact Hrep|done]|].
    assert (Hch : chunk_of (u32 (i_size nd - 512 * Z.of_nat i)) = Z.min 512 (i_size nd - 512 * Z.of_nat i)).
    { unfold chunk_of, MCSFS1_BLOCK_SIZE. rewrite wrap_small by (unfold in_u; lia). destruct (Z.ltb_spec 512 (i_size nd - 512 * Z.of_nat i)); lia. }
    cbn zeta. rewrite Hch. set (k := Z.to_nat (Z.min 512 (i_size nd - 512 * Z.of_nat i))).
    assert (Hbk : length (f_dat st b) = 512%nat).
    { apply (rep_block dev V st (Z.to_nat b) (f_dat st b) Hrep). by apply (p_dat _ _ _ Hrep). }
    eapply holds_bind_lift.
    { unfold slice. rewrite (proj2 (in_buf_true _ _ _)) by lia. change (Z.to_nat 0) with 0%nat. rewrite drop_0. fold k.
      rewrite (contents_block i b k) by (done || lia). reflexivity. }
    assert (HkC : length (take k (drop (512 * i) C)) = k) by (rewrite length_take, length_drop; lia).
    eapply holds_bind_lift.
    { rewrite Hc. apply splice_Some; rewrite ?HkC, ?length_app, ?length_take, ?length_drop; lia. }
    replace (Z.to_nat (512 * Z.of_nat i)) with (512 * i)%nat by lia. rewrite HkC.
    assert (Hbuf' : take (512 * i) (take (512 * i) C ++ drop (512 * i) buf0) ++ take k (drop (512 * i) C) ++
        drop (512 * i + k) (take (512 * i) C ++ drop (512 * i) buf0) =
      take (512 * i + k) C ++ drop (512 * i + k) buf0).
    { rewrite take_app_le, take_take, Nat.min_id by (rewrite length_take; lia).
      rewrite drop_app_ge by (rewrite length_take; lia). rewrite length_take, Nat.min_l by lia.
      rewrite drop_drop. replace (512 * i + (512 * i + k - 512 * i))%nat with (512 * i + k)%nat by lia.
      rewrite app_assoc. f_equal. by rewrite take_take_drop. }
    rewrite Hbuf'. specialize (IH (S i)). cbn zeta in IH.
    replace (Z.to_nat (Z.min (i_size nd) (512 * Z.of_nat (S i)))) with (512 * i + k)%nat in IH by lia.
    rewrite (wrap_small 32) by (unfold in_u; lia).
    replace (512 * Z.of_nat i + Z.min 512 (i_size nd - 512 * Z.of_nat i)) with (Z.min (i_size nd) (512 * Z.of_nat (S i))) by lia.
    replace (Z.of_nat i + 1) with (Z.of_nat (S i)) by lia. apply IH; [lia|done].
Qed.

End read.

Lemma fs_read_rel ds V st F nm rest buf :
  rep V st -> inv st -> files_rel st F -> str_ok nm ->
  let m := mcsfs1_read (Some (mnt_of ds)) (Some (nm ++ 0 :: rest)) (Some buf) (Z.of_nat (length buf)) true in
  holds m V
    (match name_err nm with
     | Some e => inl e
     | None =>
         match F !! nm with
         | None => inl MCSFS1_ERR_NOENT
         | Some c => if (length buf <? length c)%nat then inl MCSFS1_ERR_RANGE
                     else inr (c ++ drop (length c) buf, Z.of_nat (length c))
         end
     end) V.
Proof.
  intros Hrep Hinv HF Hstr m. subst m. pose proof (find_file V st F nm rest Hrep Hinv HF Hstr) as Hf. cbn zeta in Hf.
  destruct (name_err nm) as [e|]; [apply holds_with_mount; by apply holds_bind_err|].
  destruct (F !! nm) as [c|]; [|apply holds_with_mount; by apply holds_bind_err].
  destruct Hf as (slot & ino & Hh & Hc & Hfind & Heo & Hnode). pose proof (eo_node _ _ _ _ _ Heo) as Hno. subst c.
  pose proof (length_contents V st _ Hrep Hno) as Hl. apply holds_with_mount. cbn [negb]. eapply holds_bind; [exact Hfind|]. cbn [snd].
  eapply holds_bind; [exact Hnode|]. rewrite (no_mode _ _ _ Hno). cbn [negb Z.eqb MCSFS1_MODE_FILE Pos.eqb].
  destruct (Z.ltb_spec (Z.of_nat (length buf)) (i_size (f_node st ino))) as [Hs|Hs];
    destruct (Nat.ltb_spec (length buf) (length (contents st (f_node st ino)))); try lia; [apply holds_err|].
  rewrite Hl. eapply holds_bind; [|apply holds_ret]. cbn [mnt_of m_dev m_block_count].
  pose proof (size_range st _ Hno) as Hsr. destruct (nblocks_code _ Hsr) as (_ & Hnb & Heq & H0 & _).
  destruct (decide (i_size (f_node st ino) = 0)) as [Hz|Hz].
  - rewrite Hz, H0. cbn [Z.to_nat read_blocks]. assert (contents st (f_node st ino) = []) as -> by (apply length_zero_iff_nil; lia). apply holds_ret.
  - rewrite Heq by done. pose proof (read_blocks_spec V st _ Hrep Hno buf (Z.to_nat (nblocks (i_size (f_node st ino)))) 0 Hs) as Hr.
    cbn zeta in Hr. rewrite Z.min_r in Hr by lia. change (Z.to_nat (512 * Z.of_nat 0)) with 0%nat in Hr. rewrite take_0, drop_0 in Hr.
    apply Hr; [lia|done].
Qed.

End calls.

End McsfsProofs.
