(* ===== verification/McsfsRefine.v ===== *)
(** * MCSFS1: formatting, mounting, and the refinement of a map of files

    Closes the development of [Mcsfs.v] and [McsfsProofs.v]: a freshly
    formatted volume mounts and represents no files, and every call on a
    volume that represents a map of files acts on that map. *)
From S2P Require Import Prelude Bitmap Bytes Errm Mcsfs McsfsProofs.
From stdpp Require Import base gmap list numbers option.
From Stdlib Require Import ZArith Lia.

Open Scope Z_scope.

Module McsfsRefine.
Import Mcsfs McsfsProofs.
Open Scope em_scope.

(** ** Formatting and mounting *)

Lemma ld_zero n off : 0 <= off -> off + Z.of_nat n <= 512 -> ld n zero_block off = Some 0.
Proof.
  intros Ho Hn. unfold ld, slice, zero_block. rewrite (proj2 (in_buf_true _ _ _)) by (rewrite length_replicate; lia).
  rewrite drop_replicate, take_replicate. cbn [mbind option_bind]. rewrite Nat2Z.id, Nat.min_l by lia.
  f_equal. clear. induction n as [|n IH]; [done|]. cbn [replicate le_value]. lia.
Qed.

Lemma zeroes_ok : block_ok zero_block.
Proof. split; [done|]. apply bytes_ok_replicate; unfold in_u; lia. Qed.

Lemma dent_zero i : 0 <= i < 16 -> dent zero_block i = None.
Proof. intros Hi. unfold dent, de_ino, DIRENT_SIZE. by rewrite ld_zero by lia. Qed.

Lemma st_step n b off v : block_ok b -> 0 <= off -> off + Z.of_nat n <= 512 -> exists b', st n b off v = Some b' /\ block_ok b'.
Proof. intros. apply splice_ok; rewrite ?length_le_bytes; try done. apply bytes_ok_le_bytes. Qed.

Ltac st_next b Hst Hok :=
  match goal with
  | |- context [st ?n ?b0 ?off ?v] =>
      destruct (st_step n b0 off v) as (b & Hst & Hok); [done|lia|lia|]; rewrite Hst; cbn [mbind option_bind]
  end.

Lemma super_block_spec count : 16 <= count <= 4096 ->
  exists sb, super_block count = Some sb /\ block_ok sb /\ super_fields_ok sb count = Some true.
Proof.
  intros Hc. pose proof zeroes_ok as Hz. unfold super_block.
  st_next b1 H1 K1. st_next b2 H2 K2. st_next b3 H3 K3. st_next b4 H4 K4. st_next b5 H5 K5. st_next b6 H6 K6.
  st_next b7 H7 K7. st_next b8 H8 K8. st_next b9 H9 K9. st_next b10 H10 K10. st_next b11 H11 K11. st_next b12 H12 K12.
  st_next b13 H13 K13. exists b13. split; [done|]. split; [done|].
  assert (E0 : ld 4 b13 0 = Some MCSFS1_MAGIC) by (do 12 (erewrite ld_st_disjoint by (eassumption || lia)); by apply (ld_st_same _ _ _ _ _ H1)).
  assert (E1 : ld 4 b13 4 = Some MCSFS1_VERSION) by (do 11 (erewrite ld_st_disjoint by (eassumption || lia)); by apply (ld_st_same _ _ _ _ _ H2)).
  assert (E2 : ld 4 b13 8 = Some MCSFS1_BLOCK_SIZE) by (do 10 (erewrite ld_st_disjoint by (eassumption || lia)); by apply (ld_st_same _ _ _ _ _ H3)).
  assert (E3 : ld 4 b13 12 = Some count) by (do 9 (erewrite ld_st_disjoint by (eassumption || lia)); apply (ld_st_same _ _ _ _ _ H4); unfold in_u; lia).
  assert (E4 : ld 4 b13 16 = Some MCSFS1_MAX_INODES) by (do 8 (erewrite ld_st_disjoint by (eassumption || lia)); by apply (ld_st_same _ _ _ _ _ H5)).
  assert (E5 : ld 4 b13 20 = Some MCSFS1_INODE_BMAP_LBA) by (do 7 (erewrite ld_st_disjoint by (eassumption || lia)); by apply (ld_st_same _ _ _ _ _ H6)).
  assert (E6 : ld 4 b13 24 = Some MCSFS1_BLOCK_BMAP_LBA) by (do 6 (erewrite ld_st_disjoint by (eassumption || lia)); by apply (ld_st_same _ _ _ _ _ H7)).
  assert (E7 : ld 4 b13 28 = Some MCSFS1_INODE_TABLE_LBA) by (do 5 (erewrite ld_st_disjoint by (eassumption || lia)); by apply (ld_st_same _ _ _ _ _ H8)).
  assert (E8 : ld 4 b13 36 = Some MCSFS1_ROOT_INO) by (do 3 (erewrite ld_st_disjoint by (eassumption || lia)); by apply (ld_st_same _ _ _ _ _ H10)).
  assert (E9 : ld 4 b13 40 = Some MCSFS1_ROOT_DIR_LBA) by (do 2 (erewrite ld_st_disjoint by (eassumption || lia)); by apply (ld_st_same _ _ _ _ _ H11)).
  assert (E10 : ld 4 b13 44 = Some MCSFS1_DATA_START_LBA) by (do 1 (erewrite ld_st_disjoint by (eassumption || lia)); by apply (ld_st_same _ _ _ _ _ H12)).
  unfold super_fields_ok. rewrite E0, E1, E2, E3, E4, E5, E6, E7, E8, E9, E10. cbn [mbind option_bind].
  rewrite !Z.eqb_refl. cbn [negb orb]. unfold MCSFS1_DATA_START_LBA. destruct (Z.leb_spec count 8); [lia|done].
Qed.

(** What the super block says once it is accepted. *)
Lemma super_fields sb count : super_fields_ok sb count = Some true -> ld 4 sb 12 = Some count /\ ld 4 sb 44 = Some MCSFS1_DATA_START_LBA.
Proof.
  unfold super_fields_ok. intros H.
  repeat match type of H with
  | (ld ?n ?b ?o ≫= _) = _ => destruct (ld n b o) eqn:?; [cbn [mbind option_bind] in H|done]
  | (if negb ?a || negb ?b || negb ?c then _ else _) = _ =>
      destruct (negb a || negb b || negb c) eqn:?; [done|]
  | (if negb ?a || negb ?b then _ else _) = _ => destruct (negb a || negb b) eqn:?; [done|]
  end.
  repeat match goal with
  | E : _ || _ = false |- _ => apply orb_false_iff in E as [? ?]
  | E : negb _ = false |- _ => apply negb_false_iff, Z.eqb_eq in E
  end. subst. done.
Qed.

Lemma bits_set_spec n i (b : list Z) : block_ok b -> 0 <= i -> i + Z.of_nat n <= 4096 ->
  exists b', bits_set n i b = Some b' /\ block_ok b' /\
    forall j, 0 <= j -> bm_test b' j = bool_decide (i <= j < i + Z.of_nat n) || bm_test b j.
Proof.
  revert i b. induction n as [|n IH]; intros i b Hb Hi Hn.
  { exists b. split; [done|]. split; [done|]. intros j Hj. by rewrite bool_decide_false by lia. }
  destruct (bit_set_spec b i Hb) as (b1 & E1 & K1 & T1); [lia|].
  destruct (IH (i + 1) b1 K1) as (b2 & E2 & K2 & T2); [lia|lia|].
  exists b2. cbn [bits_set]. rewrite E1. split; [done|]. split; [done|]. intros j Hj. rewrite T2, T1, orb_assoc by done. f_equal.
  repeat case_bool_decide; done || lia.
Qed.

Definition format_ib : list Z := default [] format_ibmap.
Definition format_bb : list Z := default [] format_bbmap.

Section format.
Context {D : Type} (dev : mcsfs1_blkdev D) (ok : D -> Prop) (view : D -> list (list Z)).
Context `{Hdisk : !Disk dev ok view} (Hcount : 16 <= block_count dev <= 4096).
Local Abbreviation holds := (holds ok view).
Local Abbreviation rep := (rep dev).
Local Abbreviation inv := (inv (block_count dev)).

Lemma write_zeros_spec n lba V : 0 <= lba -> lba + Z.of_nat n <= block_count dev -> vol dev V ->
  exists V', holds (write_zeros (Some dev) n lba) V (inr tt) V' /\ vol dev V' /\
    forall l : nat, V' !! l = if decide (lba <= Z.of_nat l < lba + Z.of_nat n) then Some zero_block else V !! l.
Proof.
  revert lba V. induction n as [|n IH]; intros lba V Hl Hn HV.
  { exists V. split; [apply holds_ret|]. split; [done|]. intros l. rewrite decide_False by lia. done. }
  pose proof (vol_write dev V (Z.to_nat lba) zero_block HV zeroes_ok) as HV1.
  destruct (IH (lba + 1) _ ltac:(lia) ltac:(lia) HV1) as (V' & Hw & HV' & Hz). exists V'. split; [|split; [done|]].
  - cbn [write_zeros]. eapply holds_bind; [apply (holds_write dev ok view); [lia|apply zeroes_ok]|]. exact Hw.
  - intros l. rewrite Hz. destruct HV as [HVl _]. destruct (decide (Z.of_nat l = lba)) as [E|E].
    + rewrite decide_False, decide_True by lia. subst lba. rewrite Nat2Z.id, list_lookup_insert_eq by lia. done.
    + rewrite list_lookup_insert_ne by lia. repeat case_decide; done || lia.
Qed.

Lemma format_maps : format_ibmap = Some format_ib /\ format_bbmap = Some format_bb /\ block_ok format_ib /\ block_ok format_bb /\
  bm_test format_ib 1 = true /\ forall j, 0 <= j < 8 -> bm_test format_bb j = true.
Proof.
  pose proof zeroes_ok as Hz. unfold format_ib, format_bb, format_ibmap, format_bbmap.
  destruct (bit_set_spec zero_block 0 Hz) as (i0 & E0 & K0 & _); [lia|].
  destruct (bit_set_spec i0 MCSFS1_ROOT_INO K0) as (i1 & E1 & K1 & T1); [unfold MCSFS1_ROOT_INO; lia|].
  rewrite E0. cbn [mbind option_bind]. rewrite E1. cbn [default from_option id].
  destruct (bits_set_spec 8 0 zero_block Hz) as (b0 & F0 & L0 & S0); [lia|lia|].
  destruct (bit_set_spec b0 MCSFS1_ROOT_DIR_LBA L0) as (b1 & F1 & L1 & S1); [unfold MCSFS1_ROOT_DIR_LBA; lia|].
  change (Z.to_nat MCSFS1_DATA_START_LBA) with 8%nat. rewrite F0. cbn [mbind option_bind]. rewrite F1. cbn [default from_option id].
  split_and!; try done.
  - rewrite T1 by lia. by rewrite bool_decide_true.
  - intros j Hj. rewrite S1, S0 by lia. by rewrite (bool_decide_true (0 <= j < _)), orb_true_r by lia.
Qed.

Lemma wf_root_inode : wf_inode root_inode.
Proof. split; cbn [i_mode i_links i_size i_direct i_reserved root_inode replicate]; try (unfold in_u, MCSFS1_MODE_DIR, MCSFS1_BLOCK_SIZE, MCSFS1_ROOT_DIR_LBA; lia). all: split; [done|]; repeat (apply Forall_cons_2; [unfold in_u, MCSFS1_ROOT_DIR_LBA; lia|]); apply Forall_nil_2. Qed.

Lemma format_ok V : vol dev V -> leads dev ok view (mcsfs1_format (Some dev)) V (inr tt) ∅.
Proof.
  intros HV. destruct (write_zeros_spec (Z.to_nat (block_count dev)) 0 V) as (V1 & Hw1 & HV1 & Hz); [lia|lia|done|].
  destruct (super_block_spec (block_count dev) Hcount) as (sb & Esb & Ksb & Hsb).
  pose proof (vol_write dev V1 0 sb HV1 Ksb) as HV2.
  destruct (rep_exists dev Hcount _ HV2) as (st0 & Hrep0).
  assert (Hsb0 : f_sb st0 = sb).
  { pose proof (p_sb _ _ _ Hrep0) as H. rewrite list_lookup_insert_eq in H; [congruence|]. destruct HV1. lia. }
  assert (Hdir0 : f_dir st0 = zero_block).
  { pose proof (p_dir _ _ _ Hrep0) as H. rewrite list_lookup_insert_ne in H by lia. rewrite Hz, decide_True in H by lia. congruence. }
  destruct format_maps as (Eib & Ebb & Kib & Kbb & Tib & Tbb).
  destruct (holds_store_bmaps dev ok view Hcount _ st0 format_ib format_bb Hrep0 Kib Kbb) as (V3 & Hw3 & Hrep3).
  destruct (holds_put_node dev ok view Hcount V3 _ MCSFS1_ROOT_INO root_inode Hrep3) as (V4 & Hw4 & Hrep4);
    [unfold MCSFS1_ROOT_INO; lia|apply wf_root_inode|].
  eexists V4, _. split_and!; [|exact Hrep4| |].
  - unfold mcsfs1_format. unfold MCSFS1_MIN_BLOCKS, MCSFS1_BLOCK_SIZE. change (512 * 8) with 4096.
    destruct (Z.ltb_spec (block_count dev) 16); [lia|]. destruct (Z.ltb_spec 4096 (block_count dev)); [lia|]. cbn [orb].
    eapply holds_bind; [exact Hw1|]. eapply holds_bind_lift; [exact Esb|].
    eapply holds_bind; [apply (holds_write dev ok view); [unfold MCSFS1_SB_LBA; lia|done]|].
    eapply holds_bind_lift; [exact Eib|]. eapply holds_bind_lift; [exact Ebb|].
    eapply holds_bind; [exact Hw3|]. eapply holds_bind; [exact Hw4|]. by apply (holds_flush dev ok view).
  - split; cbn [set_node set_bm f_sb f_ib f_bb f_dir f_node f_dat].
    + by rewrite Hsb0.
    + by rewrite decide_True.
    + exact Tib.
    + exact Tbb.
    + intros * [Hi Hd]; cbn in Hd; rewrite Hdir0, dent_zero in Hd; done.
    + intros * [Hi Hd]; cbn in Hd; rewrite Hdir0, dent_zero in Hd; done.
    + intros * [Hi Hd]; cbn in Hd; rewrite Hdir0, dent_zero in Hd; done.
    + intros * [Hi Hd]; cbn in Hd; rewrite Hdir0, dent_zero in Hd; done.
  - intros nm c. split; [by rewrite lookup_empty|]. intros (i & ino & [Hi Hd] & _). cbn in Hd. rewrite Hdir0, dent_zero in Hd; done.
Qed.

Lemma fs_mount_ok V st : rep V st -> inv st -> holds (mcsfs1_mount true (Some dev)) V (inr (mnt_of dev MCSFS1_DATA_START_LBA)) V.
Proof.
  intros Hrep Hinv. pose proof (in_super _ _ Hinv) as Hs. destruct (super_fields _ _ Hs) as [E1 E2].
  unfold mcsfs1_mount. cbn [negb orb]. eapply holds_bind.
  { unfold load_super. eapply holds_bind; [apply (holds_read dev ok view); [unfold MCSFS1_SB_LBA; lia|apply (p_sb _ _ _ Hrep)]|].
    apply holds_count. eapply holds_bind_lift; [exact Hs|]. apply holds_ret. }
  eapply holds_bind; [apply (holds_get_node dev ok view Hcount _ st); [done|unfold MCSFS1_ROOT_INO; lia]|].
  eapply holds_bind_lift; [exact (in_root _ _ Hinv)|]. eapply holds_bind_lift; [exact E1|]. eapply holds_bind_lift; [exact E2|].
  apply holds_ret.
Qed.

End format.

(** ** The file system as a map of files *)

Inductive fop :=
| Create (nm : list Z)
| Write (nm bs : list Z)
| Read (nm buf : list Z)
| Unlink (nm : list Z)
| Fsck.

(** A string argument: its bytes and the terminating NUL. *)
Definition cstr (nm : list Z) : option (list Z) := Some (nm ++ [0]).

(** One call on a mounted volume; a read answers the buffer and its length. *)
Definition frun {D} (mnt : mcsfs1_mount_t D) (op : fop) : em D (list Z * Z) :=
  match op with
  | Create nm => mcsfs1_create (Some mnt) (cstr nm) ;;; em_ret ([], 0)
  | Write nm bs => mcsfs1_write (Some mnt) (cstr nm) (Some bs) (Z.of_nat (length bs)) ;;; em_ret ([], 0)
  | Read nm buf => mcsfs1_read (Some mnt) (cstr nm) (Some buf) (Z.of_nat (length buf)) true
  | Unlink nm => mcsfs1_unlink (Some mnt) (cstr nm) ;;; em_ret ([], 0)
  | Fsck => mcsfs1_fsck (m_dev mnt) ;;; em_ret ([], 0)
  end.

Definition fop_ok (op : fop) : Prop :=
  match op with
  | Create nm | Read nm _ | Unlink nm => str_ok nm
  | Write nm bs => str_ok nm /\ bytes_ok bs
  | Fsck => True
  end.

Abbreviation files := (gmap (list Z) (list Z)).

(** The abstract file system: [isfull] says whether space has run out. *)
Definition on_file (F : files) (nm : list Z) (r : Z + list Z * Z) (F' : files) (k : list Z -> Prop) : Prop :=
  match name_err nm, F !! nm with
  | Some e, _ => r = inl e /\ F' = F
  | None, None => r = inl MCSFS1_ERR_NOENT /\ F' = F
  | None, Some c => k c
  end.

Definition done_or_full (isfull : Prop) (F : files) (r : Z + list Z * Z) (F' F1 : files) : Prop :=
  (r = inr ([], 0) /\ F' = F1) \/ (isfull /\ r = inl MCSFS1_ERR_NOSPC /\ F' = F).

Definition fspec (isfull : Prop) (F : files) (op : fop) (r : Z + list Z * Z) (F' : files) : Prop :=
  match op with
  | Create nm =>
      match name_err nm, F !! nm with
      | Some e, _ => r = inl e /\ F' = F
      | None, Some _ => r = inl MCSFS1_ERR_EXIST /\ F' = F
      | None, None => done_or_full isfull F r F' (<[nm := []]> F)
      end
  | Write nm bs =>
      if 4096 <? Z.of_nat (length bs) then r = inl MCSFS1_ERR_RANGE /\ F' = F
      else on_file F nm r F' (fun _ => done_or_full isfull F r F' (<[nm := bs]> F))
  | Read nm buf =>
      on_file F nm r F' (fun c => F' = F /\
        r = if (length buf <? length c)%nat then inl MCSFS1_ERR_RANGE else inr (c ++ drop (length c) buf, Z.of_nat (length c)))
  | Unlink nm => on_file F nm r F' (fun _ => r = inr ([], 0) /\ F' = delete nm F)
  | Fsck => r = inr ([], 0) /\ F' = F
  end.

(** A disk holding a well-formed volume with the files [F]. *)
Definition volume {D} (dev : mcsfs1_blkdev D) (ok : D -> Prop) (view : D -> list (list Z)) (d : D) (F : files) : Prop :=
  ok d /\ exists st, rep dev (view d) st /\ inv (block_count dev) st /\ files_rel st F.

Definition volume_full {D} (dev : mcsfs1_blkdev D) (view : D -> list (list Z)) (d : D) : Prop :=
  exists st, rep dev (view d) st /\ full (block_count dev) st.

Section refine.
Context {D : Type} (dev : mcsfs1_blkdev D) (ok : D -> Prop) (view : D -> list (list Z)).
Context `{Hdisk : !Disk dev ok view} (Hcount : 16 <= block_count dev <= 4096).
Local Abbreviation leads := (leads dev ok view).
Local Abbreviation leads_full := (leads_full dev ok view).
Local Abbreviation volume := (volume dev ok view).
Local Abbreviation volume_full := (volume_full dev view).
Local Abbreviation mnt := (mnt_of dev MCSFS1_DATA_START_LBA).

(** A computation run from a disk satisfies the abstract step. *)
Definition meets (m : em D (list Z * Z)) (F : files) (op : fop) (d : D) : Prop :=
  exists r d' F', m d = Some (r, d') /\ volume d' F' /\ fspec (volume_full d') F op r F'.

Lemma leads_run {A} (m : em D A) d r F' : ok d -> leads m (view d) r F' -> exists d', m d = Some (r, d') /\ volume d' F'.
Proof.
  intros Hok (V' & st & Hm & Hrep & Hinv & HF). destruct (Hm d Hok eq_refl) as (d' & Hr & Hok' & <-).
  exists d'. split; [done|]. split; [done|]. by exists st.
Qed.

Lemma leads_full_run {A} (m : em D A) d F : ok d -> leads_full m (view d) F ->
  exists d', m d = Some (inl MCSFS1_ERR_NOSPC, d') /\ volume d' F /\ volume_full d'.
Proof.
  intros Hok (V' & st & Hm & Hrep & Hinv & HF & Hfull). destruct (Hm d Hok eq_refl) as (d' & Hr & Hok' & <-).
  exists d'. split; [done|]. split; [split; [done|]; by exists st|by exists st].
Qed.

(** A call without output, then the empty answer. *)
Lemma unit_run (m : em D unit) d r d' : m d = Some (r, d') ->
  (m ;;; em_ret ([] : list Z, 0)) d = Some (match r with inl e => inl e | inr _ => inr ([], 0) end, d').
Proof. intros H. unfold em_bind. rewrite H. by destruct r. Qed.

Lemma unit_meets (m : em D unit) d r F' F op : ok d -> leads m (view d) r F' ->
  (forall P, fspec P F op (match r with inl e => inl e | inr _ => inr ([], 0) end) F') ->
  meets (m ;;; em_ret ([], 0)) F op d.
Proof.
  intros Hok Hl Hs. destruct (leads_run m d r F' Hok Hl) as (d' & Hr & Hv). eexists _, d', F'. split; [by apply unit_run|]. by split.
Qed.

Lemma unit_full_meets (m : em D unit) d F op : ok d -> leads_full m (view d) F ->
  (forall P : Prop, P -> fspec P F op (inl MCSFS1_ERR_NOSPC) F) -> meets (m ;;; em_ret ([], 0)) F op d.
Proof.
  intros Hok Hl Hs. destruct (leads_full_run m d F Hok Hl) as (d' & Hr & Hv & Hf). eexists _, d', F. split; [by apply unit_run|].
  split; [done|]. by apply Hs.
Qed.

Lemma op_meets op d F : volume d F -> fop_ok op -> meets (frun mnt op) F op d.
Proof.
  intros (Hok & st & Hrep & Hinv & HF) Hop. destruct op as [nm|nm bs|nm buf|nm|]; cbn [frun fop_ok cstr] in *.
  - pose proof (create_rel dev ok view Hcount MCSFS1_DATA_START_LBA _ st F nm [] Hrep Hinv HF Hop) as H. cbn zeta in H.
    destruct (name_err nm) as [e|] eqn:E1; [by eapply unit_meets; [done|exact H|intros P; cbn; rewrite E1]|].
    destruct (F !! nm) eqn:E2; [by eapply unit_meets; [done|exact H|intros P; cbn; rewrite E1, E2]|].
    destruct H as [[Hfull H]|H].
    + eapply unit_full_meets; [done|by eapply (leads_full_same dev ok view)|]. intros P HP. cbn. rewrite E1, E2. by right.
    + eapply unit_meets; [done|exact H|]. intros P. cbn. rewrite E1, E2. by left.
  - destruct Hop as [Hstr Hbs]. pose proof (fs_write_rel dev ok view Hcount MCSFS1_DATA_START_LBA _ st F nm [] bs Hrep Hinv HF Hstr Hbs) as H.
    cbn zeta in H. destruct (4096 <? Z.of_nat (length bs)) eqn:E0; [by eapply unit_meets; [done|exact H|intros P; cbn; rewrite E0]|].
    destruct (name_err nm) as [e|] eqn:E1; [by eapply unit_meets; [done|exact H|intros P; cbn; unfold on_file; rewrite E0, E1]|].
    destruct (F !! nm) eqn:E2; [|by eapply unit_meets; [done|exact H|intros P; cbn; unfold on_file; rewrite E0, E1, E2]].
    destruct H as [H|H].
    + eapply unit_full_meets; [done|exact H|]. intros P HP. cbn. unfold on_file. rewrite E0, E1, E2. by right.
    + eapply unit_meets; [done|exact H|]. intros P. cbn. unfold on_file. rewrite E0, E1, E2. by left.
  - pose proof (fs_read_rel dev ok view Hcount MCSFS1_DATA_START_LBA _ st F nm [] buf Hrep Hinv HF Hop) as H. cbn zeta in H.
    destruct (H d Hok eq_refl) as (d' & Hr & Hok' & Hv). eexists _, d', F. split; [exact Hr|]. split.
    { split; [done|]. exists st. by rewrite Hv. }
    cbn. unfold on_file. destruct (name_err nm); [done|]. by destruct (F !! nm).
  - pose proof (unlink_rel dev ok view Hcount MCSFS1_DATA_START_LBA _ st F nm [] Hrep Hinv HF Hop) as H. cbn zeta in H.
    destruct (name_err nm) as [e|] eqn:E1; [by eapply unit_meets; [done|exact H|intros P; cbn; unfold on_file; rewrite E1]|].
    destruct (F !! nm) eqn:E2; [apply leads_room_leads in H|];
      eapply unit_meets; try exact H; try done; intros P; cbn; unfold on_file; by rewrite E1, E2.
  - apply (unit_meets _ d (inr tt) F); [done| |by intros P].
    apply (leads_same dev ok view _ _ st); try done. by apply (fsck_ok dev ok view Hcount _ st).
Qed.

(** ** MCSFS1 *)

(** C9. On a driver that stores blocks, MCSFS1 is a map from names to file
    contents: formatting any disk of 16 to 4096 blocks and mounting it
    succeeds and yields the empty map, and from every volume representing a
    map [F] each of create, write, read, unlink and fsck returns the result
    the map prescribes (including every error code, with NOSPC only when
    slots, inodes or blocks have run out) and leaves a volume that represents
    the map after the operation, consistent by its own fsck.  The operations take any
    names but those of exactly 27 bytes. *)
Theorem mcsfs_refines_files :
  (forall d, ok d -> exists d', (mcsfs1_format (Some dev) ;;; mcsfs1_mount true (Some dev)) d = Some (inr mnt, d') /\ volume d' ∅) /\
  (forall d F op, volume d F -> fop_ok op ->
    exists r d' F', frun mnt op d = Some (r, d') /\ volume d' F' /\ fspec (volume_full d') F op r F').
Proof.
  split; [|exact (fun d F op => op_meets op d F)]. intros d Hok.
  assert (HV : vol dev (view d)) by (split; [by apply dk_len|by apply (dk_blocks (dev := dev))]).
  destruct (leads_run _ d _ _ Hok (format_ok dev ok view Hcount _ HV)) as (d1 & Hr & Hok1 & st & Hrep & Hinv & HF).
  destruct (fs_mount_ok dev ok view Hcount _ st Hrep Hinv d1 Hok1 eq_refl) as (d2 & Hm & Hok2 & Hv2).
  exists d2. split; [by rewrite (em_bind_ok _ _ _ _ _ Hr)|]. split; [done|]. exists st. by rewrite Hv2.
Qed.

(** C40. Removing a file gives its space back: from every volume with a file
    [nm], unlink succeeds and removes exactly that file, and the volume it
    leaves is not full, so that creating any new file with a valid name then
    succeeds, even when the volume had no slot, inode or block left before. *)
Theorem mcsfs_unlink_frees d F nm c :
  volume d F -> str_ok nm -> name_err nm = None -> F !! nm = Some c ->
  exists d1, frun mnt (Unlink nm) d = Some (inr ([], 0), d1) /\ volume d1 (delete nm F) /\ ~ volume_full d1 /\
    forall nm', str_ok nm' -> name_err nm' = None -> delete nm F !! nm' = None ->
      exists d2, frun mnt (Create nm') d1 = Some (inr ([], 0), d2) /\ volume d2 (<[nm' := []]> (delete nm F)).
Proof.
  intros (Hok & st & Hrep & Hinv & HF) Hnm Hne HFnm.
  pose proof (unlink_rel dev ok view Hcount MCSFS1_DATA_START_LBA _ st F nm [] Hrep Hinv HF Hnm) as H. cbn zeta in H.
  rewrite Hne, HFnm in H. destruct H as (V1 & st1 & Hm & Hrep1 & Hinv1 & HF1 & Hroom).
  destruct (Hm d Hok eq_refl) as (d1 & Hr & Hok1 & <-). exists d1. split; [exact (unit_run _ _ _ _ Hr)|].
  split; [split; [done|by exists st1]|]. split.
  { intros (st2 & Hrep2 & Hfull). apply Hroom. revert Hfull. unfold full.
    pose proof (p_dir _ _ _ Hrep1) as D1. pose proof (p_ib _ _ _ Hrep1) as I1. pose proof (p_bb _ _ _ Hrep1) as B1.
    rewrite (p_dir _ _ _ Hrep2) in D1. rewrite (p_ib _ _ _ Hrep2) in I1. rewrite (p_bb _ _ _ Hrep2) in B1.
    injection D1 as ->. injection I1 as ->. by injection B1 as ->. }
  intros nm' Hnm' Hne' HFn.
  pose proof (create_rel dev ok view Hcount MCSFS1_DATA_START_LBA _ st1 _ nm' [] Hrep1 Hinv1 HF1 Hnm') as H. cbn zeta in H.
  rewrite Hne', HFn in H. destruct H as [[Hfull _]|H]; [done|].
  destruct (leads_run _ d1 _ _ Hok1 H) as (d2 & Hr2 & Hv2). exists d2. split; [exact (unit_run _ _ _ _ Hr2)|done].
Qed.

End refine.

(** ** A RAM disk *)

Definition ram_read (lba : Z) (d : list (list Z)) : option (Z * list Z * list (list Z)) :=
  b ← arr_get d lba; Some (0, b, d).
Definition ram_write (lba : Z) (b : list Z) (d : list (list Z)) : option (Z * list (list Z)) :=
  d' ← arr_set d lba b; Some (0, d').
Definition ram_dev : mcsfs1_blkdev (list (list Z)) :=
  mk_blkdev 24 (Some ram_read) (Some ram_write) (Some (fun d => Some (0, d))).
Definition ram_ok (d : list (list Z)) : Prop := length d = 24%nat /\ Forall block_ok d.

#[export] Instance ram_disk : Disk ram_dev ram_ok id.
Proof.
  split; unfold ram_ok, id; cbn [block_count dread dwrite dflush ram_dev].
  - intros d [Hl _]. lia.
  - by intros d [_ Hb].
  - intros d lba b [Hl _] Hlba Hb. exists ram_read. split; [done|]. unfold ram_read.
    unfold arr_get. destruct (Z.ltb_spec lba 0); [lia|]. by rewrite Hb.
  - intros d lba b [Hl Hbs] Hlba Hb. exists ram_write, (<[Z.to_nat lba := b]> d). split; [done|].
    unfold ram_write. rewrite arr_set_Some by lia. split; [done|]. split; [|done].
    split; [by rewrite length_insert|by apply Forall_insert].
  - intros d Hd. by eexists _, d.
Qed.

(** The RAM disk of 24 blocks starts with whatever bytes it holds. *)
Definition ram_any : list (list Z) := replicate 24 (replicate 512 9).

Lemma ram_any_ok : ram_ok ram_any.
Proof. split; [done|]. apply Forall_replicate. split; [done|]. apply bytes_ok_replicate; unfold in_u; lia. Qed.

Lemma mcsfs_refines_files_witness :
  exists d F r d', volume ram_dev ram_ok id d F /\ F = ∅ /\
    frun (mnt_of ram_dev MCSFS1_DATA_START_LBA) (Create [97]) d = Some (r, d').
Proof.
  destruct (mcsfs_refines_files ram_dev ram_ok id ltac:(cbn; lia)) as [Hf Ho].
  destruct (Hf ram_any ram_any_ok) as (d & _ & Hv).
  destruct (Ho d ∅ (Create [97]) Hv) as (r & d' & F' & Hr & _).
  { split; [repeat constructor; lia|repeat constructor; unfold in_u; lia|done]. }
  exists d, ∅, r, d'. done.
Defined.

Lemma name_a_ok c : c = 97 \/ c = 98 -> str_ok [c].
Proof. intros [-> | ->]; (split; [repeat constructor; lia|repeat constructor; unfold in_u; lia|done]). Qed.

(** A volume with the one file "a". *)
Lemma ram_volume : exists d, volume ram_dev ram_ok id d {[ [97] := [] ]}.
Proof.
  assert (HV : vol ram_dev (id ram_any)) by (split; [by apply dk_len, ram_any_ok|by apply (dk_blocks (dev := ram_dev)), ram_any_ok]).
  destruct (leads_run ram_dev ram_ok id _ ram_any _ _ ram_any_ok (format_ok ram_dev ram_ok id ltac:(cbn; lia) _ HV)) as (d & Hr & Hv).
  destruct (op_meets ram_dev ram_ok id ltac:(cbn; lia) (Create [97]) d ∅ Hv) as (r & d' & F' & Hc & Hv' & Hs); [apply name_a_ok; auto|].
  exists d'. assert (E : fst <$> (mcsfs1_format (Some ram_dev) ;;; frun (mnt_of ram_dev MCSFS1_DATA_START_LBA) (Create [97])) ram_any
    = Some (inr ([], 0))) by (vm_compute; reflexivity).
  rewrite (em_bind_ok _ _ _ _ _ Hr), Hc in E. cbn in E. injection E as ->.
  destruct Hs as [[_ ->]|(_ & ? & _)]; [exact Hv'|done].
Qed.

Lemma mcsfs_unlink_frees_witness :
  exists d d1 d2, volume ram_dev ram_ok id d {[ [97] := [] ]} /\
    frun (mnt_of ram_dev MCSFS1_DATA_START_LBA) (Unlink [97]) d = Some (inr ([], 0), d1) /\
    frun (mnt_of ram_dev MCSFS1_DATA_START_LBA) (Create [98]) d1 = Some (inr ([], 0), d2).
Proof.
  destruct ram_volume as [d Hv].
  destruct (mcsfs_unlink_frees ram_dev ram_ok id ltac:(cbn; lia) d {[ [97] := [] ]} [97] [] Hv) as (d1 & Hu & _ & _ & Hc);
    [apply name_a_ok; auto|reflexivity|reflexivity|].
  destruct (Hc [98]) as (d2 & H2 & _); [apply name_a_ok; auto|reflexivity|reflexivity|].
  exists d, d1, d2. split; [exact Hv|]. split; [exact Hu|exact H2].
Defined.

(** ** Names as long as the field *)

Definition long_name : list Z := replicate 27 97.

(** Both answers of a read of the long name, before and after the second file. *)
Definition long_name_run : em (list (list Z)) ((Z + list Z * Z) * (Z + list Z * Z)) :=
  mcsfs1_format (Some ram_dev) ;;;
  mnt <~ mcsfs1_mount true (Some ram_dev) ;;
  frun mnt (Create long_name) ;;;
  before <~ em_catch (frun mnt (Read long_name [])) ;;
  frun mnt (Create [98]) ;;;
  after <~ em_catch (frun mnt (Read long_name [])) ;;
  em_ret (before, after).

(** A file whose name has exactly 27 bytes, the longest [valid_name]
    accepts, can be lost: it is read back after its creation, but once a second
    file has been created, also with success, it is not found any more.  The entry's
    name field holds 27 bytes without a NUL, and [find_dirent] measures it
    with a bound of 28, which runs into the inode number of the next entry. *)
Example mcsfs_long_name_lost :
  name_err long_name = None /\
  (fst <$> long_name_run ram_any) = Some (inr (inr ([], 0), inl MCSFS1_ERR_NOENT)).
Proof. split; vm_compute; reflexivity. Qed.

End McsfsRefine.
