(* ===== verification/Machine.v ===== *)
(** * The machine under the drivers

    Port input and output, the processor state the drivers change, and the
    monad of driver code.  Hardware is a parameter: [ports] over a state [W].
    The class [Board] states the documented behaviour of the chips the kernel
    programs (16550 serial port, two 8259A interrupt controllers, 8254 timer)
    as a state machine on the writes to their registers; what a driver does
    is then a statement about the states of the chips. *)
From S2P Require Import Prelude.
From stdpp Require Import base list numbers option strings.
From Stdlib Require Import ZArith Lia Strings.Ascii.

Open Scope Z_scope.

Module Machine.

(** ** Code that may stop for good *)

(** [Halted]: the processor stays in a [hlt] loop; [Spin]: a busy wait used
    up its fuel; [Undef]: undefined behaviour. *)
Inductive out (S A : Type) : Type :=
| Ret (a : A) (s : S)
| Halted (s : S)
| Spin
| Undef.
Arguments Ret {S A} a s.
Arguments Halted {S A} s.
Arguments Spin {S A}.
Arguments Undef {S A}.

Definition cm (S A : Type) : Type := S -> out S A.

Definition cm_ret {S A} (a : A) : cm S A := fun s => Ret a s.
Definition cm_halt {S A} : cm S A := fun s => Halted s.
Definition cm_lift {S A} (o : option A) : cm S A := fun s => match o with Some a => Ret a s | None => Undef end.
Definition cm_bind {S A B} (m : cm S A) (k : A -> cm S B) : cm S B :=
  fun s => match m s with Ret a s => k a s | Halted s => Halted s | Spin => Spin | Undef => Undef end.

Declare Scope cm_scope.
Delimit Scope cm_scope with cm.
Notation "x <- m ;; k" := (cm_bind m (fun x => k))
  (at level 100, m at next level, right associativity) : cm_scope.
Notation "m ;;; k" := (cm_bind m (fun _ => k))
  (at level 100, right associativity) : cm_scope.

(** ** Strings *)

(** The characters of a literal, and the literal with its NUL. *)
Definition text (s : string) : list Z := map (fun c => Z.of_N (N_of_ascii c)) (String.list_ascii_of_string s).
Definition lit (s : string) : list Z := text s ++ [0].
(** A literal that ends in a newline. *)
Definition litn (s : string) : list Z := text s ++ [10; 0].

(** ** Ports *)

Record ports (W : Type) := mk_ports { p_in : Z -> W -> Z * W; p_out : Z -> Z -> W -> W }.
Arguments mk_ports {W} _ _.
Arguments p_in {W} _ _ _.
Arguments p_out {W} _ _ _ _.

(** Processor state, and the static variables [G] of the program. *)
Record rest (G : Type) := mk_rest { iflag : bool; idtr : Z * Z; cs : Z; glob : G }.
Arguments mk_rest {G} _ _ _ _.
Arguments iflag {G} _.
Arguments idtr {G} _.
Arguments cs {G} _.
Arguments glob {G} _.

Record mach (W G : Type) := mk_mach { hw : W; rst : rest G }.
Arguments mk_mach {W G} _ _.
Arguments hw {W G} _.
Arguments rst {W G} _.

Section code.
Context {W G : Type} (P : ports W).
Local Abbreviation M := (cm (mach W G)).

Definition inb (port : Z) : M Z :=
  fun s => let '(v, w) := p_in P port (hw s) in Ret v (mk_mach w (rst s)).
Definition outb (port value : Z) : M unit :=
  fun s => Ret tt (mk_mach (p_out P port value (hw s)) (rst s)).
Definition io_wait : M unit := outb 0x80 0.

Definition set_rest (f : rest G -> rest G) : M unit := fun s => Ret tt (mk_mach (hw s) (f (rst s))).
Definition get_rest {A} (f : rest G -> A) : M A := fun s => Ret (f (rst s)) s.

Definition cpu_cli : M unit := set_rest (fun r => mk_rest false (idtr r) (cs r) (glob r)).
Definition cpu_sti : M unit := set_rest (fun r => mk_rest true (idtr r) (cs r) (glob r)).
Definition x86_64_read_cs : M Z := get_rest cs.
Definition lidt (limit base : Z) : M unit := set_rest (fun r => mk_rest (iflag r) (limit, base) (cs r) (glob r)).

Definition get_glob {A} (f : G -> A) : M A := get_rest (fun r => f (glob r)).
Definition set_glob (f : G -> G) : M unit :=
  set_rest (fun r => mk_rest (iflag r) (idtr r) (cs r) (f (glob r))).

End code.

(** ** Chips *)

Record uart := mk_uart { dlab : bool; sent : list Z }.
(** [icw]: initialisation words still expected; [eois]: end-of-interrupts received. *)
Record pic := mk_pic { pbase : Z; imr : Z; icw : nat; eois : Z }.
(** [low]: the low byte of a reload value whose high byte is still to come. *)
Record pit := mk_pit { low : option Z; reload : Z }.
Record chips := mk_chips { c_uart : uart; c_pic1 : pic; c_pic2 : pic; c_pit : pit }.

Definition with_uart (c : chips) (u : uart) : chips := mk_chips u (c_pic1 c) (c_pic2 c) (c_pit c).
Definition with_pic1 (c : chips) (p : pic) : chips := mk_chips (c_uart c) p (c_pic2 c) (c_pit c).
Definition with_pic2 (c : chips) (p : pic) : chips := mk_chips (c_uart c) (c_pic1 c) p (c_pit c).
Definition with_pit (c : chips) (p : pit) : chips := mk_chips (c_uart c) (c_pic1 c) (c_pic2 c) p.

(** Writes whose effect is not documented here give [None]. *)
Definition pic_cmd (v : Z) (p : pic) : option pic :=
  if v =? 0x11 then Some (mk_pic (pbase p) 0 3 (eois p))
  else if v =? 0x20 then Some (mk_pic (pbase p) (imr p) (icw p) (eois p + 1))
  else None.

Definition pic_data (v : Z) (p : pic) : pic :=
  match icw p with
  | 3%nat => mk_pic (Z.land v 0xF8) (imr p) 2 (eois p)
  | 0%nat => mk_pic (pbase p) v 0 (eois p)
  | S n => mk_pic (pbase p) (imr p) n (eois p)
  end.

Definition pit_data (v : Z) (p : pit) : pit :=
  match low p with
  | None => mk_pit (Some v) (reload p)
  | Some l => mk_pit None (l + 256 * v)
  end.

Definition chips_out (port v : Z) (c : chips) : option chips :=
  if port =? 0x3F8 then Some (if dlab (c_uart c) then c else with_uart c (mk_uart false (sent (c_uart c) ++ [v])))
  else if port =? 0x3FB then Some (with_uart c (mk_uart (Z.testbit v 7) (sent (c_uart c))))
  else if port =? 0x20 then with_pic1 c <$> pic_cmd v (c_pic1 c)
  else if port =? 0x21 then Some (with_pic1 c (pic_data v (c_pic1 c)))
  else if port =? 0xA0 then with_pic2 c <$> pic_cmd v (c_pic2 c)
  else if port =? 0xA1 then Some (with_pic2 c (pic_data v (c_pic2 c)))
  else if port =? 0x43 then (if v =? 0x36 then Some (with_pit c (mk_pit None (reload (c_pit c)))) else None)
  else if port =? 0x40 then Some (with_pit c (pit_data v (c_pit c)))
  else Some c.

(** What a read of a register answers where that is documented. *)
Definition chips_in (port : Z) (c : chips) : option Z :=
  if (port =? 0x21) && Nat.eqb (icw (c_pic1 c)) 0 then Some (imr (c_pic1 c))
  else if (port =? 0xA1) && Nat.eqb (icw (c_pic2 c)) 0 then Some (imr (c_pic2 c))
  else None.

(** The line status register says after exactly [k] polls that a character
    may be sent. *)
Fixpoint ready_after {W} (P : ports W) (k : nat) (w : W) : Prop :=
  match k with
  | O => Z.testbit (fst (p_in P 0x3FD w)) 5 = true
  | S k => Z.testbit (fst (p_in P 0x3FD w)) 5 = false /\ ready_after P k (snd (p_in P 0x3FD w))
  end.

Class Board {W} (P : ports W) (view : W -> chips) (patience : nat) : Prop := {
  bd_out : forall w port v c, chips_out port v (view w) = Some c -> view (p_out P port v w) = c;
  bd_in_keep : forall w port, view (snd (p_in P port w)) = view w;
  bd_in : forall w port v, chips_in port (view w) = Some v -> fst (p_in P port w) = v;
  bd_ready : forall w, exists k, (k <= patience)%nat /\ ready_after P k w
}.

(** ** Driver code as a relation on chips and processor state *)

Section effects.
Context {W G : Type} (P : ports W) (view : W -> chips) (patience : nat).
Context `{Hboard : !Board P view patience}.
Local Abbreviation M := (cm (mach W G)).

Definition effect {A} (m : M A) (c : chips) (r : rest G) (a : A) (c' : chips) (r' : rest G) : Prop :=
  forall w, view w = c -> exists w', m (mk_mach w r) = Ret a (mk_mach w' r') /\ view w' = c'.

(** The code ends in the halt loop. *)
Definition halts {A} (m : M A) (c : chips) (r : rest G) (c' : chips) (r' : rest G) : Prop :=
  forall w, view w = c -> exists w', m (mk_mach w r) = Halted (mk_mach w' r') /\ view w' = c'.

Lemma eff_ret {A} (a : A) c r : effect (cm_ret a) c r a c r.
Proof. intros w Hw. by exists w. Qed.

Lemma eff_lift {A} (o : option A) a c r : o = Some a -> effect (cm_lift o) c r a c r.
Proof. intros -> w Hw. by exists w. Qed.

Lemma eff_bind {A B} (m : M A) (k : A -> M B) c r a c1 r1 b c2 r2 :
  effect m c r a c1 r1 -> effect (k a) c1 r1 b c2 r2 -> effect (cm_bind m k) c r b c2 r2.
Proof. intros H1 H2 w Hw. destruct (H1 w Hw) as (w1 & E1 & Hw1). unfold cm_bind. rewrite E1. by apply H2. Qed.

Lemma eff_bind_halts {A B} (m : M A) (k : A -> M B) c r a c1 r1 c2 r2 :
  effect m c r a c1 r1 -> halts (k a) c1 r1 c2 r2 -> halts (cm_bind m k) c r c2 r2.
Proof. intros H1 H2 w Hw. destruct (H1 w Hw) as (w1 & E1 & Hw1). unfold cm_bind. rewrite E1. by apply H2. Qed.

Lemma halts_bind {A B} (m : M A) (k : A -> M B) c r c2 r2 :
  halts m c r c2 r2 -> halts (cm_bind m k) c r c2 r2.
Proof. intros H1 w Hw. destruct (H1 w Hw) as (w1 & E1 & Hw1). exists w1. unfold cm_bind. by rewrite E1. Qed.

Lemma halts_now {A} c r : halts (A := A) cm_halt c r c r.
Proof. intros w Hw. by exists w. Qed.

Lemma eff_outb port v c r c' : chips_out port v c = Some c' -> effect (outb P port v) c r tt c' r.
Proof. intros H w <-. exists (p_out P port v w). split; [done|]. by apply bd_out. Qed.

Lemma eff_inb port v c r : chips_in port c = Some v -> effect (inb P port) c r v c r.
Proof.
  intros H w <-. exists (snd (p_in P port w)). split; [|apply bd_in_keep]. unfold inb. cbn [hw rst].
  rewrite <- (bd_in w port v H). by destruct (p_in P port w).
Qed.

Lemma eff_set_rest f c r : effect (set_rest f) c r tt c (f r).
Proof. intros w Hw. by exists w. Qed.

Lemma eff_get_rest {A} (f : rest G -> A) c r : effect (get_rest f) c r (f r) c r.
Proof. intros w Hw. by exists w. Qed.

Definition with_glob (r : rest G) (g : G) : rest G := mk_rest (iflag r) (idtr r) (cs r) g.

Lemma eff_set_glob f c r : effect (set_glob f) c r tt c (with_glob r (f (glob r))).
Proof. intros w Hw. by exists w. Qed.

Lemma eff_sti c r : effect cpu_sti c r tt c (mk_rest true (idtr r) (cs r) (glob r)).
Proof. intros w Hw. by exists w. Qed.

Lemma eff_cli c r : effect cpu_cli c r tt c (mk_rest false (idtr r) (cs r) (glob r)).
Proof. intros w Hw. by exists w. Qed.

Lemma eff_get_glob {A} (f : G -> A) c r : effect (get_glob f) c r (f (glob r)) c r.
Proof. intros w Hw. by exists w. Qed.

End effects.

(** ** A board *)

(** The chips, and whether the next poll finds the transmitter busy. *)
Definition sim_ports : ports (chips * bool) :=
  mk_ports
    (fun port (s : chips * bool) =>
       if port =? 0x3FD then (if snd s then (0, (fst s, false)) else (0x20, s))
       else (default 0 (chips_in port (fst s)), s))
    (fun port v (s : chips * bool) => (default (fst s) (chips_out port v (fst s)), port =? 0x3F8)).

#[export] Instance sim_board : Board sim_ports fst 1.
Proof.
  split; unfold sim_ports; cbn [p_in p_out].
  - intros [c b] port v c'. cbn. by intros ->.
  - intros [c b] port. by destruct (port =? 0x3FD), b.
  - intros [c b] port v. cbn [fst snd]. destruct (Z.eqb_spec port 0x3FD) as [->|]; [done|]. by intros ->.
  - intros [c []]; [exists 1%nat|exists 0%nat]; split; try lia; done.
Qed.

Definition sim_chips : chips :=
  mk_chips (mk_uart false []) (mk_pic 0x08 0xB8 0 0) (mk_pic 0x70 0x8F 0 0) (mk_pit None 0).

End Machine.
