(* ===== verification/Serial.v ===== *)
(** * The serial line and the kernel log

    [src/serial.c], [kernel/core/log.c] and the earlier driver
    [kernel/core/serial.c].  [fuel] bounds the busy wait of
    [serial_write_char], which the code does not bound; every theorem gives
    the fuel that is enough. *)
From S2P Require Import Prelude Machine.
From stdpp Require Import base list numbers option strings.
From Stdlib Require Import ZArith Lia Strings.Ascii.

Open Scope Z_scope.

Module Serial.
Import Machine.
Open Scope cm_scope.

Definition COM1 : Z := 0x3F8.
Definition NEWLINE : Z := 10.
Definition RETURN : Z := 13.
Definition digits : list Z := lit "0123456789abcdef".

(** Programs whose static variables include [g_log_ready] of [log.c]. *)
Class HasLog (G : Type) := {
  g_log_ready : G -> Z;
  set_log_ready : Z -> G -> G;
  log_ready_set : forall v g, g_log_ready (set_log_ready v g) = v
}.

Section code.
Context {W G : Type} (P : ports W) (fuel : nat).
Local Abbreviation M := (cm (mach W G)).
Local Abbreviation inb := (inb P).
Local Abbreviation outb := (outb P).

Definition serial_init : M unit :=
  outb (COM1 + 1) 0x00 ;;;
  outb (COM1 + 3) 0x80 ;;;
  outb (COM1 + 0) 0x03 ;;;
  outb (COM1 + 1) 0x00 ;;;
  outb (COM1 + 3) 0x03 ;;;
  outb (COM1 + 2) 0xC7 ;;;
  outb (COM1 + 4) 0x0B.

Definition serial_transmit_empty : M bool :=
  v <- inb (COM1 + 5) ;; cm_ret (negb (Z.land v 0x20 =? 0)).

Fixpoint wait_empty (n : nat) : M unit :=
  match n with
  | O => fun _ => Spin
  | S n => e <- serial_transmit_empty ;; if (e : bool) then cm_ret tt else wait_empty n
  end.

Definition serial_write_char (c : Z) : M unit := wait_empty fuel ;;; outb COM1 (u8 c).

Fixpoint serial_write_string (s : list Z) : M unit :=
  match s with
  | [] => fun _ => Undef
  | c :: s =>
      if c =? 0 then cm_ret tt else
      (if c =? NEWLINE then serial_write_char RETURN else cm_ret tt) ;;;
      serial_write_char c ;;;
      serial_write_string s
  end.

(** The loop of [serial_write_hex64], [n] digits to go. *)
Fixpoint write_hex_digits (put : Z -> M unit) (n : nat) (value : Z) : M unit :=
  match n with
  | O => cm_ret tt
  | S n =>
      d <- cm_lift (arr_get digits (Z.land (Z.shiftr value (4 * Z.of_nat n)) 0xF)) ;;
      put d ;;;
      write_hex_digits put n value
  end.

Definition serial_write_hex64 (value : Z) : M unit :=
  serial_write_string (lit "0x") ;;;
  write_hex_digits serial_write_char 16 value.

(** [while (value != 0 && i < sizeof(buf))]: [n] is the space left in the
    buffer, [buf] its first [i] characters. *)
Fixpoint dec_fill (n : nat) (value : Z) (buf : list Z) : list Z :=
  match n with
  | O => buf
  | S n => if value =? 0 then buf else dec_fill n (value / 10) (buf ++ [48 + value mod 10])
  end.

(** [while (i != 0) put(buf[--i]);] *)
Fixpoint write_all (put : Z -> M unit) (l : list Z) : M unit :=
  match l with [] => cm_ret tt | c :: l => put c ;;; write_all put l end.

Definition serial_write_dec64 (value : Z) : M unit :=
  if value =? 0 then serial_write_char 48
  else write_all serial_write_char (rev (dec_fill 21 value [])).

(** ** [log.c] *)

Context `{HL : HasLog G}.

Definition log_init : M unit := serial_init ;;; set_glob (set_log_ready 1).

Definition log_ensure : M unit :=
  r <- get_glob g_log_ready ;;
  if r =? 0 then serial_init ;;; set_glob (set_log_ready 1) else cm_ret tt.

Definition log_putc (c : Z) : M unit := log_ensure ;;; serial_write_char c.
Definition log_write (s : list Z) : M unit := log_ensure ;;; serial_write_string s.
Definition log_writeln (s : list Z) : M unit := log_write s ;;; log_putc NEWLINE.

Definition log_hex64 (value : Z) : M unit :=
  log_write (lit "0x") ;;;
  write_hex_digits log_putc 16 value.

Definition log_key_value_hex64 (key : list Z) (value : Z) : M unit :=
  log_write key ;;; log_write (lit "=") ;;; log_hex64 value ;;; log_putc NEWLINE.

(** [log_dec_u32] of [kernel/core/panic.c]. *)
Definition log_dec_u32 (value : Z) : M unit :=
  if value =? 0 then log_putc 48 else write_all log_putc (rev (dec_fill 11 value [])).

(** ** [kernel/core/serial.c] *)

Definition SERIAL_TIMEOUT_LIMIT : Z := 100000.

(** The busy wait with [n] polls left before the limit; whether the
    transmitter became free. *)
Fixpoint wait_limited (n : nat) : M bool :=
  e <- serial_transmit_empty ;;
  if (e : bool) then cm_ret true else
  match n with O => cm_ret false | S n => wait_limited n end.

Definition send_or_drop (c : Z) : M unit :=
  e <- wait_limited (Z.to_nat SERIAL_TIMEOUT_LIMIT - 1) ;;
  if (e : bool) then outb COM1 (u8 c) else cm_ret tt.

Definition serial_putc (c : Z) : M unit :=
  (if c =? NEWLINE then send_or_drop RETURN else cm_ret tt) ;;; send_or_drop c.

Fixpoint write_chars (s : list Z) : M unit :=
  match s with
  | [] => fun _ => Undef
  | c :: s => if c =? 0 then cm_ret tt else serial_putc c ;;; write_chars s
  end.

Definition serial_write (s : option (list Z)) : M unit :=
  match s with None => cm_ret tt | Some s => write_chars s end.

End code.

(** ** Sending *)

Lemma land_bit5 v : negb (Z.land v 0x20 =? 0) = Z.testbit v 5.
Proof.
  assert (H : Z.land v 0x20 = if Z.testbit v 5 then 0x20 else 0).
  { apply Z.bits_inj'. intros i Hi. rewrite Z.land_spec. change 0x20 with (2 ^ 5). rewrite Z.pow2_bits_eqb by lia.
    destruct (Z.eqb_spec 5 i) as [<-|].
    - destruct (Z.testbit v 5); [by rewrite Z.pow2_bits_eqb by lia|by rewrite Z.bits_0].
    - rewrite andb_false_r. destruct (Z.testbit v 5); [rewrite Z.pow2_bits_eqb by lia; by destruct (Z.eqb_spec 5 i)|by rewrite Z.bits_0]. }
  rewrite H. by destruct (Z.testbit v 5).
Qed.

(** The chips once [bs] has been sent. *)
Definition say (c : chips) (bs : list Z) : chips := with_uart c (mk_uart false (sent (c_uart c) ++ bs)).

Lemma say_say c a b : say (say c a) b = say c (a ++ b).
Proof. unfold say, with_uart. cbn. by rewrite app_assoc. Qed.

Lemma say_nil c : dlab (c_uart c) = false -> say c [] = c.
Proof. destruct c as [[d s] ? ? ?]. cbn. intros ->. unfold say, with_uart. cbn. by rewrite app_nil_r. Qed.

Lemma say_dlab c bs : dlab (c_uart (say c bs)) = false.
Proof. done. Qed.

(** [serial_write_string] sends a carriage return before each newline. *)
Definition crlf (s : list Z) : list Z := flat_map (fun c => if c =? NEWLINE then [RETURN; c] else [c]) s.

Definition chars (s : list Z) : Prop := Forall (fun c => 0 < c < 256) s.

Lemma chars_dec s : forallb (fun c => (0 <? c) && (c <? 256)) s = true -> chars s.
Proof.
  induction s as [|c s IH]; cbn [forallb]; [intros _; apply Forall_nil_2|]. rewrite !andb_true_iff, !Z.ltb_lt. intros [Hc Hs].
  apply Forall_cons. split; [lia|]. by apply IH.
Qed.

Section emit.
Context {W G : Type} (P : ports W) (view : W -> chips) (patience fuel : nat).
Context `{Hboard : !Board P view patience} (Hfuel : (patience < fuel)%nat).
Local Abbreviation M := (cm (mach W G)).

(** Code that, in the states [ok], sends exactly [bs]. *)
Definition emits (ok : rest G -> Prop) (m : M unit) (bs : list Z) : Prop :=
  forall c r, ok r -> dlab (c_uart c) = false -> effect view m c r tt (say c bs) r.

Lemma emits_nil ok : emits ok (cm_ret tt) [].
Proof.
  intros c r _ Hd w Hw. exists w. split; [done|]. rewrite Hw. unfold say, with_uart. rewrite app_nil_r.
  destruct c as [[d s] ? ? ?]. cbn in *. by subst.
Qed.

Lemma emits_seq ok (m k : M unit) a b : emits ok m a -> emits ok k b -> emits ok (m ;;; k) (a ++ b).
Proof.
  intros Hm Hk c r Hok Hd. eapply eff_bind; [by apply Hm|]. rewrite <- say_say. by apply Hk.
Qed.

(** Sending, then code that starts from what was sent. *)
Lemma emits_effect {A} ok (m : M unit) (k : M A) a b c r x r' : emits ok m a -> ok r -> dlab (c_uart c) = false ->
  effect view k (say c a) r x (say (say c a) b) r' -> effect view (m ;;; k) c r x (say c (a ++ b)) r'.
Proof. intros Hm Hok Hd Hk. eapply eff_bind; [by apply Hm|]. by rewrite <- say_say. Qed.

Lemma emits_halts {A} ok (m : M unit) (k : M A) a b c r r' : emits ok m a -> ok r -> dlab (c_uart c) = false ->
  halts view k (say c a) r (say (say c a) b) r' -> halts view (m ;;; k) c r (say c (a ++ b)) r'.
Proof. intros Hm Hok Hd Hk. eapply eff_bind_halts; [by apply Hm|]. by rewrite <- say_say. Qed.

Lemma emits_eq ok (m : M unit) a b : emits ok m a -> a = b -> emits ok m b.
Proof. by intros ? ->. Qed.

Lemma wait_empty_spec n k w (r : rest G) : ready_after P k w -> (k < n)%nat ->
  exists w', wait_empty P n (mk_mach w r) = Ret tt (mk_mach w' r) /\ view w' = view w.
Proof.
  revert k w. induction n as [|n IH]; intros k w Hr Hk; [lia|].
  pose proof (bd_in_keep w 0x3FD) as Hv. cbn [wait_empty]. unfold serial_transmit_empty, inb, COM1, cm_bind.
  change (0x3F8 + 5) with 0x3FD. cbn [hw rst]. destruct (p_in P 0x3FD w) as [v w1] eqn:E. cbn [snd] in Hv.
  destruct k as [|k]; cbn [ready_after] in Hr; rewrite E in Hr; cbn [fst snd] in Hr.
  - exists w1. unfold cm_ret. rewrite land_bit5, Hr. done.
  - destruct Hr as [Hb Hr]. unfold cm_ret. rewrite land_bit5, Hb. destruct (IH k w1 Hr) as (w' & Hw & Hv'); [lia|].
    exists w'. split; [exact Hw|congruence].
Qed.

Lemma char_emits ok ch : 0 <= ch < 256 -> emits ok (serial_write_char P fuel ch) [ch].
Proof.
  intros Hch c r _ Hd. unfold serial_write_char. eapply eff_bind.
  - intros w Hw. destruct (bd_ready w) as (k & Hk & Hr). destruct (wait_empty_spec fuel k w r Hr) as (w' & E & Hv); [lia|].
    exists w'. split; [exact E|]. rewrite Hv. exact Hw.
  - apply (eff_outb P view patience). unfold chips_out, COM1. cbn [Z.eqb Pos.eqb]. rewrite Hd.
    rewrite (wrap_small 8 ch) by (unfold in_u; lia). done.
Qed.

Lemma string_emits ok s rest : chars s -> emits ok (serial_write_string P fuel (s ++ 0 :: rest)) (crlf s).
Proof.
  intros Hs. induction Hs as [|c s Hc _ IH]; cbn [app serial_write_string]; [apply emits_nil|].
  destruct (Z.eqb_spec c 0); [lia|]. cbn [crlf flat_map]. destruct (Z.eqb_spec c NEWLINE) as [->|].
  - apply (emits_seq _ _ _ [RETURN]); [by apply char_emits|]. apply (emits_seq _ _ _ [NEWLINE]); [by apply char_emits|]. exact IH.
  - apply (emits_seq _ _ _ [] ([c] ++ crlf s)); [apply emits_nil|]. apply emits_seq; [apply char_emits; lia|]. exact IH.
Qed.

End emit.

(** ** Numbers *)

Definition dig_val (c : Z) : option Z :=
  if (48 <=? c) && (c <=? 57) then Some (c - 48)
  else if (97 <=? c) && (c <=? 102) then Some (c - 87) else None.

(** A numeral read in a base. *)
Fixpoint parse_num (base acc : Z) (l : list Z) : option Z :=
  match l with
  | [] => Some acc
  | c :: l => d ← dig_val c; if d <? base then parse_num base (acc * base + d) l else None
  end.

Lemma parse_snoc base acc l c d x : parse_num base acc l = Some x -> dig_val c = Some d -> d < base ->
  parse_num base acc (l ++ [c]) = Some (x * base + d).
Proof.
  intros H Hd Hb. revert acc H. induction l as [|c' l IH]; intros acc H; cbn in *.
  - injection H as ->. rewrite Hd. cbn. by destruct (Z.ltb_spec d base); [|lia].
  - destruct (dig_val c') as [d'|]; [|done]. cbn in *. destruct (d' <? base); [|done]. auto.
Qed.

Lemma dig_val_dec d : 0 <= d < 10 -> dig_val (48 + d) = Some d.
Proof.
  intros Hd. unfold dig_val. destruct (Z.leb_spec 48 (48 + d)); [|lia]. destruct (Z.leb_spec (48 + d) 57); [|lia]. cbn. f_equal. lia.
Qed.

Lemma dec_fill_app n v buf : dec_fill n v buf = buf ++ dec_fill n v [].
Proof.
  revert v buf. induction n as [|n IH]; intros v buf; cbn [dec_fill]; [by rewrite app_nil_r|].
  destruct (v =? 0); [by rewrite app_nil_r|]. rewrite IH, (IH _ ([] ++ _)). by rewrite app_nil_l, <- app_assoc.
Qed.

Lemma dec_fill_S n v : v <> 0 -> dec_fill (S n) v [] = (48 + v mod 10) :: dec_fill n (v / 10) [].
Proof. intros Hv. cbn [dec_fill]. destruct (Z.eqb_spec v 0); [done|]. by rewrite dec_fill_app. Qed.

Record numeral (base v : Z) (l : list Z) : Prop := {
  nu_parse : parse_num base 0 l = Some v;
  nu_chars : Forall (fun c => 48 <= c <= 102) l
}.

Lemma div10_bound v n : 0 <= v < 10 ^ Z.of_nat (S n) -> 0 <= v / 10 < 10 ^ Z.of_nat n.
Proof.
  intros Hv. rewrite Nat2Z.inj_succ, Z.pow_succ_r in Hv by lia. split; [apply Z.div_pos; lia|]. apply Z.div_lt_upper_bound; lia.
Qed.

Lemma dec_fill_numeral n v : 0 <= v < 10 ^ Z.of_nat n -> numeral 10 v (rev (dec_fill n v [])).
Proof.
  revert v. induction n as [|n IH]; intros v Hv.
  { assert (v = 0) as -> by (cbn in Hv; lia). by split. }
  destruct (Z.eq_dec v 0) as [->|Hne]; [by split|]. rewrite dec_fill_S by done. cbn [rev].
  pose proof (Z.mod_pos_bound v 10) as Hm. pose proof (Z.div_mod v 10) as Hdm.
  pose proof (div10_bound v n Hv) as Hq.
  destruct (IH _ Hq) as [Hp Hc]. split.
  - rewrite (parse_snoc _ _ _ _ (v mod 10) (v / 10) Hp); [f_equal; lia|apply dig_val_dec; lia|lia].
  - apply Forall_app. split; [done|]. constructor; [lia|constructor].
Qed.

(** No leading zero. *)
Lemma dec_fill_last n v c : 0 <= v < 10 ^ Z.of_nat n -> last (dec_fill n v []) = Some c -> c <> 48.
Proof.
  revert v. induction n as [|n IH]; intros v Hv Hl; [done|].
  destruct (Z.eq_dec v 0) as [->|Hne]; [done|]. rewrite dec_fill_S in Hl by done.
  pose proof (div10_bound v n Hv) as Hq.
  destruct (Z.eq_dec (v / 10) 0) as [E|E].
  - rewrite E in Hl. destruct n; cbn in Hl; injection Hl as <-; pose proof (Z.div_mod v 10); lia.
  - destruct n as [|n]; [cbn in Hq; lia|]. rewrite dec_fill_S, last_cons_cons in Hl by done.
    rewrite <- dec_fill_S in Hl by done. by apply (IH (v / 10)).
Qed.

Lemma dec_fill_length n v k : 0 <= v < 10 ^ Z.of_nat k -> (length (dec_fill n v []) <= k)%nat.
Proof.
  revert v k. induction n as [|n IH]; intros v k Hv; [cbn; lia|].
  destruct (Z.eq_dec v 0) as [->|Hne]; [cbn; lia|]. rewrite dec_fill_S by done.
  destruct k as [|k]; [cbn in Hv; lia|]. cbn [length]. apply le_n_S. by apply IH, div10_bound.
Qed.

(** More room in the buffer than digits changes nothing. *)
Lemma dec_fill_more n m v : 0 <= v < 10 ^ Z.of_nat n -> (n <= m)%nat -> dec_fill n v [] = dec_fill m v [].
Proof.
  revert m v. induction n as [|n IH]; intros m v Hv Hm.
  { assert (v = 0) as -> by (cbn in Hv; lia). by destruct m. }
  destruct m as [|m]; [lia|]. destruct (Z.eq_dec v 0) as [->|Hne]; [done|]. rewrite !dec_fill_S by done. f_equal.
  apply IH; [by apply div10_bound|lia].
Qed.

Definition hex_digit (v : Z) (n : nat) : Z := Z.land (Z.shiftr v (4 * Z.of_nat n)) 0xF.

Definition hex_char (d : Z) : Z := if d <? 10 then 48 + d else 87 + d.

Lemma hex_digit_spec v n : 0 <= v -> hex_digit v n = (v / 16 ^ Z.of_nat n) mod 16.
Proof.
  intros Hv. unfold hex_digit. change 0xF with (Z.ones 4). rewrite Z.land_ones by lia. rewrite Z.shiftr_div_pow2 by lia.
  rewrite Z.pow_mul_r by lia. done.
Qed.

Lemma hex_digit_range v n : 0 <= hex_digit v n < 16.
Proof. unfold hex_digit. change 0xF with (Z.ones 4). rewrite Z.land_ones by lia. apply Z.mod_pos_bound. lia. Qed.

Lemma digits_get d : 0 <= d < 16 -> arr_get digits d = Some (hex_char d) /\ dig_val (hex_char d) = Some d /\ 48 <= hex_char d <= 102.
Proof.
  intros Hd.
  assert (H : Forall (fun d => arr_get digits d = Some (hex_char d) /\ dig_val (hex_char d) = Some d /\ 48 <= hex_char d <= 102)
    [0; 1; 2; 3; 4; 5; 6; 7; 8; 9; 10; 11; 12; 13; 14; 15]).
  { repeat (apply Forall_cons; split; [vm_compute; repeat split; discriminate|]). apply Forall_nil_2. }
  rewrite Forall_forall in H. apply H. rewrite !elem_of_cons. lia.
Qed.

Fixpoint hexs (n : nat) (v : Z) : list Z :=
  match n with O => [] | S n => hex_char (hex_digit v n) :: hexs n v end.

Lemma hexs_parse n v acc : 0 <= v -> parse_num 16 acc (hexs n v) = Some (acc * 16 ^ Z.of_nat n + v mod 16 ^ Z.of_nat n).
Proof.
  intros Hv. revert acc. induction n as [|n IH]; intros acc; [cbn; rewrite Z.mod_1_r; f_equal; lia|].
  cbn [hexs parse_num]. rewrite hex_digit_spec by done. pose proof (Z.mod_pos_bound (v / 16 ^ Z.of_nat n) 16).
  destruct (digits_get ((v / 16 ^ Z.of_nat n) mod 16)) as (_ & -> & _); [lia|]. cbn [mbind option_bind].
  destruct (Z.ltb_spec ((v / 16 ^ Z.of_nat n) mod 16) 16); [|lia]. rewrite IH. f_equal.
  rewrite Nat2Z.inj_succ, Z.pow_succ_r by lia. rewrite (Z.mul_comm 16 (16 ^ Z.of_nat n)).
  rewrite (Z.rem_mul_r v (16 ^ Z.of_nat n) 16) by lia. lia.
Qed.

Lemma hexs_numeral n v : 0 <= v < 16 ^ Z.of_nat n -> numeral 16 v (hexs n v) /\ length (hexs n v) = n.
Proof.
  intros Hv. split; [split|].
  - rewrite hexs_parse by lia. rewrite Z.mod_small by lia. done.
  - clear Hv. induction n as [|n IH]; constructor; [|done].
    by apply digits_get, hex_digit_range.
  - clear Hv. induction n as [|n IH]; cbn; [done|]. by rewrite IH.
Qed.

Section printing.
Context {W G : Type} (P : ports W) (view : W -> chips) (patience fuel : nat).
Context `{Hboard : !Board P view patience} (Hfuel : (patience < fuel)%nat).
Context `{HL : HasLog G}.
Local Abbreviation M := (cm (mach W G)).
Local Abbreviation emits := (emits (G := G) view).

(** A literal, with or without a newline at its end. *)
Lemma lit_emits ok s : chars (text s) -> emits ok (serial_write_string P fuel (lit s)) (crlf (text s)).
Proof. intros Hs. exact (string_emits P view patience fuel Hfuel ok (text s) [] Hs). Qed.

Lemma litn_emits ok s : chars (text s) -> emits ok (serial_write_string P fuel (litn s)) (crlf (text s ++ [NEWLINE])).
Proof.
  intros Hs. unfold litn. change [10; 0] with ([NEWLINE] ++ [0]). rewrite app_assoc.
  apply (string_emits P view patience fuel Hfuel ok (text s ++ [NEWLINE]) []). apply Forall_app. split; [done|].
  apply Forall_cons. split; [unfold NEWLINE; lia|]. apply Forall_nil_2.
Qed.

Section with_put.
Context (ok : rest G -> Prop) (put : Z -> M unit).
Context (Hput : forall ch, 0 <= ch < 256 -> emits ok (put ch) [ch]).

Lemma hex_emits n v : emits ok (write_hex_digits put n v) (hexs n v).
Proof.
  induction n as [|n IH]; cbn [write_hex_digits hexs]; [apply (emits_nil view)|].
  destruct (digits_get _ (hex_digit_range v n)) as (Hg & _ & Hr). fold (hex_digit v n). intros c r Hok Hd.
  eapply eff_bind; [by apply eff_lift|]. revert c r Hok Hd. apply (emits_seq view _ _ _ [_]); [apply Hput; lia|exact IH].
Qed.

Lemma all_emits l : Forall (fun c => 48 <= c <= 102) l -> emits ok (write_all put l) l.
Proof.
  intros Hl. induction Hl as [|c l Hc _ IH]; cbn [write_all]; [apply (emits_nil view)|].
  apply (emits_seq view _ _ _ [c]); [apply Hput; lia|exact IH].
Qed.

End with_put.

Definition always (r : rest G) : Prop := True.
Definition logging (r : rest G) : Prop := g_log_ready (glob r) <> 0.

Lemma serial_init_effect c r : effect (G := G) view (serial_init P) c r tt (say c []) r.
Proof.
  unfold serial_init. repeat (eapply eff_bind; [eapply (eff_outb P view patience); reflexivity|]).
  eapply (eff_outb P view patience). destruct c as [[d s] ? ? ?]. cbn. unfold say, with_uart. cbn. by rewrite app_nil_r.
Qed.

Lemma log_ensure_ready c r : logging r -> effect view (log_ensure P) c r tt c r.
Proof.
  intros Hr. unfold log_ensure. eapply eff_bind; [apply eff_get_rest|]. destruct (Z.eqb_spec (g_log_ready (glob r)) 0); [done|]. apply eff_ret.
Qed.

Lemma log_putc_emits ch : 0 <= ch < 256 -> emits logging (log_putc P fuel ch) [ch].
Proof. intros Hch c r Hr Hd. eapply eff_bind; [by apply log_ensure_ready|]. by apply (char_emits P view patience fuel Hfuel logging). Qed.

Lemma log_write_emits s rest : chars s -> emits logging (log_write P fuel (s ++ 0 :: rest)) (crlf s).
Proof. intros Hs c r Hr Hd. eapply eff_bind; [by apply log_ensure_ready|]. by apply (string_emits P view patience fuel Hfuel logging). Qed.

(** [log_writeln] ends the line with a bare newline. *)
Lemma log_writeln_emits s rest : chars s -> emits logging (log_writeln P fuel (s ++ 0 :: rest)) (crlf s ++ [NEWLINE]).
Proof. intros Hs. apply (emits_seq view); [by apply log_write_emits|by apply log_putc_emits]. Qed.

Lemma chars_0x : chars (text "0x").
Proof. by apply chars_dec. Qed.

Lemma write_hex_emits ok v : emits ok (serial_write_hex64 P fuel v) (text "0x" ++ hexs 16 v).
Proof.
  apply (emits_seq view); [exact (string_emits P view patience fuel Hfuel ok (text "0x") [] chars_0x)|].
  apply hex_emits. intros ch Hch. by apply (char_emits P view patience fuel Hfuel).
Qed.

Lemma log_hex_emits v : emits logging (log_hex64 P fuel v) (text "0x" ++ hexs 16 v).
Proof.
  apply (emits_seq view); [exact (log_write_emits (text "0x") [] chars_0x)|]. apply hex_emits, log_putc_emits.
Qed.

(** The numeral of a number, "0" for 0. *)
Definition dec_text (n : nat) (v : Z) : list Z := if v =? 0 then [48] else rev (dec_fill n v []).

Lemma dec_text_numeral n v : 0 <= v < 10 ^ Z.of_nat n -> numeral 10 v (dec_text n v).
Proof.
  intros Hv. unfold dec_text. destruct (Z.eqb_spec v 0) as [->|]; [|by apply dec_fill_numeral]. split; [done|].
  apply Forall_cons. split; [lia|]. apply Forall_nil_2.
Qed.

Lemma write_dec_emits ok v : 0 <= v < 2 ^ 64 -> emits ok (serial_write_dec64 P fuel v) (dec_text 21 v).
Proof.
  intros Hv. unfold serial_write_dec64, dec_text. destruct (Z.eqb_spec v 0).
  - apply (char_emits P view patience fuel Hfuel). lia.
  - apply all_emits; [intros ch Hch; by apply (char_emits P view patience fuel Hfuel)|].
    destruct (dec_fill_numeral 21 v) as [_ Hc]; [lia|done].
Qed.

Lemma log_dec_emits v : 0 <= v < 2 ^ 32 -> emits logging (log_dec_u32 P fuel v) (dec_text 11 v).
Proof.
  intros Hv. unfold log_dec_u32, dec_text. destruct (Z.eqb_spec v 0); [apply log_putc_emits; lia|].
  apply all_emits; [apply log_putc_emits|]. destruct (dec_fill_numeral 11 v) as [_ Hc]; [lia|done].
Qed.

(** *** Text whose exact form does not matter *)

Definition prints (ok : rest G -> Prop) (m : M unit) : Prop := exists bs, emits ok m bs.

Lemma prints_ret ok : prints ok (cm_ret tt).
Proof. exists []. apply (emits_nil view). Qed.

Lemma prints_seq ok (m k : M unit) : prints ok m -> prints ok k -> prints ok (m ;;; k).
Proof. intros [a Ha] [b Hb]. exists (a ++ b). by apply (emits_seq view). Qed.

Lemma prints_weaken (ok ok' : rest G -> Prop) (m : M unit) : (forall r, ok' r -> ok r) -> prints ok m -> prints ok' m.
Proof. intros H [a Ha]. exists a. intros c r Hr. apply Ha, H, Hr. Qed.

(** A literal is printed up to its first NUL. *)
Lemma prints_string ok l : Forall (fun c => 0 <= c < 256) l -> prints ok (serial_write_string P fuel (l ++ [0])).
Proof.
  intros Hl. induction Hl as [|c l Hc _ IH]; cbn [app serial_write_string]; [apply prints_ret|].
  destruct (Z.eqb_spec c 0); [apply prints_ret|]. apply prints_seq.
  - destruct (c =? NEWLINE); [eexists; by apply (char_emits P view patience fuel Hfuel)|apply prints_ret].
  - apply prints_seq; [eexists; by apply (char_emits P view patience fuel Hfuel)|exact IH].
Qed.

Lemma text_bytes s : Forall (fun c => 0 <= c < 256) (text s).
Proof.
  unfold text. induction (String.list_ascii_of_string s) as [|a l IH]; [apply Forall_nil_2|]. apply Forall_cons. split; [|exact IH].
  pose proof (N_ascii_bounded a). lia.
Qed.

Lemma prints_lit ok s : prints ok (serial_write_string P fuel (lit s)).
Proof. apply prints_string, text_bytes. Qed.

Lemma prints_litn ok s : prints ok (serial_write_string P fuel (litn s)).
Proof.
  unfold litn. change [10; 0] with ([10] ++ [0]). rewrite app_assoc. apply prints_string. apply Forall_app. split; [apply text_bytes|].
  apply Forall_cons. split; [lia|apply Forall_nil_2].
Qed.

Lemma prints_hex ok v : prints ok (serial_write_hex64 P fuel v).
Proof. eexists. apply write_hex_emits. Qed.

Lemma prints_log (m : M unit) : prints logging m -> prints logging (log_ensure P ;;; m).
Proof. intros [a Ha]. exists a. intros c r Hr Hd. eapply eff_bind; [by apply log_ensure_ready|]. by apply Ha. Qed.

Lemma prints_log_lit s : prints logging (log_write P fuel (lit s)).
Proof. apply prints_log, prints_lit. Qed.

Lemma prints_log_line s : prints logging (log_writeln P fuel (lit s)).
Proof. apply prints_seq; [apply prints_log_lit|]. apply prints_log. eexists. apply (char_emits P view patience fuel Hfuel). unfold NEWLINE. lia. Qed.

Lemma prints_log_hex v : prints logging (log_hex64 P fuel v).
Proof. eexists. apply log_hex_emits. Qed.

(** The first line initialises the serial port if nothing has. *)
Definition log_on (r : rest G) : rest G :=
  if g_log_ready (glob r) =? 0 then with_glob r (set_log_ready 1 (glob r)) else r.

Lemma log_on_logging r : logging (log_on r).
Proof. unfold logging, log_on. destruct (Z.eqb_spec (g_log_ready (glob r)) 0); [|done]. cbn. by rewrite log_ready_set. Qed.

Lemma log_ensure_on c r : dlab (c_uart c) = false -> effect view (log_ensure P) c r tt c (log_on r).
Proof.
  intros Hd. unfold log_ensure, log_on. eapply eff_bind; [apply eff_get_glob|]. destruct (g_log_ready (glob r) =? 0); [|apply eff_ret].
  eapply eff_bind; [apply serial_init_effect|]. rewrite say_nil by done. apply eff_set_glob.
Qed.

Lemma log_first_line c r s : dlab (c_uart c) = false ->
  exists bs, effect view (log_writeln P fuel (lit s)) c r tt (say c bs) (log_on r).
Proof.
  intros Hd. destruct (prints_lit logging s) as [bs Hb]. exists (bs ++ [NEWLINE]). unfold log_writeln, log_write. rewrite <- say_say.
  eapply eff_bind; [eapply eff_bind; [by apply log_ensure_on|]; apply Hb; [apply log_on_logging|done]|].
  apply log_putc_emits; [unfold NEWLINE; lia|apply log_on_logging|done].
Qed.

(** ** The serial line *)

(** C28. Numbers go over the serial line unchanged: with a UART that becomes
    ready within the fuel, [serial_write_dec64] and [log_dec_u32] send decimal
    digits that read back as the number, without a leading zero and never
    longer than their buffers (20 of 21 and 10 of 11 characters), and
    [serial_write_hex64] and [log_hex64] send "0x" and 16 digits that read
    back as the number; nothing else is sent and no other state changes. *)
Theorem serial_numbers_roundtrip v (c : chips) (r : rest G) :
  0 <= v < 2 ^ 64 -> dlab (c_uart c) = false -> g_log_ready (glob r) <> 0 ->
  exists ds hs,
    effect view (serial_write_dec64 P fuel v) c r tt (say c ds) r /\
    parse_num 10 0 ds = Some v /\ (1 <= length ds <= 20)%nat /\ (head ds = Some 48 -> v = 0) /\
    (v < 2 ^ 32 -> effect view (log_dec_u32 P fuel v) c r tt (say c ds) r /\ (length ds <= 10)%nat) /\
    effect view (serial_write_hex64 P fuel v) c r tt (say c (text "0x" ++ hs)) r /\
    effect view (log_hex64 P fuel v) c r tt (say c (text "0x" ++ hs)) r /\
    parse_num 16 0 hs = Some v /\ length hs = 16%nat.
Proof.
  intros Hv Hd Hr. exists (dec_text 21 v), (hexs 16 v). destruct (hexs_numeral 16 v) as [[Hp _] Hl]; [lia|].
  assert (Hlen : forall n k, v < 10 ^ Z.of_nat k -> (1 <= k)%nat -> (length (dec_text n v) <= k)%nat).
  { intros n k Hk Hk1. unfold dec_text. destruct (v =? 0); [cbn; lia|]. rewrite length_rev. apply dec_fill_length. lia. }
  split_and!; try done.
  - by apply (write_dec_emits always).
  - apply dec_text_numeral. lia.
  - unfold dec_text. destruct (Z.eqb_spec v 0); [done|]. rewrite length_rev, dec_fill_S by done. cbn. lia.
  - apply Hlen; lia.
  - unfold dec_text. destruct (Z.eqb_spec v 0); [done|]. intros Hh. exfalso.
    apply (dec_fill_last 21 v 48); [lia| |done]. rewrite <- (rev_involutive (dec_fill 21 v [])).
    destruct (rev (dec_fill 21 v [])) as [|x l]; [done|]. injection Hh as ->. cbn [rev]. by rewrite last_snoc.
  - intros Hv32. replace (dec_text 21 v) with (dec_text 11 v).
    + split; [apply log_dec_emits; done || lia|apply Hlen; lia].
    + unfold dec_text. destruct (v =? 0); [done|]. f_equal. by apply dec_fill_more; lia.
  - by apply (write_hex_emits always).
  - by apply log_hex_emits.
Qed.

End printing.

(** ** Waiting for the transmitter *)

(** The same ports with a counter of accesses. *)
Definition counted {W} (P : ports W) : ports (W * nat) :=
  mk_ports (fun port s => let '(v, w) := p_in P port (fst s) in (v, (w, S (snd s))))
           (fun port v s => (p_out P port v (fst s), S (snd s))).

(** A port that never reports a free transmitter. *)
Definition never_ready {W} (P : ports W) : Prop := forall w, Z.testbit (fst (p_in P 0x3FD w)) 5 = false.

Section waiting.
Context {W G : Type} (P : ports W).
Local Abbreviation M := (cm (mach (W * nat) G)).

(** Code that returns on any hardware after at most [k] port accesses and
    changes no other state. *)
Definition returns_within {A} (k : nat) (m : M A) : Prop :=
  forall w n r, exists a w' n', m (mk_mach (w, n) r) = Ret a (mk_mach (w', n') r) /\ (n' <= n + k)%nat.

Lemma rw_ret {A} (a : A) : returns_within 0 (cm_ret a).
Proof. intros w n r. exists a, w, n. split; [done|lia]. Qed.

Lemma rw_weaken {A} k k' (m : M A) : returns_within k m -> (k <= k')%nat -> returns_within k' m.
Proof. intros H Hk w n r. destruct (H w n r) as (a & w' & n' & E & Hn). exists a, w', n'. split; [done|lia]. Qed.

Lemma rw_bind {A B} k1 k2 (m : M A) (f : A -> M B) :
  returns_within k1 m -> (forall a, returns_within k2 (f a)) -> returns_within (k1 + k2) (cm_bind m f).
Proof.
  intros H1 H2 w n r. destruct (H1 w n r) as (a & w1 & n1 & E1 & Hn1). destruct (H2 a w1 n1 r) as (b & w2 & n2 & E2 & Hn2).
  exists b, w2, n2. unfold cm_bind. rewrite E1. split; [done|lia].
Qed.

Lemma rw_poll : returns_within 1 (serial_transmit_empty (counted P)).
Proof.
  intros w n r. unfold serial_transmit_empty, cm_bind, inb. cbn [hw rst counted p_in fst snd].
  destruct (p_in P (COM1 + 5) w) as [v w1]. eexists _, w1, (S n). split; [reflexivity|lia].
Qed.

Lemma rw_outb port v : returns_within 1 (outb (counted P) port v).
Proof. intros w n r. eexists _, _, (S n). split; [reflexivity|lia]. Qed.

Lemma rw_wait_limited n : returns_within (S n) (wait_limited (counted P) n).
Proof.
  induction n as [|n IH]; cbn [wait_limited].
  - apply (rw_bind 1 0); [apply rw_poll|]. intros []; apply rw_ret.
  - apply (rw_bind 1 (S n)); [apply rw_poll|]. intros []; [apply (rw_weaken 0); [apply rw_ret|lia]|exact IH].
Qed.

(** At most [SERIAL_TIMEOUT_LIMIT] polls and the write. *)
Definition putc_bound : nat := S (Z.to_nat SERIAL_TIMEOUT_LIMIT).

Lemma rw_send c : returns_within putc_bound (send_or_drop (counted P) c).
Proof.
  unfold putc_bound. destruct (Z.to_nat SERIAL_TIMEOUT_LIMIT) as [|k] eqn:E; [exfalso; unfold SERIAL_TIMEOUT_LIMIT in E; lia|].
  unfold send_or_drop. rewrite E. replace (S k - 1)%nat with k by lia. replace (S (S k)) with (S k + 1)%nat by lia.
  apply rw_bind; [apply rw_wait_limited|]. intros []; [apply rw_outb|apply (rw_weaken 0); [apply rw_ret|lia]].
Qed.

Lemma rw_putc c : returns_within (2 * putc_bound) (serial_putc (counted P) c).
Proof.
  replace (2 * putc_bound)%nat with (putc_bound + putc_bound)%nat by lia. unfold serial_putc.
  apply rw_bind; [destruct (c =? NEWLINE); [apply rw_send|apply (rw_weaken 0); [apply rw_ret|lia]]|]. intros _. apply rw_send.
Qed.

Lemma rw_write s rest : chars s -> returns_within (2 * putc_bound * length s) (serial_write (counted P) (Some (s ++ 0 :: rest))).
Proof.
  cbn [serial_write]. intros Hs. induction Hs as [|c s Hc _ IH]; cbn [app write_chars length].
  - apply (rw_weaken 0); [apply rw_ret|lia].
  - destruct (Z.eqb_spec c 0); [lia|]. replace (2 * putc_bound * S (length s))%nat with (2 * putc_bound + 2 * putc_bound * length s)%nat by lia.
    apply rw_bind; [apply rw_putc|]. intros _. exact IH.
Qed.

Lemma never_spins (Q : ports W) n s : never_ready Q -> wait_empty (G := G) Q n s = Spin.
Proof.
  intros H. revert s. induction n as [|n IH]; intros s; [done|]. pose proof (H (hw s)) as Hb. cbn [wait_empty].
  unfold serial_transmit_empty, cm_bind, inb, COM1. change (0x3F8 + 5) with 0x3FD. destruct (p_in Q 0x3FD (hw s)) as [v w1].
  cbn [fst] in Hb. unfold cm_ret. rewrite land_bit5, Hb. apply IH.
Qed.

(** C27. Writing to the serial line ends, whatever the hardware answers: the
    bounded driver [serial_write] returns on every port behaviour after at
    most 2 * 100001 port accesses per character, changing nothing but the
    hardware.  The unbounded driver has no such guarantee: on a port that
    never reports a free transmitter [serial_write_char] is still polling
    after any number of polls. *)
Theorem serial_write_terminates :
  (forall s rest, chars s -> returns_within (2 * putc_bound * length s) (serial_write (counted P) (Some (s ++ 0 :: rest)))) /\
  returns_within 0 (serial_write (counted P) None) /\
  (never_ready P -> forall fuel c s, serial_write_char (G := G) P fuel c s = Spin).
Proof.
  split; [exact rw_write|]. split; [apply rw_ret|]. intros H fuel c s. unfold serial_write_char, cm_bind. by rewrite never_spins.
Qed.

End waiting.

(** ** On the simulated board *)

#[export] Instance log_flag : HasLog Z := { g_log_ready := id; set_log_ready v _ := v; log_ready_set v _ := eq_refl }.

Definition sim_rest : rest Z := mk_rest false (0, 0) 0x28 1.

Lemma serial_numbers_roundtrip_witness :
  exists ds, effect fst (serial_write_dec64 sim_ports 2 260502) sim_chips sim_rest tt (say sim_chips ds) sim_rest /\
    parse_num 10 0 ds = Some 260502.
Proof.
  destruct (serial_numbers_roundtrip sim_ports fst 1 2 ltac:(lia) 260502 sim_chips sim_rest) as (ds & hs & H1 & H2 & _);
    [lia|reflexivity|discriminate|].
  exists ds. split; [exact H1|exact H2].
Defined.

Definition dead_ports : ports unit := mk_ports (fun _ w => (0, w)) (fun _ _ w => w).

Lemma serial_write_terminates_witness :
  returns_within (G := Z) (2 * putc_bound * 2) (serial_write (counted dead_ports) (Some (lit "ok"))) /\
  serial_write_char (G := Z) dead_ports 1000 65 (mk_mach tt sim_rest) = Spin.
Proof.
  destruct (serial_write_terminates (G := Z) dead_ports) as (H1 & _ & H2). split.
  - apply (H1 [111; 107] []). repeat (apply Forall_cons; split; [lia|]). apply Forall_nil_2.
  - apply H2. intros w. reflexivity.
Defined.

End Serial.
