(* ===== verification/ElfLog.v ===== *)
(** * The loader's smoke test on the log ([kernel/user/m11_kernel_integration.c])

    What [m11_integration_smoke_test] writes to the kernel log, around the
    plan computed in [Elf.v].  For any program with a log. *)
From S2P Require Import Prelude Bitmap Bytes Elf Machine Serial.
From stdpp Require Import base list numbers option strings.
From Stdlib Require Import ZArith Lia.

Open Scope Z_scope.

Module ElfLog.
Import Machine Serial.
Open Scope cm_scope.

Section code.
Context {W G : Type} (P : ports W) (fuel : nat) `{HL : HasLog G}.
Local Abbreviation M := (cm (mach W G)).

Definition log_field (key : string) (v : Z) : M unit := log_write P fuel (lit key) ;;; log_hex64 P fuel v.

Fixpoint log_segments (n : nat) (i : Z) (segs : list Elf.m11_segment_plan) : M unit :=
  match n with
  | O => cm_ret tt
  | S n =>
      s <- cm_lift (arr_get segs i) ;;
      log_field "[M11] elf: seg vaddr=" (Elf.vaddr s) ;;;
      log_field " filesz=" (Elf.filesz s) ;;;
      log_field " memsz=" (Elf.memsz s) ;;;
      log_field " flags=" (Elf.flags s) ;;;
      log_writeln P fuel (lit "") ;;;
      log_segments n (i + 1) segs
  end.

Definition m11_log_plan (plan : Elf.m11_process_image_plan) : M unit :=
  log_field "[M11] elf: plan ok entry=" (Elf.entry plan) ;;;
  log_writeln P fuel (lit "") ;;;
  log_field "[M11] elf: segment_count=" (Elf.segment_count plan) ;;;
  log_writeln P fuel (lit "") ;;;
  log_segments (Z.to_nat (Elf.segment_count plan)) 0 (Elf.segments plan).

Definition m11_report (r : Z * option Elf.m11_process_image_plan) : M unit :=
  let '(rc, plan) := r in
  if negb (rc =? Elf.M11_OK) then
    log_field "[M11] elf: plan FAILED rc=" (u32 (if rc <? 0 then - rc else rc)) ;;;
    log_writeln P fuel (lit "")
  else
    plan <- cm_lift plan ;;
    m11_log_plan plan ;;;
    log_writeln P fuel (lit "[M11] user image plan ready").

Definition m11_smoke : M unit :=
  log_writeln P fuel (lit "[M11] elf: starting integration smoke test") ;;;
  r <- cm_lift Elf.m11_integration_smoke_test ;;
  m11_report r.

End code.

Section effects.
Context {W G : Type} (P : ports W) (view : W -> chips) (patience fuel : nat).
Context `{Hboard : !Board P view patience} (Hfuel : (patience < fuel)%nat) `{HL : HasLog G}.
Local Abbreviation effect := (effect (G := G) view).

Lemma prints_field key v : prints (G := G) view logging (log_field P fuel key v).
Proof. apply prints_seq; [apply (prints_log_lit P view patience fuel Hfuel)|apply (prints_log_hex P view patience fuel Hfuel)]. Qed.

Lemma prints_segments n i segs : 0 <= i -> i + Z.of_nat n <= Z.of_nat (length segs) ->
  prints (G := G) view logging (log_segments P fuel n i segs).
Proof.
  revert i. induction n as [|n IH]; intros i Hi Hn; cbn [log_segments]; [apply prints_ret|].
  destruct (arr_get_is_Some segs i) as [x Hx]; [lia|]. destruct (IH (i + 1)) as [bs Hb]; [lia|lia|].
  assert (Hp : prints (G := G) view logging (log_field P fuel "[M11] elf: seg vaddr=" (Elf.vaddr x) ;;; log_field P fuel " filesz=" (Elf.filesz x) ;;;
    log_field P fuel " memsz=" (Elf.memsz x) ;;; log_field P fuel " flags=" (Elf.flags x) ;;; log_writeln P fuel (lit "") ;;; log_segments P fuel n (i + 1) segs)).
  { repeat (apply prints_seq; [apply prints_field|]). apply prints_seq; [apply (prints_log_line P view patience fuel Hfuel)|]. by exists bs. }
  destruct Hp as [bs' Hp]. exists bs'. intros c r Hr Hd. eapply eff_bind; [by apply eff_lift|]. by apply Hp.
Qed.

Lemma smoke_plan : exists plan, Elf.m11_integration_smoke_test = Some (Elf.M11_OK, Some plan) /\
  Elf.segment_count plan = 2 /\ length (Elf.segments plan) = 8%nat.
Proof. eexists. split; [vm_compute; reflexivity|]. split; reflexivity. Qed.

Lemma m11_effect c r : dlab (c_uart c) = false -> exists bs, effect (m11_smoke P fuel) c r tt (say c bs) (log_on r).
Proof.
  intros Hd. destruct smoke_plan as (plan & Hplan & Hcount & Hlen).
  destruct (log_first_line P view patience fuel Hfuel c r "[M11] elf: starting integration smoke test" Hd) as [b1 H1].
  assert (Hp : prints (G := G) view logging (m11_log_plan P fuel plan ;;; log_writeln P fuel (lit "[M11] user image plan ready"))).
  { apply prints_seq; [|apply (prints_log_line P view patience fuel Hfuel)]. unfold m11_log_plan.
    apply prints_seq; [apply prints_field|]. apply prints_seq; [apply (prints_log_line P view patience fuel Hfuel)|].
    apply prints_seq; [apply prints_field|]. apply prints_seq; [apply (prints_log_line P view patience fuel Hfuel)|].
    apply prints_segments; [lia|]. rewrite Hcount, Hlen. lia. }
  destruct Hp as [b2 Hp]. exists (b1 ++ b2). rewrite <- say_say. unfold m11_smoke. eapply eff_bind; [exact H1|].
  eapply eff_bind; [by apply eff_lift|]. cbn [m11_report]. change (negb (Elf.M11_OK =? Elf.M11_OK)) with false. cbv iota.
  eapply eff_bind; [by apply eff_lift|]. apply Hp; [apply log_on_logging|done].
Qed.

End effects.

End ElfLog.
