(* ===== verification/Lib.v ===== *)
(** * The freestanding memory functions ([kernel/lib/memory.c]) and byte loops

    On the byte-addressed memory of [Memory.v]: a pointer is an address, an
    access outside mapped memory is undefined. *)
From S2P Require Import Prelude Memory.
From stdpp Require Import base gmap list numbers option.
From Stdlib Require Import ZArith Lia.

Open Scope Z_scope.

Module Lib.

(** The loops with [count] bytes to go. *)
Fixpoint set_up (count : nat) (d v : Z) (m : memory) : option memory :=
  match count with
  | O => Some m
  | S count => _ ← m !! d; set_up count (d + 1) v (<[d := u8 v]> m)
  end.

Fixpoint copy_up (count : nat) (d s : Z) (m : memory) : option memory :=
  match count with
  | O => Some m
  | S count => b ← m !! s; _ ← m !! d; copy_up count (d + 1) (s + 1) (<[d := b]> m)
  end.

(** [*--d = *--s]. *)
Fixpoint copy_down (count : nat) (d s : Z) (m : memory) : option memory :=
  match count with
  | O => Some m
  | S count => b ← m !! (s - 1); _ ← m !! (d - 1); copy_down count (d - 1) (s - 1) (<[d - 1 := b]> m)
  end.

Definition memset (dest value count : Z) (m : memory) : option (Z * memory) :=
  m ← set_up (Z.to_nat count) dest value m; Some (dest, m).

Definition memcpy (dest src count : Z) (m : memory) : option (Z * memory) :=
  m ← copy_up (Z.to_nat count) dest src m; Some (dest, m).

Definition memmove (dest src count : Z) (m : memory) : option (Z * memory) :=
  if (dest =? src) || (count =? 0) then Some (dest, m) else
  m ← (if dest <? src then copy_up (Z.to_nat count) dest src m
       else copy_down (Z.to_nat count) (dest + count) (src + count) m);
  Some (dest, m).

(** The same loops as static functions of the file systems and of the block
    layer ([block.c] and [ramblk.c] each have a copy of the last two). *)
Definition m16_zero (ptr n : Z) (m : memory) : option memory := set_up (Z.to_nat n) ptr 0 m.
Definition m16_copy (dst src n : Z) (m : memory) : option memory := copy_up (Z.to_nat n) dst src m.

Definition mcsfs_memset (dst c n : Z) (m : memory) : option (Z * memory) :=
  m ← set_up (Z.to_nat n) dst c m; Some (dst, m).
Definition mcsfs_memcpy (dst src n : Z) (m : memory) : option (Z * memory) :=
  m ← copy_up (Z.to_nat n) dst src m; Some (dst, m).

Definition blk_memset (s c n : Z) (m : memory) : option (Z * memory) :=
  m ← set_up (Z.to_nat n) s c m; Some (s, m).
Definition blk_memcpy (dest src n : Z) (m : memory) : option (Z * memory) :=
  m ← copy_up (Z.to_nat n) dest src m; Some (dest, m).

(** ** What they do *)

(** [m'] is [m] with the [n] bytes from [d] on replaced by [f]. *)
Definition written (m m' : memory) (d n : Z) (f : Z -> option Z) : Prop :=
  forall a, m' !! a = if decide (d <= a < d + n) then f (a - d) else m !! a.

Lemma mapped_get m a n i : mapped m a n -> a <= i < a + n -> exists b, m !! i = Some b.
Proof. intros H Hi. destruct (H i Hi) as (b & Hb & _). eauto. Qed.

Lemma set_up_spec n d v m : mapped m d (Z.of_nat n) ->
  exists m', set_up n d v m = Some m' /\ written m m' d (Z.of_nat n) (fun _ => Some (u8 v)).
Proof.
  revert d m. induction n as [|n IH]; intros d m Hm.
  { exists m. split; [done|]. intros a. by rewrite decide_False by lia. }
  destruct (mapped_get m d _ d Hm) as (b & Hb); [lia|].
  destruct (IH (d + 1) (<[d := u8 v]> m)) as (m' & E & Hw).
  { apply mapped_insert; [apply (wrap_range 8); lia|]. eapply mapped_sub; [exact Hm|lia|lia]. }
  exists m'. cbn [set_up]. rewrite Hb. split; [done|]. intros a. rewrite Hw. destruct (decide (a = d)) as [->|].
  - rewrite decide_False, decide_True by lia. apply lookup_insert_eq.
  - rewrite lookup_insert_ne by done. repeat case_decide; done || lia.
Qed.

(** Copying upwards is right unless the destination starts inside the source. *)
Lemma copy_up_spec n d s m : mapped m d (Z.of_nat n) -> mapped m s (Z.of_nat n) -> d <= s \/ s + Z.of_nat n <= d ->
  exists m', copy_up n d s m = Some m' /\ written m m' d (Z.of_nat n) (fun i => m !! (s + i)).
Proof.
  revert d s m. induction n as [|n IH]; intros d s m Hd Hs Ho.
  { exists m. split; [done|]. intros a. by rewrite decide_False by lia. }
  destruct (mapped_get m d _ d Hd) as (x & Hx); [lia|]. destruct (Hs s) as (b & Hb & Hbr); [lia|].
  destruct (IH (d + 1) (s + 1) (<[d := b]> m)) as (m' & E & Hw).
  { apply mapped_insert; [done|]. eapply mapped_sub; [exact Hd|lia|lia]. }
  { apply mapped_insert; [done|]. eapply mapped_sub; [exact Hs|lia|lia]. }
  { lia. }
  exists m'. cbn [copy_up]. rewrite Hb. cbn [mbind option_bind]. rewrite Hx. split; [done|]. intros a. rewrite Hw. destruct (decide (a = d)) as [->|].
  - rewrite decide_False, decide_True by lia. rewrite lookup_insert_eq. rewrite <- Hb. f_equal. lia.
  - repeat case_decide; try lia; rewrite lookup_insert_ne by lia; [f_equal; lia|done].
Qed.

(** Copying downwards is right unless the source starts inside the destination. *)
Lemma copy_down_spec n d s m : mapped m d (Z.of_nat n) -> mapped m s (Z.of_nat n) -> s <= d ->
  exists m', copy_down n (d + Z.of_nat n) (s + Z.of_nat n) m = Some m' /\ written m m' d (Z.of_nat n) (fun i => m !! (s + i)).
Proof.
  revert m. induction n as [|n IH]; intros m Hd Hs Ho.
  { exists m. split; [done|]. intros a. by rewrite decide_False by lia. }
  replace (d + Z.of_nat (S n)) with (d + Z.of_nat n + 1) by lia. replace (s + Z.of_nat (S n)) with (s + Z.of_nat n + 1) by lia.
  destruct (mapped_get m d _ (d + Z.of_nat n) Hd) as (x & Hx); [lia|]. destruct (Hs (s + Z.of_nat n)) as (b & Hb & Hbr); [lia|].
  destruct (IH (<[d + Z.of_nat n := b]> m)) as (m' & E & Hw).
  { apply mapped_insert; [done|]. eapply mapped_sub; [exact Hd|lia|lia]. }
  { apply mapped_insert; [done|]. eapply mapped_sub; [exact Hs|lia|lia]. }
  { lia. }
  exists m'. cbn [copy_down]. rewrite !Z.add_simpl_r, Hb. cbn [mbind option_bind]. rewrite Hx. split; [done|].
  intros a. rewrite Hw. destruct (decide (a = d + Z.of_nat n)) as [->|].
  - rewrite decide_False, decide_True by lia. rewrite lookup_insert_eq, <- Hb. f_equal. lia.
  - repeat case_decide; try lia; by rewrite lookup_insert_ne by lia.
Qed.

(** *** Buffers as lists *)

(** The buffer at [p] holds [l]. *)
Definition holds (m : memory) (p : Z) (l : list Z) : Prop := forall i b, l !! i = Some b -> m !! (p + Z.of_nat i) = Some b.

Definition same_outside (m m' : memory) (d n : Z) : Prop := forall a, ~ d <= a < d + n -> m' !! a = m !! a.

Lemma written_outside m m' d n f : written m m' d n f -> same_outside m m' d n.
Proof. intros H a Ha. by rewrite H, decide_False by lia. Qed.

Lemma set_up_list n d v m : mapped m d (Z.of_nat n) ->
  exists m', set_up n d v m = Some m' /\ holds m' d (replicate n (u8 v)) /\ same_outside m m' d (Z.of_nat n).
Proof.
  intros Hm. destruct (set_up_spec n d v m Hm) as (m' & E & Hw). exists m'. split; [done|]. split; [|by eapply written_outside].
  intros i b Hi. apply lookup_replicate in Hi as [-> Hi]. by rewrite Hw, decide_True by lia.
Qed.

Lemma copy_up_list d s m l : mapped m d (Z.of_nat (length l)) -> mapped m s (Z.of_nat (length l)) -> holds m s l ->
  d <= s \/ s + Z.of_nat (length l) <= d ->
  exists m', copy_up (length l) d s m = Some m' /\ holds m' d l /\ same_outside m m' d (Z.of_nat (length l)).
Proof.
  intros Hd Hs Hl Ho. destruct (copy_up_spec (length l) d s m Hd Hs Ho) as (m' & E & Hw). exists m'. split; [done|].
  split; [|by eapply written_outside]. intros i b Hi. pose proof (lookup_lt_Some _ _ _ Hi). rewrite Hw, decide_True by lia.
  rewrite <- (Hl i b Hi). f_equal. lia.
Qed.

(** Why the file systems and the block layer can be modelled on lists: on
    mapped memory their byte loops fill a buffer with a constant list and
    copy the list one buffer holds into another, changing nothing else. *)
Theorem buffer_loops_are_list_operations m d s v l :
  let n := Z.of_nat (length l) in
  mapped m d n -> mapped m s n -> holds m s l -> d <= s \/ s + n <= d ->
  (exists m', m16_zero d n m = Some m' /\ holds m' d (replicate (length l) 0) /\ same_outside m m' d n) /\
  (exists m', mcsfs_memset d v n m = Some (d, m') /\ blk_memset d v n m = Some (d, m') /\
     holds m' d (replicate (length l) (u8 v)) /\ same_outside m m' d n) /\
  (exists m', m16_copy d s n m = Some m' /\ mcsfs_memcpy d s n m = Some (d, m') /\ blk_memcpy d s n m = Some (d, m') /\
     holds m' d l /\ same_outside m m' d n).
Proof.
  intros n Hd Hs Hl Ho. unfold m16_zero, mcsfs_memset, blk_memset, m16_copy, mcsfs_memcpy, blk_memcpy. subst n. rewrite Nat2Z.id. split_and!.
  - by apply (set_up_list (length l) d 0 m).
  - destruct (set_up_list (length l) d v m Hd) as (m' & -> & ? & ?). by exists m'.
  - destruct (copy_up_list d s m l Hd Hs Hl Ho) as (m' & -> & ? & ?). by exists m'.
Qed.

(** C32. The memory functions on mapped memory: [memmove] copies the source as
    it was, however source and destination overlap; [memcpy] does so when the
    destination does not start inside the source; [memset] fills; all return
    the destination and change nothing outside it. *)
Theorem memory_functions_correct m d s n v :
  0 <= n -> mapped m d n -> mapped m s n ->
  (exists m', memmove d s n m = Some (d, m') /\ written m m' d n (fun i => m !! (s + i))) /\
  (d <= s \/ s + n <= d -> exists m', memcpy d s n m = Some (d, m') /\ written m m' d n (fun i => m !! (s + i))) /\
  (exists m', memset d v n m = Some (d, m') /\ written m m' d n (fun _ => Some (u8 v))).
Proof.
  intros Hn Hd Hs. rewrite <- (Z2Nat.id n Hn) in *. set (k := Z.to_nat n) in *. clearbody k. split_and!.
  - unfold memmove. destruct (Z.eqb_spec d s) as [->|]; cbn [orb].
    { exists m. split; [done|]. intros a. case_decide; [f_equal; lia|done]. }
    destruct (Z.eqb_spec (Z.of_nat k) 0) as [E|].
    { exists m. split; [done|]. intros a. by rewrite decide_False by lia. }
    rewrite Nat2Z.id. destruct (Z.ltb_spec d s).
    + destruct (copy_up_spec k d s m Hd Hs) as (m' & -> & Hw); [lia|]. by exists m'.
    + destruct (copy_down_spec k d s m Hd Hs) as (m' & -> & Hw); [lia|]. by exists m'.
  - intros Ho. unfold memcpy. rewrite Nat2Z.id. destruct (copy_up_spec k d s m Hd Hs Ho) as (m' & -> & Hw). by exists m'.
  - unfold memset. rewrite Nat2Z.id. destruct (set_up_spec k d v m Hd) as (m' & -> & Hw). by exists m'.
Qed.

Definition ex_mem : memory := list_to_map (zip (seqZ 100 8) [1; 2; 3; 4; 5; 6; 7; 8]).

Lemma memory_functions_correct_witness :
  exists m', memmove 102 100 5 ex_mem = Some (102, m') /\ m' !! 106 = Some 5 /\ m' !! 107 = Some 8.
Proof.
  destruct (memory_functions_correct ex_mem 102 100 5 0) as [(m' & E & Hw) _];
    [lia|apply mappedb_ok; by vm_compute|apply mappedb_ok; by vm_compute|].
  exists m'. split; [exact E|]. split; rewrite Hw; by vm_compute.
Defined.

(** Copying upwards into an overlapping higher destination repeats the start. *)
Example memcpy_overlap_repeats : (fun r => snd r !! 106) <$> memcpy 102 100 5 ex_mem = Some (Some 1).
Proof. by vm_compute. Qed.

End Lib.
