(* ===== verification/Drivers.v ===== *)
(** * Interrupt controllers, timer, descriptor table, panic

    [src/pic.c], [src/pit.c], [src/idt.c] (the table; the trap handler is in
    [Trap.v]) and [src/panic.c].  The interrupt stubs and the address of the
    table are fixed by the linker: they are parameters. *)
From S2P Require Import Prelude Bytes Machine Serial.
From stdpp Require Import base list numbers option strings.
From Stdlib Require Import ZArith Lia.

Open Scope Z_scope.

Module Drivers.
Import Machine Serial.
Open Scope cm_scope.

Definition PIC1_COMMAND : Z := 0x20.
Definition PIC1_DATA : Z := 0x21.
Definition PIC2_COMMAND : Z := 0xA0.
Definition PIC2_DATA : Z := 0xA1.
Definition PIC_EOI : Z := 0x20.
Definition PIC_MASTER_OFFSET : Z := 0x20.
Definition PIC_SLAVE_OFFSET : Z := 0x28.
Definition PIT_CHANNEL0 : Z := 0x40.
Definition PIT_COMMAND : Z := 0x43.
Definition PIT_BASE_FREQUENCY_HZ : Z := 1193182.

Record idt_entry := mk_gate {
  offset_low : Z;
  selector : Z;
  ist : Z;
  type_attr : Z;
  offset_mid : Z;
  offset_high : Z;
  zero : Z
}.

(** The static variables of the drivers. *)
Record kstat := mk_kstat { g_ticks : Z; g_idt : list idt_entry; log_ready : Z }.

#[export] Instance kstat_log : HasLog kstat :=
  { g_log_ready := log_ready; set_log_ready v g := mk_kstat (g_ticks g) (g_idt g) v; log_ready_set v g := eq_refl }.

Definition set_ticks (t : Z) (g : kstat) : kstat := mk_kstat t (g_idt g) (log_ready g).
Definition set_idt (l : list idt_entry) (g : kstat) : kstat := mk_kstat (g_ticks g) l (log_ready g).

(** A 16-byte gate for a handler. *)
Definition gate (addr sel attr : Z) : idt_entry :=
  mk_gate (Z.land addr 0xFFFF) sel 0 attr (Z.land (Z.shiftr addr 16) 0xFFFF)
          (Z.land (Z.shiftr addr 32) 0xFFFFFFFF) 0.

Section code.
Context {W : Type} (P : ports W) (fuel : nat).
Context (isr_stub_table : list Z) (idt_addr : Z).
Local Abbreviation M := (cm (mach W kstat)).
Local Abbreviation inb := (inb P).
Local Abbreviation outb := (outb P).
Local Abbreviation io_wait := (io_wait P).
Local Abbreviation puts := (serial_write_string P fuel).
Local Abbreviation puthex := (serial_write_hex64 P fuel).

(** ** [pic.c] *)

Definition pic_remap (master_offset slave_offset : Z) : M unit :=
  master_mask <- inb PIC1_DATA ;;
  slave_mask <- inb PIC2_DATA ;;
  outb PIC1_COMMAND 0x11 ;;;
  io_wait ;;;
  outb PIC2_COMMAND 0x11 ;;;
  io_wait ;;;
  outb PIC1_DATA master_offset ;;;
  io_wait ;;;
  outb PIC2_DATA slave_offset ;;;
  io_wait ;;;
  outb PIC1_DATA 0x04 ;;;
  io_wait ;;;
  outb PIC2_DATA 0x02 ;;;
  io_wait ;;;
  outb PIC1_DATA 0x01 ;;;
  io_wait ;;;
  outb PIC2_DATA 0x01 ;;;
  io_wait ;;;
  outb PIC1_DATA master_mask ;;;
  outb PIC2_DATA slave_mask.

Definition pic_mask_all : M unit :=
  outb PIC1_DATA 0xFF ;;;
  outb PIC2_DATA 0xFF.

(** The port and line of a request; shifting by 32 or more is undefined. *)
Definition irq_port (irq : Z) : Z * Z :=
  if irq <? 8 then (PIC1_DATA, irq) else (PIC2_DATA, u8 (irq - 8)).

Definition line_bit (line : Z) : option Z := if line <? 32 then Some (u8 (Z.lnot (Z.shiftl 1 line))) else None.

Definition pic_unmask_irq (irq : Z) : M unit :=
  let '(port, line) := irq_port irq in
  mask <- inb port ;;
  keep <- cm_lift (line_bit line) ;;
  outb port (u8 (Z.land mask keep)).

Definition pic_send_eoi (irq : Z) : M unit :=
  (if 8 <=? irq then outb PIC2_COMMAND PIC_EOI else cm_ret tt) ;;;
  outb PIC1_COMMAND PIC_EOI.

Definition pic_read_master_mask : M Z := inb PIC1_DATA.
Definition pic_read_slave_mask : M Z := inb PIC2_DATA.

(** ** [pit.c] *)

Definition pit_divisor (hz : Z) : Z :=
  let hz := if hz =? 0 then 100 else hz in
  let divisor := PIT_BASE_FREQUENCY_HZ / hz in
  let divisor := if divisor =? 0 then 1 else divisor in
  if 0xFFFF <? divisor then 0xFFFF else divisor.

Definition pit_configure_hz (hz : Z) : M unit :=
  let divisor := pit_divisor hz in
  outb PIT_COMMAND 0x36 ;;;
  outb PIT_CHANNEL0 (u8 (Z.land divisor 0xFF)) ;;;
  outb PIT_CHANNEL0 (u8 (Z.land (Z.shiftr divisor 8) 0xFF)).

Definition timer_ticks : M Z := get_glob g_ticks.

Definition timer_on_irq0 : M unit :=
  t <- get_glob g_ticks ;;
  set_glob (set_ticks (u64 (t + 1))) ;;;
  t <- get_glob g_ticks ;;
  if t mod 100 =? 0 then
    puts (lit "[MCSOS:TIMER] ticks=") ;;;
    t <- get_glob g_ticks ;;
    serial_write_dec64 P fuel t ;;;
    puts (litn "")
  else cm_ret tt.

(** ** The table of [idt.c] *)

Definition idt_set_gate (vector handler sel attr : Z) : M unit :=
  l <- get_glob g_idt ;;
  l <- cm_lift (arr_set l vector (gate handler sel attr)) ;;
  set_glob (set_idt l).

Definition idt_install_gate (vector handler attr : Z) : M unit :=
  c <- x86_64_read_cs ;;
  idt_set_gate vector handler c attr.

(** [n] vectors from [i] on. *)
Fixpoint idt_fill (n : nat) (i c : Z) : M unit :=
  match n with
  | O => cm_ret tt
  | S n =>
      h <- cm_lift (arr_get isr_stub_table i) ;;
      idt_set_gate i h c 0x8E ;;;
      idt_fill n (i + 1) c
  end.

Definition SIZEOF_IDT : Z := 256 * 16.

Definition idt_init : M unit :=
  c <- x86_64_read_cs ;;
  idt_fill 48 0 c ;;;
  lidt (SIZEOF_IDT - 1) idt_addr.

(** ** [panic.c] *)

Definition halt_forever {A} : M A := cpu_cli ;;; cm_halt.

Definition kernel_panic {A} (reason : list Z) (code : Z) : M A :=
  cpu_cli ;;;
  puts (10 :: lit "[MCSOS:PANIC] ") ;;;
  puts reason ;;;
  puts (lit " code=") ;;;
  puthex code ;;;
  puts (litn "") ;;;
  cm_halt.

End code.

(** ** The table as the processor reads it *)

(** The packed structure, little-endian. *)
Definition gate_bytes (e : idt_entry) : list Z :=
  le_bytes 2 (offset_low e) ++ le_bytes 2 (selector e) ++ le_bytes 1 (ist e) ++ le_bytes 1 (type_attr e) ++
  le_bytes 2 (offset_mid e) ++ le_bytes 4 (offset_high e) ++ le_bytes 4 (zero e).

Definition idt_image (l : list idt_entry) : list Z := concat (map gate_bytes l).

(** The processor's view of the descriptor of a vector (64-bit mode): handler,
    code segment, stack index, attributes. *)
Definition cpu_gate (image : list Z) (vector : Z) : option (Z * Z * Z * Z) :=
  raw ← slice image (16 * vector) 16;
  lo ← ld 2 raw 0; sel ← ld 2 raw 2; st ← ld 1 raw 4; attr ← ld 1 raw 5; mid ← ld 2 raw 6; hi ← ld 4 raw 8;
  Some (lo + 2 ^ 16 * mid + 2 ^ 32 * hi, sel, st, attr).

Lemma length_gate_bytes e : length (gate_bytes e) = 16%nat.
Proof. unfold gate_bytes. rewrite !length_app, !length_le_bytes. done. Qed.

Lemma length_idt_image l : length (idt_image l) = (16 * length l)%nat.
Proof. induction l as [|e l IH]; [done|]. cbn [idt_image map concat length]. rewrite length_app, length_gate_bytes. fold (idt_image l). lia. Qed.

Lemma idt_image_slice l (v : nat) e : l !! v = Some e -> slice (idt_image l) (16 * Z.of_nat v) 16 = Some (gate_bytes e).
Proof.
  intros Hv. pose proof (lookup_lt_Some _ _ _ Hv) as Hlt. unfold slice. rewrite (proj2 (in_buf_true _ _ _)) by (rewrite length_idt_image; lia).
  f_equal. replace (Z.to_nat (16 * Z.of_nat v)) with (16 * v)%nat by lia. change (Z.to_nat 16) with 16%nat.
  clear Hlt. revert v Hv. induction l as [|e' l IH]; intros v Hv; [done|]. cbn [idt_image map concat]. destruct v as [|v].
  - injection Hv as ->. rewrite Nat.mul_0_r, drop_0. rewrite <- (length_gate_bytes e) at 1. by rewrite take_app_length.
  - replace (16 * S v)%nat with (length (gate_bytes e') + 16 * v)%nat by (rewrite length_gate_bytes; lia). rewrite drop_app_add. by apply IH.
Qed.

Lemma gate_fields addr : 0 <= addr < 2 ^ 64 ->
  let lo := Z.land addr 0xFFFF in let mid := Z.land (Z.shiftr addr 16) 0xFFFF in let hi := Z.land (Z.shiftr addr 32) 0xFFFFFFFF in
  in_u 16 lo /\ in_u 16 mid /\ in_u 32 hi /\ lo + 2 ^ 16 * mid + 2 ^ 32 * hi = addr.
Proof.
  intros Ha lo mid hi. subst lo mid hi. change 0xFFFF with (2 ^ 16 - 1). change 0xFFFFFFFF with (2 ^ 32 - 1).
  rewrite !land_ones_mod, !Z.shiftr_div_pow2 by lia. unfold in_u.
  split_and!; try (apply Z.mod_pos_bound; lia).
  rewrite (Z.mod_small (addr / 2 ^ 32)) by (split; [apply Z.div_pos; lia|apply Z.div_lt_upper_bound; lia]).
  replace (addr / 2 ^ 32) with (addr / 2 ^ 16 / 2 ^ 16) by (rewrite Z.div_div by lia; done).
  pose proof (Z.div_mod addr (2 ^ 16)). pose proof (Z.div_mod (addr / 2 ^ 16) (2 ^ 16)). lia.
Qed.

(** The processor finds in a gate what was put there. *)
Lemma cpu_gate_gate l (v : nat) addr sel attr : l !! v = Some (gate addr sel attr) ->
  0 <= addr < 2 ^ 64 -> in_u 16 sel -> in_u 8 attr -> cpu_gate (idt_image l) (Z.of_nat v) = Some (addr, sel, 0, attr).
Proof.
  intros Hl Ha Hs Ht. destruct (gate_fields addr Ha) as (H1 & H2 & H3 & H4). unfold cpu_gate. rewrite (idt_image_slice _ _ _ Hl).
  cbn [mbind option_bind]. unfold gate_bytes, gate. cbn [offset_low selector ist type_attr offset_mid offset_high zero].
  assert (H0 : in_u 8 0) by (unfold in_u; lia).
  rewrite (ld_app_0 2), (ld_app_at 2 (le_bytes 2 _) _ _ 2) by (rewrite ?length_le_bytes; done). cbn [mbind option_bind].
  rewrite (app_assoc (le_bytes 2 _)), (ld_app_at 1 _ _ _ 4) by (rewrite ?length_app, ?length_le_bytes; done). cbn [mbind option_bind].
  rewrite (app_assoc (le_bytes 2 _ ++ _)), (ld_app_at 1 _ _ _ 5) by (rewrite ?length_app, ?length_le_bytes; done). cbn [mbind option_bind].
  rewrite (app_assoc ((le_bytes 2 _ ++ _) ++ _)), (ld_app_at 2 _ _ _ 6) by (rewrite ?length_app, ?length_le_bytes; done). cbn [mbind option_bind].
  rewrite (app_assoc (((le_bytes 2 _ ++ _) ++ _) ++ _)), (ld_app_at 4 _ _ _ 8) by (rewrite ?length_app, ?length_le_bytes; done). cbn [mbind option_bind].
  by rewrite H4.
Qed.

Lemma cpu_gate_ext l l' (v : nat) : l !! v = l' !! v -> (v < length l)%nat ->
  cpu_gate (idt_image l) (Z.of_nat v) = cpu_gate (idt_image l') (Z.of_nat v).
Proof.
  intros H Hv. destruct (lookup_lt_is_Some_2 l v Hv) as [e He]. unfold cpu_gate.
  rewrite (idt_image_slice l v e He), (idt_image_slice l' v e) by congruence. done.
Qed.

(** ** What the drivers do to the chips *)

Section effects.
Context {W : Type} (P : ports W) (view : W -> chips) (patience : nat).
Context `{Hboard : !Board P view patience}.
Local Abbreviation effect := (effect (G := kstat) view).

Ltac out_step := eapply eff_bind; [eapply (eff_outb P view patience); reflexivity|].

Definition idle_pics (c : chips) : Prop := icw (c_pic1 c) = 0%nat /\ icw (c_pic2 c) = 0%nat.

Definition rebase (b : Z) (p : pic) : pic := mk_pic (Z.land b 0xF8) (imr p) 0 (eois p).

Lemma pic_remap_effect m s c r : idle_pics c ->
  effect (pic_remap P m s) c r tt (with_pic2 (with_pic1 c (rebase m (c_pic1 c))) (rebase s (c_pic2 c))) r.
Proof.
  intros [H1 H2]. destruct c as [u [b1 m1 i1 e1] [b2 m2 i2 e2] t]. cbn in H1, H2. subst. unfold pic_remap.
  eapply eff_bind; [eapply (eff_inb P view patience); reflexivity|].
  eapply eff_bind; [eapply (eff_inb P view patience); reflexivity|].
  do 17 out_step. eapply (eff_outb P view patience). reflexivity.
Qed.

Definition mask (v : Z) (p : pic) : pic := mk_pic (pbase p) v 0 (eois p).

Lemma pic_mask_all_effect c r : idle_pics c ->
  effect (pic_mask_all P) c r tt (with_pic2 (with_pic1 c (mask 0xFF (c_pic1 c))) (mask 0xFF (c_pic2 c))) r.
Proof.
  intros [H1 H2]. destruct c as [u [b1 m1 i1 e1] [b2 m2 i2 e2] t]. cbn in H1, H2. subst.
  unfold pic_mask_all. out_step. eapply (eff_outb P view patience). reflexivity.
Qed.

(** Exactly the line's bit is cleared. *)
Definition unmask (line v : Z) : Z := Z.land v (u8 (Z.lnot (Z.shiftl 1 line))).

Lemma unmask_testbit line v i : 0 <= line < 8 -> 0 <= v < 256 -> 0 <= i ->
  Z.testbit (unmask line v) i = negb (i =? line) && Z.testbit v i.
Proof.
  intros Hl Hv Hi. unfold unmask. rewrite Z.land_spec. rewrite wrap_testbit by lia. rewrite Z.lnot_spec, Z.shiftl_spec by lia.
  destruct (Z.ltb_spec i 8).
  - replace (Z.testbit 1 (i - line)) with (i =? line).
    { rewrite bool_decide_true by done. rewrite andb_true_l. apply andb_comm. }
    destruct (Z.eqb_spec i line) as [->|]; [by rewrite Z.sub_diag|].
    destruct (Z.ltb_spec i line); [by rewrite Z.testbit_neg_r by lia|]. change 1 with (2 ^ 0). rewrite Z.pow2_bits_eqb by lia.
    symmetry. apply Z.eqb_neq. lia.
  - rewrite (testbit_above 8 v i) by (unfold in_u; lia). by rewrite andb_false_r.
Qed.

Lemma land_bound a b : 0 <= a -> 0 <= Z.land a b <= a.
Proof.
  intros Ha. apply Z.ldiff_le; [done|]. apply Z.bits_inj'. intros i Hi.
  rewrite Z.ldiff_spec, Z.land_spec, Z.bits_0. by destruct (Z.testbit a i), (Z.testbit b i).
Qed.

Lemma unmask_small line v : 0 <= v < 256 -> u8 (unmask line v) = unmask line v.
Proof.
  intros Hv. apply wrap_small. unfold in_u, unmask. pose proof (wrap_range 8 (Z.lnot (Z.shiftl 1 line)) ltac:(lia)) as Hw. unfold in_u in Hw.
  pose proof (land_bound v (u8 (Z.lnot (Z.shiftl 1 line)))). lia.
Qed.

Lemma pic_unmask_effect irq c r : idle_pics c -> 0 <= irq < 16 -> 0 <= imr (c_pic1 c) < 256 -> 0 <= imr (c_pic2 c) < 256 ->
  effect (pic_unmask_irq P irq) c r tt
    (if irq <? 8 then with_pic1 c (mask (unmask irq (imr (c_pic1 c))) (c_pic1 c))
     else with_pic2 c (mask (unmask (irq - 8) (imr (c_pic2 c))) (c_pic2 c))) r.
Proof.
  intros [H1 H2] Hirq Hm1 Hm2. destruct c as [u [b1 m1 i1 e1] [b2 m2 i2 e2] t]. cbn in H1, H2, Hm1, Hm2. subst.
  unfold pic_unmask_irq, irq_port. destruct (Z.ltb_spec irq 8).
  - eapply eff_bind; [eapply (eff_inb P view patience); reflexivity|]. unfold line_bit. destruct (Z.ltb_spec irq 32); [|lia].
    eapply eff_bind; [by apply eff_lift|]. match goal with |- context [outb P _ ?v] => change v with (u8 (unmask irq m1)) end.
    rewrite unmask_small by done. eapply (eff_outb P view patience). reflexivity.
  - rewrite (wrap_small 8 (irq - 8)) by (unfold in_u; lia).
    eapply eff_bind; [eapply (eff_inb P view patience); reflexivity|]. unfold line_bit. destruct (Z.ltb_spec (irq - 8) 32); [|lia].
    eapply eff_bind; [by apply eff_lift|]. match goal with |- context [outb P _ ?v] => change v with (u8 (unmask (irq - 8) m2)) end.
    rewrite unmask_small by done. eapply (eff_outb P view patience). reflexivity.
Qed.

Definition ack (p : pic) : pic := mk_pic (pbase p) (imr p) (icw p) (eois p + 1).

(** Both controllers are told about a request of the slave, the master alone
    about one of its own. *)
Lemma pic_send_eoi_effect irq c r :
  effect (pic_send_eoi P irq) c r tt
    (let c := if 8 <=? irq then with_pic2 c (ack (c_pic2 c)) else c in with_pic1 c (ack (c_pic1 c))) r.
Proof.
  destruct c as [u [b1 m1 i1 e1] [b2 m2 i2 e2] t]. unfold pic_send_eoi. destruct (8 <=? irq); cbn zeta.
  - out_step. eapply (eff_outb P view patience). reflexivity.
  - eapply eff_bind; [apply eff_ret|]. eapply (eff_outb P view patience). reflexivity.
Qed.

(** *** Timer *)

Lemma pit_divisor_range hz : 0 <= hz -> 1 <= pit_divisor hz <= 0xFFFF.
Proof.
  intros Hh. unfold pit_divisor, PIT_BASE_FREQUENCY_HZ. cbn zeta. set (h := if hz =? 0 then 100 else hz).
  assert (0 < h) by (subst h; destruct (Z.eqb_spec hz 0); lia). pose proof (Z.div_pos 1193182 h).
  destruct (Z.eqb_spec (1193182 / h) 0); destruct (Z.ltb_spec 0xFFFF (if 1193182 / h =? 0 then 1 else 1193182 / h)); repeat case_match; lia.
Qed.

(** The divisor gives the largest rate not above the requested one by rounding
    down, where the counter can express it. *)
Lemma pit_divisor_exact hz : 19 <= hz <= PIT_BASE_FREQUENCY_HZ -> pit_divisor hz = PIT_BASE_FREQUENCY_HZ / hz.
Proof.
  unfold pit_divisor, PIT_BASE_FREQUENCY_HZ. intros Hh. cbn zeta. destruct (Z.eqb_spec hz 0); [lia|].
  assert (1 <= 1193182 / hz) by (apply Z.div_le_lower_bound; lia). assert (1193182 / hz < 65536) by (apply Z.div_lt_upper_bound; lia).
  destruct (Z.eqb_spec (1193182 / hz) 0); [lia|]. destruct (Z.ltb_spec 0xFFFF (1193182 / hz)); [lia|done].
Qed.

Lemma pit_configure_effect hz c r : 0 <= hz ->
  effect (pit_configure_hz P hz) c r tt (with_pit c (mk_pit None (pit_divisor hz))) r.
Proof.
  intros Hh. pose proof (pit_divisor_range hz Hh) as Hd. unfold pit_configure_hz. cbn zeta.
  remember (pit_divisor hz) as d eqn:Ed. change 0xFF with (2 ^ 8 - 1) in *. rewrite !land_ones_mod, Z.shiftr_div_pow2 by lia.
  rewrite !(wrap_small 8) by (unfold in_u; apply Z.mod_pos_bound; lia). destruct c as [u p1 p2 [lo re]]. do 2 out_step.
  eapply (eff_outb P view patience). change (chips_out PIT_CHANNEL0 ?v ?c) with (Some (with_pit c (pit_data v (c_pit c)))).
  unfold with_pit, pit_data. cbn [c_uart c_pic1 c_pic2 c_pit low]. do 3 f_equal. rewrite (Z.mod_small (d / 2 ^ 8)) by (split; [apply Z.div_pos; lia|apply Z.div_lt_upper_bound; lia]).
  pose proof (Z.div_mod d (2 ^ 8)). lia.
Qed.

(** *** Panic *)

Context (fuel : nat) (Hfuel : (patience < fuel)%nat).

Definition panic_text (reason : list Z) (code : Z) : list Z :=
  crlf (10 :: text "[MCSOS:PANIC] ") ++ crlf reason ++ crlf (text " code=") ++ (text "0x" ++ hexs 16 code) ++ [13; 10].

(** A panic disables interrupts, prints the reason and the code, and stops. *)
Lemma kernel_panic_halts {A} reason rest code c r : chars reason -> dlab (c_uart c) = false ->
  halts view (kernel_panic (A := A) P fuel (reason ++ 0 :: rest) code) c r (say c (panic_text reason code))
    (mk_rest false (idtr r) (cs r) (glob r)).
Proof.
  intros Hr Hd. unfold kernel_panic, panic_text. eapply eff_bind_halts; [apply eff_set_rest|].
  apply (emits_halts view always); [by apply (string_emits P view patience fuel Hfuel always (10 :: text "[MCSOS:PANIC] ") []), chars_dec|done|done|].
  apply (emits_halts view always); [by apply (string_emits P view patience fuel Hfuel)|done|done|].
  apply (emits_halts view always); [by apply (lit_emits P view patience fuel Hfuel), chars_dec|done|done|].
  apply (emits_halts view always); [by apply (write_hex_emits P view patience fuel Hfuel)|done|done|].
  eapply eff_bind_halts; [by apply (litn_emits P view patience fuel Hfuel always ""); [apply chars_dec|..]|]. apply halts_now.
Qed.

(** *** Ticks *)

Definition tick_text (t : Z) : list Z :=
  if t mod 100 =? 0 then crlf (text "[MCSOS:TIMER] ticks=") ++ dec_text 21 t ++ [13; 10] else [].

Lemma timer_effect c r : dlab (c_uart c) = false ->
  let t := u64 (g_ticks (glob r) + 1) in
  effect (timer_on_irq0 P fuel) c r tt (say c (tick_text t)) (with_glob r (set_ticks t (glob r))).
Proof.
  intros Hd t. assert (Ht : 0 <= t < 2 ^ 64) by (apply (wrap_range 64); lia). unfold timer_on_irq0.
  eapply eff_bind; [apply eff_get_rest|]. eapply eff_bind; [apply eff_set_rest|]. eapply eff_bind; [apply eff_get_rest|].
  cbn [glob g_ticks set_ticks]. fold t. unfold tick_text. destruct (t mod 100 =? 0); [|rewrite say_nil by done; apply eff_ret].
  rewrite <- !say_say. eapply eff_bind; [by apply (lit_emits P view patience fuel Hfuel always); [apply chars_dec|..]|].
  eapply eff_bind; [apply eff_get_rest|]. cbn [glob g_ticks set_ticks]. fold t.
  eapply eff_bind; [by apply (write_dec_emits P view patience fuel Hfuel always)|].
  by apply (litn_emits P view patience fuel Hfuel always ""); [apply chars_dec|..].
Qed.

End effects.

(** *** The descriptor table *)

Section table.
Context {W : Type} (view : W -> chips) (isr_stub_table : list Z) (idt_addr : Z).
Local Abbreviation effect := (effect (G := kstat) view).

Lemma set_gate_effect v h sel attr c r : 0 <= v < Z.of_nat (length (g_idt (glob r))) ->
  effect (idt_set_gate v h sel attr) c r tt c
    (with_glob r (set_idt (<[Z.to_nat v := gate h sel attr]> (g_idt (glob r))) (glob r))).
Proof.
  intros Hv. unfold idt_set_gate. eapply eff_bind; [apply eff_get_glob|].
  eapply eff_bind; [apply eff_lift; by apply arr_set_Some|]. apply (eff_set_glob view (set_idt _)).
Qed.

Lemma idt_fill_effect n i sel c r : 0 <= i -> i + Z.of_nat n <= 256 -> length (g_idt (glob r)) = 256%nat ->
  i + Z.of_nat n <= Z.of_nat (length isr_stub_table) ->
  exists l, effect (idt_fill isr_stub_table n i sel) c r tt c (with_glob r (set_idt l (glob r))) /\ length l = 256%nat /\
    forall v : nat, l !! v = if decide (i <= Z.of_nat v < i + Z.of_nat n) then (fun h => gate h sel 0x8E) <$> isr_stub_table !! v
                             else g_idt (glob r) !! v.
Proof.
  revert i r. induction n as [|n IH]; intros i r Hi Hn Hl Ht.
  { exists (g_idt (glob r)). split; [destruct r as [? ? ? []]; apply eff_ret|]. split; [done|]. intros v. by rewrite decide_False by lia. }
  destruct (lookup_lt_is_Some_2 isr_stub_table (Z.to_nat i)) as [h Hh]; [lia|].
  assert (Hg : arr_get isr_stub_table i = Some h) by (unfold arr_get; destruct (Z.ltb_spec i 0); [lia|done]).
  destruct (IH (i + 1) (with_glob r (set_idt (<[Z.to_nat i := gate h sel 0x8E]> (g_idt (glob r))) (glob r)))) as (l & He & Hll & Hv);
    [lia|lia|cbn; by rewrite length_insert|lia|].
  exists l. split; [|split; [done|]].
  - cbn [idt_fill]. eapply eff_bind; [by apply eff_lift|]. eapply eff_bind; [apply set_gate_effect; lia|]. exact He.
  - intros v. rewrite Hv. cbn [with_glob glob g_idt set_idt]. destruct (decide (Z.of_nat v = i)) as [<-|].
    + rewrite decide_False, decide_True by lia. rewrite Nat2Z.id in *. by rewrite Hh, list_lookup_insert_eq by lia.
    + rewrite list_lookup_insert_ne by lia. repeat case_decide; done || lia.
Qed.

Lemma idt_install_effect v h attr c r : 0 <= v < Z.of_nat (length (g_idt (glob r))) ->
  effect (idt_install_gate v h attr) c r tt c
    (with_glob r (set_idt (<[Z.to_nat v := gate h (cs r) attr]> (g_idt (glob r))) (glob r))).
Proof. intros Hv. eapply eff_bind; [apply eff_get_rest|]. by apply set_gate_effect. Qed.

Lemma idt_init_effect c r : length (g_idt (glob r)) = 256%nat -> (48 <= length isr_stub_table)%nat ->
  exists l, effect (idt_init isr_stub_table idt_addr) c r tt c (mk_rest (iflag r) (4095, idt_addr) (cs r) (set_idt l (glob r))) /\
    length l = 256%nat /\
    forall v : nat, l !! v = if decide (Z.of_nat v < 48) then (fun h => gate h (cs r) 0x8E) <$> isr_stub_table !! v
                             else g_idt (glob r) !! v.
Proof.
  intros Hl Ht. destruct (idt_fill_effect 48 0 (cs r) c r) as (l & He & Hll & Hv); [lia|lia|done|lia|].
  exists l. split; [|split; [done|]].
  - eapply eff_bind; [apply eff_get_rest|]. eapply eff_bind; [exact He|].
    intros w Hw. by exists w.
  - intros v. rewrite Hv. repeat case_decide; done || lia.
Qed.

(** C26. What the processor reads from the interrupt descriptor table is what
    was installed: after [idt_init] the table register covers exactly the 256
    16-byte gates, each of the first 48 vectors decodes to the full 64-bit
    address of its stub, the current code segment and an interrupt gate, and
    the other vectors are as before; [idt_install_gate] changes the decoding
    of one vector, to the given handler, and no other. *)
Theorem idt_gates_decode c r :
  length (g_idt (glob r)) = 256%nat -> length isr_stub_table = 48%nat -> Forall (in_u 64) isr_stub_table -> in_u 16 (cs r) ->
  (exists l, effect (idt_init isr_stub_table idt_addr) c r tt c (mk_rest (iflag r) (4095, idt_addr) (cs r) (set_idt l (glob r))) /\
    Z.of_nat (length (idt_image l)) = 4095 + 1 /\
    (forall v : nat, (v < 48)%nat -> exists h, isr_stub_table !! v = Some h /\
      cpu_gate (idt_image l) (Z.of_nat v) = Some (h, cs r, 0, 0x8E)) /\
    (forall v : nat, (48 <= v < 256)%nat -> cpu_gate (idt_image l) (Z.of_nat v) = cpu_gate (idt_image (g_idt (glob r))) (Z.of_nat v))) /\
  (forall (v : nat) h attr, (v < 256)%nat -> in_u 64 h -> in_u 8 attr ->
    exists l, effect (idt_install_gate (Z.of_nat v) h attr) c r tt c (with_glob r (set_idt l (glob r))) /\
      cpu_gate (idt_image l) (Z.of_nat v) = Some (h, cs r, 0, attr) /\
      forall v' : nat, (v' < 256)%nat -> v' <> v ->
        cpu_gate (idt_image l) (Z.of_nat v') = cpu_gate (idt_image (g_idt (glob r))) (Z.of_nat v')).
Proof.
  intros Hl Ht Hs Hcs. split.
  - destruct (idt_init_effect c r Hl) as (l & He & Hll & Hv); [lia|]. exists l. split_and!; [done| | |].
    + rewrite length_idt_image. lia.
    + intros v Hv48. destruct (lookup_lt_is_Some_2 isr_stub_table v) as [h Hh]; [lia|]. exists h. split; [done|].
      apply cpu_gate_gate; [|exact (Forall_lookup_1 _ _ _ _ Hs Hh)|done|unfold in_u; lia]. by rewrite Hv, decide_True, Hh by lia.
    + intros v Hv48. apply cpu_gate_ext; [|lia]. by rewrite Hv, decide_False by lia.
  - intros v h attr Hv Hh Ha. eexists. split; [apply idt_install_effect; lia|]. rewrite Nat2Z.id. split.
    + apply cpu_gate_gate; try done. by rewrite list_lookup_insert_eq by lia.
    + intros v' Hv' Hne. apply cpu_gate_ext; [|rewrite length_insert; lia]. by rewrite list_lookup_insert_ne by done.
Qed.

End table.

Definition sim_stubs : list Z := map (fun i => 0xFFFFFFFF80001000 + 16 * i) (seqZ 0 48).
Definition sim_kstat : kstat := mk_kstat 0 (replicate 256 (mk_gate 0 0 0 0 0 0 0)) 0.

Lemma sim_stubs_ok : Forall (in_u 64) sim_stubs.
Proof.
  apply Forall_lookup. intros i x. unfold sim_stubs. change (map ?f ?l) with (f <$> l). rewrite list_lookup_fmap.
  destruct (seqZ 0 48 !! i) as [y|] eqn:E; [|discriminate]. intros [= <-]. apply lookup_seqZ in E. unfold in_u. lia.
Qed.

Lemma idt_gates_decode_witness :
  exists l, effect fst (idt_init (W := chips * bool) sim_stubs 0xFFFFFFFF80010000) sim_chips (mk_rest false (0, 0) 0x28 sim_kstat) tt sim_chips
      (mk_rest false (4095, 0xFFFFFFFF80010000) 0x28 (set_idt l sim_kstat)) /\
    exists h, sim_stubs !! 14%nat = Some h /\ cpu_gate (idt_image l) 14 = Some (h, 0x28, 0, 0x8E).
Proof.
  destruct (idt_gates_decode (fst : chips * bool -> chips) sim_stubs 0xFFFFFFFF80010000 sim_chips (mk_rest false (0, 0) 0x28 sim_kstat))
    as [(l & He & _ & Hg & _) _].
  - reflexivity.
  - reflexivity.
  - exact sim_stubs_ok.
  - unfold in_u. cbn. lia.
  - exists l. split; [exact He|]. apply (Hg 14%nat). lia.
Defined.

End Drivers.
