(* ===== verification/Trap.v ===== *)
(** * Traps and the kernel's system-call callbacks

    [x86_64_trap_dispatch] of [src/idt.c], the [int 0x80] entry stub of
    [kernel/syscall/syscall_entry.S] and the callbacks [k_*] of
    [src/kernel.c] behind the system calls.  The state is that of the
    system calls ([Syscall.v]); their world is the machine with the drivers'
    variables, and the scheduler. *)
From S2P Require Import Prelude Bitmap Bytes Ramfs Vfs Syscall Thread Machine Serial Drivers.
From stdpp Require Import base list numbers option strings.
From Stdlib Require Import ZArith Lia.

Open Scope Z_scope.

Module Trap.
Import Machine Serial Drivers.
Open Scope cm_scope.

Record trap_frame := mk_tf {
  rax : Z; rbx : Z; rcx : Z; rdx : Z; rbp : Z; rdi : Z; rsi : Z; r8 : Z; r9 : Z; r10 : Z;
  r11 : Z; r12 : Z; r13 : Z; r14 : Z; r15 : Z;
  vector : Z; error_code : Z; rip : Z; tf_cs : Z; rflags : Z
}.

Definition set_rax (f : trap_frame) (v : Z) : trap_frame :=
  mk_tf v (rbx f) (rcx f) (rdx f) (rbp f) (rdi f) (rsi f) (r8 f) (r9 f) (r10 f) (r11 f) (r12 f) (r13 f) (r14 f) (r15 f)
    (vector f) (error_code f) (rip f) (tf_cs f) (rflags f).

Section code.
Context {W : Type} (P : ports W) (fuel : nat).

(** The world of the system calls. *)
Record kworld := mk_kw { k_mach : mach W kstat; k_sched : Thread.sys }.

Local Abbreviation M := (cm (mach W kstat)).
Local Abbreviation ksys := (Syscall.sys kworld).
Local Abbreviation puts := (serial_write_string P fuel).
Local Abbreviation puthex := (serial_write_hex64 P fuel).

(** ** Callbacks of [kernel.c] *)

(** Driver code called back: [None] when it does not return. *)
Definition callback {A} (m : M A) (w : kworld) : option (A * kworld) :=
  match m (k_mach w) with Ret a s => Some (a, mk_kw s (k_sched w)) | _ => None end.

Definition k_get_ticks (w : kworld) : option (Z * kworld) := callback timer_ticks w.

(** The state when the scheduler has switched; the call itself returns when
    the thread is switched back to. *)
Definition k_yield_current (resume : Z) (w : kworld) : option kworld :=
  '(_, t) ← Thread.mcsos_sched_yield resume (k_sched w); Some (mk_kw (k_mach w) t).

Definition exit_message (code : Z) : M unit :=
  puts (lit "[M10] exit_thread code=") ;;;
  puthex (u32 code) ;;;
  puts (litn "") ;;;
  cm_halt.

Definition k_exit_current (code : Z) (w : kworld) : option kworld :=
  '(_, w) ← callback (exit_message code) w; Some w.

Fixpoint write_serial_from (n : nat) (buf : list Z) : M unit :=
  match n with
  | O => cm_ret tt
  | S n =>
      c <- cm_lift (head buf) ;;
      puts [c; 0] ;;;
      write_serial_from n (tail buf)
  end.

Definition k_write_serial (buf : list Z) (len : Z) (w : kworld) : option (Z * kworld) :=
  '(_, w) ← callback (write_serial_from (Z.to_nat len) buf) w; Some (s64 len, w).

Definition k_ops (resume : Z) : Syscall.mcsos_syscall_ops kworld :=
  Syscall.mk_ops (Some k_get_ticks) (Some (k_yield_current resume)) (Some k_exit_current) (Some k_write_serial).

(** ** Code on the whole state *)

Definition set_mach (s : ksys) (m : mach W kstat) : ksys :=
  Syscall.set_world s (mk_kw m (k_sched (Syscall.world s))).

Definition on_mach {A} (m : M A) : cm ksys A :=
  fun s => match m (k_mach (Syscall.world s)) with
           | Ret a m' => Ret a (set_mach s m')
           | Halted m' => Halted (set_mach s m')
           | Spin => Spin
           | Undef => Undef
           end.

(** A system call; [Undef] also when a callback does not return. *)
Definition on_sys {A} (f : ksys -> option (A * ksys)) : cm ksys A :=
  fun s => match f s with Some (a, s') => Ret a s' | None => Undef end.

(** ** The trap handler *)

Definition frame80 (f : trap_frame) : Syscall.mcsos_syscall_frame :=
  Syscall.mk_frame (rax f) (rdi f) (rsi f) (rdx f) (r10 f) (r8 f) (r9 f) 0.

Definition handle_irq (irq : Z) : M unit :=
  (if irq =? 0 then timer_on_irq0 P fuel
   else puts (lit "[MCSOS:IRQ] unexpected irq=") ;;; serial_write_dec64 P fuel irq ;;; puts (litn "")) ;;;
  pic_send_eoi P irq.

Definition report_breakpoint (f : trap_frame) : M unit :=
  puts (lit "[MCSOS:TRAP] breakpoint rip=") ;;; puthex (rip f) ;;; puts (litn "").

Definition report_exception (f : trap_frame) : M trap_frame :=
  puts (lit "[MCSOS:EXCEPTION] vector=") ;;;
  serial_write_dec64 P fuel (vector f) ;;;
  puts (lit " error=") ;;;
  puthex (error_code f) ;;;
  puts (lit " rip=") ;;;
  puthex (rip f) ;;;
  puts (litn "") ;;;
  kernel_panic P fuel (lit "unhandled CPU exception") (vector f).

(** The frame as the handler leaves it. *)
Definition x86_64_trap_dispatch (frame : option trap_frame) : cm ksys trap_frame :=
  match frame with
  | None => on_mach (kernel_panic P fuel (lit "null trap frame") 0)
  | Some f =>
      if (PIC_MASTER_OFFSET <=? vector f) && (vector f <? PIC_SLAVE_OFFSET + 8) then
        on_mach (handle_irq (u8 (vector f - PIC_MASTER_OFFSET))) ;;; cm_ret f
      else if vector f =? 0x80 then
        r <- on_sys (Syscall.mcsos_syscall_dispatch_frame (Some (frame80 f))) ;;
        r <- cm_lift r ;;
        cm_ret (set_rax f (u64 (Syscall.ret r)))
      else if vector f =? 3 then
        on_mach (report_breakpoint f) ;;; cm_ret f
      else on_mach (report_exception f)
  end.

(** ** The [int 0x80] stub *)

(** What the compiled C code leaves in the registers a call may change. *)
Record scratch := mk_scratch {
  s_rcx : Z; s_rdx : Z; s_rsi : Z; s_rdi : Z; s_r8 : Z; s_r9 : Z; s_r10 : Z; s_r11 : Z
}.

(** The gate of vector 0x80 leads to this stub, not to
    [x86_64_trap_dispatch]: it stores seven registers and a zero on the stack,
    calls [mcsos_syscall_dispatch_frame] on them, loads the result and returns
    with [iretq].  It restores no register. *)
Definition x86_64_syscall_int80_stub (left : scratch) (f : trap_frame) : cm ksys trap_frame :=
  r <- on_sys (Syscall.mcsos_syscall_dispatch_frame (Some (frame80 f))) ;;
  r <- cm_lift r ;;
  cm_ret (mk_tf (u64 (Syscall.ret r)) (rbx f) (s_rcx left) (s_rdx left) (rbp f) (s_rdi left) (s_rsi left)
            (s_r8 left) (s_r9 left) (s_r10 left) (s_r11 left) (r12 f) (r13 f) (r14 f) (r15 f)
            (vector f) (error_code f) (rip f) (tf_cs f) (rflags f)).

(** [m10_syscall_smoke]. *)
Definition MCSOS_SYS_PING : Z := 0.
Definition MCSOS_SYS_GET_TICKS : Z := 1.

Definition m10_syscall_smoke : cm ksys unit :=
  r <- on_sys (Syscall.mcsos_syscall_dispatch MCSOS_SYS_PING 0 0 0 0 0 0) ;;
  if negb (r =? 0x2605020A) then on_mach (kernel_panic P fuel (lit "M10 ping failed") (u64 r)) else
  on_mach (puts (litn "[M10] syscall ping ok")) ;;;
  r <- on_sys (Syscall.mcsos_syscall_dispatch MCSOS_SYS_GET_TICKS 0 0 0 0 0 0) ;;
  on_mach (puts (lit "[M10] syscall get_ticks=") ;;; puthex (u64 r) ;;; puts (litn "") ;;;
           puts (litn "[M10] syscall smoke done")).

End code.

(** ** The handler *)

Arguments kworld : clear implicits.

Section effects.
Context {W : Type} (P : ports W) (view : W -> chips) (patience fuel : nat).
Context `{Hboard : !Board P view patience} (Hfuel : (patience < fuel)%nat).
Local Abbreviation effect := (effect (G := kstat) view).
Local Abbreviation halts := (halts (G := kstat) view).
Local Abbreviation ksys := (Syscall.sys (kworld W)).

(** The machine of a state shows chips [c] and has [r] besides. *)
Definition at_mach (s : ksys) (c : chips) (r : rest kstat) : Prop :=
  exists w, k_mach (Syscall.world s) = mk_mach w r /\ view w = c.

(** Only the machine has changed. *)
Definition to_mach (s s' : ksys) (c : chips) (r : rest kstat) : Prop :=
  exists w, s' = set_mach s (mk_mach w r) /\ view w = c.

Lemma on_mach_effect {A} (m : cm (mach W kstat) A) s c r a c' r' :
  at_mach s c r -> effect m c r a c' r' -> exists s', on_mach m s = Ret a s' /\ to_mach s s' c' r'.
Proof.
  intros (w & Hm & Hw) He. destruct (He w Hw) as (w' & E & Hw'). eexists. unfold on_mach. rewrite Hm, E.
  split; [done|]. by exists w'.
Qed.

Lemma on_mach_halts {A} (m : cm (mach W kstat) A) s c r c' r' :
  at_mach s c r -> halts m c r c' r' -> exists s', on_mach m s = Halted s' /\ to_mach s s' c' r'.
Proof.
  intros (w & Hm & Hw) He. destruct (He w Hw) as (w' & E & Hw'). eexists. unfold on_mach. rewrite Hm, E.
  split; [done|]. by exists w'.
Qed.

Definition irq_text (irq t : Z) : list Z :=
  if irq =? 0 then tick_text t
  else crlf (text "[MCSOS:IRQ] unexpected irq=") ++ dec_text 21 irq ++ [13; 10].

(** The chips once an interrupt has been acknowledged. *)
Definition acked (irq : Z) (c : chips) : chips :=
  let c := if 8 <=? irq then with_pic2 c (ack (c_pic2 c)) else c in with_pic1 c (ack (c_pic1 c)).

Definition ticked (irq : Z) (r : rest kstat) : rest kstat :=
  if irq =? 0 then with_glob r (set_ticks (u64 (g_ticks (glob r) + 1)) (glob r)) else r.

Lemma handle_irq_effect irq c r : 0 <= irq < 256 -> dlab (c_uart c) = false ->
  effect (handle_irq P fuel irq) c r tt (acked irq (say c (irq_text irq (u64 (g_ticks (glob r) + 1))))) (ticked irq r).
Proof.
  intros Hi Hd. unfold handle_irq. eapply eff_bind; [|apply (pic_send_eoi_effect P view patience)].
  unfold irq_text, ticked. destruct (irq =? 0); [by apply (timer_effect P view patience fuel Hfuel)|]. rewrite <- !say_say.
  eapply eff_bind; [by apply (lit_emits P view patience fuel Hfuel always); [apply chars_dec|..]|].
  eapply eff_bind; [by apply (write_dec_emits P view patience fuel Hfuel always); [lia|..]|].
  by apply (litn_emits P view patience fuel Hfuel always ""); [apply chars_dec|..].
Qed.

Definition breakpoint_text (f : trap_frame) : list Z :=
  crlf (text "[MCSOS:TRAP] breakpoint rip=") ++ (text "0x" ++ hexs 16 (rip f)) ++ [13; 10].

Lemma breakpoint_effect f c r : dlab (c_uart c) = false ->
  effect (report_breakpoint P fuel f) c r tt (say c (breakpoint_text f)) r.
Proof.
  intros Hd. unfold report_breakpoint, breakpoint_text.
  apply (emits_effect view always); [by apply (lit_emits P view patience fuel Hfuel), chars_dec|done|done|].
  apply (emits_effect view always); [by apply (write_hex_emits P view patience fuel Hfuel)|done|done|].
  by apply (litn_emits P view patience fuel Hfuel always ""); [apply chars_dec|..].
Qed.

Definition exception_text (f : trap_frame) : list Z :=
  crlf (text "[MCSOS:EXCEPTION] vector=") ++ dec_text 21 (vector f) ++ crlf (text " error=") ++ (text "0x" ++ hexs 16 (error_code f)) ++
  crlf (text " rip=") ++ (text "0x" ++ hexs 16 (rip f)) ++ [13; 10] ++ panic_text (text "unhandled CPU exception") (vector f).

Definition stopped (r : rest kstat) : rest kstat := mk_rest false (idtr r) (cs r) (glob r).

Lemma exception_halts f c r : dlab (c_uart c) = false -> in_u 64 (vector f) ->
  halts (report_exception P fuel f) c r (say c (exception_text f)) (stopped r).
Proof.
  intros Hd Hv. unfold report_exception, exception_text.
  apply (emits_halts view always); [by apply (lit_emits P view patience fuel Hfuel), chars_dec|done|done|].
  apply (emits_halts view always); [by apply (write_dec_emits P view patience fuel Hfuel)|done|done|].
  apply (emits_halts view always); [by apply (lit_emits P view patience fuel Hfuel), chars_dec|done|done|].
  apply (emits_halts view always); [by apply (write_hex_emits P view patience fuel Hfuel)|done|done|].
  apply (emits_halts view always); [by apply (lit_emits P view patience fuel Hfuel), chars_dec|done|done|].
  apply (emits_halts view always); [by apply (write_hex_emits P view patience fuel Hfuel)|done|done|].
  apply (emits_halts view always); [by apply (litn_emits P view patience fuel Hfuel always ""), chars_dec|done|done|].
  by apply (kernel_panic_halts P view patience fuel Hfuel (text "unhandled CPU exception") []); [apply chars_dec|..].
Qed.

(** C12. The trap handler, for every vector: a hardware interrupt (vectors 32
    to 47) is acknowledged at the master controller, and at the slave exactly
    when it came from there, returns to the interrupted code with its
    registers unchanged, and counts a tick exactly for the timer; the branch
    for vector 128 runs the system call given by the registers and returns its
    result in rax alone (the gate [kmain] installs for that vector leads to
    [x86_64_syscall_int80_stub] instead); a breakpoint is reported and returns with registers unchanged; every
    other exception, and a null frame, is reported and stops the machine with
    interrupts disabled. *)
Theorem trap_dispatch_correct f s c r :
  at_mach s c r -> dlab (c_uart c) = false -> in_u 64 (vector f) ->
  let irq := vector f - 32 in
  let t := u64 (g_ticks (glob r) + 1) in
  (32 <= vector f < 48 -> exists s', x86_64_trap_dispatch P fuel (Some f) s = Ret f s' /\
     to_mach s s' (acked irq (say c (irq_text irq t))) (ticked irq r)) /\
  (vector f = 128 -> forall v s', Syscall.mcsos_syscall_dispatch (rax f) (rdi f) (rsi f) (rdx f) (r10 f) (r8 f) (r9 f) s = Some (v, s') ->
     x86_64_trap_dispatch P fuel (Some f) s = Ret (set_rax f (u64 v)) s') /\
  (vector f = 3 -> exists s', x86_64_trap_dispatch P fuel (Some f) s = Ret f s' /\ to_mach s s' (say c (breakpoint_text f)) r) /\
  (~ 32 <= vector f < 48 -> vector f <> 128 -> vector f <> 3 ->
     exists s', x86_64_trap_dispatch P fuel (Some f) s = Halted s' /\ to_mach s s' (say c (exception_text f)) (stopped r)) /\
  (exists s', x86_64_trap_dispatch P fuel None s = Halted s' /\
     to_mach s s' (say c (panic_text (text "null trap frame") 0)) (stopped r)).
Proof.
  intros Hs Hd Hv irq t. subst irq t. unfold x86_64_trap_dispatch, PIC_MASTER_OFFSET, PIC_SLAVE_OFFSET, cm_bind. split_and!.
  - intros Hr. destruct (Z.leb_spec 32 (vector f)); [|lia]. destruct (Z.ltb_spec (vector f) (40 + 8)); [|lia]. cbn [andb].
    rewrite (wrap_small 8) by (unfold in_u; lia).
    destruct (on_mach_effect _ s c r _ _ _ Hs (handle_irq_effect (vector f - 32) c r ltac:(lia) Hd)) as (s' & E & Ht).
    exists s'. rewrite E. done.
  - intros Hr v s' Hd80. rewrite Hr. cbn [andb Z.leb Z.ltb Z.compare Pos.compare Pos.compare_cont Z.add Pos.add Pos.succ Z.eqb Pos.eqb].
    unfold on_sys, Syscall.mcsos_syscall_dispatch_frame, frame80. cbn [Syscall.nr Syscall.arg0 Syscall.arg1 Syscall.arg2 Syscall.arg3 Syscall.arg4 Syscall.arg5].
    change (128 <? 40 + 8) with false. cbv beta iota. rewrite Hd80. done.
  - intros Hr. rewrite Hr. destruct (on_mach_effect _ s c r _ _ _ Hs (breakpoint_effect f c r Hd)) as (s' & E & Ht).
    exists s'. cbn [andb Z.leb Z.ltb Z.compare Pos.compare Pos.compare_cont Z.eqb Pos.eqb]. rewrite E. done.
  - intros Hn H1 H2. destruct (on_mach_halts _ s c r _ _ Hs (exception_halts f c r Hd Hv)) as (s' & E & Ht). exists s'. split; [|done].
    destruct (Z.leb_spec 32 (vector f)); destruct (Z.ltb_spec (vector f) (40 + 8)); cbn [andb]; try lia;
      (destruct (Z.eqb_spec (vector f) 128); [done|]); (destruct (Z.eqb_spec (vector f) 3); [done|]); exact E.
  - apply (on_mach_halts _ s c r); [done|].
    by apply (kernel_panic_halts P view patience fuel Hfuel (text "null trap frame") []); [apply chars_dec|..].
Qed.

(** ** Printing for user code *)

Lemma one_char_emits ok ch : 0 <= ch < 256 ->
  emits (G := kstat) view ok (serial_write_string P fuel [ch; 0]) (crlf (filter (fun c => c <> 0) [ch])).
Proof.
  intros Hc. rewrite filter_cons, filter_nil. case_decide.
  - apply (string_emits P view patience fuel Hfuel ok [ch] []). apply Forall_cons. split; [lia|]. apply Forall_nil_2.
  - assert (ch = 0) as -> by lia. apply (string_emits P view patience fuel Hfuel ok [] []). apply Forall_nil_2.
Qed.

(** A NUL in the buffer is not sent. *)
Lemma write_serial_emits ok bs rest : Forall (fun c => 0 <= c < 256) bs ->
  emits (G := kstat) view ok (write_serial_from P fuel (length bs) (bs ++ rest)) (crlf (filter (fun c => c <> 0) bs)).
Proof.
  intros Hb. induction Hb as [|c bs Hc _ IH]; cbn [length write_serial_from app]; [apply (emits_nil view)|].
  intros ch r Hok Hd. eapply eff_bind; [by apply eff_lift|]. cbn [tail].
  change (c :: bs) with ([c] ++ bs). rewrite filter_app. unfold crlf. rewrite flat_map_app.
  revert ch r Hok Hd. apply (emits_seq view); [by apply one_char_emits|exact IH].
Qed.

Lemma dispatch_write_serial s c r resume p n bs a2 a3 a4 a5 :
  at_mach s c r -> dlab (c_uart c) = false -> Syscall.g_ops s = k_ops P fuel resume ->
  p <> 0 -> 0 <= n <= 4096 ->
  Syscall.mcsos_user_check_range (Syscall.g_user_region s) p n = true ->
  slice (Syscall.u_at s p) 0 n = Some bs -> bytes_ok bs ->
  exists s', Syscall.mcsos_syscall_dispatch 2 p n a2 a3 a4 a5 s = Some (n, s') /\
    to_mach s s' (say c (crlf (filter (fun b => b <> 0) bs))) r.
Proof.
  intros (w & Hm & Hw) Hd Hops Hptr Hlen Hck Hsl Hbs.
  destruct (slice_0_inv _ _ _ Hsl) as (Hl & Hu).
  assert (Hn : Z.to_nat n = length bs) by lia. rewrite Hn in Hu.
  assert (Hb : Forall (fun b => 0 <= b < 256) bs) by (eapply Forall_impl; [exact Hbs|]; unfold in_u; intros; lia).
  destruct (write_serial_emits always bs (drop (length bs) (Syscall.u_at s p)) Hb c r I Hd w Hw) as (w' & E & Hw').
  exists (set_mach s (mk_mach w' r)). split; [|by exists w'].
  change (Syscall.mcsos_syscall_dispatch 2 ?a ?b ?c ?d ?e ?g s) with (Syscall.sys_write_serial a b c s).
  unfold Syscall.sys_write_serial. destruct (Z.eqb_spec p 0); [done|]. destruct (Z.ltb_spec 4096 n); [lia|].
  rewrite Hck, Hops, Hu. cbn [negb k_ops Syscall.write_serial mbind option_bind]. unfold k_write_serial, callback. rewrite Hm.
  rewrite Hn, E. by rewrite Vfs.s64_small by lia.
Qed.

(** C25. From the interrupt to the wire: with the kernel's callbacks
    installed, [int 0x80] with call number 2 in rax, a non-null buffer address
    in rdi and a length of at most 4096 in rsi that pass the range check runs
    the stub and sends over the serial line the bytes of the user's buffer in
    order, a carriage return inserted before each newline and NUL bytes left
    out.  Nothing else of the kernel changes.  The interrupted code gets the
    length in rax and keeps its callee-saved registers, instruction pointer,
    code segment and flags; the other registers hold what the C code left. *)
Theorem trap_write_serial left f s c r resume bs :
  at_mach s c r -> dlab (c_uart c) = false -> Syscall.g_ops s = k_ops P fuel resume ->
  rax f = 2 -> rdi f <> 0 -> 0 <= rsi f <= 4096 ->
  Syscall.mcsos_user_check_range (Syscall.g_user_region s) (rdi f) (rsi f) = true ->
  slice (Syscall.u_at s (rdi f)) 0 (rsi f) = Some bs -> bytes_ok bs ->
  exists f' s', x86_64_syscall_int80_stub left f s = Ret f' s' /\
    to_mach s s' (say c (crlf (filter (fun b => b <> 0) bs))) r /\
    rax f' = rsi f /\ rbx f' = rbx f /\ rbp f' = rbp f /\ r12 f' = r12 f /\ r13 f' = r13 f /\
    r14 f' = r14 f /\ r15 f' = r15 f /\ rip f' = rip f /\ tf_cs f' = tf_cs f /\ rflags f' = rflags f.
Proof.
  intros Hs Hd Hops Ha Hptr Hlen Hck Hsl Hbs.
  destruct (dispatch_write_serial s c r resume (rdi f) (rsi f) bs (rdx f) (r10 f) (r8 f) (r9 f)
              Hs Hd Hops Hptr Hlen Hck Hsl Hbs) as (s' & E & Ht).
  eexists _, s'. split; [|split; [exact Ht|]].
  - unfold x86_64_syscall_int80_stub, cm_bind, on_sys, Syscall.mcsos_syscall_dispatch_frame, frame80.
    cbn [Syscall.nr Syscall.arg0 Syscall.arg1 Syscall.arg2 Syscall.arg3 Syscall.arg4 Syscall.arg5].
    rewrite Ha, E. reflexivity.
  - cbn. rewrite (wrap_small 64) by (unfold in_u; lia). by split_and!.
Qed.

End effects.

(** ** On the simulated board *)

Definition sim_sched : Thread.sys := Thread.mk_sys (Thread.mk_sched 0 0 0 0 0 0 0 0 0) ∅ Thread.zero_context ∅.

Definition sim_sys : Syscall.sys (kworld (chips * bool)) :=
  Syscall.mk_sys (k_ops sim_ports 2 0) (Syscall.mk_region 4096 4352) 0 (Syscall.g_vfs Syscall.ex_sys) 4096
    (text "hi" ++ replicate 254 10) (mk_kw (mk_mach (sim_chips, false) (mk_rest true (4095, 0) 0x28 sim_kstat)) sim_sched).

Lemma sim_at : at_mach fst sim_sys sim_chips (mk_rest true (4095, 0) 0x28 sim_kstat).
Proof. by exists (sim_chips, false). Qed.

Definition sim_frame (v a p n : Z) : trap_frame := mk_tf a 0 0 0 0 p n 0 0 0 0 0 0 0 0 v 0 0x1000 0x28 0x202.

Lemma trap_dispatch_correct_witness :
  exists s', x86_64_trap_dispatch sim_ports 2 (Some (sim_frame 32 0 0 0)) sim_sys = Ret (sim_frame 32 0 0 0) s' /\
    exists c r, to_mach fst sim_sys s' c r /\ g_ticks (glob r) = 1 /\ eois (c_pic1 c) = 1 /\ eois (c_pic2 c) = 0.
Proof.
  destruct (trap_dispatch_correct sim_ports fst 1 2 ltac:(lia) (sim_frame 32 0 0 0) sim_sys _ _ sim_at) as (H & _);
    [reflexivity|by vm_compute|].
  destruct (H ltac:(cbn; lia)) as (s' & E & Ht). exists s'. split; [exact E|]. eexists _, _. split; [exact Ht|].
  split_and!; reflexivity.
Defined.

Lemma trap_write_serial_witness :
  exists f' s' c, x86_64_syscall_int80_stub (mk_scratch 1 2 3 4 5 6 7 8) (sim_frame 128 2 4096 3) sim_sys = Ret f' s' /\
    rax f' = 3 /\ sent (c_uart c) = text "hi" ++ [13; 10] /\
    to_mach fst sim_sys s' c (mk_rest true (4095, 0) 0x28 sim_kstat).
Proof.
  destruct (trap_write_serial sim_ports fst 1 2 ltac:(lia) (mk_scratch 1 2 3 4 5 6 7 8) (sim_frame 128 2 4096 3) sim_sys _ _ 0
    (text "hi" ++ [10]) sim_at) as (f' & s' & E & Ht & Ha & _).
  1-3: reflexivity.
  - discriminate.
  - cbn. lia.
  - by vm_compute.
  - by vm_compute.
  - apply bytes_okb_ok. by vm_compute.
  - exists f', s'. eexists. split; [exact E|]. split; [exact Ha|]. split; [|exact Ht]. by vm_compute.
Defined.

End Trap.
