(* ===== verification/Boot.v ===== *)
(** * Bringing the kernel up ([kmain] of [src/kernel.c])

    Composes the drivers, the memory managers, the scheduler, the loader's
    smoke test and the system calls in the order of [kmain], from its first instruction to the switch to the
    first thread, and the bodies of the two demo threads.  Addresses fixed by
    the linker are parameters.  Interrupts that arrive meanwhile are not
    modelled here; what each does is in [Trap.v]. *)
From S2P Require Import Prelude Bitmap Bytes Pmm Elf Thread Memory Kmem Vmm Kernel Ramfs Vfs Syscall Machine Serial ElfLog Drivers Trap.
From stdpp Require Import base gmap list numbers option strings.
From Stdlib Require Import ZArith Lia.

Open Scope Z_scope.

Module Boot.
Import Machine Serial ElfLog Drivers Trap.
Open Scope cm_scope.

(** Where the linker put things. *)
Record layout := mk_layout {
  isr_stub_table : list Z;
  l_idt : Z;
  x86_64_syscall_int80_stub : Z;
  g_boot_thread : Z;
  g_thread_a : Z;
  g_thread_b : Z;
  g_stack_a : Z;
  g_stack_b : Z;
  demo_thread_a_entry : Z;
  demo_thread_b_entry : Z;
  l_resume : Z
}.

Definition STACK_SIZE : Z := 8192.

Section code.
Context {W : Type} (P : ports W) (fuel : nat) (L : layout).

(** The whole kernel: the state behind the system calls and the memory managers. *)
Record kboot := mk_boot { b_sys : Syscall.sys (kworld W); b_kernel : Kernel.kernel }.

Local Abbreviation M := (cm (mach W kstat)).
Local Abbreviation B := (cm kboot).
Local Abbreviation puts := (serial_write_string P fuel).
Local Abbreviation puthex := (serial_write_hex64 P fuel).

(** Code of one part run on the whole. *)
Definition on_ksys {A} (m : cm (Syscall.sys (kworld W)) A) : B A :=
  fun b => match m (b_sys b) with
           | Ret a s => Ret a (mk_boot s (b_kernel b))
           | Halted s => Halted (mk_boot s (b_kernel b))
           | Spin => Spin
           | Undef => Undef
           end.

Definition drive {A} (m : M A) : B A := on_ksys (on_mach m).

Definition set_sched (s : Syscall.sys (kworld W)) (t : Thread.sys) : Syscall.sys (kworld W) :=
  Syscall.set_world s (mk_kw (k_mach (Syscall.world s)) t).

Definition on_sched {A} (f : Thread.sys -> option (A * Thread.sys)) : B A :=
  on_ksys (on_sys (fun s => '(a, t) ← f (k_sched (Syscall.world s)); Some (a, set_sched s t))).

(** A message of [Kernel.v]. *)
Definition print_say (x : Kernel.say) : M unit :=
  match x with
  | Kernel.Str s => puts (lit s)
  | Kernel.Line s => puts (litn s)
  | Kernel.Hex v => puthex v
  end.

Fixpoint print_all (l : list Kernel.say) : M unit :=
  match l with [] => cm_ret tt | x :: l => print_say x ;;; print_all l end.

(** An initialisation of [Kernel.v]; its messages go to the serial line. *)
Definition on_kernel (f : Kernel.kernel -> option Kernel.kernel) : B unit :=
  fun b => match f (b_kernel b) with
           | None => Undef
           | Some k => drive (print_all (drop (length (Kernel.k_out (b_kernel b))) (Kernel.k_out k))) (mk_boot (b_sys b) k)
           end.

(** ** [kmain] *)

(** Up to [cpu_sti]. *)
Definition kmain_interrupts : M unit :=
  cpu_cli ;;;
  serial_init P ;;;
  puts (litn "MCSOS M8 boot") ;;;
  puts (litn "[MCSOS:M5] boot: external interrupt bring-up start") ;;;
  idt_init (isr_stub_table L) (l_idt L) ;;;
  puts (litn "[MCSOS:M5] idt: loaded") ;;;
  pic_remap P PIC_MASTER_OFFSET PIC_SLAVE_OFFSET ;;;
  pic_mask_all P ;;;
  pic_unmask_irq P 0 ;;;
  puts (lit "[MCSOS:M5] pic: remapped; mask master=") ;;;
  m <- pic_read_master_mask P ;;
  puthex m ;;;
  puts (lit " slave=") ;;;
  s <- pic_read_slave_mask P ;;
  puthex s ;;;
  puts (litn "") ;;;
  pit_configure_hz P 100 ;;;
  puts (litn "[MCSOS:M5] pit: configured 100Hz") ;;;
  puts (litn "[MCSOS:M5] sti: enabling interrupts") ;;;
  cpu_sti.

Definition kmain_memory : B unit :=
  on_kernel Kernel.kernel_memory_init ;;;
  on_kernel Kernel.kernel_vmm_init ;;;
  on_kernel Kernel.kernel_heap_init ;;;
  drive (puts (litn "M8 ready")).

(** [g_sched.next_id++]. *)
Definition take_id (t : Thread.sys) : option (Z * Thread.sys) :=
  let sc := Thread.sched t in
  Some (Thread.next_id sc,
        Thread.set_sched t (Thread.mk_sched (Thread.initialized sc) (Thread.current sc) (Thread.idle sc) (Thread.ready_head sc)
          (Thread.ready_tail sc) (Thread.runnable_count sc) (Thread.context_switches sc) (Thread.s_ticks sc) (u64 (Thread.next_id sc + 1)))).

Definition thread_new (t : Z) (nm : string) (ent stack : Z) : B Z :=
  i <- on_sched take_id ;;
  on_sched (Thread.mcsos_thread_prepare t nm ent 0 stack STACK_SIZE i).

Definition kmain_threads : B unit :=
  on_sched (Thread.mcsos_scheduler_init (g_boot_thread L)) ;;;
  thread_new (g_thread_a L) "demo-a" (demo_thread_a_entry L) (g_stack_a L) ;;;
  thread_new (g_thread_b L) "demo-b" (demo_thread_b_entry L) (g_stack_b L) ;;;
  on_sched (Thread.mcsos_sched_enqueue (g_thread_a L)) ;;;
  on_sched (Thread.mcsos_sched_enqueue (g_thread_b L)) ;;;
  drive (puts (litn "[M9] scheduler initialized")).

Definition on_sys_state (f : Syscall.sys (kworld W) -> Syscall.sys (kworld W)) : B unit :=
  on_ksys (fun s => Ret tt (f s)).

Definition kmain_syscalls : B unit :=
  on_sys_state (Syscall.mcsos_syscall_init (Some (k_ops P fuel (l_resume L)))) ;;;
  drive (idt_install_gate 0x80 (x86_64_syscall_int80_stub L) 0x8E) ;;;
  drive (puts (litn "[M10] IDT vector 0x80 installed")) ;;;
  on_sys_state (Syscall.mcsos_syscall_set_user_region (Syscall.mk_region 0x400000 0x800000000000)) ;;;
  drive (puts (litn "[M10] syscall init")) ;;;
  on_ksys (m10_syscall_smoke P fuel).

(** To the switch to the first thread; the halt loop behind it belongs to the
    boot thread. *)
Definition kmain : B Z :=
  drive kmain_interrupts ;;;
  kmain_memory ;;;
  kmain_threads ;;;
  drive (m11_smoke P fuel) ;;;
  kmain_syscalls ;;;
  on_sched (Thread.mcsos_sched_yield (l_resume L)).

(** ** The demo threads: one round of the loop of the thread that runs *)

Definition demo_thread_a : B Z :=
  drive (puts (litn "[M9] thread A tick")) ;;; on_sched (Thread.mcsos_sched_yield (l_resume L)).

Definition demo_thread_b : B Z :=
  drive (puts (litn "[M9] thread B tick")) ;;; on_sched (Thread.mcsos_sched_yield (l_resume L)).

(** The thread on the processor goes once round its loop. *)
Definition demo_round : B Z :=
  fun b =>
    let cur := Thread.current (Thread.sched (k_sched (Syscall.world (b_sys b)))) in
    if cur =? g_thread_a L then demo_thread_a b else if cur =? g_thread_b L then demo_thread_b b else Undef.

End code.

(** ** Running the parts on the whole *)

Section runs.
Context {W : Type} (P : ports W) (view : W -> chips) (patience fuel : nat).
Context `{Hboard : !Board P view patience} (Hfuel : (patience < fuel)%nat).
Local Abbreviation ksys := (Syscall.sys (kworld W)).
Local Abbreviation effect := (effect (G := kstat) view).
Local Abbreviation prints := (prints (G := kstat) view).

(** The state with its machine, scheduler and memory managers spelled out. *)
Definition whole (sy : ksys) (w : W) (r : rest kstat) (t : Thread.sys) (k : Kernel.kernel) : kboot :=
  mk_boot (Syscall.set_world sy (mk_kw (mk_mach w r) t)) k.

Record gst := mk_gst { g_sys : ksys; g_chips : chips; g_rest : rest kstat; g_sch : Thread.sys; g_ker : Kernel.kernel }.

Definition runs {A} (m : cm (kboot (W := W)) A) (x : gst) (a : A) (y : gst) : Prop :=
  forall w, view w = g_chips x ->
    exists w', m (whole (g_sys x) w (g_rest x) (g_sch x) (g_ker x)) =
               Ret a (whole (g_sys y) w' (g_rest y) (g_sch y) (g_ker y)) /\ view w' = g_chips y.

Lemma runs_bind {A B} (m : cm kboot A) (f : A -> cm kboot B) x a y b z :
  runs m x a y -> runs (f a) y b z -> runs (cm_bind m f) x b z.
Proof. intros H1 H2 w Hw. destruct (H1 w Hw) as (w1 & E1 & Hw1). unfold cm_bind. rewrite E1. by apply H2. Qed.

Lemma runs_drive {A} (m : cm (mach W kstat) A) sy c r t k a c' r' :
  effect m c r a c' r' -> runs (drive m) (mk_gst sy c r t k) a (mk_gst sy c' r' t k).
Proof.
  intros He w Hw. destruct (He w Hw) as (w' & E & Hw'). exists w'. split; [|done].
  unfold drive, on_ksys, on_mach, whole. cbn [b_sys b_kernel Syscall.world Syscall.set_world k_mach]. cbn [g_rest]. by rewrite E.
Qed.

(** Printing changes what was sent only. *)
Lemma runs_print (ok : rest kstat -> Prop) (m : cm (mach W kstat) unit) sy c r t k : prints ok m -> ok r -> dlab (c_uart c) = false ->
  exists bs, runs (drive m) (mk_gst sy c r t k) tt (mk_gst sy (say c bs) r t k).
Proof. intros [bs Hb] Hr Hd. exists bs. apply runs_drive. by apply Hb. Qed.

Lemma runs_sched {A} (f : Thread.sys -> option (A * Thread.sys)) sy c r t k a t' :
  f t = Some (a, t') -> runs (on_sched f) (mk_gst sy c r t k) a (mk_gst sy c r t' k).
Proof.
  intros E w Hw. exists w. split; [|done]. unfold on_sched, on_ksys, on_sys, whole.
  cbn [b_sys b_kernel Syscall.world Syscall.set_world k_sched g_sch]. rewrite E. done.
Qed.

Lemma prints_say x : prints always (print_say P fuel x).
Proof.
  destruct x; [apply (prints_lit P view patience fuel Hfuel)|apply (prints_litn P view patience fuel Hfuel)|apply (prints_hex P view patience fuel Hfuel)].
Qed.

Lemma prints_all l : prints always (print_all P fuel l).
Proof. induction l as [|x l IH]; [apply prints_ret|]. apply prints_seq; [apply prints_say|exact IH]. Qed.

Lemma runs_kernel f sy c r t k k' : f k = Some k' -> dlab (c_uart c) = false ->
  exists bs, runs (on_kernel P fuel f) (mk_gst sy c r t k) tt (mk_gst sy (say c bs) r t k').
Proof.
  intros E Hd. destruct (runs_print always _ sy c r t k' (prints_all (drop (length (Kernel.k_out k)) (Kernel.k_out k'))) I Hd) as [bs H].
  exists bs. intros w Hw. unfold on_kernel. cbn [whole b_kernel g_ker b_sys]. rewrite E. exact (H w Hw).
Qed.

End runs.

(** ** The stages *)

Section stages.
Context {W : Type} (P : ports W) (view : W -> chips) (patience fuel : nat).
Context `{Hboard : !Board P view patience} (Hfuel : (patience < fuel)%nat) (L : layout).
Local Abbreviation ksys := (Syscall.sys (kworld W)).
Local Abbreviation effect := (effect (G := kstat) view).
Local Abbreviation runs := (runs view).

(** The chips after the interrupt bring-up: vectors 32 to 47, only the timer
    unmasked, at 1193182 / 11931 Hz. *)
Definition irq_chips (c : chips) (bs : list Z) : chips :=
  mk_chips (mk_uart false (sent (c_uart c) ++ bs)) (mk_pic 0x20 0xFE 0 (eois (c_pic1 c)))
    (mk_pic 0x28 0xFF 0 (eois (c_pic2 c))) (mk_pit None 11931).

Lemma eff_chips {A} (m : cm (mach W kstat) A) c r a c1 c2 r' : effect m c r a c1 r' -> c1 = c2 -> effect m c r a c2 r'.
Proof. by intros ? <-. Qed.

Lemma chips_ext c c' : c_uart c = c_uart c' -> c_pic1 c = c_pic1 c' -> c_pic2 c = c_pic2 c' -> c_pit c = c_pit c' -> c = c'.
Proof. destruct c, c'. cbn. by intros -> -> -> ->. Qed.

Ltac put_litn := eapply eff_bind; [by apply (litn_emits P view patience fuel Hfuel always); [apply chars_dec|..]|].
Ltac put_lit := eapply eff_bind; [by apply (lit_emits P view patience fuel Hfuel always); [apply chars_dec|..]|].
Ltac put_hex := eapply eff_bind; [by apply (write_hex_emits P view patience fuel Hfuel always)|].

Lemma interrupts_effect c r : idle_pics c -> length (g_idt (glob r)) = 256%nat -> (48 <= length (isr_stub_table L))%nat ->
  exists l bs, effect (kmain_interrupts P fuel L) c r tt (irq_chips c bs) (mk_rest true (4095, l_idt L) (cs r) (set_idt l (glob r))) /\
    length l = 256%nat /\
    forall v : nat, l !! v = if decide (Z.of_nat v < 48) then (fun h => gate h (cs r) 0x8E) <$> isr_stub_table L !! v
                             else g_idt (glob r) !! v.
Proof.
  intros [H1 H2] Hl Ht. destruct c as [u [b1 m1 i1 e1] [b2 m2 i2 e2] p]. cbn in H1, H2. subst.
  destruct (idt_init_effect view (isr_stub_table L) (l_idt L) (say (mk_chips u (mk_pic b1 m1 0 e1) (mk_pic b2 m2 0 e2) p)
    (([] ++ crlf (text "MCSOS M8 boot" ++ [NEWLINE])) ++ crlf (text "[MCSOS:M5] boot: external interrupt bring-up start" ++ [NEWLINE])))
    (mk_rest false (idtr r) (cs r) (glob r)) Hl Ht) as (l & Hi & Hll & Hv). cbn [iflag idtr cs glob] in Hi, Hv.
  exists l. eexists. split; [|split; [exact Hll|exact Hv]]. unfold kmain_interrupts.
  eapply eff_bind; [apply (eff_cli view)|]. eapply eff_bind; [apply (serial_init_effect P view patience)|].
  put_litn. put_litn. rewrite !say_say. eapply eff_bind; [exact Hi|]. put_litn. rewrite say_say.
  eapply eff_bind; [by apply (pic_remap_effect P view patience)|]. eapply eff_bind; [by apply (pic_mask_all_effect P view patience)|].
  eapply eff_bind; [apply (pic_unmask_effect P view patience); [done|done|cbn; lia|cbn; lia]|]. put_lit.
  eapply eff_bind; [eapply (eff_inb P view patience); reflexivity|]. put_hex. put_lit.
  eapply eff_bind; [eapply (eff_inb P view patience); reflexivity|]. put_hex. put_litn.
  eapply eff_bind; [by apply (pit_configure_effect P view patience)|]. put_litn. put_litn.
  eapply eff_chips; [exact (eff_sti view _ (mk_rest false (4095, l_idt L) (cs r) (set_idt l (glob r))))|]. 
  apply chips_ext.
  all: cbn [irq_chips say with_uart with_pic1 with_pic2 with_pit rebase mask c_uart c_pic1 c_pic2 c_pit sent eois Z.ltb Z.compare].
  - rewrite <- !app_assoc. reflexivity.
  - reflexivity.
  - reflexivity.
  - reflexivity.
Qed.

(** *** Threads *)

(** The thread objects: distinct, zeroed, with their stacks and entries. *)
Record threads_ok (t : Thread.sys) : Prop := {
  to_size : Z.of_nat (size (Thread.threads t)) < 2 ^ 63;
  to_nonzero : g_boot_thread L <> 0 /\ g_thread_a L <> 0 /\ g_thread_b L <> 0;
  to_distinct : g_boot_thread L <> g_thread_a L /\ g_boot_thread L <> g_thread_b L /\ g_thread_a L <> g_thread_b L;
  to_boot : is_Some (Thread.threads t !! g_boot_thread L);
  to_a : exists th, Thread.threads t !! g_thread_a L = Some th /\ Thread.magic th <> Thread.MCSOS_THREAD_MAGIC;
  to_b : exists th, Thread.threads t !! g_thread_b L = Some th /\ Thread.magic th <> Thread.MCSOS_THREAD_MAGIC;
  to_entries : demo_thread_a_entry L <> 0 /\ demo_thread_b_entry L <> 0;
  to_stacks : (0 < g_stack_a L /\ g_stack_a L + STACK_SIZE < 2 ^ 64) /\ (0 < g_stack_b L /\ g_stack_b L + STACK_SIZE < 2 ^ 64)
}.

(** A context about to run a thread for the first time. *)
Definition fresh_ctx (ent stack : Z) (c : Thread.mcsos_context_t) : Prop :=
  Thread.rip c = ent /\ stack <= Thread.rsp c /\ Thread.rsp c + 8 <= stack + STACK_SIZE /\ Thread.rsp c mod 16 = 8.

Lemma take_id_inv t q : Thread.sys_inv t q -> exists i t', take_id t = Some (i, t') /\ Thread.sys_inv t' q /\
  Thread.threads t' = Thread.threads t /\ Thread.cpu t' = Thread.cpu t /\
  Thread.current (Thread.sched t') = Thread.current (Thread.sched t) /\ Thread.idle (Thread.sched t') = Thread.idle (Thread.sched t).
Proof.
  intros [[Hq Hc Ho] Hs]. eexists _, _. split; [reflexivity|]. split_and!; try done. split; [split|]; try done.
  eapply Thread.queue_ok_ext; [exact Hq|reflexivity|apply Hq|reflexivity..].
Qed.

(** Preparing one of the thread objects. *)
Lemma new_thread sy c r t k p nm ent stack q th :
  Thread.sys_inv t q -> Thread.threads t !! p = Some th -> Thread.magic th <> Thread.MCSOS_THREAD_MAGIC -> p <> 0 -> ent <> 0 ->
  0 < stack -> stack + STACK_SIZE < 2 ^ 64 ->
  exists t' x, runs (thread_new p nm ent stack) (mk_gst sy c r t k) Thread.MCSOS_SCHED_OK (mk_gst sy c r t' k) /\
    Thread.sys_inv t' q /\ Thread.threads t' !! p = Some x /\ Thread.magic x = Thread.MCSOS_THREAD_MAGIC /\
    Thread.state x = Thread.MCSOS_THREAD_NEW /\ fresh_ctx ent stack (Thread.context x) /\
    (forall u, u <> p -> Thread.threads t' !! u = Thread.threads t !! u) /\
    Thread.current (Thread.sched t') = Thread.current (Thread.sched t) /\ Thread.idle (Thread.sched t') = Thread.idle (Thread.sched t).
Proof.
  intros Hinv Hth Hm Hp He Hs1 Hs2. unfold STACK_SIZE in *.
  destruct (take_id_inv t q Hinv) as (i & t1 & E1 & Hinv1 & Et & _ & Ec & Ei).
  assert (Hth1 : Thread.threads t1 !! p = Some th) by congruence.
  pose proof (Thread.thread_prepare_stack p nm ent 0 stack 8192 i t1 th Hp He Hth1 ltac:(lia) ltac:(lia)) as Hprep.
  change (Thread.MCSOS_MIN_KERNEL_STACK <=? 8192) with true in Hprep. destruct (Z.ltb_spec (stack + 8192) (2 ^ 64)); [|lia].
  cbn [andb] in Hprep. destruct Hprep as (t2 & x & E2 & Ht2 & Hsc & Hst & Hmg & _ & Hrip & Hsp). cbn zeta in Hsp.
  destruct (Thread.prepare_inv t1 q p nm ent 0 stack 8192 i _ t2 th Hinv1 Hth1 Hm E2) as (Hinv2 & _ & _ & Hoth).
  exists t2, x. split_and!; try done.
  - eapply runs_bind; [apply runs_sched; exact E1|]. apply runs_sched. exact E2.
  - by rewrite Ht2, lookup_insert_eq.
  - unfold fresh_ctx, STACK_SIZE. tauto.
  - intros u Hu. rewrite Hoth by done. congruence.
  - rewrite Hsc. congruence.
  - rewrite Hsc. congruence.
Qed.

(** Enqueueing a new thread. *)
Lemma queue_thread sy c r t k p q x :
  Thread.sys_inv t q -> Thread.threads t !! p = Some x -> Thread.magic x = Thread.MCSOS_THREAD_MAGIC -> Thread.state x = Thread.MCSOS_THREAD_NEW -> p <> 0 ->
  exists t', runs (on_sched (Thread.mcsos_sched_enqueue p)) (mk_gst sy c r t k) Thread.MCSOS_SCHED_OK (mk_gst sy c r t' k) /\
    Thread.sys_inv t' (q ++ [p]) /\ Thread.ctx_of t' p = Some (Thread.context x) /\
    (forall u th, u <> p -> Thread.threads t !! u = Some th -> exists n, Thread.threads t' !! u = Some (Thread.set_next th n)) /\
    Thread.current (Thread.sched t') = Thread.current (Thread.sched t) /\ Thread.idle (Thread.sched t') = Thread.idle (Thread.sched t).
Proof.
  intros Hinv Hx Hm Hst Hp. pose proof Hinv as [Hsi Hsz]. assert (Hq : p ∉ q).
  { intros Hin. pose proof (Thread.q_ready _ _ (Thread.si_queue _ _ _ Hsi)) as Hr. rewrite Forall_forall in Hr.
    destruct (Hr p Hin) as (y & Hy & _ & Hys). congruence. }
  destruct (Thread.enqueue_spec t q p Thread.MCSOS_THREAD_NEW) as (t' & th & E & _);
    [apply Hsi|split; [done|eauto]|by left|done|eapply Thread.queue_room; eauto|].
  destruct (Thread.enqueue_inv t q p x Thread.MCSOS_SCHED_OK t' Hinv Hx) as [[? _]|(_ & Hinv' & _ & _ & Hrest & Hthr & Hctx)]; [congruence|done|done|].
  destruct Hrest as (_ & Hc & Hi & _). exists t'. split_and!; try done.
  - apply runs_sched. exact E.
  - rewrite Hctx. unfold Thread.ctx_of. by rewrite Hx.
  - intros u uh Hu. apply Hthr. set_solver.
Qed.

Record started (t : Thread.sys) : Prop := {
  st_inv : Thread.sys_inv t [g_thread_a L; g_thread_b L];
  st_current : Thread.current (Thread.sched t) = g_boot_thread L;
  st_idle : Thread.idle (Thread.sched t) = g_boot_thread L;
  st_a : exists x, Thread.ctx_of t (g_thread_a L) = Some x /\ fresh_ctx (demo_thread_a_entry L) (g_stack_a L) x;
  st_b : exists x, Thread.ctx_of t (g_thread_b L) = Some x /\ fresh_ctx (demo_thread_b_entry L) (g_stack_b L) x
}.

Lemma threads_stage sy c r t k : threads_ok t -> dlab (c_uart c) = false ->
  exists t' bs, runs (kmain_threads P fuel L) (mk_gst sy c r t k) tt (mk_gst sy (say c bs) r t' k) /\ started t'.
Proof.
  intros [Hsz (N1 & N2 & N3) (D1 & D2 & D3) [b0 Hb0] (a0 & Ha0 & Ma0) (b1 & Hb1 & Mb1) (E1 & E2) ((S1 & S2) & S3 & S4)] Hd.
  assert (Hi : exists t1, Thread.mcsos_scheduler_init (g_boot_thread L) t = Some (Thread.MCSOS_SCHED_OK, t1) /\
    Thread.current (Thread.sched t1) = g_boot_thread L /\ Thread.idle (Thread.sched t1) = g_boot_thread L /\
    forall u, u <> g_boot_thread L -> Thread.threads t1 !! u = Thread.threads t !! u).
  { unfold Thread.mcsos_scheduler_init. destruct (Z.eqb_spec (g_boot_thread L) 0); [done|]. rewrite Hb0. cbn [mbind option_bind].
    eexists. split_and!; [done|done|done|]. intros u Hu. cbn. by rewrite lookup_insert_ne by done. }
  destruct Hi as (t1 & Hrun1 & C1 & I1 & O1). pose proof (Thread.init_inv _ t t1 Hsz Hrun1) as Hinv1.
  destruct (new_thread sy c r t1 k (g_thread_a L) "demo-a" (demo_thread_a_entry L) (g_stack_a L) [] a0 Hinv1)
    as (t2 & xa & R2 & Hinv2 & Hxa & Mxa & Sxa & Fa & O2 & C2 & I2); [rewrite O1 by done; done|done..|].
  destruct (new_thread sy c r t2 k (g_thread_b L) "demo-b" (demo_thread_b_entry L) (g_stack_b L) [] b1 Hinv2)
    as (t3 & xb & R3 & Hinv3 & Hxb & Mxb & Sxb & Fb & O3 & C3 & I3); [rewrite O2, O1 by done; done|done..|].
  destruct (queue_thread sy c r t3 k (g_thread_a L) [] xa Hinv3) as (t4 & R4 & Hinv4 & X4 & O4 & C4 & I4); [by rewrite O3|done..|].
  destruct (O4 _ xb (not_eq_sym D3) Hxb) as [n4 Hxb4].
  destruct (queue_thread sy c r t4 k (g_thread_b L) [g_thread_a L] _ Hinv4 Hxb4) as (t5 & R5 & Hinv5 & X5 & O5 & C5 & I5); [done..|].
  destruct (runs_print view always _ sy c r t5 k (prints_litn P view patience fuel Hfuel always "[M9] scheduler initialized") I Hd) as [bs R6].
  exists t5, bs. split.
  - eapply runs_bind; [apply runs_sched; exact Hrun1|]. eapply runs_bind; [exact R2|]. eapply runs_bind; [exact R3|].
    eapply runs_bind; [exact R4|]. eapply runs_bind; [exact R5|]. exact R6.
  - split; [done|congruence|congruence| |].
    + unfold Thread.ctx_of in X4. destruct (Thread.threads t4 !! g_thread_a L) as [y|] eqn:Hy; [|done]. destruct (O5 _ y D3 Hy) as [n Hn].
      exists (Thread.context xa). split; [|done]. unfold Thread.ctx_of. rewrite Hn. exact X4.
    + exists (Thread.context xb). split; [exact X5|done].
Qed.

(** *** System calls *)

(** The state behind the system calls once they are set up. *)
Definition with_calls (sy : ksys) : ksys :=
  Syscall.mcsos_syscall_set_user_region (Syscall.mk_region 0x400000 0x800000000000)
    (Syscall.mcsos_syscall_init (Some (k_ops P fuel (l_resume L))) sy).

Lemma runs_sys_state f sy c r t k :
  (forall x, f (Syscall.set_world sy x) = Syscall.set_world (f sy) x) ->
  runs (on_sys_state f) (mk_gst sy c r t k) tt (mk_gst (f sy) c r t k).
Proof. intros H w Hw. exists w. split; [|done]. unfold on_sys_state, on_ksys, whole. cbn [b_sys b_kernel g_sys]. by rewrite H. Qed.

Lemma runs_ping sy c r t k : runs (on_ksys (on_sys (Syscall.mcsos_syscall_dispatch MCSOS_SYS_PING 0 0 0 0 0 0))) (mk_gst sy c r t k) 0x2605020A (mk_gst sy c r t k).
Proof. intros w Hw. by exists w. Qed.

Lemma runs_get_ticks sy c r t k : Syscall.get_ticks (Syscall.g_ops sy) = Some k_get_ticks ->
  runs (on_ksys (on_sys (Syscall.mcsos_syscall_dispatch MCSOS_SYS_GET_TICKS 0 0 0 0 0 0))) (mk_gst sy c r t k) (s64 (g_ticks (glob r))) (mk_gst sy c r t k).
Proof.
  intros H w Hw. exists w. split; [|done]. unfold on_ksys, on_sys, whole. cbn [b_sys b_kernel g_sys g_rest g_sch g_ker].
  change (Syscall.mcsos_syscall_dispatch MCSOS_SYS_GET_TICKS 0 0 0 0 0 0 ?s) with (Syscall.sys_get_ticks 0 0 0 s).
  unfold Syscall.sys_get_ticks. change (Syscall.g_ops (Syscall.set_world sy ?x)) with (Syscall.g_ops sy). rewrite H. done.
Qed.

Lemma on_ksys_bind {A B} (m : cm ksys A) (f : A -> cm ksys B) b :
  on_ksys (cm_bind m f) b = cm_bind (on_ksys m) (fun a => on_ksys (f a)) b.
Proof. unfold on_ksys, cm_bind. by destruct (m (b_sys b)). Qed.

Lemma runs_ksys_bind {A B} (m : cm ksys A) (f : A -> cm ksys B) x a y b z :
  runs (on_ksys m) x a y -> runs (on_ksys (f a)) y b z -> runs (on_ksys (cm_bind m f)) x b z.
Proof. intros H1 H2 w Hw. rewrite on_ksys_bind. exact (runs_bind view _ _ _ _ _ _ _ H1 H2 w Hw). Qed.

Lemma smoke_runs sy c r t k : Syscall.get_ticks (Syscall.g_ops sy) = Some k_get_ticks -> dlab (c_uart c) = false ->
  exists bs, runs (on_ksys (m10_syscall_smoke P fuel)) (mk_gst sy c r t k) tt (mk_gst sy (say c bs) r t k).
Proof.
  intros Hop Hd. destruct (prints_litn (G := kstat) P view patience fuel Hfuel always "[M10] syscall ping ok") as [b1 H1].
  assert (Hp : prints (G := kstat) view always (serial_write_string P fuel (lit "[M10] syscall get_ticks=") ;;;
    serial_write_hex64 P fuel (u64 (s64 (g_ticks (glob r)))) ;;; serial_write_string P fuel (litn "") ;;;
    serial_write_string P fuel (litn "[M10] syscall smoke done"))).
  { apply prints_seq; [apply (prints_lit P view patience fuel Hfuel)|]. apply prints_seq; [apply (prints_hex P view patience fuel Hfuel)|].
    apply prints_seq; apply (prints_litn P view patience fuel Hfuel). }
  destruct Hp as [b2 H2]. exists (b1 ++ b2). unfold m10_syscall_smoke. rewrite <- say_say.
  eapply runs_ksys_bind; [apply runs_ping|]. change (negb (0x2605020A =? 0x2605020A)) with false. cbv iota.
  eapply runs_ksys_bind; [apply (runs_drive view); by apply H1|]. eapply runs_ksys_bind; [by apply runs_get_ticks|].
  apply (runs_drive view). by apply H2.
Qed.

Lemma syscalls_stage sy c r t k : length (g_idt (glob r)) = 256%nat -> dlab (c_uart c) = false ->
  exists bs, runs (kmain_syscalls P fuel L) (mk_gst sy c r t k) tt
    (mk_gst (with_calls sy) (say c bs)
       (with_glob r (set_idt (<[128%nat := gate (x86_64_syscall_int80_stub L) (cs r) 0x8E]> (g_idt (glob r))) (glob r))) t k).
Proof.
  intros Hl Hd. destruct (prints_litn (G := kstat) P view patience fuel Hfuel always "[M10] IDT vector 0x80 installed") as [b1 H1].
  destruct (prints_litn (G := kstat) P view patience fuel Hfuel always "[M10] syscall init") as [b2 H2].
  edestruct (smoke_runs (with_calls sy) (say (say c b1) b2)) as [b3 H3]; [reflexivity|done|].
  exists (b1 ++ b2 ++ b3). rewrite <- !say_say. unfold kmain_syscalls. eapply runs_bind; [apply runs_sys_state; reflexivity|].
  eapply runs_bind; [apply (runs_drive view), (idt_install_effect view); rewrite Hl; lia|].
  eapply runs_bind; [apply (runs_drive view); by apply H1|]. eapply runs_bind; [apply runs_sys_state; reflexivity|].
  eapply runs_bind; [apply (runs_drive view); by apply H2|]. exact H3.
Qed.

(** *** Memory *)

Record memory_ok (k : Kernel.kernel) : Prop := {
  mo_bitmap : bytes_ok (Kernel.kernel_pmm_bitmap k) /\ Z.of_nat (length (Kernel.kernel_pmm_bitmap k)) = Kernel.PMM_BITMAP_BYTES;
  mo_heap : Kernel.m8_boot_heap k mod 4096 = 0 /\ 0 < Kernel.m8_boot_heap k /\ Kernel.m8_boot_heap k + Kernel.M8_BOOT_HEAP_SIZE < 2 ^ 64;
  mo_mapped : mapped (Kmem.mem (Kernel.k_heap k)) (Kernel.m8_boot_heap k) Kernel.M8_BOOT_HEAP_SIZE
}.

Lemma memory_stage sy c r t k : memory_ok k -> dlab (c_uart c) = false ->
  exists k1 k2 k3 bs, Kernel.kernel_memory_init k = Some k1 /\ Kernel.kernel_vmm_init k1 = Some k2 /\ Kernel.kernel_heap_init k2 = Some k3 /\
    runs (kmain_memory P fuel) (mk_gst sy c r t k) tt (mk_gst sy (say c bs) r t k3).
Proof.
  intros [[Hok Hlen] (Hal & Hb & Hbe) Hm] Hd.
  destruct (Kernel.memory_init_spec k Hok Hlen) as (k1 & E1 & Hr1 & (T1 & _ & H1 & B1 & P1) & _).
  destruct (Kernel.vmm_init_spec k1 Hr1) as (k2 & E2 & _ & (T2 & _ & H2 & B2 & P2) & _).
  destruct (Kernel.heap_init_spec k2) as (k3 & hb & E3 & _); [congruence|rewrite B2, B1; lia|rewrite B2, B1; lia|by rewrite B2, B1, P2, P1|].
  destruct (runs_kernel P view patience fuel Hfuel _ sy c r t k k1 E1 Hd) as [b1 R1].
  destruct (runs_kernel P view patience fuel Hfuel _ sy (say c b1) r t k1 k2 E2 eq_refl) as [b2 R2].
  destruct (runs_kernel P view patience fuel Hfuel _ sy (say (say c b1) b2) r t k2 k3 E3 eq_refl) as [b3 R3].
  destruct (runs_print view always _ sy (say (say (say c b1) b2) b3) r t k3 (prints_litn P view patience fuel Hfuel always "M8 ready") I eq_refl) as [b4 R4].
  exists k1, k2, k3, (((b1 ++ b2) ++ b3) ++ b4). split_and!; try done. rewrite <- !say_say.
  eapply runs_bind; [exact R1|]. eapply runs_bind; [exact R2|]. eapply runs_bind; [exact R3|]. exact R4.
Qed.

(** *** The whole *)

Lemma yield_runs sy c r t k q : Thread.sys_inv t q ->
  exists t', runs (on_sched (Thread.mcsos_sched_yield (l_resume L))) (mk_gst sy c r t k) Thread.MCSOS_SCHED_OK (mk_gst sy c r t' k) /\
    Thread.sys_inv t' (Thread.rotate t q Thread.MCSOS_THREAD_RUNNING) /\ Thread.current (Thread.sched t') = hd (Thread.idle (Thread.sched t)) q /\
    Thread.idle (Thread.sched t') = Thread.idle (Thread.sched t) /\
    (hd (Thread.idle (Thread.sched t)) q <> Thread.current (Thread.sched t) -> Some (Thread.cpu t') = Thread.ctx_of t (hd (Thread.idle (Thread.sched t)) q)).
Proof.
  intros Hinv. destruct (Thread.yield_spec (l_resume L) t q Thread.MCSOS_THREAD_RUNNING (Thread.sy_inv _ _ Hinv)) as (t' & E & _ & _);
    [done|eapply Thread.yield_room; apply Hinv|].
  destruct (Thread.yield_inv (l_resume L) t q _ t' Hinv E) as (_ & Hinv' & Hw). exists t'. split_and!; [apply runs_sched; exact E|done|apply Hw|apply Hw|].
  intros Hne. by apply (Thread.sw_cpu _ _ _ _ _ _ Hw).
Qed.

(** What the linker and the loader provide. *)
Record boot_ok (c : chips) (r : rest kstat) (t : Thread.sys) (k : Kernel.kernel) : Prop := {
  bo_pics : idle_pics c;
  bo_idt : length (g_idt (glob r)) = 256%nat;
  bo_stubs : length (isr_stub_table L) = 48%nat /\ Forall (in_u 64) (isr_stub_table L) /\ in_u 64 (x86_64_syscall_int80_stub L);
  bo_cs : in_u 16 (cs r);
  bo_memory : memory_ok k;
  bo_threads : threads_ok t
}.

Record booted (c : chips) (r : rest kstat) (t : Thread.sys) (k : Kernel.kernel) (bs : list Z) (c' : chips) (r' : rest kstat)
    (t' : Thread.sys) (k' : Kernel.kernel) : Prop := {
  bd_chips : c' = irq_chips c bs;
  bd_cpu : iflag r' = true /\ idtr r' = (4095, l_idt L) /\ cs r' = cs r;
  bd_stubs : forall v : nat, (v < 48)%nat -> exists h, isr_stub_table L !! v = Some h /\
    cpu_gate (idt_image (g_idt (glob r'))) (Z.of_nat v) = Some (h, cs r, 0, 0x8E);
  bd_int80 : cpu_gate (idt_image (g_idt (glob r'))) 128 = Some (x86_64_syscall_int80_stub L, cs r, 0, 0x8E);
  bd_memory : exists k1 k2, Kernel.kernel_memory_init k = Some k1 /\ Kernel.kernel_vmm_init k1 = Some k2 /\ Kernel.kernel_heap_init k2 = Some k';
  bd_queue : Thread.sys_inv t' [g_thread_b L] /\ Thread.current (Thread.sched t') = g_thread_a L /\ Thread.idle (Thread.sched t') = g_boot_thread L;
  bd_first : fresh_ctx (demo_thread_a_entry L) (g_stack_a L) (Thread.cpu t');
  bd_ticks : g_ticks (glob r') = g_ticks (glob r)
}.

Lemma kmain_runs sy c r t k : boot_ok c r t k ->
  exists bs c' r' t' k', runs (kmain P fuel L) (mk_gst sy c r t k) Thread.MCSOS_SCHED_OK (mk_gst (with_calls sy) c' r' t' k') /\
    booted c r t k bs c' r' t' k'.
Proof.
  intros [Hpic Hidt (Hst1 & Hst2 & Hst3) Hcs Hmem Hthr].
  destruct (interrupts_effect c r Hpic Hidt) as (l & b1 & He & Hl & Hlv); [lia|]. set (r1 := mk_rest true (4095, l_idt L) (cs r) (set_idt l (glob r))) in *.
  destruct (memory_stage sy (irq_chips c b1) r1 t k Hmem eq_refl) as (k1 & k2 & k3 & b2 & M1 & M2 & M3 & R2).
  destruct (threads_stage sy (say (irq_chips c b1) b2) r1 t k3 Hthr eq_refl) as (t1 & b3 & R3 & [Hinv Hc1 Hi1 (xa & Hxa & Fa) _]).
  destruct (m11_effect P view patience fuel Hfuel (say (say (irq_chips c b1) b2) b3) r1 eq_refl) as [b4 R4].
  assert (Hg : g_idt (glob (log_on r1)) = l) by (unfold log_on; by destruct (g_log_ready (glob r1) =? 0)).
  assert (Hr : iflag (log_on r1) = true /\ idtr (log_on r1) = (4095, l_idt L) /\ cs (log_on r1) = cs r)
    by (unfold log_on; by destruct (g_log_ready (glob r1) =? 0)).
  destruct (syscalls_stage sy (say (say (say (irq_chips c b1) b2) b3) b4) (log_on r1) t1 k3) as [b5 R5]; [by rewrite Hg|done|].
  destruct (yield_runs (with_calls sy) (say (say (say (say (irq_chips c b1) b2) b3) b4) b5)
    (with_glob (log_on r1) (set_idt (<[128%nat := gate (x86_64_syscall_int80_stub L) (cs (log_on r1)) 0x8E]> (g_idt (glob (log_on r1)))) (glob (log_on r1))))
    t1 k3 _ Hinv) as (t2 & R6 & Hinv2 & Hc2 & Hi2 & Hcpu).
  destruct (to_distinct _ Hthr) as (D1 & D2 & D3).
  eexists (b1 ++ b2 ++ b3 ++ b4 ++ b5), _, _, _, _. split.
  { eapply runs_bind; [apply (runs_drive view); exact He|]. eapply runs_bind; [exact R2|]. eapply runs_bind; [exact R3|].
    eapply runs_bind; [apply (runs_drive view); exact R4|]. eapply runs_bind; [exact R5|]. exact R6. }
  split; cbn [with_glob iflag idtr cs glob g_idt set_idt].
  - unfold irq_chips, say, with_uart. cbn [c_uart c_pic1 c_pic2 c_pit sent]. by rewrite <- !app_assoc.
  - exact Hr.
  - intros v Hv. destruct (lookup_lt_is_Some_2 (isr_stub_table L) v) as [h Hh]; [lia|]. exists h. split; [done|].
    rewrite Hg. apply cpu_gate_gate; [|exact (Forall_lookup_1 _ _ _ _ Hst2 Hh)|done|unfold in_u; lia].
    rewrite list_lookup_insert_ne by lia. by rewrite Hlv, decide_True, Hh by lia.
  - rewrite Hg. destruct Hr as (_ & _ & ->). apply (cpu_gate_gate _ 128); [by rewrite list_lookup_insert_eq by lia|done|done|unfold in_u; lia].
  - by exists k1, k2.
  - unfold Thread.rotate, Thread.requeues in Hinv2. rewrite Hc1, Hi1, Z.eqb_refl, andb_false_r in Hinv2. split; [exact Hinv2|].
    split; [exact Hc2|congruence].
  - cbn [hd] in Hcpu. rewrite Hxa in Hcpu. by injection (Hcpu ltac:(congruence)) as ->.
  - unfold log_on. by destruct (g_log_ready (glob r1) =? 0).
Qed.

(** *** The demo threads *)

(** What a round of each thread prints. *)
Definition line_a : list Z := crlf (text "[M9] thread A tick" ++ [NEWLINE]).
Definition line_b : list Z := crlf (text "[M9] thread B tick" ++ [NEWLINE]).

Definition demo_cur (a_now : bool) : Z := if a_now then g_thread_a L else g_thread_b L.

(** One of the threads runs, the other waits. *)
Record alternating (a_now : bool) (t : Thread.sys) : Prop := {
  al_inv : Thread.sys_inv t [demo_cur (negb a_now)];
  al_current : Thread.current (Thread.sched t) = demo_cur a_now;
  al_idle : Thread.idle (Thread.sched t) = g_boot_thread L
}.

Lemma demo_round_runs a_now sy c r t k :
  g_boot_thread L <> g_thread_a L -> g_boot_thread L <> g_thread_b L -> g_thread_a L <> g_thread_b L ->
  alternating a_now t -> dlab (c_uart c) = false ->
  exists t', runs (demo_round P fuel L) (mk_gst sy c r t k) Thread.MCSOS_SCHED_OK (mk_gst sy (say c (if a_now then line_a else line_b)) r t' k) /\
    alternating (negb a_now) t'.
Proof.
  intros D1 D2 D3 [Hinv Hc Hi] Hd.
  destruct (yield_runs sy (say c (if a_now then line_a else line_b)) r t k _ Hinv) as (t' & R & Hinv' & Hc' & Hi' & _).
  exists t'. split.
  - intros w Hw. unfold demo_round, whole. cbn [b_sys b_kernel Syscall.world Syscall.set_world k_sched g_sys g_sch g_ker g_rest]. rewrite Hc.
    destruct a_now; cbn [demo_cur].
    + rewrite Z.eqb_refl. refine (runs_bind view _ _ _ tt _ _ _ (runs_drive view _ sy c r t k tt _ r _) R w Hw).
      by apply (litn_emits P view patience fuel Hfuel always); [apply chars_dec|..].
    + destruct (Z.eqb_spec (g_thread_b L) (g_thread_a L)); [congruence|]. rewrite Z.eqb_refl.
      refine (runs_bind view _ _ _ tt _ _ _ (runs_drive view _ sy c r t k tt _ r _) R w Hw).
      by apply (litn_emits P view patience fuel Hfuel always); [apply chars_dec|..].
  - split; [|exact Hc'|congruence]. unfold Thread.rotate, Thread.requeues in Hinv'. rewrite negb_involutive. rewrite Hc, Hi in Hinv'.
    destruct (Z.eqb_spec (demo_cur a_now) (g_boot_thread L)) as [E|_]; [destruct a_now; cbn in E; congruence|]. exact Hinv'.
Qed.

(** C10. The kernel comes up: from a machine as the boot loader leaves it,
    [kmain] runs without undefined behaviour to the switch to the first
    thread.  Then interrupts are enabled with the table register on the
    table, every vector up to 47 decodes to its stub and vector 128 to the
    system-call stub, the controllers deliver to vectors 32 to 47 with only
    the timer unmasked, the timer runs at 100 Hz, the memory managers have
    been through their three initialisations, the system calls have the
    kernel's callbacks and the user region, thread A is on the processor at
    its entry with a stack of its own, and thread B is the only ready thread. *)
Theorem kmain_boots sy c r t k : boot_ok c r t k ->
  exists bs c' r' t' k', runs (kmain P fuel L) (mk_gst sy c r t k) Thread.MCSOS_SCHED_OK (mk_gst (with_calls sy) c' r' t' k') /\
    booted c r t k bs c' r' t' k' /\
    Syscall.g_ops (with_calls sy) = k_ops P fuel (l_resume L) /\
    Syscall.g_user_region (with_calls sy) = Syscall.mk_region 0x400000 0x800000000000.
Proof.
  intros Hok. destruct (kmain_runs sy c r t k Hok) as (bs & c' & r' & t' & k' & R & Hb). by exists bs, c', r', t', k'.
Qed.

End stages.

(** ** A machine to boot *)

Definition sim_layout : layout :=
  mk_layout sim_stubs 0xFFFFFFFF80010000 0xFFFFFFFF80002000 0xFFFFFFFF80011000 0xFFFFFFFF80012000 0xFFFFFFFF80013000
    0xFFFFFFFF80014000 0xFFFFFFFF80016000 0xFFFFFFFF80005000 0xFFFFFFFF80006000 0xFFFFFFFF80007000.

Definition sim_threads : Thread.sys :=
  Thread.mk_sys (Thread.mk_sched 0 0 0 0 0 0 0 0 0)
    (list_to_map [(0xFFFFFFFF80011000, Thread.raw_thread); (0xFFFFFFFF80012000, Thread.raw_thread); (0xFFFFFFFF80013000, Thread.raw_thread)])
    Thread.zero_context ∅.

Lemma sim_boot_ok : boot_ok sim_layout sim_chips (mk_rest false (0, 0) 0x28 sim_kstat) sim_threads Kernel.ex_kernel.
Proof.
  split.
  - split; reflexivity.
  - reflexivity.
  - split_and!; [reflexivity|exact sim_stubs_ok|unfold in_u; cbn; lia].
  - unfold in_u. cbn. lia.
  - split; [split|split_and!|].
    + apply Forall_replicate. unfold in_u. lia.
    + cbn [Kernel.kernel_pmm_bitmap Kernel.ex_kernel]. rewrite length_replicate. apply Z2Nat.id. by vm_compute.
    + reflexivity.
    + reflexivity.
    + reflexivity.
    + exact Kernel.ex_heap_mapped.
  - split; cbn [sim_layout g_boot_thread g_thread_a g_thread_b demo_thread_a_entry demo_thread_b_entry g_stack_a g_stack_b].
    + by vm_compute.
    + lia.
    + lia.
    + by exists Thread.raw_thread.
    + by exists Thread.raw_thread.
    + by exists Thread.raw_thread.
    + lia.
    + unfold STACK_SIZE. lia.
Qed.

Lemma kmain_boots_witness :
  exists sy c' r' t' k', runs fst (kmain sim_ports 2 sim_layout)
      (mk_gst sim_sys sim_chips (mk_rest false (0, 0) 0x28 sim_kstat) sim_threads Kernel.ex_kernel) 0 (mk_gst sy c' r' t' k') /\
    iflag r' = true /\ imr (c_pic1 c') = 0xFE /\ Thread.current (Thread.sched t') = 0xFFFFFFFF80012000.
Proof.
  destruct (kmain_boots sim_ports fst 1 2 ltac:(lia) sim_layout sim_sys _ _ _ _ sim_boot_ok) as (bs & c' & r' & t' & k' & R & Hb & _).
  eexists _, c', r', t', k'. split; [exact R|]. destruct Hb as [-> (Hi & _) _ _ _ (_ & Hc & _) _ _].
  split; [exact Hi|]. split; [reflexivity|exact Hc].
Defined.

End Boot.
