(* ===== verification/Core.v ===== *)
(** * The exception-handling kernel ([kernel/core], [kernel/arch/x86_64])

    The earlier kernel of the repository: its descriptor table
    ([kernel/arch/x86_64/idt.c]), panic ([kernel/core/panic.c]), trap handler
    ([kernel/core/trap.c]) and [kmain] ([kernel/core/kmain.c], in the
    configuration without the two test switches), on the log of [Serial.v].
    Addresses fixed by the linker, the file names the preprocessor inserts and
    the value of the flags register are parameters. *)
From S2P Require Import Prelude Bytes Elf Machine Serial ElfLog Drivers.
From stdpp Require Import base list numbers option strings.
From Stdlib Require Import ZArith Lia.

Open Scope Z_scope.

Module Core.
Import Machine Serial ElfLog Drivers.
Open Scope cm_scope.

Definition X86_64_IDT_VECTOR_COUNT : Z := 256.
Definition X86_64_KERNEL_CODE_SELECTOR : Z := 0x28.
Definition X86_64_IDT_GATE_INTERRUPT : Z := 0x8E.
Definition X86_64_IDT_GATE_TRAP : Z := 0x8F.
Definition SIZEOF_GATE : Z := 16.
Definition ASSERT_CODE : Z := 0xA55E4710.
Definition MCSOS_NAME : string := "MCSOS".
Definition MCSOS_VERSION : string := "260502".
Definition MCSOS_MILESTONE : string := "M4".

(** The static variables; [m_idtr] is (limit, base). *)
Record mstat := mk_mstat { idt : list idt_entry; m_idtr : Z * Z; trap_count : Z; m_log_ready : Z }.

#[export] Instance mstat_log : HasLog mstat :=
  { g_log_ready := m_log_ready; set_log_ready v g := mk_mstat (idt g) (m_idtr g) (trap_count g) v; log_ready_set v g := eq_refl }.

Definition put_idt (l : list idt_entry) (g : mstat) : mstat := mk_mstat l (m_idtr g) (trap_count g) (m_log_ready g).
Definition put_idtr (x : Z * Z) (g : mstat) : mstat := mk_mstat (idt g) x (trap_count g) (m_log_ready g).
Definition put_count (n : Z) (g : mstat) : mstat := mk_mstat (idt g) (m_idtr g) n (m_log_ready g).

Record x86_64_trap_frame_t := mk_frame {
  r15 : Z; r14 : Z; r13 : Z; r12 : Z; r11 : Z; r10 : Z; r9 : Z; r8 : Z; rsi : Z; rdi : Z; rbp : Z; rdx : Z; rcx : Z; rbx : Z; rax : Z;
  vector : Z; error_code : Z; rip : Z; f_cs : Z; rflags : Z
}.

Definition exception_names : list string :=
  ["#DE Divide Error"; "#DB Debug"; "NMI Interrupt"; "#BP Breakpoint"; "#OF Overflow"; "#BR Bound Range Exceeded";
   "#UD Invalid Opcode"; "#NM Device Not Available"; "#DF Double Fault"; "Coprocessor Segment Overrun"; "#TS Invalid TSS";
   "#NP Segment Not Present"; "#SS Stack Segment Fault"; "#GP General Protection Fault"; "#PF Page Fault"; "Reserved";
   "#MF x87 Floating-Point Exception"; "#AC Alignment Check"; "#MC Machine Check"; "#XM SIMD Floating-Point Exception";
   "#VE Virtualization Exception"; "#CP Control Protection Exception"; "Reserved"; "Reserved"; "Reserved"; "Reserved";
   "Reserved"; "Reserved"; "#HV Hypervisor Injection Exception"; "#VC VMM Communication Exception"; "#SX Security Exception";
   "Reserved"].

Definition trap_name (vec : Z) : option string :=
  if vec <? 32 then arr_get exception_names vec else Some "external-or-user-defined-interrupt"%string.

(** What the build fixes: addresses, file names, the flags register as a
    function of the interrupt flag. *)
Record build := mk_build {
  kernel_start : Z;
  kernel_end : Z;
  idt_base : Z;
  x86_64_exception_stubs : list Z;
  file_idt : string;
  file_trap : string;
  file_kmain : string;
  read_rflags : bool -> Z
}.

Section code.
Context {W : Type} (P : ports W) (fuel : nat) (B : build).
Local Abbreviation M := (cm (mach W mstat)).
Local Abbreviation log_write := (log_write P fuel).
Local Abbreviation log_writeln := (log_writeln P fuel).
Local Abbreviation log_putc := (log_putc P fuel).
Local Abbreviation log_kv := (log_key_value_hex64 P fuel).

Definition cpu_read_rflags : M Z := get_rest (fun r => read_rflags B (iflag r)).
Definition cpu_halt_forever {A} : M A := cpu_cli ;;; cm_halt.

(** ** [panic.c] *)

Definition or_text (s : option string) (d : string) : list Z := lit (default d s).

Definition kernel_panic_at {A} (file : option string) (line : Z) (reason : option string) (code : Z) : M A :=
  flags <- cpu_read_rflags ;;
  cpu_cli ;;;
  log_writeln (lit "") ;;;
  log_writeln (lit "================ MCSOS KERNEL PANIC ================") ;;;
  log_write (lit "system=") ;;;
  log_write (lit MCSOS_NAME) ;;;
  log_write (lit " version=") ;;;
  log_write (lit MCSOS_VERSION) ;;;
  log_write (lit " milestone=") ;;;
  log_writeln (lit MCSOS_MILESTONE) ;;;
  log_write (lit "reason=") ;;;
  log_writeln (or_text reason "<null>") ;;;
  log_write (lit "location=") ;;;
  log_write (or_text file "<unknown>") ;;;
  log_write (lit ":") ;;;
  log_dec_u32 P fuel (u32 line) ;;;
  log_putc NEWLINE ;;;
  log_kv (lit "panic_code") code ;;;
  log_kv (lit "rflags_before_cli") flags ;;;
  log_writeln (lit "state=halted") ;;;
  log_writeln (lit "====================================================") ;;;
  cpu_halt_forever.

(** [KERNEL_ASSERT]. *)
Definition kernel_assert (b : bool) (file : string) (line : Z) (expr : string) : M unit :=
  if b then cm_ret tt else kernel_panic_at (Some file) line (Some ("assertion failed: " +:+ expr)%string) ASSERT_CODE.

(** ** [idt.c] *)

Definition x86_64_idt_set_gate (vec handler attr : Z) : M unit :=
  l <- get_glob idt ;;
  l <- cm_lift (arr_set l vec (gate handler X86_64_KERNEL_CODE_SELECTOR attr)) ;;
  set_glob (put_idt l).

Definition x86_64_idt_base_for_test : M Z := get_glob (fun g => snd (m_idtr g)).
Definition x86_64_idt_limit_for_test : M Z := get_glob (fun g => fst (m_idtr g)).

(** The loops, [n] vectors from [i] on. *)
Fixpoint clear_gates (n : nat) (i : Z) : M unit :=
  match n with O => cm_ret tt | S n => x86_64_idt_set_gate (u8 i) 0 0 ;;; clear_gates n (i + 1) end.

Fixpoint set_stubs (n : nat) (i : Z) : M unit :=
  match n with
  | O => cm_ret tt
  | S n =>
      h <- cm_lift (arr_get (x86_64_exception_stubs B) i) ;;
      x86_64_idt_set_gate i h (if i =? 3 then X86_64_IDT_GATE_TRAP else X86_64_IDT_GATE_INTERRUPT) ;;;
      set_stubs n (i + 1)
  end.

Definition x86_64_idt_init : M unit :=
  clear_gates 256 0 ;;;
  set_stubs 32 0 ;;;
  set_glob (put_idtr (u16 (X86_64_IDT_VECTOR_COUNT * SIZEOF_GATE - 1), idt_base B)) ;;;
  kernel_assert (SIZEOF_GATE =? 16) (file_idt B) 48 "sizeof(x86_64_idt_entry_t) == 16u" ;;;
  x <- get_glob m_idtr ;;
  kernel_assert (fst x =? u16 (X86_64_IDT_VECTOR_COUNT * SIZEOF_GATE - 1)) (file_idt B) 49
    "idtr.limit == (uint16_t)((X86_64_IDT_VECTOR_COUNT * sizeof(x86_64_idt_entry_t)) - 1u)" ;;;
  lidt (fst x) (snd x) ;;;
  log_kv (lit "idt_base") (snd x) ;;;
  log_kv (lit "idt_limit") (fst x) ;;;
  log_writeln (lit "[M4] IDT loaded").

(** ** [trap.c] *)

Definition m4_trap_count_for_test : M Z := get_glob trap_count.

Definition log_trap_frame (f : x86_64_trap_frame_t) : M unit :=
  log_kv (lit "trap_vector") (vector f) ;;;
  log_kv (lit "trap_error") (error_code f) ;;;
  log_kv (lit "trap_rip") (rip f) ;;;
  log_kv (lit "trap_cs") (f_cs f) ;;;
  log_kv (lit "trap_rflags") (rflags f) ;;;
  log_kv (lit "trap_rax") (rax f) ;;;
  log_kv (lit "trap_rbx") (rbx f) ;;;
  log_kv (lit "trap_rcx") (rcx f) ;;;
  log_kv (lit "trap_rdx") (rdx f).

(** Using a null frame after the assertion is undefined; the assertion stops. *)
Definition x86_64_trap_dispatch (frame : option x86_64_trap_frame_t) : M unit :=
  kernel_assert (match frame with Some _ => true | None => false end) (file_trap B) 67 "frame != (x86_64_trap_frame_t *)0" ;;;
  n <- get_glob trap_count ;;
  set_glob (put_count (u64 (n + 1))) ;;;
  log_write (lit "[M4] trap dispatch: ") ;;;
  f <- cm_lift frame ;;
  nm <- cm_lift (trap_name (vector f)) ;;
  log_writeln (lit nm) ;;;
  log_trap_frame f ;;;
  if vector f =? 3 then log_writeln (lit "[M4] breakpoint handled; returning with iretq")
  else kernel_panic_at (Some (file_trap B)) 79 (Some "unrecoverable CPU exception"%string) (vector f).

(** ** [kmain.c] *)

Definition m4_selftest : M unit :=
  kernel_assert (kernel_start B <? kernel_end B) (file_kmain B) 13 "__kernel_end > __kernel_start" ;;;
  kernel_assert (8 =? 8) (file_kmain B) 14 "sizeof(uintptr_t) == 8u" ;;;
  kernel_assert (SIZEOF_GATE =? 16) (file_kmain B) 15 "sizeof(x86_64_idt_entry_t) == 16u" ;;;
  b <- x86_64_idt_base_for_test ;;
  kernel_assert (negb (b =? 0)) (file_kmain B) 16 "x86_64_idt_base_for_test() != 0u" ;;;
  l <- x86_64_idt_limit_for_test ;;
  kernel_assert (l =? 4095) (file_kmain B) 17 "x86_64_idt_limit_for_test() == 4095u" ;;;
  log_writeln (lit "[M4] selftest: IDT invariants passed").

Definition kmain : M unit :=
  log_init P ;;;
  log_write (lit MCSOS_NAME) ;;;
  log_write (lit " ") ;;;
  log_write (lit MCSOS_VERSION) ;;;
  log_write (lit " ") ;;;
  log_write (lit MCSOS_MILESTONE) ;;;
  log_writeln (lit " kernel entered") ;;;
  log_kv (lit "kernel_start") (kernel_start B) ;;;
  log_kv (lit "kernel_end") (kernel_end B) ;;;
  flags <- cpu_read_rflags ;;
  log_kv (lit "rflags_before_idt") flags ;;;
  x86_64_idt_init ;;;
  m4_selftest ;;;
  log_writeln (lit "[M4] IDT and exception dispatch path installed") ;;;
  log_writeln (lit "[M4] ready for QEMU smoke test and GDB audit") ;;;
  m11_smoke P fuel ;;;
  cpu_halt_forever.

End code.

(** ** What the code does, up to the text it sends *)

Section effects.
Context {W : Type} (P : ports W) (view : W -> chips) (patience fuel : nat) (B : build).
Context `{Hboard : !Board P view patience}.
Local Abbreviation M := (cm (mach W mstat)).

(** From any state of the line, [m] returns [a], or stops for good, having
    sent [bs] or something that starts with [bs]. *)
Definition runs {A} (m : M A) (r : rest mstat) (a : A) (r' : rest mstat) : Prop :=
  forall c, dlab (c_uart c) = false -> exists bs, effect view m c r a (say c bs) r'.
Definition stops {A} (m : M A) (r r' : rest mstat) : Prop :=
  forall c, dlab (c_uart c) = false -> exists bs, halts view m c r (say c bs) r'.
Definition runs_with {A} (bs : list Z) (m : M A) (r : rest mstat) (a : A) (r' : rest mstat) : Prop :=
  forall c, dlab (c_uart c) = false -> exists bs', effect view m c r a (say c (bs ++ bs')) r'.
Definition stops_with {A} (bs : list Z) (m : M A) (r r' : rest mstat) : Prop :=
  forall c, dlab (c_uart c) = false -> exists bs', halts view m c r (say c (bs ++ bs')) r'.

(** [m] sends exactly [bs] and returns [a]. *)
Definition says {A} (bs : list Z) (m : M A) (r : rest mstat) (a : A) (r' : rest mstat) : Prop :=
  forall c, dlab (c_uart c) = false -> effect view m c r a (say c bs) r'.

Lemma says_silent {A} (m : M A) r a r' : (forall c, effect view m c r a c r') -> says [] m r a r'.
Proof. intros H c Hd. by rewrite say_nil. Qed.

Lemma says_emits (m : M unit) bs r : emits view logging m bs -> logging r -> says bs m r tt r.
Proof. intros H Hr c Hd. by apply H. Qed.

Lemma seq_says {A D} (m : M A) (k : A -> M D) b1 b2 r a r1 d r2 :
  says b1 m r a r1 -> says b2 (k a) r1 d r2 -> says (b1 ++ b2) (cm_bind m k) r d r2.
Proof. intros Hm Hk c Hd. rewrite <- say_say. eapply eff_bind; [by apply Hm|by apply Hk]. Qed.

Lemma seq_says_stops {A D} (m : M A) (k : A -> M D) b1 b2 r a r1 r2 :
  says b1 m r a r1 -> stops_with b2 (k a) r1 r2 -> stops_with (b1 ++ b2) (cm_bind m k) r r2.
Proof.
  intros Hm Hk c Hd. destruct (Hk (say c b1) eq_refl) as [b3 H3]. exists b3.
  rewrite <- app_assoc, <- say_say. eapply eff_bind_halts; [by apply Hm|exact H3].
Qed.

(** Code that sends nothing: assertions that hold, reads and writes of variables. *)
Lemma quiet_says {A D} (m : M A) (k : A -> M D) bs r a r1 d r2 :
  (forall c, effect view m c r a c r1) -> says bs (k a) r1 d r2 -> says bs (cm_bind m k) r d r2.
Proof. intros Hm Hk. apply (seq_says m k [] bs r a r1); [by apply says_silent|done]. Qed.

Lemma runs_silent {A} (m : M A) r a r' : (forall c, effect view m c r a c r') -> runs m r a r'.
Proof. intros H c Hd. exists []. by rewrite say_nil. Qed.

Lemma seq_stops {A D} (m : M A) (k : A -> M D) r a r1 r2 :
  runs m r a r1 -> stops (k a) r1 r2 -> stops (cm_bind m k) r r2.
Proof.
  intros Hm Hk c Hd. destruct (Hm c Hd) as [b1 H1]. destruct (Hk (say c b1) eq_refl) as [b2 H2].
  exists (b1 ++ b2). rewrite <- say_say. by eapply eff_bind_halts.
Qed.

Lemma stops_seq {A D} (m : M A) (k : A -> M D) r r1 : stops m r r1 -> stops (cm_bind m k) r r1.
Proof. intros Hm c Hd. destruct (Hm c Hd) as [bs H]. exists bs. by apply halts_bind. Qed.

Lemma runs_prints (m : M unit) r : prints view logging m -> logging r -> runs m r tt r.
Proof. intros [bs H] Hr c Hd. exists bs. by apply H. Qed.

Lemma emits_runs_with (m : M unit) {A} (k : M A) bs r a r' :
  emits view logging m bs -> logging r -> runs k r a r' -> runs_with bs (m ;;; k) r a r'.
Proof.
  intros Hm Hr Hk c Hd. destruct (Hk (say c bs) eq_refl) as [b2 H2]. exists b2. by apply (emits_effect view logging).
Qed.

Lemma emits_stops_with (m : M unit) {A} (k : M A) bs r r' :
  emits view logging m bs -> logging r -> stops k r r' -> stops_with bs (m ;;; k) r r'.
Proof.
  intros Hm Hr Hk c Hd. destruct (Hk (say c bs) eq_refl) as [b2 H2]. exists b2. by apply (emits_halts view logging).
Qed.

(** Code that sends nothing, before code that does. *)
Lemma silent_runs_with {A D} (m : M A) (k : A -> M D) bs r a r1 d r2 :
  (forall c, effect view m c r a c r1) -> runs_with bs (k a) r1 d r2 -> runs_with bs (cm_bind m k) r d r2.
Proof. intros Hm Hk c Hd. destruct (Hk c Hd) as [b H]. exists b. by eapply eff_bind. Qed.

Lemma silent_stops_with {A D} (m : M A) (k : A -> M D) bs r a r1 r2 :
  (forall c, effect view m c r a c r1) -> stops_with bs (k a) r1 r2 -> stops_with bs (cm_bind m k) r r2.
Proof. intros Hm Hk c Hd. destruct (Hk c Hd) as [b H]. exists b. by eapply eff_bind_halts. Qed.

Definition stopped (r : rest mstat) : rest mstat := mk_rest false (idtr r) (cs r) (glob r).

Lemma halt_stops {A} r : stops (A := A) cpu_halt_forever r (stopped r).
Proof. intros c Hd. exists []. rewrite say_nil by done. eapply eff_bind_halts; [apply eff_cli|]. apply halts_now. Qed.

Context (Hfuel : (patience < fuel)%nat).

Lemma prints_kv key v : prints (G := mstat) view logging (log_key_value_hex64 P fuel (lit key) v).
Proof.
  apply prints_seq; [apply (prints_log_lit P view patience fuel Hfuel)|].
  apply prints_seq; [apply (prints_log_lit P view patience fuel Hfuel)|].
  apply prints_seq; [apply (prints_log_hex P view patience fuel Hfuel)|].
  eexists. apply (log_putc_emits P view patience fuel Hfuel). unfold NEWLINE. lia.
Qed.

Lemma prints_dec line : 0 <= line < 2 ^ 31 -> prints (G := mstat) view logging (log_dec_u32 P fuel (u32 line)).
Proof. intros Hl. eexists. apply (log_dec_emits P view patience fuel Hfuel). rewrite wrap_small by (unfold in_u; lia). lia. Qed.

Lemma prints_newline : prints (G := mstat) view logging (log_putc P fuel NEWLINE).
Proof. eexists. apply (log_putc_emits P view patience fuel Hfuel). unfold NEWLINE. lia. Qed.

Ltac print := apply runs_prints; [first [apply (prints_log_lit P view patience fuel Hfuel) | apply (prints_log_line P view patience fuel Hfuel)
  | apply prints_kv | apply prints_newline | by apply prints_dec]|assumption].

(** A panic ends with interrupts off and nothing else changed. *)
Lemma panic_stops {A} file line reason code r : 0 <= line < 2 ^ 31 -> logging r ->
  stops (A := A) (kernel_panic_at P fuel B file line reason code) r (stopped r).
Proof.
  intros Hl Hr. unfold kernel_panic_at. eapply seq_stops; [apply runs_silent; intros; apply eff_get_rest|].
  eapply seq_stops; [apply runs_silent; intros; apply eff_cli|]. fold (stopped r).
  assert (Hs : logging (stopped r)) by exact Hr. unfold or_text.
  repeat (eapply seq_stops; [print|]). apply (halt_stops (stopped r)).
Qed.

Lemma assert_quiet b file line expr r : b = true -> forall c, effect view (kernel_assert P fuel B b file line expr) c r tt c r.
Proof. intros -> c. apply eff_ret. Qed.

(** ** Traps *)

Definition kv_text (key : string) (v : Z) : list Z := crlf (text key) ++ crlf (text "=") ++ (text "0x" ++ hexs 16 v) ++ [NEWLINE].

Lemma kv_emits key v : chars (text key) -> emits (G := mstat) view logging (log_key_value_hex64 P fuel (lit key) v) (kv_text key v).
Proof.
  intros Hk. apply (emits_seq view); [exact (log_write_emits P view patience fuel Hfuel (text key) [] Hk)|].
  apply (emits_seq view); [apply (log_write_emits P view patience fuel Hfuel (text "=") []); by apply chars_dec|].
  apply (emits_seq view); [apply (log_hex_emits P view patience fuel Hfuel)|].
  apply (log_putc_emits P view patience fuel Hfuel). unfold NEWLINE. lia.
Qed.

Definition line_text (s : string) : list Z := crlf (text s) ++ [NEWLINE].

Lemma line_emits s : chars (text s) -> emits (G := mstat) view logging (log_writeln P fuel (lit s)) (line_text s).
Proof. exact (log_writeln_emits P view patience fuel Hfuel (text s) []). Qed.

Lemma word_emits s : chars (text s) -> emits (G := mstat) view logging (log_write P fuel (lit s)) (crlf (text s)).
Proof. exact (log_write_emits P view patience fuel Hfuel (text s) []). Qed.

Ltac spell := apply says_emits; [first [by apply kv_emits, chars_dec | by apply line_emits, chars_dec | by apply word_emits, chars_dec]|assumption].

Definition frame_text (f : x86_64_trap_frame_t) : list Z :=
  kv_text "trap_vector" (vector f) ++ kv_text "trap_error" (error_code f) ++ kv_text "trap_rip" (rip f) ++
  kv_text "trap_cs" (f_cs f) ++ kv_text "trap_rflags" (rflags f) ++ kv_text "trap_rax" (rax f) ++
  kv_text "trap_rbx" (rbx f) ++ kv_text "trap_rcx" (rcx f) ++ kv_text "trap_rdx" (rdx f).

Lemma frame_emits f : emits (G := mstat) view logging (log_trap_frame P fuel f) (frame_text f).
Proof. repeat (apply (emits_seq view); [by apply kv_emits, chars_dec|]). by apply kv_emits, chars_dec. Qed.

(** Every vector has a name, and the names are printable. *)
Lemma trap_name_some v : 0 <= v -> exists nm, trap_name v = Some nm /\ chars (text nm).
Proof.
  intros Hv. unfold trap_name. destruct (Z.ltb_spec v 32); [|eexists; split; [done|by apply chars_dec]].
  destruct (arr_get_is_Some exception_names v) as [nm Hn]; [change (Z.of_nat (length exception_names)) with 32; lia|]. exists nm. split; [done|].
  assert (Hall : Forall (fun nm => chars (text nm)) exception_names) by (repeat (apply Forall_cons; split; [by apply chars_dec|]); apply Forall_nil_2).
  unfold arr_get in Hn. destruct (v <? 0); [done|]. exact (Forall_lookup_1 _ _ _ _ Hall Hn).
Qed.

(** The report of a trap named [nm]. *)
Definition trap_text (nm : string) (f : x86_64_trap_frame_t) : list Z :=
  crlf (text "[M4] trap dispatch: ") ++ (crlf (text nm) ++ [NEWLINE]) ++ frame_text f.

Definition bump (r : rest mstat) : rest mstat := with_glob r (put_count (u64 (trap_count (glob r) + 1)) (glob r)).

Lemma report_emits nm f : chars (text nm) ->
  emits (G := mstat) view logging (log_write P fuel (lit "[M4] trap dispatch: ") ;;; log_writeln P fuel (lit nm) ;;; log_trap_frame P fuel f) (trap_text nm f).
Proof.
  intros Hn. apply (emits_seq view); [apply (log_write_emits P view patience fuel Hfuel (text "[M4] trap dispatch: ") []); by apply chars_dec|].
  apply (emits_seq view); [exact (log_writeln_emits P view patience fuel Hfuel (text nm) [] Hn)|apply frame_emits].
Qed.

(** The dispatcher with the name looked up and the bookkeeping done. *)
Lemma dispatch_unfold f nm : trap_name (vector f) = Some nm -> forall s,
  x86_64_trap_dispatch P fuel B (Some f) s =
  (set_glob (fun g => put_count (u64 (trap_count g + 1)) g) ;;;
   (log_write P fuel (lit "[M4] trap dispatch: ") ;;; log_writeln P fuel (lit nm) ;;; log_trap_frame P fuel f) ;;;
   if vector f =? 3 then log_writeln P fuel (lit "[M4] breakpoint handled; returning with iretq")
   else kernel_panic_at P fuel B (Some (file_trap B)) 79 (Some "unrecoverable CPU exception"%string) (vector f)) s.
Proof.
  intros Hn s. unfold x86_64_trap_dispatch, kernel_assert, cm_bind, cm_ret, cm_lift, get_glob, get_rest, set_glob, set_rest.
  cbn [rst hw glob iflag idtr cs]. rewrite Hn.
  destruct (log_write P fuel (lit "[M4] trap dispatch: ") _) as [[] s1|s1| |]; [|done..].
  destruct (log_writeln P fuel (lit nm) s1) as [[] s2|s2| |]; done.
Qed.

(** C30. The exception handler of the M4 kernel, for every vector: the trap is
    counted (modulo 2^64) and its name and registers are reported exactly; a
    breakpoint then returns, every other exception stops the machine with
    interrupts disabled.  A null frame stops it without being counted. *)
Theorem m4_trap_dispatch_correct f r : 0 <= vector f -> logging r ->
  exists nm, trap_name (vector f) = Some nm /\
    (vector f = 3 -> runs_with (trap_text nm f) (x86_64_trap_dispatch P fuel B (Some f)) r tt (bump r)) /\
    (vector f <> 3 -> stops_with (trap_text nm f) (x86_64_trap_dispatch P fuel B (Some f)) r (stopped (bump r))) /\
    stops (x86_64_trap_dispatch P fuel B None) r (stopped r).
Proof.
  intros Hv Hr. destruct (trap_name_some (vector f) Hv) as (nm & Hn & Hc). exists nm. split; [done|].
  assert (Hset : forall c, effect view (set_glob (W := W) (fun g => put_count (u64 (trap_count g + 1)) g)) c r tt c (bump r)) by (intros c w Hw; by exists w).
  assert (Hb : logging (bump r)) by exact Hr. split_and!.
  - intros E c Hd.
    assert (H : runs_with (trap_text nm f) (set_glob (fun g => put_count (u64 (trap_count g + 1)) g) ;;;
      (log_write P fuel (lit "[M4] trap dispatch: ") ;;; log_writeln P fuel (lit nm) ;;; log_trap_frame P fuel f) ;;;
      log_writeln P fuel (lit "[M4] breakpoint handled; returning with iretq")) r tt (bump r)).
    { eapply silent_runs_with; [exact Hset|]. apply emits_runs_with; [by apply report_emits|done|print]. }
    destruct (H c Hd) as [bs Hbs]. exists bs. intros w Hw. rewrite (dispatch_unfold f nm Hn). rewrite E. by apply Hbs.
  - intros E c Hd.
    assert (H : stops_with (trap_text nm f) (set_glob (fun g => put_count (u64 (trap_count g + 1)) g) ;;;
      (log_write P fuel (lit "[M4] trap dispatch: ") ;;; log_writeln P fuel (lit nm) ;;; log_trap_frame P fuel f) ;;;
      kernel_panic_at (A := unit) P fuel B (Some (file_trap B)) 79 (Some "unrecoverable CPU exception"%string) (vector f)) r (stopped (bump r))).
    { eapply silent_stops_with; [exact Hset|]. apply emits_stops_with; [by apply report_emits|done|apply panic_stops; [lia|done]]. }
    destruct (H c Hd) as [bs Hbs]. exists bs. intros w Hw. rewrite (dispatch_unfold f nm Hn). destruct (Z.eqb_spec (vector f) 3); [done|]. by apply Hbs.
  - apply stops_seq, panic_stops; [lia|done].
Qed.

(** ** The descriptor table *)

Definition with_idt (r : rest mstat) (l : list idt_entry) : rest mstat := with_glob r (put_idt l (glob r)).

Lemma set_gate_silent v h attr r c : 0 <= v < Z.of_nat (length (idt (glob r))) ->
  effect view (x86_64_idt_set_gate (W := W) v h attr) c r tt c
    (with_idt r (<[Z.to_nat v := gate h X86_64_KERNEL_CODE_SELECTOR attr]> (idt (glob r)))).
Proof.
  intros Hv. eapply eff_bind; [apply eff_get_glob|]. eapply eff_bind; [apply eff_lift, arr_set_Some; lia|].
  intros w Hw. by exists w.
Qed.

(** A loop that sets the gates from [i] on, one per turn. *)
Lemma fill_silent (loop : nat -> Z -> M unit) (e : nat -> idt_entry) (bound : nat) c :
  (forall i, loop 0%nat i = cm_ret tt) ->
  (forall n (v : nat) r r', (v < bound)%nat -> length (idt (glob r)) = 256%nat ->
     effect view (loop n (Z.of_nat v + 1)) c (with_idt r (<[v := e v]> (idt (glob r)))) tt c r' ->
     effect view (loop (S n) (Z.of_nat v)) c r tt c r') ->
  forall n (i : nat) r, (i + n <= bound)%nat -> length (idt (glob r)) = 256%nat ->
  exists l, effect view (loop n (Z.of_nat i)) c r tt c (with_idt r l) /\ length l = 256%nat /\
    forall v : nat, (v < 256)%nat -> l !! v = if decide (i <= v < i + n)%nat then Some (e v) else idt (glob r) !! v.
Proof.
  intros H0 HS n. induction n as [|n IH]; intros i r Hi Hl.
  { exists (idt (glob r)). rewrite H0. split; [destruct r as [? ? ? []]; apply eff_ret|]. split; [done|]. intros v _. by rewrite decide_False by lia. }
  destruct (IH (S i) (with_idt r (<[i := e i]> (idt (glob r))))) as (l & He & Hll & Hv); [lia|cbn; by rewrite length_insert|].
  exists l. split; [|split; [done|]].
  - apply HS; [lia|done|]. replace (Z.of_nat i + 1) with (Z.of_nat (S i)) by lia. exact He.
  - intros v Hv256. rewrite (Hv v Hv256). cbn [with_idt with_glob glob idt put_idt]. destruct (decide (v = i)) as [->|].
    + rewrite decide_False, decide_True by lia. by rewrite list_lookup_insert_eq by lia.
    + rewrite list_lookup_insert_ne by done. repeat case_decide; done || lia.
Qed.

(** The gate [x86_64_idt_init] gives vector [v]: the stub of an exception, a
    gate marked not present otherwise. *)
Definition init_gate (v : nat) : idt_entry :=
  if decide (v < 32)%nat
  then gate (default 0 (x86_64_exception_stubs B !! v)) X86_64_KERNEL_CODE_SELECTOR (if Z.of_nat v =? 3 then X86_64_IDT_GATE_TRAP else X86_64_IDT_GATE_INTERRUPT)
  else gate 0 X86_64_KERNEL_CODE_SELECTOR 0.

Lemma clear_silent c r : length (idt (glob r)) = 256%nat ->
  exists l, effect view (clear_gates (W := W) 256 0) c r tt c (with_idt r l) /\ length l = 256%nat /\
    forall v : nat, (v < 256)%nat -> l !! v = Some (gate 0 X86_64_KERNEL_CODE_SELECTOR 0).
Proof.
  intros Hl. destruct (fill_silent clear_gates (fun _ => gate 0 X86_64_KERNEL_CODE_SELECTOR 0) 256 c) with (n := 256%nat) (i := 0%nat) (r := r)
    as (l & He & Hll & Hv); [done| |lia|done|].
  - intros n v r1 r' Hv Hl1 Hk. cbn [clear_gates]. eapply eff_bind; [|exact Hk]. rewrite wrap_small by (unfold in_u; lia).
    rewrite <- (Nat2Z.id v) at 2. apply set_gate_silent. lia.
  - exists l. split; [exact He|]. split; [done|]. intros v Hv256. rewrite (Hv v Hv256). by rewrite decide_True by lia.
Qed.

Lemma stubs_silent c r : length (idt (glob r)) = 256%nat -> (32 <= length (x86_64_exception_stubs B))%nat ->
  exists l, effect view (set_stubs (W := W) B 32 0) c r tt c (with_idt r l) /\ length l = 256%nat /\
    forall v : nat, (v < 256)%nat -> l !! v = if decide (v < 32)%nat then Some (init_gate v) else idt (glob r) !! v.
Proof.
  intros Hl Hs. destruct (fill_silent (set_stubs B) init_gate 32 c) with (n := 32%nat) (i := 0%nat) (r := r)
    as (l & He & Hll & Hv); [done| |lia|done|].
  - intros n v r1 r' Hv Hl1 Hk. cbn [set_stubs]. destruct (lookup_lt_is_Some_2 (x86_64_exception_stubs B) v) as [h Hh]; [lia|].
    eapply eff_bind; [apply eff_lift; unfold arr_get; destruct (Z.ltb_spec (Z.of_nat v) 0); [lia|]; rewrite Nat2Z.id; exact Hh|].
    eapply eff_bind; [|exact Hk]. unfold init_gate. rewrite decide_True, Hh by done. cbn [default].
    rewrite <- (Nat2Z.id v) at 3. apply set_gate_silent. lia.
  - exists l. split; [exact He|]. split; [done|]. intros v Hv256. rewrite (Hv v Hv256). repeat case_decide; done || lia.
Qed.

(** The processor and the variables once the table is loaded. *)
Definition loaded (r : rest mstat) (l : list idt_entry) : rest mstat :=
  mk_rest (iflag r) (4095, idt_base B) (cs r) (put_idtr (4095, idt_base B) (put_idt l (glob r))).

Definition init_text : list Z := kv_text "idt_base" (idt_base B) ++ kv_text "idt_limit" 4095 ++ line_text "[M4] IDT loaded".

Lemma idt_init_says r : length (idt (glob r)) = 256%nat -> (32 <= length (x86_64_exception_stubs B))%nat -> logging r ->
  exists l, says init_text (x86_64_idt_init P fuel B) r tt (loaded r l) /\ length l = 256%nat /\
    forall v : nat, (v < 256)%nat -> l !! v = Some (init_gate v).
Proof.
  intros Hl Hs Hr.
  assert (Hdet : exists l, (forall c, effect view (clear_gates (W := W) 256 0 ;;; set_stubs B 32 0) c r tt c (with_idt r l)) /\ length l = 256%nat /\
    forall v : nat, (v < 256)%nat -> l !! v = Some (init_gate v)).
  { exists (map init_gate (seq 0 256)). split_and!.
    - intros c. destruct (clear_silent c r Hl) as (l1 & H1 & Hl1 & Hv1).
      destruct (stubs_silent c (with_idt r l1)) as (l2 & H2 & Hl2 & Hv2); [done|done|].
      replace (map init_gate (seq 0 256)) with l2; [by eapply eff_bind; [exact H1|]|].
      apply list_eq. intros v. change (map ?f ?l) with (f <$> l). rewrite list_lookup_fmap.
      destruct (decide (v < 256)%nat) as [Hv|Hv]; [|rewrite !lookup_ge_None_2; [done|rewrite ?length_seq; lia..]].
      rewrite lookup_seq_lt by lia. cbn [fmap option_fmap option_map]. rewrite Hv2 by done. case_decide as Hd; [done|].
      cbn [with_idt with_glob glob idt put_idt]. rewrite Hv1 by done. unfold init_gate. by rewrite decide_False by lia.
    - by rewrite length_map, length_seq.
    - intros v Hv. change (map ?f ?l) with (f <$> l). rewrite list_lookup_fmap. by rewrite lookup_seq_lt by lia. }
  destruct Hdet as (l & He & Hll & Hv). exists l. split; [|done]. unfold x86_64_idt_init.
  assert (Hi : forall k : M unit, says init_text ((clear_gates 256 0 ;;; set_stubs B 32 0) ;;; k) r tt (loaded r l) ->
    says init_text (clear_gates 256 0 ;;; set_stubs B 32 0 ;;; k) r tt (loaded r l)).
  { intros k Hk c Hd w Hw. destruct (Hk c Hd w Hw) as (w' & E & Hw'). exists w'. split; [|done].
    rewrite <- E. unfold cm_bind. by destruct (clear_gates 256 0 _) as [[] s1|s1| |]. }
  apply Hi. clear Hi. eapply quiet_says; [done|].
  eapply quiet_says; [intros; apply eff_set_glob|].
  eapply quiet_says; [by apply assert_quiet|].
  eapply quiet_says; [intros; apply eff_get_glob|]. cbv beta.
  eapply quiet_says; [by apply assert_quiet|].
  eapply (quiet_says _ _ _ _ _ (loaded r l)); [intros c w Hw; by exists w|].
  assert (Hlog : logging (loaded r l)) by exact Hr.
  unfold init_text. do 2 (eapply seq_says; [spell|]). spell.
Qed.

Lemma selftest_says r l : kernel_start B < kernel_end B -> idt_base B <> 0 -> logging r ->
  says (line_text "[M4] selftest: IDT invariants passed") (m4_selftest P fuel B) (loaded r l) tt (loaded r l).
Proof.
  intros Hk Hb Hr. assert (Hlog : logging (loaded r l)) by exact Hr. unfold m4_selftest.
  eapply quiet_says; [apply assert_quiet; by apply Z.ltb_lt|]. do 2 (eapply quiet_says; [by apply assert_quiet|]).
  eapply quiet_says; [intros; apply eff_get_glob|].
  eapply quiet_says; [apply assert_quiet; cbn; by apply negb_true_iff, Z.eqb_neq|].
  eapply quiet_says; [intros; apply eff_get_glob|].
  eapply quiet_says; [by apply assert_quiet|]. spell.
Qed.

Definition log_started (r : rest mstat) : rest mstat := with_glob r (set_log_ready 1 (glob r)).

(** The boot messages, up to the loader's smoke test. *)
Definition m4_text (flags : Z) : list Z :=
  line_text "MCSOS 260502 M4 kernel entered" ++
  kv_text "kernel_start" (kernel_start B) ++ kv_text "kernel_end" (kernel_end B) ++ kv_text "rflags_before_idt" flags ++
  init_text ++
  line_text "[M4] selftest: IDT invariants passed" ++
  line_text "[M4] IDT and exception dispatch path installed" ++
  line_text "[M4] ready for QEMU smoke test and GDB audit".

Lemma banner_says {A} (k : M A) bs r r' :
  logging r -> stops_with bs k r r' ->
  stops_with (line_text "MCSOS 260502 M4 kernel entered" ++ bs)
    (log_write P fuel (lit MCSOS_NAME) ;;; log_write P fuel (lit " ") ;;; log_write P fuel (lit MCSOS_VERSION) ;;;
     log_write P fuel (lit " ") ;;; log_write P fuel (lit MCSOS_MILESTONE) ;;; log_writeln P fuel (lit " kernel entered") ;;; k) r r'.
Proof.
  intros Hr Hk. change (line_text "MCSOS 260502 M4 kernel entered" ++ bs) with
    (crlf (text MCSOS_NAME) ++ crlf (text " ") ++ crlf (text MCSOS_VERSION) ++ crlf (text " ") ++ crlf (text MCSOS_MILESTONE) ++
     line_text " kernel entered" ++ bs).
  do 6 (eapply seq_says_stops; [spell|]). exact Hk.
Qed.

Lemma smoke_stops r l : logging r ->
  stops_with [] (m11_smoke P fuel ;;; cpu_halt_forever (A := unit)) (loaded r l) (stopped (loaded r l)).
Proof.
  intros Hr. assert (Hlog : logging (loaded r l)) by exact Hr.
  change (stops (m11_smoke P fuel ;;; cpu_halt_forever (A := unit)) (loaded r l) (stopped (loaded r l))).
  eapply (seq_stops _ _ _ _ (loaded r l)); [|apply halt_stops]. intros c Hd.
  destruct (m11_effect P view patience fuel Hfuel c (loaded r l) Hd) as [bs Hm]. exists bs. unfold log_on in Hm.
  destruct (Z.eqb_spec (g_log_ready (glob (loaded r l))) 0) as [E|_]; [by destruct (Hlog E)|exact Hm].
Qed.

Lemma body_stops r : length (idt (glob r)) = 256%nat -> (32 <= length (x86_64_exception_stubs B))%nat -> logging r ->
  kernel_start B < kernel_end B -> idt_base B <> 0 ->
  exists l, stops_with (m4_text (read_rflags B (iflag r)))
    (log_write P fuel (lit MCSOS_NAME) ;;; log_write P fuel (lit " ") ;;; log_write P fuel (lit MCSOS_VERSION) ;;;
    log_write P fuel (lit " ") ;;; log_write P fuel (lit MCSOS_MILESTONE) ;;; log_writeln P fuel (lit " kernel entered") ;;;
    log_key_value_hex64 P fuel (lit "kernel_start") (kernel_start B) ;;; log_key_value_hex64 P fuel (lit "kernel_end") (kernel_end B) ;;;
    flags <- cpu_read_rflags B ;; log_key_value_hex64 P fuel (lit "rflags_before_idt") flags ;;;
    x86_64_idt_init P fuel B ;;; m4_selftest P fuel B ;;;
    log_writeln P fuel (lit "[M4] IDT and exception dispatch path installed") ;;;
    log_writeln P fuel (lit "[M4] ready for QEMU smoke test and GDB audit") ;;;
    m11_smoke P fuel ;;; cpu_halt_forever (A := unit)) r (stopped (loaded r l)) /\ length l = 256%nat /\
    forall v : nat, (v < 256)%nat -> l !! v = Some (init_gate v).
Proof.
  intros Hl Hs Hr Hk Hb. destruct (idt_init_says r Hl Hs Hr) as (l & Hi & Hll & Hv). exists l. split; [|done].
  assert (Hlog : logging (loaded r l)) by exact Hr. apply banner_says; [done|].
  do 2 (eapply seq_says_stops; [spell|]).
  eapply silent_stops_with; [intros; apply eff_get_rest|]. eapply seq_says_stops; [spell|].
  eapply seq_says_stops; [exact Hi|]. eapply seq_says_stops; [by apply selftest_says|].
  eapply seq_says_stops; [spell|]. rewrite <- (app_nil_r (line_text "[M4] ready for QEMU smoke test and GDB audit")).
  eapply seq_says_stops; [spell|]. by apply smoke_stops.
Qed.

(** C31. The M4 kernel boots: whatever state the serial line is in, [kmain]
    loads a table of 256 gates the processor decodes as the exception stubs
    for vectors 0 to 31 (trap gate for the breakpoint, interrupt gates for the
    others) and as gates that are not present for the rest.  The text it sends
    starts with exactly the boot messages, among them the line that reports
    the passed self-test and the two after it, so no assertion failed; then
    the loader's smoke test runs and the kernel ends in the halt loop with
    interrupts disabled. *)
Theorem m4_kmain_correct r c : length (idt (glob r)) = 256%nat -> (32 <= length (x86_64_exception_stubs B))%nat ->
  Forall (in_u 64) (x86_64_exception_stubs B) -> kernel_start B < kernel_end B -> idt_base B <> 0 ->
  exists bs l,
    halts view (kmain P fuel B) c r (say c (m4_text (read_rflags B (iflag r)) ++ bs)) (stopped (loaded (log_started r) l)) /\
    Z.of_nat (length (idt_image l)) = 4095 + 1 /\
    (forall v : nat, (v < 32)%nat -> exists h, x86_64_exception_stubs B !! v = Some h /\
       cpu_gate (idt_image l) (Z.of_nat v) = Some (h, 0x28, 0, if Z.of_nat v =? 3 then 0x8F else 0x8E)) /\
    (forall v : nat, (32 <= v < 256)%nat -> cpu_gate (idt_image l) (Z.of_nat v) = Some (0, 0x28, 0, 0)).
Proof.
  intros Hl Hs Hu Hk Hb. assert (Hlog : logging (log_started r)) by done.
  destruct (body_stops (log_started r) Hl Hs Hlog Hk Hb) as (l & Hbody & Hll & Hv).
  destruct (Hbody (say c []) eq_refl) as [bs Hbs]. exists bs, l. split_and!.
  - rewrite say_say in Hbs. unfold kmain. eapply eff_bind_halts; [|exact Hbs].
    eapply eff_bind; [apply (serial_init_effect P view patience)|]. apply eff_set_glob.
  - rewrite length_idt_image. lia.
  - intros v Hv32. destruct (lookup_lt_is_Some_2 (x86_64_exception_stubs B) v) as [h Hh]; [lia|]. exists h. split; [done|].
    pose proof (Forall_lookup_1 _ _ _ _ Hu Hh) as Hin. apply (cpu_gate_gate l v h X86_64_KERNEL_CODE_SELECTOR (if Z.of_nat v =? 3 then 0x8F else 0x8E)).
    + rewrite Hv by lia. unfold init_gate. rewrite decide_True, Hh by done. by destruct (Z.of_nat v =? 3).
    + exact Hin.
    + done.
    + by destruct (Z.of_nat v =? 3).
  - intros v Hv256. apply (cpu_gate_gate l v 0 X86_64_KERNEL_CODE_SELECTOR 0); [|lia|done|done].
    rewrite Hv by lia. unfold init_gate. by rewrite decide_False by lia.
Qed.

End effects.

(** ** On the simulated board *)

Definition sim_build : build :=
  mk_build 0xFFFFFFFF80000000 0xFFFFFFFF80020000 0xFFFFFFFF80010000 sim_stubs "idt.c" "trap.c" "kmain.c" (fun i => if i then 0x202 else 0x2).

Definition sim_mstat : mstat := mk_mstat (replicate 256 (mk_gate 0 0 0 0 0 0 0)) (0, 0) 7 1.
Definition sim_mrest : rest mstat := mk_rest true (4095, 0xFFFFFFFF80010000) 0x28 sim_mstat.
Definition sim_mframe (v : Z) : x86_64_trap_frame_t := mk_frame 0 0 0 0 0 0 0 0 0 0 0 0 0 0 0 v 0 0x1000 0x28 0x202.

Lemma m4_trap_dispatch_correct_witness :
  stops_with (fst : chips * bool -> chips) (trap_text "#PF Page Fault" (sim_mframe 14)) (x86_64_trap_dispatch sim_ports 2 sim_build (Some (sim_mframe 14)))
    sim_mrest (stopped (bump sim_mrest)) /\ trap_count (glob (bump sim_mrest)) = 8.
Proof.
  destruct (m4_trap_dispatch_correct sim_ports fst 1 2 sim_build ltac:(lia) (sim_mframe 14) sim_mrest) as (nm & Hn & _ & Hs & _);
    [cbn; lia|discriminate|]. injection Hn as <-. split; [|reflexivity]. apply Hs. discriminate.
Defined.

Lemma m4_kmain_correct_witness :
  exists bs l, halts fst (kmain sim_ports 2 sim_build) sim_chips sim_mrest (say sim_chips (m4_text sim_build 0x202 ++ bs)) (stopped (loaded sim_build (log_started sim_mrest) l)) /\
    cpu_gate (idt_image l) 200 = Some (0, 0x28, 0, 0).
Proof.
  destruct (m4_kmain_correct sim_ports fst 1 2 sim_build ltac:(lia) sim_mrest sim_chips) as (bs & l & H & _ & _ & Hg).
  - reflexivity.
  - apply Nat.leb_le. reflexivity.
  - exact sim_stubs_ok.
  - reflexivity.
  - discriminate.
  - exists bs, l. split; [exact H|]. apply (Hg 200%nat). lia.
Defined.

End Core.
