(* ===== verification/Run.v ===== *)
(** * The running kernel

    After [kmain] the two demo threads run and hardware interrupts arrive.
    [serve] composes the two: one round of the loop of the thread on the
    processor, or one interrupt through the trap handler.  Interrupts are
    taken between rounds. *)
From S2P Require Import Prelude Bytes Thread Kernel Syscall Machine Serial Drivers Trap Boot.
From stdpp Require Import base list numbers option strings.
From Stdlib Require Import ZArith Lia.

Open Scope Z_scope.

Module Run.
Import Machine Serial Drivers Trap Boot.
Open Scope cm_scope.

(** What happens next; an interrupt comes with the frame its stub pushes. *)
Inductive event :=
| Round
| Irq (f : trap_frame).

Definition irq_of (f : trap_frame) : Z := vector f - PIC_MASTER_OFFSET.

Definition event_ok (e : event) : Prop :=
  match e with Round => True | Irq f => PIC_MASTER_OFFSET <= vector f < PIC_SLAVE_OFFSET + 8 end.

(** ** What the history of a run says of its state *)

Fixpoint count (p : trap_frame -> bool) (evs : list event) : Z :=
  match evs with
  | [] => 0
  | Round :: evs => count p evs
  | Irq f :: evs => (if p f then 1 else 0) + count p evs
  end.

Definition timer_irqs : list event -> Z := count (fun f => irq_of f =? 0).
Definition slave_irqs : list event -> Z := count (fun f => 8 <=? irq_of f).
Definition all_irqs : list event -> Z := count (fun _ => true).

(** The text of a run that starts with [ticks] on the clock and thread A
    ([a_now]) or B on the processor. *)
Fixpoint run_text (a_now : bool) (ticks : Z) (evs : list event) : list Z :=
  match evs with
  | [] => []
  | Round :: evs => (if a_now then line_a else line_b) ++ run_text (negb a_now) ticks evs
  | Irq f :: evs =>
      irq_text (irq_of f) (u64 (ticks + 1)) ++ run_text a_now (if irq_of f =? 0 then u64 (ticks + 1) else ticks) evs
  end.

Fixpoint a_after (a_now : bool) (evs : list event) : bool :=
  match evs with [] => a_now | Round :: evs => a_after (negb a_now) evs | Irq _ :: evs => a_after a_now evs end.

(** The chips after a run: acknowledgements counted, masks and timer as before. *)
Definition chips_after (c : chips) (bs : list Z) (evs : list event) : chips :=
  mk_chips (mk_uart false (sent (c_uart c) ++ bs))
    (mk_pic (pbase (c_pic1 c)) (imr (c_pic1 c)) (icw (c_pic1 c)) (eois (c_pic1 c) + all_irqs evs))
    (mk_pic (pbase (c_pic2 c)) (imr (c_pic2 c)) (icw (c_pic2 c)) (eois (c_pic2 c) + slave_irqs evs))
    (c_pit c).

Section run.
Context {W : Type} (P : ports W) (view : W -> chips) (patience fuel : nat) (L : layout).
Local Abbreviation B := (cm (kboot (W := W))).

Definition serve (e : event) : B unit :=
  match e with
  | Round => demo_round P fuel L ;;; cm_ret tt
  | Irq f => on_ksys (x86_64_trap_dispatch P fuel (Some f)) ;;; cm_ret tt
  end.

Fixpoint serve_all (evs : list event) : B unit :=
  match evs with [] => cm_ret tt | e :: evs => serve e ;;; serve_all evs end.

Context `{Hboard : !Board P view patience} (Hfuel : (patience < fuel)%nat).
Local Abbreviation runs := (runs view).

Lemma irq_runs f sy c r t k : event_ok (Irq f) -> dlab (c_uart c) = false ->
  runs (serve (Irq f)) (mk_gst sy c r t k) tt
    (mk_gst sy (acked (irq_of f) (say c (irq_text (irq_of f) (u64 (g_ticks (glob r) + 1))))) (ticked (irq_of f) r) t k).
Proof.
  unfold event_ok, irq_of, PIC_MASTER_OFFSET, PIC_SLAVE_OFFSET. intros Hv Hd. eapply runs_bind; [|intros w Hw; by exists w].
  unfold x86_64_trap_dispatch, PIC_MASTER_OFFSET, PIC_SLAVE_OFFSET.
  destruct (Z.leb_spec 0x20 (vector f)); [|lia]. destruct (Z.ltb_spec (vector f) (0x28 + 8)); [|lia]. cbn [andb].
  rewrite (wrap_small 8) by (unfold in_u; lia).
  eapply (runs_ksys_bind view); [|intros w Hw; by exists w]. apply (runs_drive view).
  apply (handle_irq_effect P view patience fuel Hfuel); [lia|done].
Qed.

Lemma chips_after_nil c : dlab (c_uart c) = false -> chips_after c [] [] = c.
Proof.
  destruct c as [[d s] [] [] ?]. cbn. intros ->. unfold chips_after, all_irqs, slave_irqs. cbn.
  by rewrite app_nil_r, !Z.add_0_r.
Qed.

Lemma chips_after_round c x bs evs : chips_after (say c x) bs evs = chips_after c (x ++ bs) (Round :: evs).
Proof. unfold chips_after. cbn [say with_uart c_uart c_pic1 c_pic2 c_pit sent]. by rewrite app_assoc. Qed.

Lemma chips_after_irq c f x bs evs :
  chips_after (acked (irq_of f) (say c x)) bs evs = chips_after c (x ++ bs) (Irq f :: evs).
Proof.
  unfold chips_after, acked, all_irqs, slave_irqs. cbn [count]. rewrite app_assoc.
  destruct (8 <=? irq_of f); cbn [with_pic1 with_pic2 say with_uart c_uart c_pic1 c_pic2 c_pit ack pbase imr icw eois sent];
    f_equal; f_equal; lia.
Qed.

Definition ticks_after (r : rest kstat) (n : Z) : rest kstat := with_glob r (set_ticks (u64 (g_ticks (glob r) + n)) (glob r)).

Lemma ticks_after_irq r f n : in_u 64 (g_ticks (glob r)) ->
  ticks_after (ticked (irq_of f) r) n = ticks_after r ((if irq_of f =? 0 then 1 else 0) + n) /\
  g_ticks (glob (ticked (irq_of f) r)) = (if irq_of f =? 0 then u64 (g_ticks (glob r) + 1) else g_ticks (glob r)) /\
  in_u 64 (g_ticks (glob (ticked (irq_of f) r))).
Proof.
  intros Hr. unfold ticked, ticks_after. destruct (irq_of f =? 0); [|by rewrite Z.add_0_l].
  cbn [with_glob glob g_ticks set_ticks]. split_and!; [|done|apply wrap_range; lia]. rewrite wrap_add_idemp_l, Z.add_assoc. done.
Qed.

Lemma serve_all_runs evs a_now sy c r t k :
  g_boot_thread L <> g_thread_a L -> g_boot_thread L <> g_thread_b L -> g_thread_a L <> g_thread_b L ->
  Forall event_ok evs -> alternating L a_now t -> dlab (c_uart c) = false -> in_u 64 (g_ticks (glob r)) ->
  exists t', runs (serve_all evs) (mk_gst sy c r t k) tt
    (mk_gst sy (chips_after c (run_text a_now (g_ticks (glob r)) evs) evs) (ticks_after r (timer_irqs evs)) t' k) /\
    alternating L (a_after a_now evs) t'.
Proof.
  intros D1 D2 D3 Hev. revert a_now c r t. induction Hev as [|e evs He _ IH]; intros a_now c r t Ha Hd Ht.
  { exists t. split; [|done]. cbn [run_text]. rewrite chips_after_nil by done. unfold ticks_after, timer_irqs. cbn [count].
    rewrite Z.add_0_r, wrap_small by done. destruct r as [? ? ? []]. intros w Hw. by exists w. }
  destruct e as [|f]; cbn [serve_all run_text a_after].
  - destruct (demo_round_runs P view patience fuel Hfuel L a_now sy c r t k D1 D2 D3 Ha Hd) as (t1 & R1 & Ha1).
    destruct (IH (negb a_now) (say c (if a_now then line_a else line_b)) r t1 Ha1 eq_refl Ht) as (t2 & R2 & Ha2).
    exists t2. split; [|done]. rewrite <- chips_after_round. eapply runs_bind; [|exact R2].
    eapply runs_bind; [exact R1|]. intros w Hw. by exists w.
  - destruct (ticks_after_irq r f (timer_irqs evs) Ht) as (E1 & E2 & E3).
    edestruct (IH a_now (acked (irq_of f) (say c (irq_text (irq_of f) (u64 (g_ticks (glob r) + 1))))) (ticked (irq_of f) r) t Ha) as (t2 & R2 & Ha2);
      [unfold acked; by destruct (8 <=? irq_of f)|done|].
    exists t2. split; [|done]. rewrite E1, E2, chips_after_irq in R2. eapply runs_bind; [by apply irq_runs|exact R2].
Qed.

(** C11. The kernel keeps running: after [kmain], along every sequence of
    thread rounds and hardware interrupts (of any line, in any order), no
    step is undefined or hangs; the tick counter has counted exactly the
    timer interrupts (modulo 2^64), the master controller has been
    acknowledged once per interrupt and the slave once per interrupt of its
    own, masks, vectors, descriptor table, system-call state and memory
    managers are as [kmain] left them, the scheduler's invariant holds with
    the two threads strictly in turn, and the serial line has carried exactly
    the boot messages followed by the lines of the run. *)
Theorem kernel_keeps_running sy c r t k : boot_ok L c r t k -> in_u 64 (g_ticks (glob r)) ->
  exists bs c' r' t' k', booted L c r t k bs c' r' t' k' /\ g_ticks (glob r') = g_ticks (glob r) /\
    forall evs, Forall event_ok evs -> exists t2,
      runs (kmain P fuel L ;;; serve_all evs) (mk_gst sy c r t k) tt
        (mk_gst (with_calls P fuel L sy) (chips_after c' (run_text true (g_ticks (glob r)) evs) evs) (ticks_after r' (timer_irqs evs)) t2 k') /\
      alternating L (a_after true evs) t2.
Proof.
  intros Hok Ht. destruct (kmain_runs P view patience fuel Hfuel L sy c r t k Hok) as (bs & c' & r' & t' & k' & R & Hb).
  exists bs, c', r', t', k'. split; [exact Hb|]. pose proof (bd_ticks _ _ _ _ _ _ _ _ _ _ Hb) as Et. split; [exact Et|]. intros evs Hev.
  destruct (to_distinct _ _ (bo_threads _ _ _ _ _ Hok)) as (D1 & D2 & D3).
  destruct (bd_queue _ _ _ _ _ _ _ _ _ _ Hb) as (Q1 & Q2 & Q3). pose proof (bd_chips _ _ _ _ _ _ _ _ _ _ Hb) as Ec.
  destruct (serve_all_runs evs true (with_calls P fuel L sy) c' r' t' k' D1 D2 D3 Hev) as (t2 & R2 & Ha); [by split|by subst|by rewrite Et|].
  exists t2. rewrite Et in R2. split; [|exact Ha]. by eapply runs_bind.
Qed.

End run.

(** A timer interrupt, a round, an interrupt of line 12, a round. *)
Definition sim_events : list event := [Irq (sim_frame 32 0 0 0); Round; Irq (sim_frame 44 0 0 0); Round].

Lemma kernel_keeps_running_witness :
  exists sy c' r' t' k', runs fst (kmain sim_ports 2 sim_layout ;;; serve_all sim_ports 2 sim_layout sim_events)
      (mk_gst sim_sys sim_chips (mk_rest false (0, 0) 0x28 sim_kstat) sim_threads Kernel.ex_kernel) tt (mk_gst sy c' r' t' k') /\
    g_ticks (glob r') = 1 /\ eois (c_pic1 c') = 2 /\ eois (c_pic2 c') = 1 /\ Thread.current (Thread.sched t') = 0xFFFFFFFF80012000.
Proof.
  destruct (kernel_keeps_running sim_ports fst 1 2 sim_layout ltac:(lia) sim_sys _ _ _ _ sim_boot_ok) as (bs & c' & r' & t' & k' & Hb & Et & H).
  - unfold in_u. cbn. lia.
  - destruct (H sim_events) as (t2 & R & Ha).
    + repeat (apply Forall_cons; split; [cbn; unfold PIC_MASTER_OFFSET, PIC_SLAVE_OFFSET; lia || done|]). apply Forall_nil_2.
    + eexists _, _, _, t2, k'. split; [exact R|]. rewrite (bd_chips _ _ _ _ _ _ _ _ _ _ Hb). unfold ticks_after. cbn [with_glob glob g_ticks set_ticks]. rewrite Et.
      split_and!; [reflexivity..|]. exact (al_current _ _ _ Ha).
Defined.

End Run.
